(* ===== verification/_CoqProject ===== *)
-Q . S2P
Prelude.v
GoStd.v
Queue.v
TimerQueue.v
PkiClient.v
Cache.v
Katzenmint.v
Path.v
Pki.v
Compose.v
Connection.v
Reader.v
Handover.v
Message.v
Session.v
EndToEnd.v
Worker.v
Blocking.v
EventSink.v
Proxy.v
Dialer.v
Config.v
Client.v
Minclient.v
Startup.v
Lifecycle.v
