(* ===== verification/Prelude.v ===== *)
(** * The Meson client, verified

    Meson-client is the client of a mix network: it obtains the network's directory
    documents through a blockchain light client, registers an account with a provider,
    keeps an authenticated connection to that provider, wraps messages in layered packets
    with routes and delays of its own choosing, paces them with decoys, and matches the
    replies, which come back under single-use reply blocks (SURBs), to the requests.
    This library models the Go source under src/ and proves what makes it correct, and,
    where the code falls short of what it means to do, exactly how.

    ** How the program is put together

    [client.New] and [Start] (client.go) load a configuration (config/), register an account
    and call [NewSession] (session.go). A session owns a queue of messages (queue.go), a
    worker that paces sends and decoys (worker.go), a map of outstanding SURBs with a garbage
    collector, and an unbounded channel of events to the application; it drives a
    [minclient.Client] (minclient/), whose PKI worker (pki.go) keeps the current documents
    and whose connection worker (connection.go) keeps the link to the provider. The minclient
    composes packets (send.go) along paths (path.go), and calls the session back for
    connection changes, documents, messages and acknowledgements. Documents come from a
    [pkiclient.Client]: the cache (pkiclient/cache.go) around the katzenmint client
    (pkiclient/katzenmint.go), with the epoch clock of pkiclient/epochtime.

    ** Conventions

    A Go function is a function of the state it reads and changes; fallible ones return an
    [outcome]: a value, an error value, or a panic (nil dereferences, indices out of range,
    failed assertions, explicit panics). Machine integers are [Z] with wrap-around written
    out; durations and instants are nanoseconds. Goroutines that share channels or locks are
    the threads of a step relation, and statements about them hold for every interleaving
    ([reachable], [rtc], with [stuck] for the states where all are blocked). Libraries
    (TOML, the light client, s11n, sphinx, the wire session, the katzenpost priority queue,
    name preparation, SOCKS, file system, clocks and random generators) are type classes or
    section variables, with laws that state what they document; each property with such a
    law has a witness with a concrete instance. Logging is left out.

    ** Files

    - Prelude: integers, outcomes, the state-and-outcome monad [ST], transition systems,
      slices, tactics and hints. GoStd: durations, [time.Timer] with its one-slot channel,
      big-endian and varint codecs, hexadecimal, the random choice of a [select].
    - Queue (queue.go): the ring of egress messages and the interface [EgressQueue], whose
      laws say bounded FIFO; the ring is an instance. TimerQueue (timer_queue.go).
    - PkiClient (pkiclient/client.go, epochtime.go): documents, the interface [PkiClient]
      and its laws, the epoch clock. Cache (cache.go): an LRU over any lawful client, itself
      an instance. Katzenmint (katzenmint.go): another instance.
    - Path (minclient/path.go), Compose (minclient/send.go), Pki (minclient/pki.go),
      Connection, Reader and Handover (minclient/connection.go: what the loops do; how the
      goroutines of one connection end; how packets are handed to it under its lock),
      Minclient (minclient/client.go: construction and shutdown).
    - Message (message.go, events.go), Session (session.go, send.go), EndToEnd (the session
      over Compose and a network that keeps the sphinx library's promises), Worker
      (worker.go, the first wait of session.go), Blocking (the waits of blocking sends),
      EventSink (the session's pumps).
    - Proxy and Dialer (internal/proxy/proxy.go), Config (config/), Client (client.go: logging,
      registration, the configuration a session makes), Startup (NewSession with what it
      starts, the constructors, Start), Lifecycle (client.go: shutdown and fatal errors).

    Definitions carry the source's names; a function that is cut in pieces has the pieces
    before it. [Session.Session] keeps the messages on a heap, because the queue, the SURB
    map and the waiting callers share them by pointer; [Cache] names list elements for the
    same reason.

    ** What is proved

    - End to end: a request reaches the service at its recipient with its bytes, and the
      answer is reported under its ID (EndToEnd.request_round_trip); request and reply,
      order, garbage collection (Session); blocking callers get their own answers, however
      often acknowledgements come, and which goroutines can wait for ever (Blocking).
    - Packets: composition and its termination without panics (Compose), routes and retries
      (Path); each message is numbered and delivered once, by a goroutine of its own, the
      peer authenticated, fetch counters, back-off (Connection); the hand-over's answers are
      true, and its deadlock (Handover); how a connection ends, and what can keep it from
      ending (Reader).
    - Directory: documents are of the epoch asked for and verified (Katzenmint, Cache, Pki);
      the cache refines an abstract LRU; its worker, callers and epoch timer keep it.
    - Queues: the ring refines a bounded FIFO; the timer queue conserves items and drains in
      order of priority.
    - Traffic: offline nothing is sent, no timer is lost, within the document's bounds (Worker).
    - Configuration and start: validation against a reference description, saving and loading,
      dialling through validated proxies, registration, login as registered, what a failed
      start leaves running (Config, Proxy, Client, Startup).
    - Ends: shutdown happens once, and returns unless a goroutine it waits for is in one of
      the waits that do not end, or deadlocks in the cases given (Lifecycle, Minclient).

    Four files model waits for one another at different places, and none assumes what
    another refutes. Where a goroutine can be kept for ever by a part outside its file, its
    step relation has a flag [hangs]: with it, the goroutine may stop in that call, and the
    theorems say so in their conclusions. Handover.v and Reader.v have the lock of the
    connection, Blocking.v the callbacks of acknowledgements that never return, Pki.v the
    PKI worker waiting for a timer already drained; Reader.v, Minclient.v and Lifecycle.v
    have the flag for them.

    ** Bounds and fuel

    [Compose.compose_loop] has fuel: [compose_terminates] shows that one more than the number
    of iterations whose path selection outlasts the epoch is enough. [Cache.purge] is given
    the length of its list, one element each. [Path.select_loop] counts the code's own three
    attempts. The connection's session loop consumes a script, of any length, of what it
    received; the connect loop retries for as long as the code does, so its fuel is the number
    of rounds looked at, and [connect_never_panics] shows that the round after a halt returns.
    [EndToEnd.minclient] takes Compose's fuel; [request_round_trip] tells an error of the
    minclient from a loop that has not ended. [Minclient.opCap] is the code's channel
    capacity, eight.
    Everything else is structurally recursive or a step relation with a decreasing rank
    where termination is claimed.

    ** Not modelled

    cmd/ping/main.go: flags and printing around calls of the modelled functions; every error
    is a panic. Log lines and the light client's proof operators have no effect on what is
    modelled. Schedules are unrestricted: no fairness and no real time beyond the instants
    the code reads; a [select] with several ready cases takes any of them (Worker's wait for
    the first document by a choice function). Data races on memory that the code leaves without a lock are modelled as
    interleavings of whole statements. *)

(** Shared vocabulary: machine integers with Go's wrap-around, the outcome type of a Go call,
    the state monad, bytes as map keys, transition systems with reachability, the tactics and
    hint databases the component files use. *)

From stdpp Require Export base tactics numbers list gmap fin_maps strings
  relations pretty sorting.
From Stdlib Require Export ZArith Lia.
From Stdlib Require Import Strings.Byte.

#[global] Open Scope Z_scope.
#[global] Set Default Goal Selector "!".

Declare Scope go_scope.
Delimit Scope go_scope with go.

Create HintDb go discriminated.

(** ** Machine integers

    A Go integer of width [w] is a [Z]; the operations wrap. *)

Definition wrap_u (w x : Z) : Z := x mod 2 ^ w.
Definition wrap_s (w x : Z) : Z := (x + 2 ^ (w - 1)) mod 2 ^ w - 2 ^ (w - 1).

Abbreviation u8 := (wrap_u 8).
Abbreviation u32 := (wrap_u 32).
Abbreviation u64 := (wrap_u 64).
Abbreviation i64 := (wrap_s 64).

Definition is_u32 (x : Z) : Prop := 0 <= x < 2 ^ 32.
Definition is_u64 (x : Z) : Prop := 0 <= x < 2 ^ 64.
Definition is_i64 (x : Z) : Prop := - 2 ^ 63 <= x < 2 ^ 63.

(** [math.MaxInt64] and the smallest [int64]. *)
Definition MaxInt64 : Z := 2 ^ 63 - 1.
Definition MinInt64 : Z := - 2 ^ 63.

Lemma wrap_u_small w x : 0 <= x < 2 ^ w -> wrap_u w x = x.
Proof. apply Z.mod_small. Qed.

Lemma wrap_u_range w x : 0 <= w -> 0 <= wrap_u w x < 2 ^ w.
Proof. intros Hw. apply Z.mod_pos_bound, Z.pow_pos_nonneg; lia. Qed.

Lemma wrap_s_small w x :
  0 < w -> - 2 ^ (w - 1) <= x < 2 ^ (w - 1) -> wrap_s w x = x.
Proof.
  intros Hw Hx. unfold wrap_s.
  assert (2 ^ w = 2 * 2 ^ (w - 1)) as E.
  { rewrite <- Z.pow_succ_r by lia. f_equal. lia. }
  rewrite Z.mod_small; lia.
Qed.

Lemma wrap_s_range w x :
  0 < w -> - 2 ^ (w - 1) <= wrap_s w x < 2 ^ (w - 1).
Proof.
  intros Hw. unfold wrap_s.
  assert (2 ^ w = 2 * 2 ^ (w - 1)) as E.
  { rewrite <- Z.pow_succ_r by lia. f_equal. lia. }
  pose proof (Z.mod_pos_bound (x + 2 ^ (w - 1)) (2 ^ w)). lia.
Qed.

Lemma u64_small x : is_u64 x -> u64 x = x.
Proof. apply wrap_u_small. Qed.
Lemma u32_small x : is_u32 x -> u32 x = x.
Proof. apply wrap_u_small. Qed.
Lemma i64_small x : is_i64 x -> i64 x = x.
Proof. intros H. apply wrap_s_small; [lia|exact H]. Qed.
Lemma u64_range x : is_u64 (u64 x).
Proof. apply wrap_u_range. lia. Qed.
Lemma u32_range x : is_u32 (u32 x).
Proof. apply wrap_u_range. lia. Qed.
Lemma i64_range x : is_i64 (i64 x).
Proof. apply (wrap_s_range 64). lia. Qed.

#[export] Hint Resolve u64_range u32_range i64_range : go.

(** Conversions between [uint64] and [int64] reinterpret the bits. *)
Lemma i64_of_high x : 2 ^ 63 <= x < 2 ^ 64 -> i64 x = x - 2 ^ 64.
Proof.
  intros Hx. unfold wrap_s.
  rewrite <- (Z.mod_unique (x + 2 ^ (64 - 1)) (2 ^ 64) 1 (x - 2 ^ 63)); lia.
Qed.

(** [uint64] arithmetic on the values the code computes with. *)
Lemma u64_pred_pos x : 0 < x < 2 ^ 64 -> u64 (x - 1) = x - 1.
Proof. intros. apply u64_small. unfold is_u64. lia. Qed.

Lemma u64_pred_zero : u64 (0 - 1) = 2 ^ 64 - 1.
Proof. reflexivity. Qed.

(** Rewrites every wrap whose argument [lia] shows to be in range. *)
Ltac word :=
  repeat match goal with
  | |- context [wrap_u 64 ?x] => rewrite (u64_small x) by (unfold is_u64 in *; lia)
  | |- context [wrap_u 32 ?x] => rewrite (u32_small x) by (unfold is_u32 in *; lia)
  | |- context [wrap_s 64 ?x] => rewrite (i64_small x) by (unfold is_i64 in *; lia)
  end.

(** ** Outcomes of a Go call

    [Ok v]: the call returns [v] and a nil error; [Err e]: it returns the error
    [e]; [Panic]: the goroutine panics (nil dereference, index out of range, an
    explicit [panic]). *)

Inductive outcome (E A : Type) : Type :=
  | Ok (v : A)
  | Err (e : E)
  | Panic.
Arguments Ok {E A} v.
Arguments Err {E A} e.
Arguments Panic {E A}.

#[global] Instance outcome_ret {E} : MRet (outcome E) := fun A v => Ok v.
#[global] Instance outcome_bind {E} : MBind (outcome E) := fun A B f m =>
  match m with Ok v => f v | Err e => Err e | Panic => Panic end.
#[global] Instance outcome_fmap {E} : FMap (outcome E) := fun A B f m =>
  match m with Ok v => Ok (f v) | Err e => Err e | Panic => Panic end.

#[global] Instance outcome_eq_dec {E A} `{EqDecision E, EqDecision A} :
  EqDecision (outcome E A).
Proof. solve_decision. Defined.

(** Changes the error value, as [fmt.Errorf("...: %v", err)] does. *)
Definition map_err {E E' A} (f : E -> E') (m : outcome E A) : outcome E' A :=
  match m with Ok v => Ok v | Err e => Err (f e) | Panic => Panic end.

(** Dereferences a pointer: nil panics. *)
Definition deref {E A} (p : option A) : outcome E A :=
  match p with Some v => Ok v | None => Panic end.

Definition no_panic {E A} (m : outcome E A) : Prop := m <> Panic.
Definition is_ok {E A} (m : outcome E A) : bool :=
  match m with Ok _ => true | _ => false end.

Lemma bind_Ok {E A B} (m : outcome E A) (f : A -> outcome E B) w :
  m ≫= f = Ok w <-> exists v, m = Ok v /\ f v = Ok w.
Proof. destruct m; cbn; naive_solver. Qed.

Lemma bind_no_panic {E A B} (m : outcome E A) (f : A -> outcome E B) :
  no_panic m -> (forall v, m = Ok v -> no_panic (f v)) -> no_panic (m ≫= f).
Proof. unfold no_panic. destruct m; cbn; naive_solver. Qed.

#[export] Hint Resolve bind_no_panic : go.

(** ** Calls that change a state and may fail

    [ST E S A]: a Go call on the state [S] that returns an [A], an error or
    panics; the state keeps what was assigned before a failure. *)

Definition ST (E S A : Type) : Type := S -> outcome E A * S.

#[global] Instance ST_ret {E S} : MRet (ST E S) := fun A v s => (Ok v, s).
#[global] Instance ST_bind {E S} : MBind (ST E S) := fun A B f m s =>
  match m s with
  | (Ok v, s) => f v s
  | (Err e, s) => (Err e, s)
  | (Panic, s) => (Panic, s)
  end.

Definition lift {E S A} (m : outcome E A) : ST E S A := fun s => (m, s).
Definition gets {E S A} (f : S -> A) : ST E S A := fun s => (Ok (f s), s).
Definition modify {E S} (f : S -> S) : ST E S unit := fun s => (Ok tt, f s).
(** [if err := ...; err != nil { return ... }] *)
Definition check {E S} (e : option E) : ST E S unit :=
  lift (match e with Some e => Err e | None => Ok tt end).

Lemma ST_bind_Ok {E S A B} (m : ST E S A) (f : A -> ST E S B) s w s' :
  (m ≫= f) s = (Ok w, s') <-> exists v s1, m s = (Ok v, s1) /\ f v s1 = (Ok w, s').
Proof.
  unfold mbind, ST_bind. split.
  - destruct (m s) as [[v|e|] s1]; [|done..]. by exists v, s1.
  - by intros (v & s1 & -> & ?).
Qed.

(** What holds of the state before a call and is kept by it on every path. *)
Definition keeps {E S A} (I : S -> S -> Prop) (m : ST E S A) : Prop := forall s, I s (m s).2.

Lemma keeps_bind {E S A B} (I : S -> S -> Prop) `{!Transitive I}
    (m : ST E S A) (f : A -> ST E S B) :
  keeps I m -> (forall v, keeps I (f v)) -> keeps I (m ≫= f).
Proof.
  intros Hm Hf s. unfold mbind, ST_bind. specialize (Hm s).
  destruct (m s) as [[v|e|] s1]; cbn in *; [|done..]. etrans; [exact Hm|apply Hf].
Qed.

(** ** Bytes as decidable, countable data (array keys of Go maps) *)

Abbreviation byte := Byte.byte.
Abbreviation bytes := (list Byte.byte).

#[global] Instance byte_eq_dec : EqDecision byte := Byte.byte_eq_dec.
#[global] Program Instance byte_countable : Countable byte :=
  inj_countable Byte.to_N Byte.of_N _.
Next Obligation. intros b. apply Byte.of_to_N. Qed.

(** ** Transition systems *)

Section reach.
Context {St : Type} (init : St -> Prop) (step : St -> St -> Prop).

Definition reachable (s : St) : Prop := exists s0, init s0 /\ rtc step s0 s.

Lemma reachable_init s : init s -> reachable s.
Proof. intros H. exists s. split; [exact H|apply rtc_refl]. Qed.

Lemma reachable_step s s' : reachable s -> step s s' -> reachable s'.
Proof. intros (s0 & H0 & Hr) Hs. exists s0. split; [exact H0|]. by eapply rtc_r. Qed.

(** Rule induction: what holds initially and is kept by every step holds in
    every reachable state. *)
Lemma reachable_ind_inv (I : St -> Prop) :
  (forall s, init s -> I s) ->
  (forall s s', I s -> step s s' -> I s') ->
  forall s, reachable s -> I s.
Proof.
  intros Hi Hs s (s0 & H0 & Hr). apply Hi in H0.
  revert H0. induction Hr as [|x y z Hxy _ IH]; intros H0; [exact H0|].
  apply IH. exact (Hs _ _ H0 Hxy).
Qed.

(** A state in which no goroutine can move. *)
Definition stuck (s : St) : Prop := forall s', ~ step s s'.
End reach.

#[export] Hint Resolve reachable_init reachable_step : go.

(** ** Lists *)

(** The Go expression [append(s, x)], [s\[lo:hi\]] on lists; a slice out of
    range panics. *)
Definition slice {E A} (l : list A) (lo hi : nat) : outcome E (list A) :=
  if decide (lo <= hi <= length l)%nat then Ok (take (hi - lo) (drop lo l)) else Panic.

Definition slice_from {E A} (l : list A) (lo : nat) : outcome E (list A) :=
  slice l lo (length l).

Lemma slice_Ok {E A} (l : list A) lo hi :
  (lo <= hi <= length l)%nat ->
  slice (E:=E) l lo hi = Ok (take (hi - lo) (drop lo l)).
Proof. intros H. unfold slice. by rewrite decide_True. Qed.

Lemma slice_from_Ok {E A} (l : list A) lo :
  (lo <= length l)%nat -> slice_from (E:=E) l lo = Ok (drop lo l).
Proof.
  intros H. unfold slice_from. rewrite slice_Ok by lia. f_equal.
  apply take_ge. rewrite length_drop. lia.
Qed.

(** The Go [copy(dst, src)] into a fixed-size array. *)
Definition copy_into {A} (dst src : list A) : list A :=
  take (length dst) src ++ drop (length src) dst.

Lemma length_copy_into {A} (dst src : list A) :
  length (copy_into dst src) = length dst.
Proof. unfold copy_into. rewrite length_app, length_take, length_drop. lia. Qed.

Lemma copy_into_le {A} (dst src : list A) :
  (length src <= length dst)%nat ->
  copy_into dst src = src ++ drop (length src) dst.
Proof. intros H. unfold copy_into. by rewrite take_ge. Qed.

(** Reading and writing [a\[i\]]; an index out of range panics. *)
Definition index {E A} (l : list A) (i : Z) : outcome E A :=
  if 0 <=? i then deref (l !! Z.to_nat i) else Panic.
Definition index_set {E A} (l : list A) (i : Z) (x : A) : outcome E (list A) :=
  if (0 <=? i) && (i <? Z.of_nat (length l)) then Ok (<[Z.to_nat i := x]> l) else Panic.

Lemma index_Ok {E A} (l : list A) i :
  0 <= i < Z.of_nat (length l) ->
  exists x, index (E:=E) l i = Ok x /\ l !! Z.to_nat i = Some x.
Proof.
  intros Hi. unfold index. rewrite (proj2 (Z.leb_le _ _)) by lia.
  destruct (lookup_lt_is_Some_2 l (Z.to_nat i)) as [x Hx]; [lia|].
  rewrite Hx. by exists x.
Qed.

Lemma index_set_Ok {E A} (l : list A) i x :
  0 <= i < Z.of_nat (length l) ->
  index_set (E:=E) l i x = Ok (<[Z.to_nat i := x]> l).
Proof.
  intros Hi. unfold index_set.
  by rewrite (proj2 (Z.leb_le _ _)), (proj2 (Z.ltb_lt _ _)) by lia.
Qed.

(** Offsets less than [m] apart fall on different slots of a ring of size [m]. *)
Lemma mod_offset_inj a i j m :
  0 <= i -> i < j -> j - i < m -> (a + i) mod m <> (a + j) mod m.
Proof.
  intros Hi Hij Hm E.
  assert ((j - i) mod m = 0) as E0.
  { replace (j - i) with ((a + j) - (a + i)) by lia.
    by rewrite Zminus_mod, E, Z.sub_diag, Z.mod_0_l by lia. }
  rewrite Z.mod_small in E0; lia.
Qed.

(** A filter that keeps everything. *)
Lemma filter_all {A} (P : A -> Prop) `{forall x, Decision (P x)} (l : list A) :
  (forall x, x ∈ l -> P x) -> filter P l = l.
Proof.
  induction l as [|x l IH]; intros Hl; [done|].
  rewrite filter_cons_True by (apply Hl; by left). f_equal. apply IH. intros y Hy.
  apply Hl. by right.
Qed.

(** Sums over lists of integers (delays). *)
Definition zsum (l : list Z) : Z := foldr Z.add 0 l.

Lemma zsum_app l k : zsum (l ++ k) = zsum l + zsum k.
Proof. induction l as [|x l IH]; cbn; [done|]. unfold zsum in *. lia. Qed.

Lemma zsum_bounds l b :
  Forall (fun x => 0 <= x <= b) l -> 0 <= zsum l <= Z.of_nat (length l) * b.
Proof. induction 1; cbn [zsum foldr length] in *; [lia|]. unfold zsum in *. nia. Qed.

(** Sums over the values of a map (ranks of the goroutines it holds). *)
Definition map_sum {A} (f : A -> nat) (m : gmap nat A) : nat :=
  sum_list_with (fun x => f x.2) (map_to_list m).

Lemma map_sum_delete {A} (f : A -> nat) m i x :
  m !! i = Some x -> map_sum f m = (f x + map_sum f (delete i m))%nat.
Proof.
  intros Hi. unfold map_sum. rewrite <- (insert_id m i x Hi) at 1. rewrite <- insert_delete_eq.
  by rewrite map_to_list_insert by apply lookup_delete_eq.
Qed.

Lemma map_sum_insert {A} (f : A -> nat) m i x y :
  m !! i = Some x -> (map_sum f (<[i := y]> m) + f x = map_sum f m + f y)%nat.
Proof.
  intros Hi. rewrite (map_sum_delete f m i x Hi).
  rewrite (map_sum_delete f (<[i := y]> m) i y) by apply lookup_insert_eq.
  rewrite delete_insert_eq. lia.
Qed.

(** ** Tactics *)

(** Splits every [match] of the goal and of a hypothesis on its scrutinee. *)
Ltac case_all :=
  repeat (case_match; simplify_eq/=; try done).
