(* ===== verification/GoStd.v ===== *)
(** The parts of Go's standard library the code uses, written out: durations
    and instants, [time.Timer] with its one-slot channel (the semantics of the
    Go releases this module declares: [Stop] does not drain), the big-endian and
    varint codecs of encoding/binary, hexadecimal encoding and ASCII case
    mapping. *)

From S2P Require Import Prelude.
From Stdlib Require Import Strings.Byte Strings.Ascii Strings.String.

(** ** time *)

(** An instant, in nanoseconds since the Unix epoch (the range of [time.Time] is
    far larger than the code's instants), and a [time.Duration], an int64. *)
Abbreviation Time := Z (only parsing).
Abbreviation Duration := Z (only parsing).

Definition Millisecond : Duration := 10 ^ 6.
Definition Second : Duration := 10 ^ 9.
Definition Minute : Duration := 60 * 10 ^ 9.

(** [time.Time{}]: January 1 of year 1, UTC. *)
Definition Time_zero : Time := - 62135596800 * 10 ^ 9.

Definition Time_Add (t : Time) (d : Duration) : Time := t + d.

(** [t.Sub(u)] saturates at the bounds of a duration. *)
Definition Time_Sub (t u : Time) : Duration :=
  Z.max MinInt64 (Z.min MaxInt64 (t - u)).
Definition Time_After (t u : Time) : bool := u <? t.
Definition Time_Unix (t : Time) : Z := t / 10 ^ 9.
Definition Time_UnixNano (t : Time) : Z := i64 t.
Definition time_Unix (sec : Z) : Time := sec * 10 ^ 9.

(** The product of two durations, e.g. [time.Duration(n) * time.Millisecond]. *)
Definition Duration_mul (a b : Duration) : Duration := i64 (a * b).

Lemma Time_Sub_small t u : is_i64 (t - u) -> Time_Sub t u = t - u.
Proof. unfold is_i64, Time_Sub, MinInt64, MaxInt64. lia. Qed.

Lemma Time_Sub_range t u : is_i64 (Time_Sub t u).
Proof. unfold is_i64, Time_Sub, MinInt64, MaxInt64. lia. Qed.

Lemma Duration_mul_small a b : is_i64 (a * b) -> Duration_mul a b = a * b.
Proof. apply i64_small. Qed.

#[export] Hint Resolve Time_Sub_range : go.

(** *** Timers: [armed] until the deadline or [Stop]; [fired] while the
    channel [C] holds the tick nobody received yet. *)
Record Timer := mkTimer { armed : bool; fired : bool; period : Duration }.

Definition NewTimer (d : Duration) : Timer := mkTimer true false d.
(** Returns whether the call stopped a running timer; [C] is left as it is. *)
Definition Timer_Stop (t : Timer) : bool * Timer :=
  (armed t, mkTimer false (fired t) (period t)).
Definition Timer_Reset (t : Timer) (d : Duration) : Timer := mkTimer true (fired t) d.
(** The runtime delivers the tick (a non-blocking send into the slot). *)
Definition Timer_expire (t : Timer) : Timer := mkTimer false true (period t).
(** [<-t.C] when a tick is there. *)
Definition Timer_recv (t : Timer) : option Timer :=
  if fired t then Some (mkTimer (armed t) false (period t)) else None.

(** ** Bytes as integers *)

Definition byte_to_Z (b : byte) : Z := Z.of_N (Byte.to_N b).
Definition byte_of_Z (z : Z) : byte := default x00 (Byte.of_N (Z.to_N (z mod 256))).

Lemma byte_to_Z_range b : 0 <= byte_to_Z b < 256.
Proof. unfold byte_to_Z. pose proof (Byte.to_N_bounded b). lia. Qed.

Lemma byte_to_of_Z z : byte_to_Z (byte_of_Z z) = z mod 256.
Proof.
  unfold byte_to_Z, byte_of_Z. pose proof (Z.mod_pos_bound z 256 eq_refl).
  destruct (Byte.of_N (Z.to_N (z mod 256))) as [b|] eqn:E; cbn.
  - apply Byte.to_of_N in E. lia.
  - apply Byte.of_N_None_iff in E. lia.
Qed.

Lemma byte_of_to_Z b : byte_of_Z (byte_to_Z b) = b.
Proof.
  unfold byte_of_Z. pose proof (byte_to_Z_range b).
  rewrite Z.mod_small by lia. unfold byte_to_Z.
  by rewrite N2Z.id, Byte.of_to_N.
Qed.

(** ** encoding/binary *)

(** [binary.BigEndian.PutUint32] into the first four bytes, and [Uint32]; both
    panic on a shorter slice. *)
Definition be32 (v : Z) : bytes :=
  [byte_of_Z (Z.shiftr v 24); byte_of_Z (Z.shiftr v 16);
   byte_of_Z (Z.shiftr v 8); byte_of_Z v].

Definition BigEndian_PutUint32 {E} (b : bytes) (v : Z) : outcome E bytes :=
  match b with
  | _ :: _ :: _ :: _ :: rest => Ok (be32 v ++ rest)
  | _ => Panic
  end.

Definition BigEndian_Uint32 {E} (b : bytes) : outcome E Z :=
  match b with
  | b0 :: b1 :: b2 :: b3 :: _ =>
      Ok (Z.lor (Z.lor (Z.lor (byte_to_Z b3) (Z.shiftl (byte_to_Z b2) 8))
            (Z.shiftl (byte_to_Z b1) 16)) (Z.shiftl (byte_to_Z b0) 24))
  | _ => Panic
  end.

Lemma length_be32 v : Datatypes.length (be32 v) = 4%nat.
Proof. done. Qed.

(** Bits of a low part and of a shifted high part do not meet. *)
Lemma lor_shiftl_add a b n :
  0 <= n -> 0 <= a < 2 ^ n -> Z.lor a (Z.shiftl b n) = a + b * 2 ^ n.
Proof.
  intros Hn Ha. rewrite <- Z.shiftl_mul_pow2 by lia. symmetry.
  rewrite <- Z.lxor_lor; [apply Z.add_nocarry_lxor|].
  all: apply Z.bits_inj'; intros i Hi; rewrite Z.land_spec, Z.bits_0.
  all: destruct (Z.lt_ge_cases i n).
  all: try (rewrite (Z.shiftl_spec_low _ _ i) by lia; apply andb_false_r).
  all: rewrite <- (Z.mod_small a (2 ^ n)) by lia.
  all: rewrite Z.mod_pow2_bits_high by lia; done.
Qed.

(** The big-endian value of four bytes. *)
Lemma be_lor b0 b1 b2 b3 :
  0 <= b0 < 256 -> 0 <= b1 < 256 -> 0 <= b2 < 256 -> 0 <= b3 < 256 ->
  Z.lor (Z.lor (Z.lor b3 (Z.shiftl b2 8)) (Z.shiftl b1 16)) (Z.shiftl b0 24)
  = b3 + b2 * 2 ^ 8 + b1 * 2 ^ 16 + b0 * 2 ^ 24.
Proof.
  intros. rewrite (lor_shiftl_add b3 b2 8), (lor_shiftl_add _ b1 16),
    (lor_shiftl_add _ b0 24) by lia. lia.
Qed.

Lemma be32_roundtrip {E} v rest :
  is_u32 v -> BigEndian_Uint32 (E:=E) (be32 v ++ rest) = Ok v.
Proof.
  intros Hv. unfold is_u32 in Hv.
  cbn [be32 app BigEndian_Uint32]. f_equal. rewrite !byte_to_of_Z.
  rewrite be_lor by (apply Z.mod_pos_bound; lia).
  rewrite !Z.shiftr_div_pow2 by lia.
  change (2 ^ 8) with 256. change (2 ^ 16) with (256 * 256).
  change (2 ^ 24) with (256 * 256 * 256). rewrite <- !Z.div_div by lia.
  pose proof (Z.div_mod v 256). pose proof (Z.div_mod (v / 256) 256).
  pose proof (Z.div_mod (v / 256 / 256) 256).
  assert (0 <= v / 256 / 256 / 256 < 256).
  { rewrite !Z.div_div by lia.
    split; [apply Z.div_pos|apply Z.div_lt_upper_bound]; lia. }
  rewrite (Z.mod_small (v / 256 / 256 / 256)) by lia. lia.
Qed.

(** [binary.Uvarint] reads a little-endian base-128 number; it answers 0 when
    the buffer ends before the last digit, and when the number overflows. The
    second result is the number of bytes read, 0 or negative on failure. *)
Fixpoint uvarint_go (buf : bytes) (x s i : Z) : Z * Z :=
  match buf with
  | [] => (0, 0)
  | b :: rest =>
      let v := byte_to_Z b in
      if v <? 128 then
        if (9 <? i) || ((i =? 9) && (1 <? v)) then (0, - (i + 1))
        else (Z.lor x (u64 (Z.shiftl v s)), i + 1)
      else uvarint_go rest (Z.lor x (u64 (Z.shiftl (Z.land v 127) s))) (s + 7) (i + 1)
  end.

Definition Uvarint (buf : bytes) : Z * Z := uvarint_go buf 0 0 0.

(** [binary.Varint]: zig-zag decoding of [Uvarint]. *)
Definition Varint (buf : bytes) : Z * Z :=
  let '(ux, n) := Uvarint buf in
  let x := i64 (Z.shiftr ux 1) in
  ((if Z.odd ux then Z.lnot x else x), n).

(** [binary.PutUvarint] and [PutVarint], the encoders: the bytes they write. *)
Fixpoint put_uvarint_go (fuel : nat) (x : Z) : bytes :=
  match fuel with
  | O => []
  | S fuel =>
      if x <? 128 then [byte_of_Z x]
      else byte_of_Z (Z.lor (Z.land x 127) 128) :: put_uvarint_go fuel (Z.shiftr x 7)
  end.

(** Ten digits hold every uint64 (binary.MaxVarintLen64). *)
Definition PutUvarint (x : Z) : bytes := put_uvarint_go 10 x.
Definition PutVarint (x : Z) : bytes :=
  let ux := u64 (Z.shiftl x 1) in
  PutUvarint (if x <? 0 then u64 (Z.lnot ux) else ux).

Lemma land_127 x : Z.land x 127 = x mod 128.
Proof. exact (Z.land_ones x 7 ltac:(lia)). Qed.

Lemma varint_digit x :
  byte_to_Z (byte_of_Z (Z.lor (Z.land x 127) 128)) = x mod 128 + 128.
Proof.
  rewrite byte_to_of_Z, land_127. pose proof (Z.mod_pos_bound x 128 eq_refl).
  change 128 with (Z.shiftl 1 7) at 2. rewrite lor_shiftl_add by lia.
  apply Z.mod_small. lia.
Qed.

Lemma put_uvarint_go_S fuel x :
  put_uvarint_go (S fuel) x =
  if x <? 128 then [byte_of_Z x]
  else byte_of_Z (Z.lor (Z.land x 127) 128) :: put_uvarint_go fuel (Z.shiftr x 7).
Proof. done. Qed.

Lemma uvarint_go_roundtrip fuel x acc i rest :
  0 <= i -> i + Z.of_nat fuel < 9 ->
  0 <= x < 2 ^ (7 * (Z.of_nat fuel + 1)) ->
  0 <= acc < 2 ^ (7 * i) ->
  (uvarint_go (put_uvarint_go (S fuel) x ++ rest) acc (7 * i) i).1
  = acc + x * 2 ^ (7 * i).
Proof.
  revert x acc i. induction fuel as [|fuel IH]; intros x acc i Hi Hf Hx Hacc.
  all: assert (forall d, 0 <= d < 128 -> u64 (Z.shiftl d (7 * i)) = Z.shiftl d (7 * i))
    as Hd by (intros d Hd; apply u64_small; unfold is_u64;
      rewrite Z.shiftl_mul_pow2 by lia;
      pose proof (Z.pow_le_mono_r 2 (7 * i) 56); nia).
  all: rewrite put_uvarint_go_S.
  all: destruct (Z.ltb_spec x 128) as [Hlt|Hge].
  2: { change (2 ^ (7 * (Z.of_nat 0 + 1))) with 128 in Hx. lia. }
  1,2: cbn [app uvarint_go]; rewrite byte_to_of_Z, (Z.mod_small x 256) by lia;
    destruct (Z.ltb_spec x 128); [|lia];
    destruct (Z.ltb_spec 9 i); [lia|]; destruct (Z.eqb_spec i 9); [lia|]; cbn;
    rewrite Hd by lia; apply lor_shiftl_add; lia.
  cbn [app uvarint_go]. rewrite varint_digit. pose proof (Z.mod_pos_bound x 128 eq_refl).
  destruct (Z.ltb_spec (x mod 128 + 128) 128); [lia|]. rewrite land_127.
  replace ((x mod 128 + 128) mod 128) with (x mod 128)
    by (rewrite <- Z.add_mod_idemp_r, Z.mod_same, Z.add_0_r, Z.mod_mod; lia).
  rewrite Hd, lor_shiftl_add by lia.
  assert (2 ^ (7 * (i + 1)) = 128 * 2 ^ (7 * i)) as E2.
  { replace (7 * (i + 1)) with (7 + 7 * i) by lia. by rewrite Z.pow_add_r by lia. }
  assert (2 ^ (7 * (Z.of_nat (S fuel) + 1)) = 128 * 2 ^ (7 * (Z.of_nat fuel + 1))) as E1.
  { replace (7 * (Z.of_nat (S fuel) + 1)) with (7 + 7 * (Z.of_nat fuel + 1)) by lia.
    by rewrite Z.pow_add_r by lia. }
  replace (7 * i + 7) with (7 * (i + 1)) by lia.
  rewrite IH; rewrite ?Z.shiftr_div_pow2 by lia; change (2 ^ 7) with 128; try lia.
  - rewrite E2. pose proof (Z.div_mod x 128) as Hxm.
    replace (x * 2 ^ (7 * i)) with ((128 * (x / 128) + x mod 128) * 2 ^ (7 * i))
      by (f_equal; lia). ring.
  - split; [apply Z.div_pos; lia|apply Z.div_lt_upper_bound; lia].
  - rewrite E2. nia.
Qed.

Lemma lor_range a b n : 0 <= n -> 0 <= a < 2 ^ n -> 0 <= b < 2 ^ n -> 0 <= Z.lor a b < 2 ^ n.
Proof.
  intros Hn Ha Hb. replace (Z.lor a b) with (Z.lor a b mod 2 ^ n); [apply Z.mod_pos_bound; lia|].
  rewrite <-Z.land_ones, Z.land_lor_distr_l, !Z.land_ones, !Z.mod_small by lia. done.
Qed.

Lemma uvarint_go_range buf x s i : is_u64 x -> is_u64 (uvarint_go buf x s i).1.
Proof.
  revert x s i. induction buf as [|b buf IH]; intros x s i Hx; [unfold is_u64; cbn; lia|].
  cbn. repeat case_match; try (unfold is_u64; cbn; lia).
  - cbn. apply lor_range; [lia|done|apply u64_range].
  - apply IH. apply lor_range; [lia|done|apply u64_range].
Qed.

Lemma Uvarint_range buf : is_u64 (Uvarint buf).1.
Proof. apply uvarint_go_range. unfold is_u64. lia. Qed.

(** Continuation bytes only: no number, the answer is 0. *)
Lemma uvarint_go_truncated buf x s i :
  Forall (fun b => 128 <= byte_to_Z b) buf -> uvarint_go buf x s i = (0, 0).
Proof.
  intros Hb. revert x s i. induction Hb as [|b buf Hb _ IH]; intros x s i; [done|].
  cbn. destruct (Z.ltb_spec (byte_to_Z b) 128); [lia|]. apply IH.
Qed.

(** Digits of a number below 2^56 (eight of them suffice), read back. *)
Lemma put_uvarint_go_mono fuel fuel' x :
  (fuel <= fuel')%nat -> 0 <= x < 2 ^ (7 * Z.of_nat fuel) -> (0 < fuel)%nat ->
  put_uvarint_go fuel' x = put_uvarint_go fuel x.
Proof.
  revert fuel' x. induction fuel as [|fuel IH]; intros fuel' x Hle Hx Hpos; [lia|].
  destruct fuel' as [|fuel']; [lia|]. cbn [put_uvarint_go].
  destruct (Z.ltb_spec x 128); [done|]. f_equal.
  replace (7 * Z.of_nat (S fuel)) with (7 + 7 * Z.of_nat fuel) in Hx by lia.
  rewrite Z.pow_add_r in Hx by lia. change (2 ^ 7) with 128 in Hx.
  destruct fuel as [|fuel]; [cbn in Hx; lia|].
  apply IH; [lia| |lia]. rewrite Z.shiftr_div_pow2 by lia. change (2 ^ 7) with 128.
  split; [apply Z.div_pos; lia|apply Z.div_lt_upper_bound; lia].
Qed.

Lemma length_put_uvarint_go fuel x :
  (Datatypes.length (put_uvarint_go fuel x) <= fuel)%nat.
Proof.
  revert x. induction fuel as [|fuel IH]; intros x; [done|]. cbn.
  destruct (_ <? _); cbn; [lia|]. specialize (IH (Z.shiftr x 7)). lia.
Qed.

Lemma Uvarint_PutUvarint x rest :
  0 <= x < 2 ^ 63 -> (Uvarint (PutUvarint x ++ rest)).1 = x.
Proof.
  intros Hx. unfold Uvarint, PutUvarint.
  rewrite (put_uvarint_go_mono 9 10) by lia.
  pose proof (uvarint_go_roundtrip 8 x 0 0 rest) as H.
  change (7 * 0) with 0 in H. rewrite H; lia.
Qed.

Lemma length_PutUvarint x :
  0 <= x < 2 ^ 56 -> (Datatypes.length (PutUvarint x) <= 8)%nat.
Proof.
  intros Hx. unfold PutUvarint. rewrite (put_uvarint_go_mono 8 10) by lia.
  apply length_put_uvarint_go.
Qed.

Lemma PutVarint_nonneg x :
  0 <= x < 2 ^ 62 -> PutVarint x = PutUvarint (2 * x).
Proof.
  intros Hx. unfold PutVarint. destruct (Z.ltb_spec x 0); [lia|].
  rewrite Z.shiftl_mul_pow2 by lia. rewrite u64_small by (unfold is_u64; lia).
  f_equal. lia.
Qed.

Lemma Varint_PutVarint x rest :
  0 <= x < 2 ^ 62 -> (Varint (PutVarint x ++ rest)).1 = x.
Proof.
  intros Hx. rewrite PutVarint_nonneg by done. unfold Varint.
  pose proof (Uvarint_PutUvarint (2 * x) rest) as H.
  destruct (Uvarint _) as [ux n]. cbn in *. rewrite H by lia.
  replace (Z.odd (2 * x)) with false by (symmetry; rewrite Z.odd_mul; done).
  rewrite Z.shiftr_div_pow2 by lia. change (2 ^ 1) with 2.
  rewrite Z.mul_comm, Z.div_mul by lia. apply i64_small. unfold is_i64. lia.
Qed.

(** ** encoding/hex and strings *)

Definition hex_digit (d : Z) : ascii := ascii_of_N (Z.to_N (if d <? 10 then 48 + d else 87 + d)).

(** [hex.EncodeToString]. *)
Fixpoint hex_EncodeToString (b : bytes) : string :=
  match b with
  | [] => EmptyString
  | x :: rest =>
      String (hex_digit (byte_to_Z x / 16))
        (String (hex_digit (byte_to_Z x mod 16)) (hex_EncodeToString rest))
  end.

Lemma length_hex_EncodeToString b :
  String.length (hex_EncodeToString b) = (2 * Datatypes.length b)%nat.
Proof. induction b; cbn; lia. Qed.

Lemma hex_digit_inj a b :
  0 <= a < 16 -> 0 <= b < 16 -> hex_digit a = hex_digit b -> a = b.
Proof.
  intros Ha Hb E. apply (f_equal N_of_ascii) in E. unfold hex_digit in E.
  destruct (Z.ltb_spec a 10), (Z.ltb_spec b 10);
    rewrite !N_ascii_embedding in E by lia; lia.
Qed.

Lemma hex_EncodeToString_inj b b' : hex_EncodeToString b = hex_EncodeToString b' -> b = b'.
Proof.
  revert b'. induction b as [|x b IH]; intros [|y b']; cbn; [done..|].
  intros [= E1 E2 E]. f_equal; [|by apply IH].
  pose proof (byte_to_Z_range x). pose proof (byte_to_Z_range y).
  apply hex_digit_inj in E1, E2; [|Z.to_euclidean_division_equations; lia..].
  rewrite <- (byte_of_to_Z x), <- (byte_of_to_Z y). f_equal.
  rewrite (Z.div_mod (byte_to_Z x) 16), (Z.div_mod (byte_to_Z y) 16) by done. lia.
Qed.

(** The bytes of a Go string, [[]byte(s)]. *)
Definition bytes_of_string (s : string) : bytes := list_byte_of_string s.

Definition char_upper (c : ascii) : ascii :=
  let n := N_of_ascii c in
  if ((97 <=? n) && (n <=? 122))%N then ascii_of_N (n - 32) else c.
Definition char_lower (c : ascii) : ascii :=
  let n := N_of_ascii c in
  if ((65 <=? n) && (n <=? 90))%N then ascii_of_N (n + 32) else c.

Fixpoint string_map (f : ascii -> ascii) (s : string) : string :=
  match s with
  | EmptyString => EmptyString
  | String c s => String (f c) (string_map f s)
  end.

Fixpoint is_ascii (s : string) : bool :=
  match s with
  | EmptyString => true
  | String c s => (N_of_ascii c <? 128)%N && is_ascii s
  end.

Fixpoint has_prefix (p s : string) : bool :=
  match p, s with
  | EmptyString, _ => true
  | String a p, String b s => (if ascii_dec a b then true else false) && has_prefix p s
  | String _ _, EmptyString => false
  end.

(** [strings.ToUpper] and [strings.ToLower]: on ASCII strings the byte map
    below; other strings go through the Unicode tables, a parameter. *)
Section Case.
Context (unicode_ToUpper unicode_ToLower : string -> string).

Definition ToUpper (s : string) : string :=
  if is_ascii s then string_map char_upper s else unicode_ToUpper s.
Definition ToLower (s : string) : string :=
  if is_ascii s then string_map char_lower s else unicode_ToLower s.
End Case.

(** ** sync.Once *)
Record Once := mkOnce { once_done : bool }.
Definition Once_Do {S} (o : Once) (f : S -> S) (s : S) : Once * S :=
  if once_done o then (o, s) else (mkOnce true, f s).

(** ** select

    The cases of a [select] with the times at which they can proceed. Those ready first
    are chosen from at random: [n] is the runtime's choice. *)
Section Select.
Context {A : Type}.

Definition ready (cases : list (Time * A)) : list (Time * A) :=
  filter (fun c => Forall (fun c' => c.1 <= c'.1) cases) cases.
Definition select (n : nat) (cases : list (Time * A)) : option (Time * A) :=
  ready cases !! (n mod List.length (ready cases))%nat.

Lemma ready_spec cases c : c ∈ ready cases <-> c ∈ cases /\ forall c', c' ∈ cases -> c.1 <= c'.1.
Proof. unfold ready. rewrite list_elem_of_filter, Forall_forall. tauto. Qed.

Lemma select_spec n cases c :
  select n cases = Some c -> c ∈ cases /\ forall c', c' ∈ cases -> c.1 <= c'.1.
Proof. intros E. apply list_elem_of_lookup_2 in E. by apply ready_spec. Qed.

(** The earliest time. *)
Lemma earliest (cases : list (Time * A)) :
  cases <> [] -> exists c, c ∈ cases /\ forall c', c' ∈ cases -> c.1 <= c'.1.
Proof.
  induction cases as [|c cases IH]; [done|intros _]. destruct cases as [|d cases].
  - exists c. split; [by left|]. intros c' ->%list_elem_of_singleton. lia.
  - destruct IH as (e & He & Hmin); [done|]. destruct (Z.le_gt_cases c.1 e.1).
    + exists c. split; [by left|]. intros c' [->|Hc']%elem_of_cons; [lia|].
      specialize (Hmin c' Hc'). lia.
    + exists e. split; [by right|]. intros c' [->|Hc']%elem_of_cons; [lia|by apply Hmin].
Qed.

Lemma select_Some n cases : cases <> [] -> is_Some (select n cases).
Proof.
  intros Hc. apply lookup_lt_is_Some, Nat.mod_upper_bound. intros Hl%length_zero_iff_nil.
  destruct (earliest cases Hc) as (c & Hin & Hmin).
  assert (c ∈ ready cases) as Hr by by apply ready_spec. rewrite Hl in Hr.
  by apply not_elem_of_nil in Hr.
Qed.

(** A case ready before all others is chosen; each of those ready first can be. *)
Lemma select_first n cases c :
  c ∈ cases -> (forall c', c' ∈ cases -> c' = c \/ c.1 < c'.1) -> select n cases = Some c.
Proof.
  intros Hc Hmin. destruct (select_Some n cases) as [d E]; [by intros ->; apply not_elem_of_nil in Hc|].
  destruct (select_spec n cases d E) as [Hd Hle]. specialize (Hle c Hc).
  by destruct (Hmin d Hd) as [->|]; [|lia].
Qed.

Lemma select_any cases c :
  c ∈ cases -> (forall c', c' ∈ cases -> c.1 <= c'.1) -> exists n, select n cases = Some c.
Proof.
  intros Hc Hmin. assert (c ∈ ready cases) as [n Hn]%list_elem_of_lookup_1 by by apply ready_spec.
  exists n. unfold select. rewrite Nat.mod_small; [done|]. by eapply lookup_lt_Some.
Qed.
End Select.
