(* ===== verification/Queue.v ===== *)
(** The client egress queue (queue.go): a fixed array used as a ring, the
    [EgressQueue] interface its clients rely on, and the proof that the ring is
    a bounded FIFO. An [Item] is a Go interface value: nil ([None]) or a dynamic
    value. The mutex makes each method atomic, so a method is a function on the
    queue's state. *)

From S2P Require Import Prelude.

Inductive queue_error := ErrQueueFull | ErrQueueEmpty.

#[global] Instance queue_error_eq_dec : EqDecision queue_error.
Proof. solve_decision. Defined.

(** ** The interface and what it promises *)

Class EgressQueue (Q I : Type) := {
  eq_Peek : Q -> outcome queue_error I;
  eq_Pop : Q -> outcome queue_error (I * Q);
  eq_Push : Q -> I -> outcome queue_error Q;
}.

(** The abstract queue: a list of at most [cap] items, oldest first. *)
Definition spec_Push {I} (cap : nat) (l : list I) (e : I) : outcome queue_error (list I) :=
  if decide (cap <= length l)%nat then Err ErrQueueFull else Ok (l ++ [e]).
Definition spec_Pop {I} (l : list I) : outcome queue_error (I * list I) :=
  match l with [] => Err ErrQueueEmpty | x :: l' => Ok (x, l') end.
Definition spec_Peek {I} (l : list I) : outcome queue_error I :=
  match l with [] => Err ErrQueueEmpty | x :: _ => Ok x end.

(** A lawful queue has a view as such a list, on which its three methods act
    as the abstract ones, panics excluded. *)
Class EgressQueueLaws (Q I : Type) `{EgressQueue Q I} := {
  eq_wf : Q -> Prop;
  eq_view : Q -> list I;
  eq_cap : nat;
  eq_Peek_law : forall q, eq_wf q -> eq_Peek q = spec_Peek (eq_view q);
  eq_Pop_law : forall q, eq_wf q ->
    prod_map id eq_view <$> eq_Pop q = spec_Pop (eq_view q);
  eq_Push_law : forall q e, eq_wf q ->
    eq_view <$> eq_Push q e = spec_Push eq_cap (eq_view q) e;
  eq_Pop_wf : forall q x q', eq_wf q -> eq_Pop q = Ok (x, q') -> eq_wf q';
  eq_Push_wf : forall q e q', eq_wf q -> eq_Push q e = Ok q' -> eq_wf q';
}.

(** ** The ring *)

Record Queue (A : Type) := mkQueue {
  content : list (option A);
  readHead : Z;
  writeHead : Z;
  len : Z;
}.
Arguments mkQueue {A} _ _ _ _.
Arguments content {A} _.
Arguments readHead {A} _.
Arguments writeHead {A} _.
Arguments len {A} _.

Section Ring.
Context {A : Type}.
(** [constants.MaxEgressQueueSize], and the [&Message{}] a popped slot gets. *)
Context (MaxEgressQueueSize : Z) (blank : A).
Abbreviation Item := (option A).

(** [new(Queue)]. *)
Definition new_Queue : Queue A :=
  mkQueue (replicate (Z.to_nat MaxEgressQueueSize) None) 0 0 0.

Definition Push (q : Queue A) (e : Item) : outcome queue_error (Queue A) :=
  if MaxEgressQueueSize <=? len q then Err ErrQueueFull
  else
    c ← index_set (content q) (writeHead q) e;
    mret (mkQueue c (readHead q) ((writeHead q + 1) mod MaxEgressQueueSize) (len q + 1)).

Definition Pop (q : Queue A) : outcome queue_error (Item * Queue A) :=
  if len q <=? 0 then Err ErrQueueEmpty
  else
    result ← index (content q) (readHead q);
    c ← index_set (content q) (readHead q) (Some blank);
    mret (result,
      mkQueue c ((readHead q + 1) mod MaxEgressQueueSize) (writeHead q) (len q - 1)).

Definition Peek (q : Queue A) : outcome queue_error Item :=
  if len q <=? 0 then Err ErrQueueEmpty else index (content q) (readHead q).

#[export] Instance Queue_EgressQueue : EgressQueue (Queue A) Item :=
  {| eq_Peek := Peek; eq_Pop := Pop; eq_Push := Push |}.

(** The representation invariant. *)
Record wf (q : Queue A) : Prop := {
  wf_length : Z.of_nat (length (content q)) = MaxEgressQueueSize;
  wf_read : 0 <= readHead q < MaxEgressQueueSize;
  wf_len : 0 <= len q <= MaxEgressQueueSize;
  wf_write : writeHead q = (readHead q + len q) mod MaxEgressQueueSize;
}.

(** The slot of the [i]-th item, and the items from oldest to newest. *)
Definition slot (q : Queue A) (i : nat) : nat :=
  Z.to_nat ((readHead q + Z.of_nat i) mod MaxEgressQueueSize).
Definition view (q : Queue A) : list Item :=
  (fun i => default None (content q !! slot q i)) <$> seq 0 (Z.to_nat (len q)).

Context (Hmax : 0 < MaxEgressQueueSize).

Lemma wf_new : wf new_Queue.
Proof.
  split; cbn; rewrite ?length_replicate; try lia. by rewrite Z.mod_0_l by lia.
Qed.

Lemma view_new : view new_Queue = [].
Proof. done. Qed.

Lemma length_view q : length (view q) = Z.to_nat (len q).
Proof. unfold view. by rewrite length_fmap, length_seq. Qed.

Lemma wf_write_range q : wf q -> 0 <= writeHead q < MaxEgressQueueSize.
Proof. intros [_ _ _ ->]. apply Z.mod_pos_bound. lia. Qed.

Lemma slot_0 q : wf q -> slot q 0 = Z.to_nat (readHead q).
Proof. intros [_ Hr _ _]. unfold slot. by rewrite Z.add_0_r, Z.mod_small by lia. Qed.

Lemma slot_ne q i j :
  (i < j)%nat -> Z.of_nat j - Z.of_nat i < MaxEgressQueueSize -> slot q i <> slot q j.
Proof.
  intros Hij Hm E. unfold slot in E.
  apply (mod_offset_inj (readHead q) (Z.of_nat i) (Z.of_nat j) MaxEgressQueueSize); try lia.
  apply Z2Nat.inj; [apply Z.mod_pos_bound; lia..|exact E].
Qed.

Lemma slot_lt q i : wf q -> (slot q i < length (content q))%nat.
Proof.
  intros Hq. unfold slot. pose proof (wf_length _ Hq).
  pose proof (Z.mod_pos_bound (readHead q + Z.of_nat i) MaxEgressQueueSize). lia.
Qed.

(** The oldest item is at the read head. *)
Lemma view_cons q :
  wf q -> 0 < len q ->
  exists x, index (E:=queue_error) (content q) (readHead q) = Ok x /\
    view q = x :: ((fun i => default None (content q !! slot q i))
                     <$> seq 1 (Z.to_nat (len q - 1))).
Proof.
  intros Hq Hl. pose proof (wf_length _ Hq). pose proof (wf_read _ Hq).
  destruct (index_Ok (E:=queue_error) (content q) (readHead q)) as (x & Hx & Hs); [lia|].
  exists x. split; [done|]. unfold view.
  replace (Z.to_nat (len q)) with (S (Z.to_nat (len q - 1))) by lia.
  cbn [seq fmap list_fmap]. by rewrite slot_0, Hs by done.
Qed.

Lemma Push_Ok q e :
  wf q -> len q < MaxEgressQueueSize ->
  exists q', Push q e = Ok q' /\ wf q' /\ view q' = view q ++ [e].
Proof.
  intros Hq Hl. pose proof (wf_length _ Hq) as Hlen. pose proof (wf_write_range _ Hq).
  unfold Push. destruct (Z.leb_spec MaxEgressQueueSize (len q)); [lia|].
  rewrite index_set_Ok by lia. cbn. eexists. split; [done|].
  pose proof (wf_len _ Hq). pose proof (wf_read _ Hq). split.
  - split; cbn; rewrite ?length_insert; try lia.
    rewrite (wf_write _ Hq), Z.add_mod_idemp_l by lia. f_equal. lia.
  - unfold view, slot at 1. cbn.
    replace (Z.to_nat (len q + 1)) with (Z.to_nat (len q) + 1)%nat by lia.
    rewrite seq_app, fmap_app. cbn.
    assert (Z.to_nat (writeHead q) = slot q (Z.to_nat (len q))) as Hw.
    { unfold slot. rewrite Z2Nat.id by lia. by rewrite (wf_write _ Hq). }
    fold (slot q (Z.to_nat (len q))). rewrite Hw.
    rewrite list_lookup_insert_eq by (by apply slot_lt). f_equal.
    apply list_fmap_ext. intros k i Hi. apply lookup_seq in Hi as [-> Hk]. cbn.
    fold (slot q k). rewrite list_lookup_insert_ne; [done|].
    apply not_eq_sym, slot_ne; lia.
Qed.

Lemma Pop_Ok q :
  wf q -> 0 < len q ->
  exists x q' l, Pop q = Ok (x, q') /\ wf q' /\ view q = x :: l /\ view q' = l.
Proof.
  intros Hq Hl. pose proof (wf_length _ Hq). pose proof (wf_read _ Hq).
  pose proof (wf_len _ Hq).
  destruct (view_cons q Hq Hl) as (x & Hx & Hv).
  unfold Pop. destruct (Z.leb_spec (len q) 0); [lia|].
  rewrite Hx. cbn. rewrite index_set_Ok by lia. cbn.
  do 3 eexists. split; [done|]. split; [|split; [exact Hv|]].
  - split; cbn; rewrite ?length_insert; try lia.
    + apply Z.mod_pos_bound. lia.
    + rewrite (wf_write _ Hq), Z.add_mod_idemp_l by lia. f_equal. lia.
  - unfold view. cbn. rewrite <- (fmap_S_seq 0), <- list_fmap_compose.
    apply list_fmap_ext. intros k i Hi. apply lookup_seq in Hi as [-> Hk]. cbn.
    unfold slot at 1. cbn. rewrite Z.add_mod_idemp_l by lia.
    replace (readHead q + 1 + Z.of_nat k) with (readHead q + Z.of_nat (S k)) by lia.
    fold (slot q (S k)). rewrite list_lookup_insert_ne; [done|].
    rewrite <- (slot_0 q Hq). apply slot_ne; lia.
Qed.

Lemma view_empty q : len q <= 0 -> view q = [].
Proof. intros H. unfold view. by replace (Z.to_nat (len q)) with 0%nat by lia. Qed.

(** The ring meets the interface's contract. *)
#[export] Program Instance Queue_EgressQueueLaws : EgressQueueLaws (Queue A) Item :=
  {| eq_wf := wf; eq_view := view; eq_cap := Z.to_nat MaxEgressQueueSize |}.
Next Obligation.
  intros q Hq. cbn. unfold Peek. destruct (Z.leb_spec (len q) 0).
  - by rewrite view_empty.
  - destruct (view_cons q Hq) as (x & -> & ->); [lia|done].
Qed.
Next Obligation.
  intros q Hq. cbn. destruct (Z.leb_spec (len q) 0).
  - rewrite view_empty by done. unfold Pop. by destruct (Z.leb_spec (len q) 0); [|lia].
  - destruct (Pop_Ok q Hq) as (x & q' & l & -> & _ & -> & <-); [lia|done].
Qed.
Next Obligation.
  intros q e Hq. cbn. pose proof (wf_len _ Hq). unfold spec_Push. rewrite length_view.
  destruct (Z.leb_spec MaxEgressQueueSize (len q)).
  - rewrite decide_True by lia. unfold Push.
    by destruct (Z.leb_spec MaxEgressQueueSize (len q)); [|lia].
  - rewrite decide_False by lia. destruct (Push_Ok q e Hq) as (q' & -> & _ & Hv); [lia|].
    cbn. by rewrite Hv.
Qed.
Next Obligation.
  intros q x q' Hq E. cbn in E. destruct (Z.leb_spec (len q) 0).
  - unfold Pop in E. by destruct (Z.leb_spec (len q) 0); [|lia].
  - destruct (Pop_Ok q Hq) as (? & ? & ? & E' & ? & _); [lia|]. congruence.
Qed.
Next Obligation.
  intros q e q' Hq E. cbn in E. destruct (Z.leb_spec MaxEgressQueueSize (len q)).
  - unfold Push in E. by destruct (Z.leb_spec MaxEgressQueueSize (len q)); [|lia].
  - destruct (Push_Ok q e Hq) as (? & E' & ? & _); [lia|]. congruence.
Qed.
End Ring.

(** ** Programs of queue operations *)

Inductive queue_op (I : Type) := OpPush (e : I) | OpPop | OpPeek.
Arguments OpPush {I} e.
Arguments OpPop {I}.
Arguments OpPeek {I}.

(** What a call answered: the error of a push, the item of a pop or a peek. *)
Inductive queue_answer (I : Type) :=
  | APush (r : outcome queue_error unit)
  | AItem (r : outcome queue_error I).
Arguments APush {I} r.
Arguments AItem {I} r.

#[global] Instance queue_answer_eq_dec {I} `{EqDecision I} : EqDecision (queue_answer I).
Proof. solve_decision. Defined.

Section Programs.
Context {Q I : Type} `{EgressQueue Q I}.

(** A failed call leaves the queue as it was. *)
Definition exec_op (q : Q) (o : queue_op I) : queue_answer I * Q :=
  match o with
  | OpPush e =>
      match eq_Push q e with
      | Ok q' => (APush (Ok tt), q')
      | Err er => (APush (Err er), q)
      | Panic => (APush Panic, q)
      end
  | OpPop =>
      match eq_Pop q with
      | Ok (x, q') => (AItem (Ok x), q')
      | Err er => (AItem (Err er), q)
      | Panic => (AItem Panic, q)
      end
  | OpPeek => (AItem (eq_Peek q), q)
  end.

Fixpoint run (q : Q) (ops : list (queue_op I)) : list (queue_answer I) * Q :=
  match ops with
  | [] => ([], q)
  | o :: ops =>
      let '(a, q') := exec_op q o in
      let '(l, q'') := run q' ops in (a :: l, q'')
  end.
End Programs.

(** The same programs on the abstract queue. *)
Definition spec_queue (cap : nat) (I : Type) : EgressQueue (list I) I :=
  {| eq_Peek := spec_Peek; eq_Pop := spec_Pop; eq_Push := spec_Push cap |}.

Section Refinement.
Context {Q I : Type} `{EgressQueueLaws Q I}.

Lemma exec_op_refines q o :
  eq_wf q ->
  let '(a, q') := exec_op q o in
  eq_wf q' /\
  exec_op (H:=spec_queue eq_cap I) (eq_view q) o = (a, eq_view q').
Proof.
  intros Hq. destruct o as [e| |]; cbn.
  - pose proof (eq_Push_law q e Hq) as HL. cbn in HL.
    destruct (eq_Push q e) as [q'|er|] eqn:E; cbn in HL; rewrite <- HL;
      eauto using eq_Push_wf.
  - pose proof (eq_Pop_law q Hq) as HL.
    destruct (eq_Pop q) as [[x q']|er|] eqn:E; cbn in HL; rewrite <- HL;
      eauto using eq_Pop_wf.
  - by rewrite (eq_Peek_law q Hq).
Qed.

Lemma run_refines ops q :
  eq_wf q ->
  eq_wf (run q ops).2 /\
  run (H:=spec_queue eq_cap I) (eq_view q) ops
    = ((run q ops).1, eq_view (run q ops).2).
Proof.
  revert q. induction ops as [|o ops IH]; intros q Hq; [done|]. cbn.
  pose proof (exec_op_refines q o Hq) as Ho.
  destruct (exec_op q o) as [a q']. destruct Ho as [Hq' ->].
  destruct (IH q' Hq') as [Hw ->]. by destruct (run q' ops).
Qed.

(** Filling a queue and emptying it gives the items back in order. *)
Lemma run_push_all l q :
  eq_wf q -> (length (eq_view q) + length l <= eq_cap)%nat ->
  (run q (OpPush <$> l)).1 = replicate (length l) (APush (Ok tt)) /\
  eq_wf (run q (OpPush <$> l)).2 /\
  eq_view (run q (OpPush <$> l)).2 = eq_view q ++ l.
Proof.
  revert q. induction l as [|e l IH]; intros q Hq Hl; cbn in *; [by rewrite app_nil_r|].
  pose proof (eq_Push_law q e Hq) as HL. unfold spec_Push in HL.
  rewrite decide_False in HL by lia.
  destruct (eq_Push q e) as [q'| |] eqn:E; try done. cbn in HL. injection HL as HL.
  pose proof (eq_Push_wf _ _ _ Hq E) as Hq'.
  destruct (IH q' Hq') as (H1 & H2 & H3).
  { rewrite HL, length_app. cbn. lia. }
  destruct (run q' _) as [a q'']. cbn in *. split; [by rewrite H1|]. split; [done|].
  by rewrite H3, HL, <- app_assoc.
Qed.

Lemma run_pop_all q :
  eq_wf q ->
  (run q (replicate (length (eq_view q)) OpPop)).1 = (AItem ∘ Ok) <$> eq_view q /\
  eq_view (run q (replicate (length (eq_view q)) OpPop)).2 = [].
Proof.
  intros Hq. remember (eq_view q) as l eqn:El. revert q Hq El.
  induction l as [|x l IH]; intros q Hq El; [done|]. cbn.
  pose proof (eq_Pop_law q Hq) as HL. rewrite <- El in HL. cbn in HL.
  destruct (eq_Pop q) as [[y q']| |] eqn:E; try done. injection HL as -> HL.
  pose proof (eq_Pop_wf _ _ _ Hq E) as Hq'.
  destruct (IH q' Hq') as [H1 H2]; [done|].
  destruct (run q' _) as [a q'']. cbn in *. by rewrite H1.
Qed.
End Refinement.

(** ** Properties *)

(** C12. The ring is a bounded FIFO: any program of pushes, pops and peeks run on
    a fresh queue answers exactly as it does on the abstract queue of capacity
    [MaxEgressQueueSize] (ErrQueueFull and ErrQueueEmpty at the same calls, the
    oldest item otherwise, no panic), and leaves a well-formed ring. *)
Theorem queue_refines_fifo {A} (Max : Z) (blank : A) (ops : list (queue_op (option A))) :
  0 < Max ->
  let ring := Queue_EgressQueue Max blank in
  let r := run (H:=ring) (new_Queue Max) ops in
  wf Max r.2 /\
  run (H:=spec_queue (Z.to_nat Max) (option A)) [] ops = (r.1, view Max r.2).
Proof.
  intros Hmax ring r.
  apply (run_refines (H0:=Queue_EgressQueueLaws Max blank Hmax)).
  exact (wf_new Max Hmax).
Qed.

(** Ten operations on a ring of two slots: the heads wrap, a push fails on the
    full queue and a pop on the empty one. *)
Definition sample_ops : list (queue_op (option nat)) :=
  [OpPush (Some 1%nat); OpPush (Some 2%nat); OpPush (Some 3%nat); OpPop;
   OpPush None; OpPeek; OpPop; OpPop; OpPop; OpPush (Some 4%nat)].

Lemma queue_refines_fifo_witness :
  run (H:=spec_queue 2 (option nat)) [] sample_ops
    = ((run (H:=Queue_EgressQueue 2 0%nat) (new_Queue 2) sample_ops).1, [Some 4%nat]).
Proof.
  destruct (queue_refines_fifo 2 0%nat sample_ops ltac:(lia)) as [_ E]. exact E.
Defined.

(** Items pushed while there is room come back in the order they were
    pushed, from any reachable head position: after [length l] pushes on a
    well-formed ring with that much room, all answered nil, popping until empty
    yields the old items and then [l], and one more pop answers ErrQueueEmpty. *)
Theorem queue_push_pop_roundtrip {A} (Max : Z) (blank : A) (q : Queue A)
    (l : list (option A)) :
  0 < Max -> wf Max q -> len q + Z.of_nat (length l) <= Max ->
  let ring := Queue_EgressQueue Max blank in
  let filled := run (H:=ring) q (OpPush <$> l) in
  let drained := run (H:=ring) filled.2 (replicate (length (view Max q ++ l)) OpPop) in
  filled.1 = replicate (length l) (APush (Ok tt)) /\
  drained.1 = (AItem ∘ Ok) <$> (view Max q ++ l) /\
  Pop Max blank drained.2 = Err ErrQueueEmpty.
Proof.
  intros Hmax Hq Hl ring filled drained.
  pose (laws := Queue_EgressQueueLaws Max blank Hmax).
  destruct (run_push_all (H0:=laws) l q Hq) as (H1 & H2 & H3).
  { cbn. rewrite length_view. pose proof (wf_len _ _ Hq). lia. }
  split; [exact H1|]. cbn in H3. subst drained. rewrite <- H3.
  destruct (run_pop_all (H0:=laws) filled.2 H2) as [H4 H5]. cbn in H4, H5.
  split; [exact H4|]. apply (f_equal length) in H5. rewrite length_view in H5.
  assert (forall z, Z.to_nat z = 0%nat -> (z <=? 0) = true) as Hz by lia.
  apply Hz in H5. unfold Pop. case_match eqn:E; [done|].
  exfalso. apply diff_true_false. rewrite <- E. symmetry. exact H5.
Qed.

Lemma queue_push_pop_roundtrip_witness :
  let q := mkQueue [Some 7%nat; None; None] 2 1 2 in
  (run (H:=Queue_EgressQueue 3 0%nat)
     (run (H:=Queue_EgressQueue 3 0%nat) q (OpPush <$> [Some 9%nat])).2
     (replicate 3 OpPop)).1 = [AItem (Ok None); AItem (Ok (Some 7%nat)); AItem (Ok (Some 9%nat))].
Proof.
  intros q.
  assert (wf 3 q) as Hq by (split; cbn; lia || reflexivity).
  destruct (queue_push_pop_roundtrip 3 0%nat q [Some 9%nat] ltac:(lia) Hq
    ltac:(cbn; lia)) as (_ & H & _).
  exact H.
Defined.
