(* ===== verification/TimerQueue.v ===== *)
(** The time-delayed queue (timer_queue.go). The priority queue is a library
    (katzenpost/core/queue): a class of operations with the laws its
    documentation states. The queue's methods and one iteration of its worker
    are functions; the goroutines (the worker, the one behind [wakeupCh], the
    callers) interleave in a step relation. *)

From S2P Require Import Prelude GoStd Queue.

(** ** The priority queue the code calls *)

Record Entry (A : Type) := mkEntry { Priority : Z; Value : A }.
Arguments mkEntry {A} _ _.
Arguments Priority {A} _.
Arguments Value {A} _.

Class PriorityQueue (PQ A : Type) := {
  pq_New : PQ;
  pq_Enqueue : PQ -> Z -> A -> PQ;
  pq_Peek : PQ -> option (Entry A);
  pq_Pop : PQ -> option (Entry A) * PQ;
  pq_RemovePriority : PQ -> Z -> option A * PQ;
  pq_Len : PQ -> Z;
}.

(** Its contents up to order; [Peek] and [Pop] give an entry of least priority,
    [RemovePriority] one of the given priority. *)
Class PriorityQueueLaws (PQ A : Type) `{PriorityQueue PQ A} := {
  pq_entries : PQ -> list (Entry A);
  pq_New_law : pq_entries pq_New = [];
  pq_Enqueue_law : forall q p v,
    pq_entries (pq_Enqueue q p v) ≡ₚ mkEntry p v :: pq_entries q;
  pq_Peek_None : forall q, pq_Peek q = None -> pq_entries q = [];
  pq_Peek_Some : forall q e, pq_Peek q = Some e ->
    e ∈ pq_entries q /\ forall e', e' ∈ pq_entries q -> Priority e <= Priority e';
  pq_Pop_law : forall q, (pq_Pop q).1 = pq_Peek q;
  pq_Pop_None : forall q, pq_Peek q = None -> (pq_Pop q).2 = q;
  pq_Pop_Some : forall q e, pq_Peek q = Some e ->
    pq_entries q ≡ₚ e :: pq_entries (pq_Pop q).2;
  pq_Remove_Some : forall q p v, (pq_RemovePriority q p).1 = Some v ->
    pq_entries q ≡ₚ mkEntry p v :: pq_entries (pq_RemovePriority q p).2;
  pq_Remove_None : forall q p, (pq_RemovePriority q p).1 = None ->
    (pq_RemovePriority q p).2 = q /\ forall e, e ∈ pq_entries q -> Priority e <> p;
  pq_Len_law : forall q, pq_Len q = Z.of_nat (length (pq_entries q));
}.

(** ** State and methods *)

Section TimerQueue.
Context {PQ NQ A : Type} `{PriorityQueueLaws PQ A} `{EgressQueueLaws NQ (option A)}.
(** The method [Priority()] of an item, a uint64. *)
Context (item_Priority : A -> Z).

(** [nextQ] is used through its [Push] only (the interface [nqueue]). *)
Record TimerQueue := mkTimerQueue { priq : PQ; nextQ : NQ }.

Definition NewTimerQueue (nextQueue : NQ) : TimerQueue := mkTimerQueue pq_New nextQueue.

(** The critical section of [Push]; a [Signal] follows it. *)
Definition Push (a : TimerQueue) (i : A) : TimerQueue :=
  mkTimerQueue (pq_Enqueue (priq a) (item_Priority i) i) (nextQ a).

Inductive remove_error := ErrRemove (priority : Z).

(** The second component tells whether the call signals the worker. *)
Definition Remove (a : TimerQueue) (i : A) : outcome remove_error unit * TimerQueue * bool :=
  match pq_Peek (priq a) with
  | None => (Ok tt, a, false)
  | Some mo =>
      if item_Priority (Value mo) =? item_Priority i then
        let pq := (pq_Pop (priq a)).2 in
        (Ok tt, mkTimerQueue pq (nextQ a), 0 <? pq_Len pq)
      else
        let priority := item_Priority (Value mo) in
        let '(r, pq) := pq_RemovePriority (priq a) priority in
        match r with
        | None => (Err (ErrRemove priority), mkTimerQueue pq (nextQ a), false)
        | Some _ => (Ok tt, mkTimerQueue pq (nextQ a), false)
        end
  end.

(** [forward]: the pop, under the lock, and the push after it, which panics when [nextQ]
    refuses the item. *)
Definition forward_pop (a : TimerQueue) : option A * TimerQueue :=
  let '(m, pq) := pq_Pop (priq a) in (Value <$> m, mkTimerQueue pq (nextQ a)).
Definition forward_push (a : TimerQueue) (item : A) : outcome Empty_set TimerQueue :=
  match eq_Push (nextQ a) (Some item) with
  | Ok nq => Ok (mkTimerQueue (priq a) nq)
  | Err _ | Panic => Panic
  end.
Definition forward (a : TimerQueue) : outcome Empty_set TimerQueue :=
  let '(m, a) := forward_pop a in
  match m with
  | None => Ok a
  | Some item => forward_push a item
  end.

(** What the worker does after looking at the head: forward at once, or block
    in the select, with the deadline of [time.After] when there is an item.
    [now1], [now2] are the two readings of the clock. *)
Inductive decision := DForward | DSelect (c : option Time).

Definition worker_decide (a : TimerQueue) (now1 now2 : Time) : decision :=
  match pq_Peek (priq a) with
  | None => DSelect None
  | Some m =>
      let timeLeft := i64 (i64 (Priority m) - Time_UnixNano now1) in
      if (timeLeft <? 0) || (Priority m <? u64 (Time_UnixNano now2)) then DForward
      else DSelect (Some (Time_Add now2 timeLeft))
  end.

(** The worker at a fixed time, until it blocks: [None] when [fuel] runs out,
    an iteration that forwards uses one unit. *)
Fixpoint worker_drain (fuel : nat) (now : Time) (a : TimerQueue) :
    option (outcome Empty_set (TimerQueue * option Time)) :=
  match worker_decide a now now with
  | DSelect c => Some (Ok (a, c))
  | DForward =>
      match fuel with
      | O => None
      | S fuel =>
          match forward a with
          | Ok a' => worker_drain fuel now a'
          | Err e => Some (Err e)
          | Panic => Some Panic
          end
      end
  end.

(** Every queued item carries the priority it was queued with. *)
Definition keyed (a : TimerQueue) : Prop :=
  Forall (fun e => Priority e = item_Priority (Value e) /\ is_u64 (Priority e))
    (pq_entries (priq a)).

Lemma keyed_new q : keyed (NewTimerQueue q).
Proof. unfold keyed. cbn. rewrite pq_New_law. constructor. Qed.

Lemma keyed_Push a i : is_u64 (item_Priority i) -> keyed a -> keyed (Push a i).
Proof.
  unfold keyed. cbn. intros Hi Ha. rewrite pq_Enqueue_law. by constructor.
Qed.

Lemma forward_inv a a' :
  forward a = Ok a' ->
  (pq_Peek (priq a) = None /\ a' = a) \/
  exists e, pq_Peek (priq a) = Some e /\
    pq_entries (priq a) ≡ₚ e :: pq_entries (priq a') /\
    eq_Push (nextQ a) (Some (Value e)) = Ok (nextQ a').
Proof.
  unfold forward, forward_pop, forward_push. pose proof (pq_Pop_law (priq a)) as Hp.
  pose proof (pq_Pop_None (priq a)) as Hn. pose proof (pq_Pop_Some (priq a)) as Hs.
  destruct (pq_Pop (priq a)) as [m pq]. cbn in *. subst m.
  destruct (pq_Peek (priq a)) as [e|].
  - cbn. destruct (eq_Push _ _) eqn:E; [|done..]. intros [= <-]. right. exists e. auto.
  - cbn. intros [= <-]. left. rewrite Hn by done. by destruct a.
Qed.

(** When the head is due, and the exact set of priorities that count as due:
    the subtraction wraps, so priorities beyond [2^63 + now] are due at once. *)
Lemma decide_forward_iff m now :
  0 <= now < 2 ^ 63 -> is_u64 m ->
  let timeLeft := i64 (i64 m - Time_UnixNano now) in
  (timeLeft <? 0) || (m <? u64 (Time_UnixNano now)) = true <-> m < now \/ 2 ^ 63 + now <= m.
Proof.
  intros Hn Hm. unfold is_u64 in Hm. cbn zeta.
  assert (Time_UnixNano now = now) as -> by (apply i64_small; unfold is_i64; lia).
  rewrite (u64_small now) by (unfold is_u64; lia). rewrite orb_true_iff, !Z.ltb_lt.
  destruct (Z.lt_ge_cases m (2 ^ 63)).
  - rewrite (i64_small m), (i64_small (m - now)) by (unfold is_i64; lia). lia.
  - rewrite (i64_of_high m) by lia. destruct (Z.lt_ge_cases m (2 ^ 63 + now)).
    + replace (i64 (m - 2 ^ 64 - now)) with (m - now); [lia|].
      unfold wrap_s. rewrite <- (Z.mod_unique (m - 2 ^ 64 - now + 2 ^ (64 - 1)) (2 ^ 64) (-1)
        (m - now + 2 ^ 63)); lia.
    + rewrite (i64_small (m - 2 ^ 64 - now)) by (unfold is_i64; lia). lia.
Qed.

Lemma decide_wait_exact m now :
  0 <= now < 2 ^ 63 -> is_u64 m -> now <= m < 2 ^ 63 + now ->
  i64 (i64 m - Time_UnixNano now) = m - now.
Proof.
  intros Hn Hm Hw. unfold is_u64 in Hm.
  assert (Time_UnixNano now = now) as -> by (apply i64_small; unfold is_i64; lia).
  destruct (Z.lt_ge_cases m (2 ^ 63)).
  - by rewrite (i64_small m), (i64_small (m - now)) by (unfold is_i64; lia).
  - rewrite (i64_of_high m) by lia. unfold wrap_s.
    rewrite <- (Z.mod_unique (m - 2 ^ 64 - now + 2 ^ (64 - 1)) (2 ^ 64) (-1)
      (m - now + 2 ^ 63)); lia.
Qed.

(** ** Draining due items *)

Lemma eq_Push_room q (x : option A) :
  eq_wf q -> (length (eq_view q) < eq_cap)%nat ->
  exists q', eq_Push q x = Ok q' /\ eq_wf q' /\ eq_view q' = eq_view q ++ [x].
Proof.
  intros Hq Hr. pose proof (eq_Push_law q x Hq) as HL. unfold spec_Push in HL.
  rewrite decide_False in HL by lia.
  destruct (eq_Push q x) as [q'| |] eqn:E; try done. injection HL as HL.
  exists q'. eauto using eq_Push_wf.
Qed.

Lemma worker_drain_due fuel now a :
  0 <= now < 2 ^ 63 -> keyed a -> eq_wf (nextQ a) ->
  Forall (fun e => Priority e < now) (pq_entries (priq a)) ->
  length (pq_entries (priq a)) = fuel ->
  (length (eq_view (nextQ a)) + fuel <= eq_cap)%nat ->
  exists a' es, worker_drain fuel now a = Some (Ok (a', None)) /\
    pq_entries (priq a') = [] /\
    es ≡ₚ pq_entries (priq a) /\
    StronglySorted (fun e e' => Priority e <= Priority e') es /\
    eq_wf (nextQ a') /\
    eq_view (nextQ a') = eq_view (nextQ a) ++ ((Some ∘ Value) <$> es).
Proof.
  intros Hn. revert a. induction fuel as [|fuel IH]; intros a Hk Hq Hdue Hlen Hroom.
  { apply nil_length_inv in Hlen. exists a, [].
    unfold worker_drain, worker_decide.
    destruct (pq_Peek (priq a)) as [e|] eqn:Ep.
    - apply pq_Peek_Some in Ep as [Hin _]. rewrite Hlen in Hin. by apply not_elem_of_nil in Hin.
    - rewrite Hlen, app_nil_r. repeat split; auto using StronglySorted. }
  destruct (pq_Peek (priq a)) as [e|] eqn:Ep.
  2: { apply pq_Peek_None in Ep. by rewrite Ep in Hlen. }
  destruct (pq_Peek_Some _ _ Ep) as [Hin Hmin].
  assert (worker_decide a now now = DForward) as Hd.
  { assert (is_u64 (Priority e)) as He.
    { unfold keyed in Hk. rewrite Forall_forall in Hk. by destruct (Hk e Hin). }
    rewrite Forall_forall in Hdue.
    unfold worker_decide. rewrite Ep. cbv zeta.
    rewrite (proj2 (decide_forward_iff (Priority e) now Hn He)); auto. }
  cbn [worker_drain]. rewrite Hd.
  destruct (eq_Push_room (nextQ a) (Some (Value e)) Hq) as (nq & En & Hq' & Hv); [lia|].
  assert (exists a', forward a = Ok a') as [a' Ef].
  { unfold forward, forward_pop, forward_push. pose proof (pq_Pop_law (priq a)) as Hp.
    destruct (pq_Pop (priq a)) as [m pq]. cbn in Hp. rewrite Hp, Ep. cbn. rewrite En. eauto. }
  rewrite Ef. destruct (forward_inv _ _ Ef) as [[? _]|(e' & Ee & Hperm & Ep')]; [congruence|].
  assert (e' = e) as -> by congruence. assert (nq = nextQ a') as -> by congruence.
  unfold keyed in Hk. rewrite Hperm in Hk, Hdue. apply Forall_cons in Hk as [_ Hk].
  apply Forall_cons in Hdue as [_ Hdue].
  apply Permutation_length in Hperm as Hl. cbn in Hl.
  destruct (IH a' Hk) as (a2 & es & E2 & Hemp & Hes & Hsort & Hw2 & Hv2);
    [done|done|lia|rewrite Hv, length_app; cbn; lia|].
  exists a2, (e :: es). split; [exact E2|]. split; [exact Hemp|].
  split; [by rewrite Hes, Hperm|]. split; [|split; [exact Hw2|]].
  - constructor; [exact Hsort|]. rewrite Hes. apply Forall_forall. intros e2 He2.
    apply Hmin. rewrite Hperm. by right.
  - rewrite Hv2, Hv. cbn. by rewrite <- app_assoc.
Qed.

(** ** What [Remove] removes *)

Lemma Remove_removes_head a i m :
  keyed a -> pq_Peek (priq a) = Some m ->
  exists v a', (Remove a i).1 = (Ok tt, a') /\ nextQ a' = nextQ a /\
    Priority m = item_Priority v /\
    pq_entries (priq a) ≡ₚ mkEntry (Priority m) v :: pq_entries (priq a').
Proof.
  intros Hk Hp. unfold keyed in Hk. destruct (pq_Peek_Some _ _ Hp) as [Hin _].
  assert (Priority m = item_Priority (Value m)) as Hm.
  { rewrite Forall_forall in Hk. by destruct (Hk m Hin). }
  unfold Remove. rewrite Hp. destruct (Z.eqb_spec (item_Priority (Value m)) (item_Priority i)).
  - cbn. exists (Value m). eexists. split; [done|]. cbn. split; [done|]. split; [done|].
    rewrite (pq_Pop_Some _ _ Hp) at 1. by destruct m.
  - rewrite <- Hm. destruct (pq_RemovePriority (priq a) (Priority m)) as [r pq] eqn:Er.
    destruct r as [v|].
    + pose proof (pq_Remove_Some (priq a) (Priority m) v) as Hr. rewrite Er in Hr.
      specialize (Hr eq_refl). cbn in *. exists v. eexists. split; [done|]. split; [done|].
      split; [|exact Hr]. rewrite Hr in Hk. apply Forall_cons in Hk as [[Hv _] _]. exact Hv.
    + pose proof (pq_Remove_None (priq a) (Priority m)) as Hr. rewrite Er in Hr.
      destruct (Hr eq_refl) as [_ Hno]. by destruct (Hno m Hin).
Qed.
End TimerQueue.

Arguments TimerQueue : clear implicits.
Arguments mkTimerQueue {PQ NQ} _ _.
Arguments priq {PQ NQ} _.
Arguments nextQ {PQ NQ} _.

(** ** A concrete priority queue (an unordered list searched for its minimum),
    on which the classes' laws hold; the witnesses compute with it. *)

Section ListPQ.
Context {A : Type}.

Fixpoint extract_min (l : list (Entry A)) : option (Entry A * list (Entry A)) :=
  match l with
  | [] => None
  | e :: l =>
      match extract_min l with
      | None => Some (e, [])
      | Some (m, r) => if Priority e <=? Priority m then Some (e, l) else Some (m, e :: r)
      end
  end.

Fixpoint extract_prio (p : Z) (l : list (Entry A)) : option A * list (Entry A) :=
  match l with
  | [] => (None, [])
  | e :: l =>
      if Priority e =? p then (Some (Value e), l)
      else let '(r, l') := extract_prio p l in (r, e :: l')
  end.

#[export] Instance list_PriorityQueue : PriorityQueue (list (Entry A)) A :=
  {| pq_New := []; pq_Enqueue := fun l p v => l ++ [mkEntry p v];
     pq_Peek := fun l => fst <$> extract_min l;
     pq_Pop := fun l => (fst <$> extract_min l, from_option snd l (extract_min l));
     pq_RemovePriority := fun l p => extract_prio p l;
     pq_Len := fun l => Z.of_nat (length l) |}.

Lemma extract_min_None l : extract_min l = None -> l = [].
Proof. destruct l as [|e l]; [done|]. cbn. destruct (extract_min l) as [[]|]; [case_match|]; done. Qed.

Lemma extract_min_Some l m r :
  extract_min l = Some (m, r) ->
  l ≡ₚ m :: r /\ Forall (fun e => Priority m <= Priority e) l.
Proof.
  revert m r. induction l as [|e l IH]; intros m r; [done|]. cbn.
  destruct (extract_min l) as [[m' r']|] eqn:E.
  - destruct (IH m' r' eq_refl) as [Hp Hf].
    destruct (Z.leb_spec (Priority e) (Priority m')); intros; simplify_eq.
    + split; [done|]. constructor; [lia|]. eapply Forall_impl; [exact Hf|]. cbn. lia.
    + split; [rewrite Hp at 1; apply Permutation_swap|]. constructor; [lia|done].
  - intros. simplify_eq. apply extract_min_None in E as ->.
    split; [done|]. repeat constructor. lia.
Qed.

Lemma extract_prio_spec p l :
  match extract_prio p l with
  | (Some v, r) => l ≡ₚ mkEntry p v :: r
  | (None, r) => r = l /\ Forall (fun e => Priority e <> p) l
  end.
Proof.
  induction l as [|e l IH]; cbn; [by auto|].
  destruct (Z.eqb_spec (Priority e) p) as [<-|Hne]; [by destruct e|].
  destruct (extract_prio p l) as [[v|] r].
  - rewrite IH at 1. apply Permutation_swap.
  - destruct IH as [-> Hf]. by auto.
Qed.

#[export] Program Instance list_PriorityQueueLaws : PriorityQueueLaws (list (Entry A)) A :=
  {| pq_entries := id |}.
Next Obligation. done. Qed.
Next Obligation. intros q p v. cbn. by rewrite Permutation_app_comm. Qed.
Next Obligation.
  intros q. cbn. destruct (extract_min q) as [[m r]|] eqn:E; [done|].
  intros _. by apply extract_min_None in E.
Qed.
Next Obligation.
  intros q e. cbn. destruct (extract_min q) as [[m r]|] eqn:E; [|done].
  intros [= ->]. apply extract_min_Some in E as [Hp Hf]. split.
  - rewrite Hp. by left.
  - by rewrite Forall_forall in Hf.
Qed.
Next Obligation. done. Qed.
Next Obligation. intros q. cbn. by destruct (extract_min q) as [[m r]|]. Qed.
Next Obligation.
  intros q e. cbn. destruct (extract_min q) as [[m r]|] eqn:E; [|done].
  intros [= ->]. by apply extract_min_Some in E as [Hp _].
Qed.
Next Obligation.
  intros q p v. cbn. pose proof (extract_prio_spec p q) as H.
  destruct (extract_prio p q) as [[]]; intros; simplify_eq/=. exact H.
Qed.
Next Obligation.
  intros q p. cbn. pose proof (extract_prio_spec p q) as H.
  destruct (extract_prio p q) as [[]]; intros; simplify_eq/=.
  destruct H as [-> Hf]. by rewrite Forall_forall in Hf.
Qed.
Next Obligation. done. Qed.
End ListPQ.

(** ** The goroutines *)

(** The worker is at the top of its loop, about to forward, between the pop and the push of
    [forward] with an item in hand, in the select (with the timer channel's deadline),
    terminated, or panicking over an item. *)
Inductive worker_pc (A : Type) :=
  | WLoop | WForward | WPush (item : A) | WSelect (c : option Time) | WHalted | WPanicked (item : A).
Arguments WLoop {A}.
Arguments WForward {A}.
Arguments WPush {A} item.
Arguments WSelect {A} c.
Arguments WHalted {A}.
Arguments WPanicked {A} item.

(** The goroutine started by [wakeupCh]: not started, before [Wait] registers
    it, waiting on the condition, offering a wake-up on [c], returned. *)
Inductive waker_pc := KNone | KStart | KWait | KSend | KDone.

Section Concurrent.
Context {PQ NQ A : Type} `{PriorityQueueLaws PQ A} `{EgressQueueLaws NQ (option A)}.
Context (item_Priority : A -> Z).

Record Sys := mkSys {
  tq : TimerQueue PQ NQ;
  wpc : worker_pc A;
  kpc : waker_pc;
  now : Time;
  signals : nat;        (* callers of Push between Unlock and Signal *)
  halting : bool;       (* the halt channel is closed *)
  pushed : list A;      (* ghost: arguments of Push *)
  removed : list A;     (* ghost: items taken out by Remove *)
  forwarded : list A;   (* ghost: items forward took out for nextQ *)
}.

Definition sys_init (q : NQ) (t : Time) : Sys :=
  mkSys (NewTimerQueue q) WLoop KNone t 0 false [] [] [].

(** [Signal] wakes the goroutine if it is waiting, and is lost otherwise. *)
Definition Signal (k : waker_pc) : waker_pc :=
  match k with KWait => KSend | _ => k end.

(** What a call of [Remove] takes out of the queue. *)
Definition removed_by (a : TimerQueue PQ NQ) (i : A) : list A :=
  match pq_Peek (priq a) with
  | None => []
  | Some mo =>
      if item_Priority (Value mo) =? item_Priority i then [Value mo]
      else option_list (pq_RemovePriority (priq a) (item_Priority (Value mo))).1
  end.

(** Steps of callers. *)
Inductive call_step (s : Sys) : Sys -> Prop :=
  | c_push i : is_u64 (item_Priority i) ->
      call_step s (mkSys (Push item_Priority (tq s) i) (wpc s) (kpc s) (now s)
        (S (signals s)) (halting s) (pushed s ++ [i]) (removed s) (forwarded s))
  | c_remove i r a' sig : Remove item_Priority (tq s) i = (r, a', sig) ->
      call_step s (mkSys a' (wpc s) (if sig : bool then Signal (kpc s) else kpc s) (now s)
        (signals s) (halting s) (pushed s) (removed s ++ removed_by (tq s) i) (forwarded s))
  | c_halt :
      call_step s (mkSys (tq s) (wpc s) (kpc s) (now s) (signals s) true
        (pushed s) (removed s) (forwarded s)).

(** Steps of the two goroutines, of the clock and of a caller's pending
    [Signal]. *)
Inductive internal_step (s : Sys) : Sys -> Prop :=
  | i_tick t : now s <= t ->
      internal_step s (mkSys (tq s) (wpc s) (kpc s) t (signals s) (halting s)
        (pushed s) (removed s) (forwarded s))
  | i_signal n : signals s = S n ->
      internal_step s (mkSys (tq s) (wpc s) (Signal (kpc s)) (now s) n (halting s)
        (pushed s) (removed s) (forwarded s))
  | i_due t : wpc s = WLoop -> now s <= t -> worker_decide (tq s) (now s) t = DForward ->
      internal_step s (mkSys (tq s) WForward (kpc s) t (signals s) (halting s)
        (pushed s) (removed s) (forwarded s))
  | i_select t c : wpc s = WLoop -> now s <= t -> worker_decide (tq s) (now s) t = DSelect c ->
      internal_step s (mkSys (tq s) (WSelect c)
        (match kpc s with KNone => KStart | k => k end) t (signals s) (halting s)
        (pushed s) (removed s) (forwarded s))
  | i_pop m a' : wpc s = WForward -> forward_pop (tq s) = (m, a') ->
      internal_step s (mkSys a' (match m with None => WLoop | Some item => WPush item end)
        (kpc s) (now s) (signals s) (halting s)
        (pushed s) (removed s) (forwarded s ++ option_list m))
  | i_push item a' : wpc s = WPush item -> forward_push (tq s) item = Ok a' ->
      internal_step s (mkSys a' WLoop (kpc s) (now s) (signals s) (halting s)
        (pushed s) (removed s) (forwarded s))
  | i_panic item : wpc s = WPush item -> forward_push (tq s) item = Panic ->
      internal_step s (mkSys (tq s) (WPanicked item) (kpc s) (now s) (signals s) (halting s)
        (pushed s) (removed s) (forwarded s))
  | i_timer d : wpc s = WSelect (Some d) -> d <= now s ->
      internal_step s (mkSys (tq s) WForward (kpc s) (now s) (signals s) (halting s)
        (pushed s) (removed s) (forwarded s))
  | i_wake c : wpc s = WSelect c -> kpc s = KSend ->
      internal_step s (mkSys (tq s) WLoop KStart (now s) (signals s) (halting s)
        (pushed s) (removed s) (forwarded s))
  | i_wake_closed c : wpc s = WSelect c -> kpc s = KDone ->
      internal_step s (mkSys (tq s) WLoop KDone (now s) (signals s) (halting s)
        (pushed s) (removed s) (forwarded s))
  | i_halt c : wpc s = WSelect c -> halting s = true ->
      internal_step s (mkSys (tq s) WHalted (kpc s) (now s) (signals s) (halting s)
        (pushed s) (removed s) (forwarded s))
  | i_wait : kpc s = KStart ->
      internal_step s (mkSys (tq s) (wpc s) KWait (now s) (signals s) (halting s)
        (pushed s) (removed s) (forwarded s))
  | i_waker_halt : kpc s = KSend -> halting s = true ->
      internal_step s (mkSys (tq s) (wpc s) KDone (now s) (signals s) (halting s)
        (pushed s) (removed s) (forwarded s)).

Definition sys_step (s s' : Sys) : Prop := call_step s s' \/ internal_step s s'.

Definition sys_initial (q : NQ) (s : Sys) : Prop := exists t, s = sys_init q t.

(** The item the worker holds, between the two halves of [forward]. *)
Definition in_hand (s : Sys) : list A :=
  match wpc s with WPush item | WPanicked item => [item] | _ => [] end.

(** Nothing is lost and nothing is invented: what was pushed is queued,
    removed or forwarded, and [nextQ] received exactly the forwarded items, but for the one
    in the worker's hand. *)
Record conserved (q : NQ) (s : Sys) : Prop := {
  cons_keyed : keyed item_Priority (tq s);
  cons_wf : eq_wf (nextQ (tq s));
  cons_items : pushed s ≡ₚ (Value <$> pq_entries (priq (tq s))) ++ removed s ++ forwarded s;
  cons_next : eq_view (nextQ (tq s)) ++ (Some <$> in_hand s) = eq_view q ++ (Some <$> forwarded s);
}.

Lemma conserved_frame q s s' :
  conserved q s -> tq s' = tq s -> pushed s' = pushed s -> removed s' = removed s ->
  forwarded s' = forwarded s -> in_hand s' = in_hand s -> conserved q s'.
Proof. intros [? ? ? ?] E1 E2 E3 E4 E5. split; rewrite ?E1, ?E2, ?E3, ?E4, ?E5; done. Qed.

Lemma conserved_init q t : eq_wf q -> conserved q (sys_init q t).
Proof.
  intros Hq. split; cbn; [apply keyed_new|done| |done].
  by rewrite pq_New_law.
Qed.

Lemma removed_by_spec a i r a' sig :
  keyed item_Priority a -> Remove item_Priority a i = (r, a', sig) ->
  nextQ a' = nextQ a /\
  exists es, pq_entries (priq a) ≡ₚ es ++ pq_entries (priq a') /\
    removed_by a i = Value <$> es.
Proof.
  intros Hk. unfold Remove, removed_by.
  destruct (pq_Peek (priq a)) as [m|] eqn:Ep.
  2: { intros. simplify_eq. split; [done|]. by exists []. }
  destruct (Z.eqb_spec (item_Priority (Value m)) (item_Priority i)).
  - intros. simplify_eq. split; [done|]. exists [m]. split; [|done]. cbn.
    by apply pq_Pop_Some.
  - pose proof (pq_Remove_Some (priq a) (item_Priority (Value m))) as Hs.
    pose proof (pq_Remove_None (priq a) (item_Priority (Value m))) as Hn.
    destruct (pq_RemovePriority _ _) as [[v|] pq]; intros; simplify_eq; (split; [done|]).
    + eexists [mkEntry _ v]. split; [|done]. cbn. by apply Hs.
    + exists []. split; [|done]. cbn in *. by destruct Hn as [-> _].
Qed.

Lemma conserved_pop q s m a' :
  conserved q s -> wpc s = WForward -> forward_pop (tq s) = (m, a') ->
  conserved q (mkSys a' (match m with None => WLoop | Some item => WPush item end)
    (kpc s) (now s) (signals s) (halting s) (pushed s) (removed s) (forwarded s ++ option_list m)).
Proof.
  intros [Hk Hw Hp Hv] Ew Ef. unfold forward_pop in Ef. pose proof (pq_Pop_law (priq (tq s))) as HL.
  pose proof (pq_Pop_None (priq (tq s))) as Hn. pose proof (pq_Pop_Some (priq (tq s))) as Hs.
  destruct (pq_Pop (priq (tq s))) as [e pq]. cbn in *. subst e. injection Ef as <- <-.
  unfold in_hand in Hv. rewrite Ew, app_nil_r in Hv. destruct (pq_Peek (priq (tq s))) as [e|]; cbn.
  - specialize (Hs e eq_refl). split; cbn.
    + unfold keyed in *. rewrite Hs in Hk. by apply Forall_cons in Hk as [_ Hk].
    + done.
    + rewrite Hp, Hs. cbn. solve_Permutation.
    + unfold in_hand. cbn. by rewrite Hv, fmap_app, <- app_assoc.
  - rewrite app_nil_r, Hn by done. split; cbn; [by destruct (tq s)|done|done|].
    unfold in_hand. cbn. by rewrite app_nil_r.
Qed.

Lemma conserved_push q s item a' :
  conserved q s -> wpc s = WPush item -> forward_push (tq s) item = Ok a' ->
  conserved q (mkSys a' WLoop (kpc s) (now s) (signals s) (halting s) (pushed s) (removed s)
    (forwarded s)).
Proof.
  intros [Hk Hw Hp Hv] Ew Ef. unfold forward_push in Ef.
  pose proof (eq_Push_law (nextQ (tq s)) (Some item) Hw) as HL.
  destruct (eq_Push (nextQ (tq s)) (Some item)) as [nq|e|] eqn:Eq; [|done..]. injection Ef as <-.
  unfold spec_Push in HL. case_decide; [done|]. injection HL as HL.
  split; cbn; [done|by eapply eq_Push_wf|done|].
  unfold in_hand in *. rewrite Ew in Hv. cbn in *. by rewrite app_nil_r, HL.
Qed.

Lemma conserved_step q s s' : conserved q s -> sys_step s s' -> conserved q s'.
Proof.
  intros Hs [Hc|Hi].
  - destruct Hc as [i Hi|i r a' sig Er|].
    + destruct Hs as [Hk Hw Hp Hv]. split; cbn; [by apply keyed_Push|done| |done].
      rewrite pq_Enqueue_law, Hp. cbn. by rewrite Permutation_app_comm.
    + destruct (removed_by_spec _ _ _ _ _ (cons_keyed _ _ Hs) Er) as (En & es & Hes & Er').
      destruct Hs as [Hk Hw Hp Hv]. split; cbn; rewrite ?En; [|done| |done].
      * unfold keyed in *. rewrite Hes in Hk. by apply Forall_app in Hk as [_ Hk].
      * rewrite Er', Hp, Hes, fmap_app. solve_Permutation.
    + by eapply conserved_frame.
  - destruct Hi as [| | | |m a' Hw Ef|item a' Hw Ef|item Hw Ef| | | | | |];
      try (eapply conserved_frame; [exact Hs|done..|]; unfold in_hand; cbn;
           repeat match goal with H : wpc s = _ |- _ => rewrite H; clear H end; done).
    + by eapply conserved_pop.
    + by eapply conserved_push.
Qed.
End Concurrent.

Arguments Sys : clear implicits.

(** ** Properties *)

Section Properties.
Context {PQ NQ A : Type} `{PriorityQueueLaws PQ A} `{EgressQueueLaws NQ (option A)}.
Context (item_Priority : A -> Z).

(** C34. Draining: when every queued item is due and [nextQ] has room for them
    all, the worker forwards every one of them, in nondecreasing order of
    priority, and then blocks in the select without a timer; one iteration per
    item is enough, so the loop terminates. *)
Theorem timer_queue_drains_in_order (a : TimerQueue PQ NQ) (now : Time) :
  0 <= now < 2 ^ 63 -> keyed item_Priority a -> eq_wf (nextQ a) ->
  Forall (fun e => Priority e < now) (pq_entries (priq a)) ->
  (length (eq_view (nextQ a)) + length (pq_entries (priq a)) <= eq_cap)%nat ->
  exists a' es,
    worker_drain (length (pq_entries (priq a))) now a = Some (Ok (a', None)) /\
    pq_entries (priq a') = [] /\
    es ≡ₚ pq_entries (priq a) /\
    StronglySorted (fun e e' => Priority e <= Priority e') es /\
    eq_view (nextQ a') = eq_view (nextQ a) ++ ((Some ∘ Value) <$> es).
Proof.
  intros Hn Hk Hq Hdue Hroom.
  destruct (worker_drain_due item_Priority _ now a Hn Hk Hq Hdue eq_refl Hroom)
    as (a' & es & ? & ? & ? & ? & ? & ?).
  exists a', es. auto.
Qed.

(** The worker's test for a due item, with its wrap-around: at time [now]
    the head of priority [p] is forwarded at once exactly when [p < now] or
    [p >= 2^63 + now] (where the int64 subtraction turns negative), and
    otherwise the worker waits with a timer that expires at time [p]. *)
Theorem timer_queue_due_iff (a : TimerQueue PQ NQ) (now : Time) (m : Entry A) :
  0 <= now < 2 ^ 63 -> is_u64 (Priority m) -> pq_Peek (priq a) = Some m ->
  (worker_decide a now now = DForward <->
     Priority m < now \/ 2 ^ 63 + now <= Priority m) /\
  (now <= Priority m < 2 ^ 63 + now ->
     worker_decide a now now = DSelect (Some (Priority m))).
Proof.
  intros Hn Hm Hp. unfold worker_decide. rewrite Hp. cbv zeta.
  pose proof (decide_forward_iff (Priority m) now Hn Hm) as Hd. cbv zeta in Hd.
  destruct (_ || _); (split; [split; intros ?|intros Hw]); try done.
  - by apply Hd.
  - apply proj1 in Hd. specialize (Hd eq_refl). lia.
  - destruct Hd as [_ Hd]. by discriminate Hd.
  - rewrite decide_wait_exact by done. unfold Time_Add. do 2 f_equal. lia.
Qed.

(** [Remove] takes the head whatever item it is given: on a non-empty queue
    it answers nil and removes exactly one entry, of the least priority; an
    item of a larger priority passed to it stays in the queue. *)
Theorem timer_queue_remove_takes_head (a : TimerQueue PQ NQ) (i : A) (m : Entry A) :
  keyed item_Priority a -> pq_Peek (priq a) = Some m ->
  exists v a', (Remove item_Priority a i).1 = (Ok tt, a') /\
    pq_entries (priq a) ≡ₚ mkEntry (Priority m) v :: pq_entries (priq a') /\
    (forall e, e ∈ pq_entries (priq a) -> Priority m < Priority e ->
       e ∈ pq_entries (priq a')).
Proof.
  intros Hk Hp. destruct (Remove_removes_head _ _ i m Hk Hp) as (v & a' & Hr & _ & _ & Hperm).
  exists v, a'. split; [done|]. split; [done|]. intros e He Hlt.
  rewrite Hperm in He. apply elem_of_cons in He as [->|]; [cbn in Hlt; lia|done].
Qed.

(** C18. Under every interleaving of callers, worker and wake-up goroutine the
    items pushed are exactly those still queued, removed or forwarded, each
    once, and the next queue received the forwarded ones in order; while the worker is
    between the pop and the push of [forward], all but the one in its hand. *)
Theorem timer_queue_conserves_items (q : NQ) (s : Sys PQ NQ A) :
  eq_wf q -> reachable (sys_initial q) (sys_step item_Priority) s ->
  pushed s ≡ₚ (Value <$> pq_entries (priq (tq s))) ++ removed s ++ forwarded s /\
  eq_view (nextQ (tq s)) ++
    (Some <$> match wpc s with WPush item | WPanicked item => [item] | _ => [] end) =
  eq_view q ++ (Some <$> forwarded s).
Proof.
  intros Hq Hr. enough (conserved item_Priority q s) as [_ _ ? ?] by done.
  revert s Hr. apply reachable_ind_inv.
  - intros s [t ->]. by apply conserved_init.
  - intros s s'. apply conserved_step.
Qed.
End Properties.

(** Items of the examples: a name and a priority; the next queue has 3 slots. *)
Definition ex_prio (i : nat * Z) : Z := i.2.
Definition ex_next : EgressQueue (Queue (nat * Z)) (option (nat * Z)) :=
  Queue_EgressQueue 3 (0%nat, 0).
Definition ex_laws : EgressQueueLaws (H:=ex_next) (Queue (nat * Z)) (option (nat * Z)) :=
  Queue_EgressQueueLaws 3 (0%nat, 0) eq_refl.
#[local] Existing Instance ex_next.
#[local] Existing Instance ex_laws.
Definition ex_tq (l : list (nat * Z)) : TimerQueue (list (Entry (nat * Z))) (Queue (nat * Z)) :=
  mkTimerQueue ((fun i => mkEntry i.2 i) <$> l) (new_Queue 3).

Lemma ex_tq_keyed l : Forall (fun i => is_u64 i.2) l -> keyed ex_prio (ex_tq l).
Proof.
  intros Hl. unfold keyed, ex_tq. cbn. apply Forall_fmap. eapply Forall_impl; [exact Hl|].
  by intros [n p].
Qed.

Lemma timer_queue_drains_in_order_witness :
  exists a' es,
    worker_drain (H1:=ex_next) 3 10 (ex_tq [(1%nat, 7); (2%nat, 3); (3%nat, 5)])
      = Some (Ok (a', None)) /\
    view 3 (nextQ a') = (Some ∘ Value) <$> es /\
    StronglySorted (fun e e' => Priority e <= Priority e') es.
Proof.
  assert (keyed ex_prio (ex_tq [(1%nat, 7); (2%nat, 3); (3%nat, 5)])) as Hk.
  { apply ex_tq_keyed. repeat constructor; cbn; lia. }
  destruct (timer_queue_drains_in_order (H2:=ex_laws) ex_prio _ 10
    ltac:(lia) Hk (wf_new 3 eq_refl) ltac:(repeat constructor; cbn; lia)
    ltac:(vm_compute; lia)) as (a' & es & H1 & _ & _ & H4 & H5).
  exists a', es. split; [exact H1|]. split; [exact H5|exact H4].
Defined.

Lemma timer_queue_due_iff_witness :
  worker_decide (ex_tq [(1%nat, 2 ^ 64 - 1)]) 1000 1000 = DForward /\
  worker_decide (ex_tq [(1%nat, 5000)]) 1000 1000 = DSelect (Some 5000).
Proof.
  split.
  - apply (timer_queue_due_iff (ex_tq [(1%nat, 2 ^ 64 - 1)]) 1000
      (mkEntry (2 ^ 64 - 1) (1%nat, 2 ^ 64 - 1))); [lia|cbv; split; congruence|reflexivity|].
    cbn. lia.
  - apply (timer_queue_due_iff (ex_tq [(1%nat, 5000)]) 1000 (mkEntry 5000 (1%nat, 5000)));
      [lia|cbv; split; congruence|reflexivity|cbn; lia].
Defined.

(** [Remove] of the second item takes the first one out instead. *)
Lemma timer_queue_remove_takes_head_witness :
  exists a', (Remove ex_prio (ex_tq [(1%nat, 100); (2%nat, 200)]) (2%nat, 200)).1 = (Ok tt, a') /\
    mkEntry 200 (2%nat, 200) ∈ pq_entries (priq a').
Proof.
  destruct (timer_queue_remove_takes_head ex_prio (ex_tq [(1%nat, 100); (2%nat, 200)])
    (2%nat, 200) (mkEntry 100 (1%nat, 100))) as (v & a' & H1 & _ & H3).
  - apply ex_tq_keyed. repeat constructor; cbn; lia.
  - reflexivity.
  - exists a'. split; [exact H1|]. apply H3; [cbn; set_solver|cbn; lia].
Defined.

Lemma ex_initial :
  sys_initial (PQ:=list (Entry (nat * Z))) (new_Queue (A:=nat * Z) 3) (sys_init (new_Queue 3) 0).
Proof. by exists 0. Qed.

Lemma timer_queue_conserves_items_witness :
  let s := mkSys (ex_tq [(1%nat, 100)]) WLoop KNone 0 1 false [(1%nat, 100)] [] [] in
  pushed s ≡ₚ (Value <$> pq_entries (priq (tq s))) ++ removed s ++ forwarded s.
Proof.
  intros s.
  destruct (timer_queue_conserves_items (H2:=ex_laws) ex_prio (new_Queue 3) s (wf_new 3 eq_refl))
    as [H _]; [|exact H].
  eapply reachable_step; [apply reachable_init, ex_initial|]. left.
  assert (is_u64 (ex_prio (1%nat, 100))) as Hi by (cbv; split; congruence).
  exact (c_push (PQ:=list (Entry (nat * Z))) ex_prio
    (sys_init (new_Queue (A:=nat * Z) 3) 0) (1%nat, 100) Hi).
Defined.

(** *** A lost wake-up *)

Section LostWakeup.
Context {PQ NQ A : Type} `{PriorityQueueLaws PQ A} `{EgressQueueLaws NQ (option A)}.
Context (item_Priority : A -> Z).

(** The worker blocked without a timer, the wake-up goroutine waiting (or about
    to) and no [Signal] on its way. *)
Definition asleep (s : Sys PQ NQ A) : Prop :=
  wpc s = WSelect None /\ (kpc s = KStart \/ kpc s = KWait) /\
  signals s = 0%nat /\ halting s = false.

Lemma asleep_internal s s' :
  asleep s -> internal_step s s' -> asleep s' /\ tq s' = tq s.
Proof.
  intros (Hw & Hk & Hn & Hh) Hs.
  destruct Hs; cbn in *; try (destruct Hk; congruence);
    (split; [unfold asleep; cbn; auto|done]).
Qed.

Lemma asleep_forever s s' :
  asleep s -> rtc internal_step s s' -> asleep s' /\ tq s' = tq s.
Proof.
  intros Ha Hr. induction Hr as [|s s1 s2 H12 _ IH]; [done|].
  destruct (asleep_internal _ _ Ha H12) as [Ha1 E]. rewrite <- E. by apply IH.
Qed.

(** Push before the wake-up goroutine has reached [Wait]. *)
Lemma lost_wakeup_run (q : NQ) (i : A) :
  is_u64 (item_Priority i) ->
  reachable (sys_initial q) (sys_step item_Priority)
    (mkSys (Push item_Priority (NewTimerQueue q) i) (WSelect None) KWait
       (item_Priority i + 1) 0 false [i] [] []).
Proof.
  intros Hi. exists (sys_init q 0). split; [by exists 0|].
  assert (worker_decide (A:=A) (NewTimerQueue (PQ:=PQ) q) 0 0 = DSelect None) as Hd.
  { unfold worker_decide. destruct (pq_Peek _) as [m|] eqn:E; [|done].
    apply pq_Peek_Some in E as [Hin _]. cbn in Hin. rewrite pq_New_law in Hin.
    by apply not_elem_of_nil in Hin. }
  eapply rtc_l; [right; apply (i_select (sys_init q 0) 0 None eq_refl); [cbn; lia|exact Hd]|].
  eapply rtc_l; [left; apply (c_push _ _ i Hi)|].
  eapply rtc_l; [right; by apply (i_signal _ 0)|].
  eapply rtc_l; [right; by apply i_wait|].
  eapply rtc_l; [right; apply (i_tick _ (item_Priority i + 1)); cbn; unfold is_u64 in *; lia|].
  apply rtc_refl.
Qed.
End LostWakeup.

(** [Signal] can be lost: for every item there is a run of the queue (a push
    that falls between the worker entering its select on an empty queue and the
    wake-up goroutine reaching [Wait]) after which the item is due and queued,
    yet no step of the worker, of the wake-up goroutine, of the clock or of a
    pending [Signal] ever forwards it: only another call can. *)
Theorem timer_queue_lost_wakeup {PQ NQ A : Type} `{PriorityQueueLaws PQ A}
    `{EgressQueueLaws NQ (option A)} (item_Priority : A -> Z) (q : NQ) (i : A) :
  is_u64 (item_Priority i) ->
  exists s, reachable (sys_initial q) (sys_step item_Priority) s /\
    pq_entries (priq (tq s)) ≡ₚ [mkEntry (item_Priority i) i] /\
    item_Priority i < now s /\
    forall s', rtc internal_step s s' ->
      tq s' = tq s /\ forwarded s' = [] /\ wpc s' = WSelect None.
Proof.
  intros Hi. eexists. split; [by apply lost_wakeup_run|]. cbn.
  split; [by rewrite pq_Enqueue_law, pq_New_law|]. split; [lia|].
  intros s' Hr.
  assert (forall s1 s2 : Sys PQ NQ A, asleep s1 -> rtc internal_step s1 s2 ->
    forwarded s2 = forwarded s1) as Hf.
  { intros s1 s2 Ha Hr'. induction Hr' as [|x y z Hxy _ IH]; [done|].
    rewrite IH by (by apply (asleep_internal x)).
    destruct Ha as (Hw & _). destruct Hxy; cbn in *; congruence. }
  assert (asleep (mkSys (Push item_Priority (NewTimerQueue (PQ:=PQ) q) i) (WSelect None) KWait
    (item_Priority i + 1) 0 false [i] [] [])) as Ha by (unfold asleep; cbn; auto).
  destruct (asleep_forever _ _ Ha Hr) as [(Hw & _) Ht].
  rewrite Ht, (Hf _ _ Ha Hr). done.
Qed.

Lemma timer_queue_lost_wakeup_witness :
  exists s : Sys (list (Entry (nat * Z))) (Queue (nat * Z)) (nat * Z),
    pq_entries (priq (tq s)) ≡ₚ [mkEntry 50 (1%nat, 50)] /\ 50 < now s /\
    forall s', rtc internal_step s s' -> forwarded s' = [].
Proof.
  destruct (timer_queue_lost_wakeup (H2:=ex_laws) ex_prio (new_Queue 3) (1%nat, 50))
    as (s & _ & H1 & H2 & H3); [cbv; split; congruence|].
  exists s. split; [exact H1|]. split; [exact H2|]. intros s' Hr. apply (H3 s' Hr).
Defined.
