(* ===== verification/PkiClient.v ===== *)
(** The PKI data the code reads (the fields of the katzenpost documents and
    descriptors it touches), the errors of the PKI layer, the interface
    [pkiclient.Client] as a class with its laws, and the epoch clock
    (pkiclient/client.go, pkiclient/epochtime/epochtime.go). *)

From S2P Require Import Prelude GoStd.
From Corelib Require Export SpecFloat.

(** ** Documents and descriptors *)

(** A float64 is only stored and handed to the sampling library. *)
Abbreviation float64 := spec_float.
#[global] Instance float64_eq_dec : EqDecision float64.
Proof. solve_decision. Defined.

(** Keys are known through their bytes; [Equal] compares them. A nil slice of
    registration addresses is [None]. *)
Record MixDescriptor := mkDesc {
  Name : string;
  IdentityKey : bytes;
  LinkKey : bytes;
  MixKeys : gmap Z bytes;
  Addresses : gmap string (list string);
  Kaetzchen : gmap string unit;
  RegistrationHTTPAddresses : option (list string);
  Layer : Z;
}.

Record Document := mkDoc {
  Epoch : Z;
  Mu : float64;
  MuMaxDelay : Z;
  LambdaP : float64;
  LambdaPMaxDelay : Z;
  LambdaL : float64;
  LambdaLMaxDelay : Z;
  LambdaD : float64;
  LambdaDMaxDelay : Z;
  Topology : list (list MixDescriptor);
  Providers : list MixDescriptor;
}.

#[global] Instance MixDescriptor_eq_dec : EqDecision MixDescriptor.
Proof. solve_decision. Defined.
#[global] Instance Document_eq_dec : EqDecision Document.
Proof. solve_decision. Defined.

(** ** Errors of the PKI layer *)

Inductive error :=
  | ErrNoDocument                    (* cpki.ErrNoDocument *)
  | errGetConsensusCanceled
  | errNotSupported
  | errHalted
  | ErrInvalidEpoch                  (* s11n.ErrInvalidEpoch *)
  | ErrEncode (e : string)           (* failed to encode data *)
  | ErrQuery (e : string)            (* failed to query katzenmint pki *)
  | ErrLog (log : string)            (* errors.New(resp.Response.Log) *)
  | ErrEpochFormat
  | ErrStartingHeight
  | ErrExtractDoc (e : string)       (* failed to extract doc *)
  | ErrCheckTx (log : string)
  | ErrDeliverTx (log : string)
  | ErrNonsensicalResult
  | ErrLibrary (e : string).         (* an error of a library, passed on *)

#[global] Instance error_eq_dec : EqDecision error.
Proof. solve_decision. Defined.

(** ** The interface

    A client with state [S] (its connections, caches and the network behind it).
    [Post] and [Deserialize] have no caller in the modelled components. *)

Class PkiClient (S : Type) := {
  GetEpoch : S -> (Z * Z * option error) * S;
  GetDoc : S -> Z -> outcome error (Document * bytes) * S;
}.

(** What a client promises: the document it returns for an epoch satisfies
    [pc_doc] of that epoch, which makes it a document of that epoch; epochs and
    heights are uint64. [pc_ok] is the invariant of its state. *)
Class PkiClientLaws (S : Type) `{PkiClient S} := {
  pc_ok : S -> Prop;
  pc_doc : Z -> Document * bytes -> Prop;
  pc_doc_epoch : forall e d raw, pc_doc e (d, raw) -> Epoch d = e;
  pc_GetDoc_ok : forall s e, pc_ok s -> pc_ok (GetDoc s e).2;
  pc_GetDoc_doc : forall s e r, pc_ok s -> (GetDoc s e).1 = Ok r -> pc_doc e r;
  pc_GetEpoch_ok : forall s, pc_ok s -> pc_ok (GetEpoch s).2;
  pc_GetEpoch_range : forall s epoch h err, pc_ok s ->
    (GetEpoch s).1 = (epoch, h, err) -> is_u64 epoch /\ is_u64 h;
}.

(** ** The epoch clock *)

Definition TestPeriod : Duration := 10 * Second.
Definition testEpochInterval : Z := 10.

(** [epochtime.Now]: the epoch (minus one), the time ellapsed in it and the time
    till its end, computed from the client's answer even when that is an error. *)
Definition Now {S} `{PkiClient S} (client : S) : (Z * Duration * Duration * option error) * S :=
  let '((epoch, ellapsedHeight, err), client) := GetEpoch client in
  let ellapsedHeight :=
    if testEpochInterval <? ellapsedHeight then testEpochInterval else ellapsedHeight in
  let ellapsed := i64 (u64 (TestPeriod * ellapsedHeight) / testEpochInterval) in
  let till := i64 (TestPeriod - ellapsed) in
  ((u64 (epoch - 1), ellapsed, till, err), client).

Lemma Now_eq {S} `{PkiClient S} (s : S) epoch h err :
  (GetEpoch s).1 = (epoch, h, err) -> is_u64 h ->
  (Now s).1 = (u64 (epoch - 1), Z.min h 10 * Second, TestPeriod - Z.min h 10 * Second, err).
Proof.
  intros E Hh. unfold is_u64 in Hh. unfold Now.
  destruct (GetEpoch s) as [[[e h'] er] s']. cbn in E. simplify_eq. cbn [fst].
  set (h1 := if testEpochInterval <? h then testEpochInterval else h).
  assert (h1 = Z.min h 10) as Hh1.
  { unfold h1, testEpochInterval. destruct (Z.ltb_spec 10 h); lia. }
  assert (0 <= h1 <= 10) as Hb by lia.
  rewrite (u64_small (TestPeriod * h1)) by (unfold is_u64, TestPeriod, Second; lia).
  assert (TestPeriod * h1 / testEpochInterval = h1 * Second) as ->.
  { unfold TestPeriod, testEpochInterval. replace (10 * Second * h1) with (h1 * Second * 10) by lia.
    by rewrite Z.div_mul by lia. }
  rewrite (i64_small (h1 * Second)) by (unfold is_i64, Second; lia).
  rewrite i64_small by (unfold is_i64, TestPeriod, Second; lia).
  by rewrite Hh1.
Qed.

(** A client that answers from a fixed table, for the examples: the epoch, the
    height and the documents by epoch; it counts the documents it served. *)
Record TableClient := mkTable {
  t_epoch : Z; t_height : Z; t_err : option error;
  t_docs : gmap Z (Document * bytes); t_served : nat
}.

Definition TableClient_PkiClient : PkiClient TableClient := {|
  GetEpoch := fun s => ((t_epoch s, t_height s, t_err s), s);
  GetDoc := fun s e =>
    let s' := mkTable (t_epoch s) (t_height s) (t_err s) (t_docs s) (S (t_served s)) in
    match t_docs s !! e with
    | Some r => (Ok r, s')
    | None => (Err ErrNoDocument, s')
    end
|}.

Record table_ok (s : TableClient) : Prop := {
  table_docs : forall e d raw, t_docs s !! e = Some (d, raw) -> Epoch d = e;
  table_epoch : is_u64 (t_epoch s);
  table_height : is_u64 (t_height s);
}.

Program Definition TableClient_Laws : PkiClientLaws (H:=TableClient_PkiClient) TableClient := {|
  pc_ok := table_ok;
  pc_doc := fun e r => Epoch r.1 = e;
|}.
Next Obligation. done. Qed.
Next Obligation. intros s e [H1 H2 H3]. cbn. by destruct (t_docs s !! e). Qed.
Next Obligation.
  intros s e [d raw] [H1 H2 H3]. cbn. destruct (t_docs s !! e) as [[d' r']|] eqn:E; [|done].
  intros [= <- <-]. by eapply H1.
Qed.
Next Obligation. done. Qed.
Next Obligation. intros s epoch h err [H1 H2 H3] E. cbn in E. by simplify_eq. Qed.

(** A document of an epoch with empty content. *)
Definition doc_at (e : Z) : Document :=
  mkDoc e (S754_zero false) 0 (S754_zero false) 0 (S754_zero false) 0 (S754_zero false) 0 [] [].

(** The table serving the documents of the given epochs. *)
Definition table_of (epoch height : Z) (err : option error) (es : list Z) : TableClient :=
  mkTable epoch height err (list_to_map ((fun e => (e, (doc_at e, []))) <$> es)) 0.

Lemma table_of_ok epoch height err es :
  is_u64 epoch -> is_u64 height -> table_ok (table_of epoch height err es).
Proof.
  intros He Hh. split; [|done..]. intros e d r. unfold table_of. cbn. intros E.
  apply elem_of_list_to_map_2, list_elem_of_fmap in E as (e' & Eq & _). by simplify_eq.
Qed.

(** The epoch clock: for every answer [(epoch, height, err)] of the client
    the time ellapsed is one second per block, capped at the period; ellapsed and
    remaining time are within the period and add up to it; the epoch is the
    client's minus one, with epoch 0 wrapping to 2^64 - 1; the error is passed on. *)
Theorem epochtime_now_spec {S} `{PkiClient S} (s : S) epoch h err e ellapsed till err' :
  is_u64 epoch -> is_u64 h ->
  (GetEpoch s).1 = (epoch, h, err) -> (Now s).1 = (e, ellapsed, till, err') ->
  ellapsed = Z.min h 10 * Second /\
  0 <= ellapsed <= TestPeriod /\ 0 <= till <= TestPeriod /\ ellapsed + till = TestPeriod /\
  e = (if epoch =? 0 then 2 ^ 64 - 1 else epoch - 1) /\ err' = err.
Proof.
  intros He Hh E En. rewrite (Now_eq _ _ _ _ E Hh) in En. simplify_eq.
  unfold is_u64, TestPeriod, Second in *.
  repeat (split; [lia|]). split; [|done].
  destruct (Z.eqb_spec epoch 0) as [->|]; [apply u64_pred_zero|apply u64_pred_pos; lia].
Qed.

Lemma epochtime_now_spec_witness :
  let s := mkTable 0 25 None ∅ 0 in
  exists e till, (Now (H:=TableClient_PkiClient) s).1 = (e, 10 * Second, till, None) /\
    till = 0 /\ e = 2 ^ 64 - 1.
Proof.
  intros s. do 2 eexists. split; [reflexivity|].
  destruct (epochtime_now_spec (H:=TableClient_PkiClient) s 0 25 None _ _ _ _
    ltac:(cbv; split; congruence) ltac:(cbv; split; congruence) eq_refl eq_refl)
    as (_ & _ & _ & H1 & H2 & _).
  split; [reflexivity|exact H2].
Defined.
