(* ===== verification/Cache.v ===== *)
(** The caching PKI client (pkiclient/cache.go): an index from epochs to the
    elements of a recency list, the worker that serves the misses, and the
    memoised epoch. Elements are Go pointers: an identity and an immutable
    value. The cache is itself a [PkiClient], lawful when the client behind it is. *)

From S2P Require Import Prelude GoStd PkiClient.

Record cacheEntry := mkCacheEntry { raw : bytes; doc : Document }.

(** A [*list.Element] of container/list. *)
Record Element := mkElement { elem_id : nat; elem_Value : cacheEntry }.

Definition fetchBacklog : Z := 8.
Definition lruMaxSize : Z := 8.
Definition epochRetrieveInterval : Duration := 3 * Second.

(** ** container/list *)

Definition list_Remove (e : Element) (l : list Element) : list Element :=
  filter (fun x => elem_id x <> elem_id e) l.
Definition list_MoveToFront (e : Element) (l : list Element) : list Element :=
  if decide (elem_id e ∈ (elem_id <$> l)) then e :: list_Remove e l else l.

(** ** The cache *)

Section Cache.
Context {S : Type} `{PkiClient S}.

(** [timer] is nil until the worker goroutine has set it. *)
Record Cache := mkCache {
  impl : S;
  docs : gmap Z Element;
  lru : list Element;
  next_elem : nat;
  timer : option Timer;
  memEpoch : Z;
  memHeight : Z;
}.

Definition NewCacheClient (impl : S) : Cache := mkCache impl ∅ [] 0 None 0 0.

(** The worker's first statement, [c.timer = time.NewTimer(0)]. *)
Definition worker_start (c : Cache) : Cache :=
  mkCache (impl c) (docs c) (lru c) (next_elem c) (Some (NewTimer 0)) (memEpoch c) (memHeight c).

Definition with_lru (c : Cache) (d : gmap Z Element) (l : list Element) (n : nat) : Cache :=
  mkCache (impl c) d l n (timer c) (memEpoch c) (memHeight c).
Definition with_impl (c : Cache) (s : S) : Cache :=
  mkCache s (docs c) (lru c) (next_elem c) (timer c) (memEpoch c) (memHeight c).
Definition with_timer (c : Cache) (t : Timer) : Cache :=
  mkCache (impl c) (docs c) (lru c) (next_elem c) (Some t) (memEpoch c) (memHeight c).

Definition cacheGet (c : Cache) (epoch : Z) : option cacheEntry * Cache :=
  match docs c !! epoch with
  | Some e => (Some (elem_Value e), with_lru c (docs c) (list_MoveToFront e (lru c)) (next_elem c))
  | None => (None, c)
  end.

(** The purge loop; [fuel] bounds its iterations, one element each. *)
Fixpoint purge (fuel : nat) (d : gmap Z Element) (l : list Element) : gmap Z Element * list Element :=
  match fuel with
  | O => (d, l)
  | Datatypes.S fuel =>
      if lruMaxSize <? Z.of_nat (length l) then
        match last l with
        | Some e => purge fuel (delete (Epoch (doc (elem_Value e))) d) (list_Remove e l)
        | None => (d, l)
        end
      else (d, l)
  end.

Definition insertLRU (c : Cache) (newEntry : cacheEntry) : Cache :=
  let e := mkElement (next_elem c) newEntry in
  let l := e :: lru c in
  let d := <[Epoch (doc newEntry) := e]> (docs c) in
  let '(d, l) := purge (length l) d l in
  with_lru c d l (Datatypes.S (next_elem c)).

(** The worker's treatment of one queued operation, from the second look at the
    cache to the value sent on [doneCh]. *)
Definition worker_handle (c : Cache) (epoch : Z) : outcome error cacheEntry * Cache :=
  match cacheGet c epoch with
  | (Some d, c) => (Ok d, c)
  | (None, c) =>
      match GetDoc (impl c) epoch with
      | (Ok (d, r), s) =>
          let e := mkCacheEntry r d in
          (Ok e, insertLRU (with_impl c s) e)
      | (Err er, s) => (Err er, with_impl c s)
      | (Panic, s) => (Panic, with_impl c s)
      end
  end.

(** [GetDoc] by a caller alone with the worker: the fast path, then the queue. *)
Definition Cache_GetDoc (c : Cache) (epoch : Z) : outcome error (Document * bytes) * Cache :=
  match cacheGet c epoch with
  | (Some d, c) => (Ok (doc d, raw d), c)
  | (None, c) =>
      let '(r, c) := worker_handle c epoch in
      ((fun e => (doc e, raw e)) <$> r, c)
  end.

(** [GetEpoch] once it has received the tick of the timer, which is then [t]. *)
Definition GetEpoch_got (c : Cache) (t : Timer) : (Z * Z * option error) * Cache :=
  let '((epoch, ellapsedHeight, err), s) := GetEpoch (impl c) in
  match err with
  | None => ((epoch, ellapsedHeight, None),
      mkCache s (docs c) (lru c) (next_elem c)
        (Some (Timer_Reset t epochRetrieveInterval)) epoch ellapsedHeight)
  | Some er => ((epoch, ellapsedHeight, Some er),
      mkCache s (docs c) (lru c) (next_elem c)
        (Some (Timer_Reset t 0)) (memEpoch c) (memHeight c))
  end.

(** [GetEpoch] with the timer [t]: the memoised pair until the timer ticks. *)
Definition GetEpoch_at (c : Cache) (t : Timer) : (Z * Z * option error) * Cache :=
  match Timer_recv t with
  | Some t => GetEpoch_got c t
  | None => ((memEpoch c, memHeight c, None), c)
  end.

(** Dereferencing the timer before the worker has set it panics ([None]). *)
Definition Cache_GetEpoch (c : Cache) : option ((Z * Z * option error) * Cache) :=
  t ← timer c; Some (GetEpoch_at c t).

(** The runtime fires the timer. *)
Definition tick (c : Cache) : Cache :=
  mkCache (impl c) (docs c) (lru c) (next_elem c) (Timer_expire <$> timer c)
    (memEpoch c) (memHeight c).

(** [Post] is refused. *)
Definition Cache_Post : outcome error unit := Err errNotSupported.

(** ** Invariant *)

Definition elem_epoch (e : Element) : Z := Epoch (doc (elem_Value e)).

(** The index and the list hold the same elements, one per epoch. *)
Record cache_wf (c : Cache) : Prop := {
  wf_ids : NoDup (elem_id <$> lru c);
  wf_fresh : Forall (fun e => (elem_id e < next_elem c)%nat) (lru c);
  wf_epochs : NoDup (elem_epoch <$> lru c);
  wf_index : forall k e, docs c !! k = Some e <-> e ∈ lru c /\ elem_epoch e = k;
  wf_bound : Z.of_nat (length (lru c)) <= lruMaxSize;
}.

(** What the cache holds, most recently used first. *)
Definition entries (c : Cache) : list cacheEntry := elem_Value <$> lru c.

(** ** The abstract LRU cache *)

Definition entry_epoch (x : cacheEntry) : Z := Epoch (doc x).

Definition spec_get (e : Z) (l : list cacheEntry) : option cacheEntry * list cacheEntry :=
  match list_find (fun x => entry_epoch x = e) l with
  | Some (_, x) => (Some x, x :: filter (fun y => entry_epoch y <> e) l)
  | None => (None, l)
  end.

Definition spec_insert (x : cacheEntry) (l : list cacheEntry) : list cacheEntry :=
  take (Z.to_nat lruMaxSize) (x :: l).

Definition spec_GetDoc (s : S) (l : list cacheEntry) (e : Z) :
    outcome error (Document * bytes) * S * list cacheEntry :=
  match spec_get e l with
  | (Some x, l) => (Ok (doc x, raw x), s, l)
  | (None, l) =>
      match GetDoc s e with
      | (Ok (d, r), s) => (Ok (d, r), s, spec_insert (mkCacheEntry r d) l)
      | (Err er, s) => (Err er, s, l)
      | (Panic, s) => (Panic, s, l)
      end
  end.

(** ** Refinement *)

Lemma cache_wf_new s : cache_wf (NewCacheClient s).
Proof.
  split; cbn; try constructor; try done.
  intros [Hin _]. by apply not_elem_of_nil in Hin.
Qed.

Lemma wf_same_epoch c e e' :
  cache_wf c -> e ∈ lru c -> e' ∈ lru c -> elem_epoch e = elem_epoch e' -> e = e'.
Proof.
  intros Hc He He' E. destruct (wf_index _ Hc (elem_epoch e) e) as [_ H1].
  destruct (wf_index _ Hc (elem_epoch e) e') as [_ H2].
  specialize (H1 (conj He eq_refl)). specialize (H2 (conj He' (eq_sym E))). congruence.
Qed.

Lemma wf_same_id c e e' :
  cache_wf c -> e ∈ lru c -> e' ∈ lru c -> elem_id e = elem_id e' -> e = e'.
Proof.
  intros Hc He He' E. pose proof (wf_ids _ Hc) as Hnd.
  apply list_elem_of_lookup in He as [i Hi]. apply list_elem_of_lookup in He' as [j Hj].
  assert (i = j) as ->; [|congruence].
  eapply NoDup_lookup; [exact Hnd|by rewrite list_lookup_fmap, Hi|].
  by rewrite list_lookup_fmap, Hj, E.
Qed.

(** Removing an element by identity removes exactly its epoch. *)
Lemma list_Remove_epoch c e :
  cache_wf c -> e ∈ lru c ->
  elem_Value <$> list_Remove e (lru c)
  = filter (fun y => entry_epoch y <> elem_epoch e) (entries c).
Proof.
  intros Hc He. unfold list_Remove, entries.
  assert (forall x, x ∈ lru c -> elem_id x <> elem_id e <-> elem_epoch x <> elem_epoch e) as Hx.
  { intros x Hx. split; intros Hne E; apply Hne.
    - f_equal. by eapply wf_same_epoch.
    - f_equal. by eapply wf_same_id. }
  clear He Hc. induction (lru c) as [|x l IH]; [done|].
  rewrite fmap_cons, !filter_cons. change (entry_epoch (elem_Value x)) with (elem_epoch x).
  pose proof (Hx x ltac:(by left)).
  rewrite <- IH by (intros y Hy; apply Hx; by right).
  repeat case_decide; tauto.
Qed.

Lemma find_none l k :
  (forall e, e ∈ l -> elem_epoch e <> k) ->
  list_find (fun x => entry_epoch x = k) (elem_Value <$> l) = None.
Proof.
  intros Hl. apply list_find_None, Forall_fmap, Forall_forall. intros e He. cbn. by apply Hl.
Qed.

Lemma find_some l k e :
  e ∈ l -> elem_epoch e = k ->
  (forall e', e' ∈ l -> elem_epoch e' = k -> e' = e) ->
  exists i, list_find (fun x => entry_epoch x = k) (elem_Value <$> l) = Some (i, elem_Value e).
Proof.
  intros He Hk Hu.
  destruct (list_find (fun x => entry_epoch x = k) (elem_Value <$> l)) as [[i x]|] eqn:E.
  - exists i. f_equal. f_equal. apply list_find_Some in E as (Hi & Hx & _).
    rewrite list_lookup_fmap in Hi. destruct (l !! i) as [e'|] eqn:El; [|done].
    cbn in Hi. simplify_eq. f_equal. apply Hu; [by eapply list_elem_of_lookup_2|done].
  - apply list_find_None in E. rewrite Forall_fmap, Forall_forall in E.
    by destruct (E e He).
Qed.

Lemma cacheGet_refines c e :
  cache_wf c ->
  spec_get e (entries c) = ((cacheGet c e).1, entries (cacheGet c e).2) /\
  impl (cacheGet c e).2 = impl c /\ cache_wf (cacheGet c e).2.
Proof.
  intros Hc. unfold cacheGet, spec_get. destruct (docs c !! e) as [el|] eqn:E.
  - pose proof (proj1 (wf_index _ Hc e el) E) as [Hin Hep].
    destruct (find_some (lru c) e el Hin Hep) as [i Hi].
    { intros e' He' Ee'. eapply wf_same_epoch; [exact Hc|done..|congruence]. }
    change (elem_Value <$> lru c) with (entries c) in Hi. rewrite Hi. cbn [fst snd].
    assert (list_MoveToFront el (lru c) = el :: list_Remove el (lru c)) as Hm.
    { unfold list_MoveToFront. rewrite decide_True; [done|]. by apply list_elem_of_fmap_2. }
    split; [|split; [done|]].
    + unfold entries at 2. cbn [lru with_lru].
      rewrite Hm, fmap_cons, list_Remove_epoch by done. by rewrite Hep.
    + assert (forall x, x ∈ el :: list_Remove el (lru c) <-> x ∈ lru c) as Hel.
      { intros x. rewrite elem_of_cons. unfold list_Remove. rewrite list_elem_of_filter.
        split; [intros [->|[_ ?]]; done|]. intros Hx.
        destruct (decide (elem_id x = elem_id el)); [left; by eapply wf_same_id|by right]. }
      assert (el :: list_Remove el (lru c) ≡ₚ lru c) as Hperm.
      { apply NoDup_Permutation; [|by eapply NoDup_fmap_1, wf_ids|exact Hel].
        constructor.
        - unfold list_Remove. rewrite list_elem_of_filter. tauto.
        - apply NoDup_filter. by eapply NoDup_fmap_1, wf_ids. }
      split; cbn; rewrite Hm.
      * rewrite Hperm. by apply wf_ids.
      * rewrite Hperm. by apply wf_fresh.
      * rewrite Hperm. by apply wf_epochs.
      * intros k x. rewrite Hel. by apply wf_index.
      * rewrite Hperm. by apply wf_bound.
  - unfold entries at 1. rewrite find_none; [done|]. intros el Hel Ek.
    by rewrite (proj2 (wf_index _ Hc e el)) in E.
Qed.

(** Removing the last element of a list with distinct identities drops it. *)
Lemma list_Remove_last l e :
  NoDup (elem_id <$> (l ++ [e])) -> list_Remove e (l ++ [e]) = l.
Proof.
  intros Hnd. unfold list_Remove. rewrite filter_app, filter_cons_False by (cbn; tauto).
  rewrite filter_nil, app_nil_r. rewrite fmap_app in Hnd.
  apply NoDup_app in Hnd as (_ & Hd & _).
  apply filter_all. intros x Hx E. apply (Hd (elem_id x)).
  - by apply list_elem_of_fmap_2.
  - rewrite E. cbn. by left.
Qed.

(** One element too many: the purge drops the oldest, and only that. *)
Lemma purge_one d l :
  NoDup (elem_id <$> l) -> Z.of_nat (length l) <= lruMaxSize + 1 ->
  purge (length l) d l =
  (if decide (Z.of_nat (length l) = lruMaxSize + 1)
   then from_option (fun e => delete (elem_epoch e) d) d (last l) else d,
   take (Z.to_nat lruMaxSize) l).
Proof.
  intros Hnd Hl. unfold lruMaxSize in *. case_decide as E.
  - destruct (exists_last (l:=l)) as (l' & e & ->); [by intros ->|].
    rewrite length_app in E. cbn in E. rewrite length_app. cbn [length].
    replace (length l' + 1)%nat with (Datatypes.S (length l')) by lia.
    cbn [purge]. rewrite length_app. cbn [length]. unfold lruMaxSize.
    destruct (Z.ltb_spec 8 (Z.of_nat (length l' + 1))); [|lia].
    rewrite last_snoc. rewrite list_Remove_last by done.
    replace (purge (length l') _ l') with (delete (Epoch (doc (elem_Value e))) d, l').
    + f_equal. rewrite take_app_le by lia. rewrite take_ge by lia. done.
    + destruct (length l') as [|n] eqn:En; [lia|]. cbn [purge]. rewrite En. unfold lruMaxSize.
      destruct (Z.ltb_spec 8 (Z.of_nat (Datatypes.S n))); [lia|done].
  - rewrite take_ge by lia. destruct (length l) as [|n] eqn:En; [done|].
    cbn [purge]. rewrite En. unfold lruMaxSize.
    destruct (Z.ltb_spec 8 (Z.of_nat (Datatypes.S n))); [lia|done].
Qed.

Lemma insertLRU_refines c x :
  cache_wf c -> docs c !! entry_epoch x = None ->
  entries (insertLRU c x) = spec_insert x (entries c) /\
  impl (insertLRU c x) = impl c /\ cache_wf (insertLRU c x).
Proof.
  intros Hc Hno. set (e := mkElement (next_elem c) x).
  change (entry_epoch x) with (elem_epoch e) in Hno.
  assert (forall y, y ∈ lru c -> elem_epoch y <> elem_epoch e) as Hfresh.
  { intros y Hy E. by rewrite (proj2 (wf_index _ Hc (elem_epoch e) y)) in Hno. }
  assert (NoDup (elem_id <$> (e :: lru c))) as Hids.
  { rewrite fmap_cons. constructor; [|by apply wf_ids]. intros Hin.
    apply list_elem_of_fmap in Hin as (y & Ey & Hy).
    pose proof (wf_fresh _ Hc) as Hf. rewrite Forall_forall in Hf.
    specialize (Hf y Hy). cbn in Ey. lia. }
  assert (NoDup (elem_epoch <$> (e :: lru c))) as Hep.
  { rewrite fmap_cons. constructor; [|by apply wf_epochs]. intros Hin.
    apply list_elem_of_fmap in Hin as (y & Ey & Hy). by apply (Hfresh y). }
  pose proof (wf_bound _ Hc) as Hb.
  unfold insertLRU. fold e. change (Epoch (doc x)) with (elem_epoch e).
  rewrite purge_one by (cbn [length]; lia || done).
  set (d2 := if decide _ then _ else _). set (l2 := take _ _).
  assert (e :: lru c = l2 ++ drop (Z.to_nat lruMaxSize) (e :: lru c)) as Hsplit
    by (symmetry; apply take_drop).
  split; [|split; [done|]].
  { unfold entries, spec_insert. cbn [lru with_lru]. subst l2. by rewrite fmap_take. }
  assert (forall k y, <[elem_epoch e := e]> (docs c) !! k = Some y <->
    y ∈ e :: lru c /\ elem_epoch y = k) as Hidx.
  { intros k y. rewrite elem_of_cons. destruct (decide (elem_epoch e = k)) as [<-|Hk].
    - rewrite lookup_insert_eq. split; [intros [= ->]; auto|].
      intros [[->|Hy] Ey]; [done|]. by destruct (Hfresh y Hy).
    - rewrite lookup_insert_ne by done. rewrite (wf_index _ Hc).
      split; [tauto|]. intros [[->|Hy] Ey]; [done|tauto]. }
  split; cbn [lru docs with_lru next_elem].
  - rewrite Hsplit, fmap_app in Hids. by apply NoDup_app in Hids as [? _].
  - apply Forall_take. constructor; [cbn; lia|].
    eapply Forall_impl; [apply wf_fresh, Hc|]. cbn. lia.
  - rewrite Hsplit, fmap_app in Hep. by apply NoDup_app in Hep as [? _].
  - intros k y. unfold d2, l2. case_decide as E.
    + destruct (exists_last (l:=e :: lru c)) as (l' & z & Ez); [done|].
      rewrite Ez in *. rewrite last_snoc. cbn [from_option].
      rewrite length_app in E. cbn in E. unfold lruMaxSize in *.
      rewrite take_app_le, take_ge by lia.
      assert (forall y, y ∈ l' -> elem_epoch y <> elem_epoch z) as Hz.
      { intros y' Hy' E'. rewrite fmap_app in Hep. apply NoDup_app in Hep as (_ & Hd & _).
        apply (Hd (elem_epoch y')); [by apply list_elem_of_fmap_2|]. cbn. rewrite E'. by left. }
      rewrite lookup_delete_Some, Hidx, elem_of_app, list_elem_of_singleton.
      split; [intros (? & [?|?] & ?); subst; tauto|].
      intros [Hy <-]. split; [by apply not_eq_sym, Hz|auto].
    + rewrite Hidx, take_ge; [done|]. cbn [length] in *. unfold lruMaxSize in *. lia.
  - unfold l2. rewrite length_take. unfold lruMaxSize. lia.
Qed.

(** ** A cache over a lawful client *)

Context `{!PkiClientLaws S}.

(** Every cached entry is one the client behind returned for that epoch. *)
Record cache_ok (c : Cache) : Prop := {
  ok_wf : cache_wf c;
  ok_impl : pc_ok (impl c);
  ok_docs : Forall (fun x => pc_doc (entry_epoch x) (doc x, raw x)) (entries c);
  ok_memEpoch : is_u64 (memEpoch c);
  ok_memHeight : is_u64 (memHeight c);
}.

Lemma cache_ok_new s : pc_ok s -> cache_ok (NewCacheClient s).
Proof. intros Hs. split; cbn; try done; try (unfold is_u64; lia). apply cache_wf_new. Qed.

Lemma spec_get_elem e l x l' :
  spec_get e l = (Some x, l') ->
  x ∈ l /\ entry_epoch x = e /\ forall y, y ∈ l' -> y ∈ l.
Proof.
  unfold spec_get. destruct (list_find _ l) as [[i y]|] eqn:E; [|done].
  intros [= -> <-]. apply list_find_Some in E as (Hi & Hx & _).
  assert (x ∈ l) by (by eapply list_elem_of_lookup_2).
  split; [done|]. split; [done|]. intros z Hz. apply elem_of_cons in Hz as [->|Hz]; [done|].
  by apply list_elem_of_filter in Hz as [_ ?].
Qed.

Lemma spec_get_miss e l l' :
  spec_get e l = (None, l') -> l' = l /\ forall x, x ∈ l -> entry_epoch x <> e.
Proof.
  unfold spec_get. destruct (list_find _ l) as [[i y]|] eqn:E; [done|].
  intros [= <-]. apply list_find_None in E. by rewrite Forall_forall in E.
Qed.

Lemma cacheGet_miss c e : (cacheGet c e).1 = None -> cacheGet c e = (None, c) /\ docs c !! e = None.
Proof. unfold cacheGet. by destruct (docs c !! e). Qed.

(** [GetDoc] acts on the entries as the abstract cache does. *)
Lemma Cache_GetDoc_refines c e :
  cache_ok c ->
  spec_GetDoc (impl c) (entries c) e
    = ((Cache_GetDoc c e).1, impl (Cache_GetDoc c e).2, entries (Cache_GetDoc c e).2) /\
  cache_ok (Cache_GetDoc c e).2.
Proof.
  intros Hc. pose proof (ok_wf _ Hc) as Hwf. pose proof (ok_impl _ Hc) as Hi.
  pose proof (ok_docs _ Hc) as Hd.
  destruct (cacheGet_refines c e Hwf) as (Hg & Himpl & Hwf').
  unfold spec_GetDoc, Cache_GetDoc. rewrite Hg.
  pose proof (cacheGet_miss c e) as Hmiss.
  destruct (cacheGet c e) as [[x|] c1] eqn:Ec; cbn [fst snd] in *.
  - rewrite Himpl. split; [done|]. apply spec_get_elem in Hg as (Hx & _ & Hsub).
    assert (forall c2, c2 = c1 -> memEpoch c2 = memEpoch c /\ memHeight c2 = memHeight c) as Hm.
    { intros c2 ->. unfold cacheGet in Ec. destruct (docs c !! e); [|done]. by injection Ec as <- <-. }
    destruct (Hm c1 eq_refl) as [Hm1 Hm2]. split; rewrite ?Himpl, ?Hm1, ?Hm2; try apply Hc; [done|].
    rewrite Forall_forall in *. auto.
  - destruct (Hmiss eq_refl) as [[= ->] Hno]. unfold worker_handle. rewrite Ec.
    pose proof (pc_GetDoc_ok (impl c) e Hi) as Hok.
    pose proof (pc_GetDoc_doc (impl c) e) as Hdoc.
    destruct (GetDoc (impl c) e) as [[[d r]|er|] s']; cbn [fst snd] in *.
    2,3: (split; [done|]; split; [|done|done|apply Hc|apply Hc]; by destruct Hwf).
    assert (cache_wf (with_impl c s')) as Hwf2 by (by destruct Hwf).
    pose proof (Hdoc (d, r) Hi eq_refl) as Hpd. pose proof (pc_doc_epoch _ _ _ Hpd) as He.
    destruct (insertLRU_refines (with_impl c s') (mkCacheEntry r d) Hwf2) as (E1 & E2 & E3).
    { by unfold entry_epoch; cbn; rewrite He. }
    rewrite E1, E2. split; [done|]. split; rewrite ?E1, ?E2; [done|done| | |].
    + apply Forall_take. constructor; [|done]. unfold entry_epoch. cbn. by rewrite He.
    + unfold insertLRU. destruct (purge _ _ _). apply Hc.
    + unfold insertLRU. destruct (purge _ _ _). apply Hc.
Qed.

(** A sequence of calls. *)
Fixpoint Cache_GetDocs (c : Cache) (es : list Z) :
    list (outcome error (Document * bytes)) * Cache :=
  match es with
  | [] => ([], c)
  | e :: es =>
      let '(r, c) := Cache_GetDoc c e in
      let '(rs, c) := Cache_GetDocs c es in (r :: rs, c)
  end.

Fixpoint spec_GetDocs (s : S) (l : list cacheEntry) (es : list Z) :
    list (outcome error (Document * bytes)) * S * list cacheEntry :=
  match es with
  | [] => ([], s, l)
  | e :: es =>
      let '(r, s, l) := spec_GetDoc s l e in
      let '(rs, s, l) := spec_GetDocs s l es in (r :: rs, s, l)
  end.

Lemma Cache_GetDocs_refines es c :
  cache_ok c ->
  spec_GetDocs (impl c) (entries c) es
    = ((Cache_GetDocs c es).1, impl (Cache_GetDocs c es).2, entries (Cache_GetDocs c es).2) /\
  cache_ok (Cache_GetDocs c es).2.
Proof.
  revert c. induction es as [|e es IH]; intros c Hc; [done|]. cbn.
  destruct (Cache_GetDoc_refines c e Hc) as [-> Hc'].
  destruct (Cache_GetDoc c e) as [r c']. cbn in *.
  destruct (IH c' Hc') as [-> Hc'']. by destruct (Cache_GetDocs c' es).
Qed.

(** *** Recency *)

(** [x] is cached, and only entries of epochs in [A] were used after it. *)
Definition recent (x : cacheEntry) (A : gset Z) (l : list cacheEntry) : Prop :=
  exists pre post, l = pre ++ x :: post /\ Forall (fun y => entry_epoch y ∈ A) pre /\
    entry_epoch x ∉ A.

Lemma cache_wf_NoDup c : cache_wf c -> NoDup (entry_epoch <$> entries c).
Proof. intros Hc. unfold entries. rewrite <- list_fmap_compose. apply (wf_epochs _ Hc). Qed.

Lemma recent_find x A l :
  NoDup (entry_epoch <$> l) -> recent x A l ->
  spec_get (entry_epoch x) l = (Some x, x :: filter (fun y => entry_epoch y <> entry_epoch x) l).
Proof.
  intros Hnd (pre & post & -> & Hpre & Hx). unfold spec_get.
  rewrite list_find_app_r.
  - cbn. by rewrite decide_True.
  - apply list_find_None. eapply Forall_impl; [exact Hpre|]. cbn. intros y Hy E. congruence.
Qed.

Lemma recent_filter x A l k :
  recent x A l -> entry_epoch x <> k -> recent x A (filter (fun y => entry_epoch y <> k) l).
Proof.
  intros (pre & post & -> & Hpre & Hx) Hk.
  exists (filter (fun y => entry_epoch y <> k) pre), (filter (fun y => entry_epoch y <> k) post).
  rewrite filter_app, filter_cons_True by done. split; [done|]. split; [|done].
  apply Forall_forall. intros y Hy. apply list_elem_of_filter in Hy as [_ Hy].
  rewrite Forall_forall in Hpre. auto.
Qed.

Lemma recent_cons x A l y :
  recent x A l -> entry_epoch y <> entry_epoch x -> recent x ({[entry_epoch y]} ∪ A) (y :: l).
Proof.
  intros (pre & post & -> & Hpre & Hx) Hy. exists (y :: pre), post. split; [done|]. split.
  - constructor; [set_solver|]. eapply Forall_impl; [exact Hpre|]. cbn. set_solver.
  - set_solver.
Qed.

Lemma recent_take x A l :
  recent x A l -> NoDup (entry_epoch <$> l) -> (size A < Z.to_nat lruMaxSize)%nat ->
  recent x A (take (Z.to_nat lruMaxSize) l).
Proof.
  intros (pre & post & -> & Hpre & Hx) Hnd Hs.
  assert (length pre <= size A)%nat as Hl.
  { rewrite fmap_app in Hnd. apply NoDup_app in Hnd as [Hnd _].
    rewrite <- (length_fmap entry_epoch).
    rewrite <- (size_list_to_set (C:=gset Z)) by done. apply subseteq_size.
    intros k Hk. apply elem_of_list_to_set, list_elem_of_fmap in Hk as (y & -> & Hy).
    rewrite Forall_forall in Hpre. auto. }
  exists pre, (take (Z.to_nat lruMaxSize - length pre - 1) post).
  rewrite take_app, take_ge by lia. split; [|done]. f_equal.
  destruct (Z.to_nat lruMaxSize - length pre)%nat as [|n] eqn:E; [lia|].
  cbn [take]. f_equal. f_equal. lia.
Qed.

Lemma recent_mono x A B l : recent x A l -> A ⊆ B -> entry_epoch x ∉ B -> recent x B l.
Proof.
  intros (pre & post & -> & Hpre & _) HAB Hx. exists pre, post. split; [done|]. split; [|done].
  eapply Forall_impl; [exact Hpre|]. cbn. set_solver.
Qed.

(** One more call: the entry stays as long as fewer than eight other epochs were
    asked for since its last use. *)
Lemma recent_step x A c e :
  cache_ok c -> recent x A (entries c) ->
  (size (({[e]} ∪ A) ∖ {[entry_epoch x]}) < Z.to_nat lruMaxSize)%nat ->
  recent x (({[e]} ∪ A) ∖ {[entry_epoch x]}) (entries (Cache_GetDoc c e).2).
Proof.
  intros Hc Hr Hs. set (B := ({[e]} ∪ A) ∖ {[entry_epoch x]}) in *.
  pose proof (cache_wf_NoDup _ (ok_wf _ Hc)) as Hnd.
  assert (recent x B (entries c)) as HrB.
  { eapply recent_mono; [exact Hr| |set_solver]. destruct Hr as (? & ? & ? & ? & ?). set_solver. }
  destruct (Cache_GetDoc_refines c e Hc) as [Hg Hc']. unfold spec_GetDoc in Hg.
  destruct (decide (e = entry_epoch x)) as [->|Hne].
  - rewrite (recent_find x A) in Hg by done. injection Hg as _ _ <-.
    exists [], (filter (fun y => entry_epoch y <> entry_epoch x) (entries c)).
    split; [done|]. split; [done|set_solver].
  - assert (forall y, entry_epoch y = e -> {[entry_epoch y]} ∪ B = B) as HB.
    { intros y <-. unfold B. set_solver. }
    destruct (spec_get e (entries c)) as [[y|] l] eqn:Eg.
    + injection Hg as _ _ <-. pose proof (spec_get_elem _ _ _ _ Eg) as (_ & Ey & _).
      unfold spec_get in Eg. destruct (list_find _ _) as [[i z]|]; [|done].
      injection Eg as -> <-. rewrite <- (HB y Ey).
      apply recent_cons; [|congruence]. apply recent_filter; [done|congruence].
    + apply spec_get_miss in Eg as [-> Hno].
      pose proof (pc_GetDoc_doc (impl c) e) as Hdoc.
      destruct (GetDoc (impl c) e) as [[[d r]|er|] s'] eqn:Ed; injection Hg as _ _ Hg; rewrite <- Hg;
        [|done|done].
      assert (Epoch d = e) as He
        by (eapply pc_doc_epoch, (Hdoc (d, r)); [apply Hc|done]).
      set (n := mkCacheEntry r d). assert (entry_epoch n = e) as Hn by done.
      unfold spec_insert. apply recent_take; [| |done].
      * rewrite <- (HB n Hn). apply recent_cons; [done|congruence].
      * rewrite fmap_cons. constructor; [|done]. rewrite Hn. intros Hin.
        apply list_elem_of_fmap in Hin as (y & Ey & Hy). by apply (Hno y).
Qed.

Lemma recent_steps x es c A :
  cache_ok c -> recent x A (entries c) ->
  (size ((list_to_set es ∪ A) ∖ {[entry_epoch x]} : gset Z) < Z.to_nat lruMaxSize)%nat ->
  exists B, recent x B (entries (Cache_GetDocs c es).2) /\ cache_ok (Cache_GetDocs c es).2.
Proof.
  revert c A. induction es as [|e es IH]; intros c A Hc Hr Hs; [by exists A|].
  cbn. destruct (Cache_GetDoc_refines c e Hc) as [_ Hc'].
  pose proof (recent_step x A c e Hc Hr) as Hstep.
  destruct (Cache_GetDoc c e) as [r c']. cbn in Hc', Hstep.
  assert (recent x (({[e]} ∪ A) ∖ {[entry_epoch x]}) (entries c')) as Hr'.
  { apply Hstep. eapply Nat.le_lt_trans; [|exact Hs]. apply subseteq_size. cbn. set_solver. }
  destruct (IH c' _ Hc' Hr') as (B & HB & HcB).
  { eapply Nat.le_lt_trans; [|exact Hs]. apply subseteq_size. cbn. set_solver. }
  destruct (Cache_GetDocs c' es). by exists B.
Qed.

(** *** The epoch *)

Lemma GetEpoch_got_ok c t :
  cache_ok c ->
  cache_ok (GetEpoch_got c t).2 /\ is_Some (timer (GetEpoch_got c t).2) /\
  is_u64 (GetEpoch_got c t).1.1.1 /\ is_u64 (GetEpoch_got c t).1.1.2.
Proof.
  intros Hc. unfold GetEpoch_got. pose proof (ok_impl _ Hc) as Hi.
  pose proof (pc_GetEpoch_ok (impl c) Hi) as Hok.
  pose proof (pc_GetEpoch_range (impl c)) as Hr.
  destruct Hc as [[Hw1 Hw2 Hw3 Hw4 Hw5] _ Hd He Hh].
  destruct (GetEpoch (impl c)) as [[[epoch h] [er|]] s];
    destruct (Hr _ _ _ Hi eq_refl) as [? ?]; cbn in *; (split; [|eauto]); split; done.
Qed.

Lemma GetEpoch_at_ok c t :
  cache_ok c -> timer c = Some t ->
  cache_ok (GetEpoch_at c t).2 /\ is_Some (timer (GetEpoch_at c t).2) /\
  is_u64 (GetEpoch_at c t).1.1.1 /\ is_u64 (GetEpoch_at c t).1.1.2.
Proof.
  intros Hc Ht. unfold GetEpoch_at. destruct (Timer_recv t); [by apply GetEpoch_got_ok|].
  cbn. rewrite Ht. pose proof (ok_memEpoch _ Hc). pose proof (ok_memHeight _ Hc). eauto.
Qed.

(** A cache whose worker has started, which is the state a client may use. *)
Definition has_timer (c : Cache) : bool :=
  match timer c with Some _ => true | None => false end.
Definition Running : Type := { c : Cache | has_timer c = true }.
Definition running_timer (c : Running) : Timer := default (NewTimer 0) (timer (proj1_sig c)).

Lemma running_timer_eq c : timer (proj1_sig c) = Some (running_timer c).
Proof.
  destruct c as [c Hc]. unfold running_timer. cbn. unfold has_timer in Hc.
  by destruct (timer c).
Qed.

Lemma GetEpoch_at_has_timer (c : Running) :
  has_timer (GetEpoch_at (proj1_sig c) (running_timer c)).2 = true.
Proof.
  destruct c as [c Hc]. unfold GetEpoch_at, GetEpoch_got, has_timer in *. cbn in *.
  destruct (Timer_recv _); [|done]. by destruct (GetEpoch (impl c)) as [[[? ?] [?|]] ?].
Qed.

Lemma Cache_GetDoc_timer c e : timer (Cache_GetDoc c e).2 = timer c.
Proof.
  unfold Cache_GetDoc, worker_handle. destruct (cacheGet c e) as [[x|] c1] eqn:E.
  - unfold cacheGet in E. destruct (docs c !! e); by simplify_eq.
  - destruct (cacheGet_miss c e) as [E' _]; [by rewrite E|]. rewrite E in E'.
    injection E' as ->. rewrite E.
    destruct (GetDoc (impl c) e) as [[[d r]| |] s]; [|done..]. cbn.
    unfold insertLRU. by destruct (purge _ _ _).
Qed.

Lemma Cache_GetDoc_has_timer (c : Running) e :
  has_timer (Cache_GetDoc (proj1_sig c) e).2 = true.
Proof. unfold has_timer. rewrite Cache_GetDoc_timer. apply (proj2_sig c). Qed.

#[export] Instance Cache_PkiClient : PkiClient Running := {|
  GetEpoch := fun c =>
    let r := GetEpoch_at (proj1_sig c) (running_timer c) in
    (r.1, exist _ r.2 (GetEpoch_at_has_timer c));
  GetDoc := fun c e =>
    let r := Cache_GetDoc (proj1_sig c) e in
    (r.1, exist _ r.2 (Cache_GetDoc_has_timer c e));
|}.

Lemma spec_GetDoc_doc c e r :
  cache_ok c -> (Cache_GetDoc c e).1 = Ok r -> pc_doc e r.
Proof.
  intros Hc E. destruct (Cache_GetDoc_refines c e Hc) as [Hg _]. unfold spec_GetDoc in Hg.
  destruct (spec_get e (entries c)) as [[x|] l] eqn:Eg.
  - apply spec_get_elem in Eg as (Hx & Ex & _). injection Hg as Hg _ _.
    rewrite E in Hg. injection Hg as <-. pose proof (ok_docs _ Hc) as Hd.
    rewrite Forall_forall in Hd. specialize (Hd x Hx). by rewrite Ex in Hd.
  - pose proof (pc_GetDoc_doc (impl c) e r (ok_impl _ Hc)) as Hdoc.
    destruct (GetDoc (impl c) e) as [[[d raw]| |] s]; injection Hg as Hg _ _;
      rewrite E in Hg; [|done..]. by apply Hdoc.
Qed.

(** The cache keeps its client's promises. *)
#[export] Program Instance Cache_PkiClientLaws : PkiClientLaws Running := {|
  pc_ok := fun c => cache_ok (proj1_sig c);
  pc_doc := pc_doc;
|}.
Next Obligation. intros. by eapply pc_doc_epoch. Qed.
Next Obligation. intros s e Hs. cbn in *. by destruct (Cache_GetDoc_refines _ e Hs). Qed.
Next Obligation. intros s e r Hs E. exact (spec_GetDoc_doc _ e r Hs E). Qed.
Next Obligation.
  intros s Hs. cbn. eapply GetEpoch_at_ok; [done|apply running_timer_eq].
Qed.
Next Obligation.
  intros s epoch h err Hs E. cbn in E.
  destruct (GetEpoch_at_ok _ _ Hs (running_timer_eq s)) as (_ & _ & H1 & H2).
  by rewrite E in H1, H2.
Qed.

(** ** Callers, the queue and the worker goroutine

    A call of [GetDoc] has an identity. It is answered at once on a hit; on a
    miss it is queued (a full queue blocks the caller, so the step needs room)
    and the worker answers it. [Halt] stops the worker and drains the queue. A call of
    [GetEpoch] that receives the timer's tick asks the client behind, in a step of its own;
    one that does not changes nothing. *)

Inductive worker_state :=
  | Idle
  | Serving (id : nat) (e : Z)
  | Fetched (id : nat) (e : Z) (x : cacheEntry)
  | Exited.

(** [getting]: a call of [GetEpoch] has the tick and not yet the client's answer;
    [epochs]: the epochs the client has answered, latest first. *)
Record clock_state := mkClock { getting : bool; epochs : list (Z * Z) }.

Record CSys := mkCSys {
  clock : clock_state;
  cc : Cache;
  fetchQueue : list (nat * Z);
  worker : worker_state;
  halting : bool;
  calls : gmap nat Z;
  replies : gmap nat (outcome error (Document * bytes));
}.

Definition csys_init (c : Cache) : CSys := mkCSys (mkClock false []) c [] Idle false ∅ ∅.

Inductive cstep (s : CSys) : CSys -> Prop :=
  | y_hit id e d c : calls s !! id = None -> cacheGet (cc s) e = (Some d, c) ->
      cstep s (mkCSys (clock s) c (fetchQueue s) (worker s) (halting s)
        (<[id := e]> (calls s)) (<[id := Ok (doc d, raw d)]> (replies s)))
  | y_enqueue id e c : calls s !! id = None -> cacheGet (cc s) e = (None, c) ->
      Z.of_nat (length (fetchQueue s)) < fetchBacklog ->
      cstep s (mkCSys (clock s) c (fetchQueue s ++ [(id, e)]) (worker s) (halting s)
        (<[id := e]> (calls s)) (replies s))
  | y_take id e q : worker s = Idle -> fetchQueue s = (id, e) :: q ->
      cstep s (mkCSys (clock s) (cc s) q (Serving id e) (halting s) (calls s) (replies s))
  | y_serve_hit id e d c : worker s = Serving id e -> cacheGet (cc s) e = (Some d, c) ->
      cstep s (mkCSys (clock s) c (fetchQueue s) Idle (halting s) (calls s)
        (<[id := Ok (doc d, raw d)]> (replies s)))
  | y_fetch id e c d r s' : worker s = Serving id e -> cacheGet (cc s) e = (None, c) ->
      GetDoc (impl c) e = (Ok (d, r), s') ->
      cstep s (mkCSys (clock s) (with_impl c s') (fetchQueue s) (Fetched id e (mkCacheEntry r d))
        (halting s) (calls s) (replies s))
  | y_fetch_err id e c er s' : worker s = Serving id e -> cacheGet (cc s) e = (None, c) ->
      GetDoc (impl c) e = (Err er, s') ->
      cstep s (mkCSys (clock s) (with_impl c s') (fetchQueue s) Idle (halting s) (calls s)
        (<[id := Err er]> (replies s)))
  | y_insert id e x : worker s = Fetched id e x ->
      cstep s (mkCSys (clock s) (insertLRU (cc s) x) (fetchQueue s) Idle (halting s) (calls s)
        (<[id := Ok (doc x, raw x)]> (replies s)))
  | y_tick t : timer (cc s) = Some t -> armed t = true ->
      cstep s (mkCSys (clock s) (tick (cc s)) (fetchQueue s) (worker s) (halting s)
        (calls s) (replies s))
  | y_epoch_take t t' : timer (cc s) = Some t -> Timer_recv t = Some t' ->
      cstep s (mkCSys (mkClock true (epochs (clock s))) (with_timer (cc s) t') (fetchQueue s)
        (worker s) (halting s) (calls s) (replies s))
  | y_epoch_got t epoch h err c : getting (clock s) = true -> timer (cc s) = Some t ->
      GetEpoch_got (cc s) t = ((epoch, h, err), c) ->
      cstep s (mkCSys (mkClock false (match err with
                                      | None => (epoch, h) :: epochs (clock s)
                                      | Some _ => epochs (clock s) end))
        c (fetchQueue s) (worker s) (halting s) (calls s) (replies s))
  | y_halt :
      cstep s (mkCSys (clock s) (cc s) (fetchQueue s) (worker s) true (calls s) (replies s))
  | y_exit : worker s = Idle -> halting s = true ->
      cstep s (mkCSys (clock s) (cc s) (fetchQueue s) Exited (halting s) (calls s) (replies s))
  | y_drain id e q : worker s = Exited -> fetchQueue s = (id, e) :: q ->
      cstep s (mkCSys (clock s) (cc s) q Exited (halting s) (calls s)
        (<[id := Err errHalted]> (replies s))).

(** The calls that wait for an answer: in the worker's hands, then queued. *)
Definition in_hand (w : worker_state) : list (nat * Z) :=
  match w with Serving id e | Fetched id e _ => [(id, e)] | _ => [] end.
Definition pending (s : CSys) : list (nat * Z) := in_hand (worker s) ++ fetchQueue s.

Record csys_ok (s : CSys) : Prop := {
  so_cache : cache_ok (cc s);
  so_queue : Z.of_nat (length (fetchQueue s)) <= fetchBacklog;
  so_nodup : NoDup (pending s).*1;
  so_pending : forall id e, (id, e) ∈ pending s ->
    calls s !! id = Some e /\ replies s !! id = None;
  so_all : forall id e, calls s !! id = Some e ->
    (id, e) ∈ pending s \/ is_Some (replies s !! id);
  so_replies : forall id r, replies s !! id = Some r ->
    exists e, calls s !! id = Some e /\ forall v, r = Ok v -> pc_doc e v;
  so_fetched : forall id e x, worker s = Fetched id e x ->
    docs (cc s) !! entry_epoch x = None /\ pc_doc e (doc x, raw x);
}.

(** The steps that touch calls fall in three kinds: a new call, a reply to a
    pending call, and a change of hands. *)
Lemma so_calls_reply s s' id e q r :
  csys_ok s -> (id, e) :: pending s' ≡ₚ pending s -> calls s' = calls s ->
  replies s' = <[id := r]> (replies s) ->
  (forall v, r = Ok v -> pc_doc e v) -> q = fetchQueue s' ->
  NoDup (pending s').*1 /\
  (forall id e, (id, e) ∈ pending s' -> calls s' !! id = Some e /\ replies s' !! id = None) /\
  (forall id e, calls s' !! id = Some e -> (id, e) ∈ pending s' \/ is_Some (replies s' !! id)) /\
  (forall id r, replies s' !! id = Some r ->
    exists e, calls s' !! id = Some e /\ forall v, r = Ok v -> pc_doc e v).
Proof.
  intros Hs Hp Ec Er Hr _. pose proof (so_nodup _ Hs) as Hnd. rewrite <- Hp in Hnd.
  rewrite fmap_cons in Hnd. apply NoDup_cons in Hnd as [Hid Hnd]. cbn in Hid.
  rewrite Ec, Er. split; [done|]. split; [|split].
  - intros id' e' Hin. assert (id <> id') as Hne.
    { intros ->. apply Hid. apply list_elem_of_fmap. by exists (id', e'). }
    rewrite lookup_insert_ne by done. apply (so_pending _ Hs). rewrite <- Hp. by right.
  - intros id' e' Hc. destruct (decide (id = id')) as [->|Hne].
    + right. rewrite lookup_insert_eq. by eexists.
    + rewrite lookup_insert_ne by done. destruct (so_all _ Hs _ _ Hc) as [Hin|]; [|by right].
      left. rewrite <- Hp in Hin. apply elem_of_cons in Hin as [[= -> ->]|]; done.
  - intros id' r'. destruct (decide (id = id')) as [->|Hne].
    + rewrite lookup_insert_eq. intros [= <-]. exists e. split; [|done].
      apply (so_pending _ Hs). rewrite <- Hp. by left.
    + rewrite lookup_insert_ne by done. apply (so_replies _ Hs).
Qed.

Lemma cacheGet_hit_ok c e d c' :
  cache_ok c -> cacheGet c e = (Some d, c') ->
  cache_ok c' /\ pc_doc e (doc d, raw d) /\ docs c' = docs c.
Proof.
  intros Hc E.
  assert (Cache_GetDoc c e = (Ok (doc d, raw d), c')) as E'.
  { unfold Cache_GetDoc. by rewrite E. }
  pose proof (Cache_GetDoc_refines c e Hc) as [_ Hc'].
  pose proof (spec_GetDoc_doc c e (doc d, raw d) Hc) as Hd. rewrite E' in Hc', Hd.
  split; [done|]. split; [by apply Hd|].
  unfold cacheGet in E. destruct (docs c !! e); by simplify_eq.
Qed.

Lemma cacheGet_miss_eq c e c' : cacheGet c e = (None, c') -> c' = c /\ docs c !! e = None.
Proof. intros E. destruct (cacheGet_miss c e) as [E' ?]; [by rewrite E|]. by rewrite E in E'; simplify_eq. Qed.

Lemma insertLRU_ok c x :
  cache_ok c -> docs c !! entry_epoch x = None -> pc_doc (entry_epoch x) (doc x, raw x) ->
  cache_ok (insertLRU c x).
Proof.
  intros Hc Hno Hd. destruct (insertLRU_refines c x (ok_wf _ Hc) Hno) as (E1 & E2 & E3).
  split; rewrite ?E1, ?E2; [done|apply Hc| | |].
  - apply Forall_take. constructor; [done|apply Hc].
  - unfold insertLRU. destruct (purge _ _ _). apply Hc.
  - unfold insertLRU. destruct (purge _ _ _). apply Hc.
Qed.

Lemma with_impl_ok c s : cache_ok c -> pc_ok s -> cache_ok (with_impl c s).
Proof. intros [[] ? ? ? ?] Hs. by split. Qed.

Lemma worker_start_ok c : cache_ok c -> cache_ok (worker_start c).
Proof. intros [[] ? ? ? ?]. by split. Qed.

Lemma cache_timer_ok c t : cache_ok c -> cache_ok (with_timer c t).
Proof. intros [[] ? ? ? ?]. by split. Qed.

Lemma tick_ok c : cache_ok c -> cache_ok (tick c).
Proof. intros [[] ? ? ? ?]. by split. Qed.

Lemma GetEpoch_got_docs c t : docs (GetEpoch_got c t).2 = docs c.
Proof. unfold GetEpoch_got. by destruct (GetEpoch (impl c)) as [[[? ?] [?|]] ?]. Qed.

Lemma csys_ok_init c : cache_ok c -> csys_ok (csys_init c).
Proof.
  intros Hc. split; cbn; try done; [by constructor|]. intros i x Hin. by apply not_elem_of_nil in Hin.
Qed.

(** A reply to the pending call [(id, e)] keeps the invariant. *)
Lemma csys_ok_reply s k c q w id e r :
  csys_ok s -> cache_ok c -> (forall i e x, w <> Fetched i e x) ->
  (id, e) :: in_hand w ++ q ≡ₚ pending s ->
  Z.of_nat (length q) <= fetchBacklog ->
  (forall v, r = Ok v -> pc_doc e v) ->
  csys_ok (mkCSys k c q w (halting s) (calls s) (<[id := r]> (replies s))).
Proof.
  intros Hs Hc Hw Hp Hq Hr.
  destruct (so_calls_reply s (mkCSys k c q w (halting s) (calls s) (<[id := r]> (replies s)))
    id e q r Hs Hp eq_refl eq_refl Hr eq_refl) as (? & ? & ? & ?).
  split; try done. intros i e' x E. by destruct (Hw i e' x).
Qed.

(** A step that leaves calls and replies alone and only reorders the pending
    calls keeps the invariant. *)
Lemma csys_ok_frame s k c q w h :
  csys_ok s -> cache_ok c -> in_hand w ++ q = pending s ->
  Z.of_nat (length q) <= fetchBacklog ->
  (forall id e x, w = Fetched id e x ->
     docs c !! entry_epoch x = None /\ pc_doc e (doc x, raw x)) ->
  csys_ok (mkCSys k c q w h (calls s) (replies s)).
Proof.
  intros Hs Hc Hp Hq Hw.
  assert (pending (mkCSys k c q w h (calls s) (replies s)) = pending s) as E by done.
  split; cbn [cc fetchQueue calls replies worker]; rewrite ?E; try done; apply Hs.
Qed.

Lemma csys_ok_hit s k id e d c :
  csys_ok s -> calls s !! id = None -> cacheGet (cc s) e = (Some d, c) ->
  csys_ok (mkCSys k c (fetchQueue s) (worker s) (halting s)
    (<[id := e]> (calls s)) (<[id := Ok (doc d, raw d)]> (replies s))).
Proof.
  intros Hs Hid Eg. destruct (cacheGet_hit_ok _ _ _ _ (so_cache _ Hs) Eg) as (Hc & Hd & Edocs).
  assert (forall i e', (i, e') ∈ pending s -> id <> i) as Hne.
  { intros i e' Hin ->. apply (so_pending _ Hs) in Hin as [? _]. congruence. }
  split; cbn; try apply Hs; [done| | | |rewrite Edocs; apply Hs].
  - intros i e' Hin. rewrite !lookup_insert_ne by (by eapply Hne). by apply (so_pending _ Hs).
  - intros i e'. destruct (decide (id = i)) as [->|Hi].
    + rewrite !lookup_insert_eq. intros _. right. by eexists.
    + rewrite !lookup_insert_ne by done. apply (so_all _ Hs).
  - intros i r. destruct (decide (id = i)) as [->|Hi].
    + rewrite !lookup_insert_eq. intros [= <-]. exists e. split; [done|]. by intros v [= <-].
    + rewrite !lookup_insert_ne by done. apply (so_replies _ Hs).
Qed.

Lemma csys_ok_enqueue s k id e :
  csys_ok s -> calls s !! id = None -> Z.of_nat (length (fetchQueue s)) < fetchBacklog ->
  csys_ok (mkCSys k (cc s) (fetchQueue s ++ [(id, e)]) (worker s) (halting s)
    (<[id := e]> (calls s)) (replies s)).
Proof.
  intros Hs Hid Hq.
  assert (pending (mkCSys k (cc s) (fetchQueue s ++ [(id, e)]) (worker s) (halting s)
    (<[id := e]> (calls s)) (replies s)) = pending s ++ [(id, e)]) as Ep.
  { unfold pending. cbn. by rewrite app_assoc. }
  assert (forall i e', (i, e') ∈ pending s -> id <> i) as Hne.
  { intros i e' Hin ->. apply (so_pending _ Hs) in Hin as [? _]. congruence. }
  split; rewrite ?Ep; cbn [cc fetchQueue calls replies worker]; try apply Hs.
  - rewrite length_app. cbn. lia.
  - rewrite fmap_app. apply NoDup_app. split; [apply Hs|]. split.
    + intros i Hi. apply list_elem_of_fmap in Hi as ([i' e'] & -> & Hin). cbn.
      rewrite list_elem_of_singleton. by apply not_eq_sym, (Hne i' e').
    + apply NoDup_singleton.
  - intros i e'. rewrite elem_of_app, list_elem_of_singleton. intros [Hin|[= -> ->]].
    + rewrite lookup_insert_ne by (by eapply Hne). by apply (so_pending _ Hs).
    + rewrite lookup_insert_eq. split; [done|].
      destruct (replies s !! id) as [r|] eqn:E; [|done].
      apply (so_replies _ Hs) in E as (? & ? & _). congruence.
  - intros i e'. rewrite elem_of_app, list_elem_of_singleton.
    destruct (decide (id = i)) as [->|Hi].
    + rewrite lookup_insert_eq. intros [= ->]. auto.
    + rewrite lookup_insert_ne by done. intros H1. apply (so_all _ Hs) in H1. tauto.
  - intros i r E. destruct (so_replies _ Hs _ _ E) as (e' & He' & Hr). exists e'.
    split; [|done]. rewrite lookup_insert_ne; [done|]. congruence.
Qed.

Lemma csys_ok_step s s' : csys_ok s -> cstep s s' -> csys_ok s'.
Proof.
  intros Hs Hstep. pose proof (so_cache _ Hs) as Hc. pose proof (so_queue _ Hs) as Hq.
  destruct Hstep as [id e d c Hid Eg|id e c Hid Eg Hroom|id e q Hw Eq|id e d c Hw Eg
    |id e c d r s' Hw Eg Ed|id e c er s' Hw Eg Ed|id e x Hw|t Ht Ha|t t' Ht Hr|t epoch h err c Hg Ht Eg| |Hw Hh|id e q Hw Eq].
  - by apply csys_ok_hit.
  - apply cacheGet_miss_eq in Eg as [-> _]. by apply csys_ok_enqueue.
  - apply csys_ok_frame; try done.
    + unfold pending. by rewrite Hw, Eq.
    + rewrite Eq in Hq. cbn in Hq. lia.
  - destruct (cacheGet_hit_ok _ _ _ _ Hc Eg) as (Hc' & Hd & _).
    apply csys_ok_reply with e; try done.
    + unfold pending. by rewrite Hw.
    + by intros v [= <-].
  - apply cacheGet_miss_eq in Eg as [-> Hno].
    pose proof (pc_GetDoc_ok (impl (cc s)) e (ok_impl _ Hc)) as Hi.
    pose proof (pc_GetDoc_doc (impl (cc s)) e (d, r) (ok_impl _ Hc)) as Hd.
    rewrite Ed in Hi, Hd. specialize (Hd eq_refl).
    apply csys_ok_frame; [done|by apply with_impl_ok| |done|].
    + unfold pending. by rewrite Hw.
    + intros ? ? ? [= <- <- <-]. split; [|done]. unfold entry_epoch. cbn.
      by rewrite (pc_doc_epoch _ _ _ Hd).
  - apply cacheGet_miss_eq in Eg as [-> Hno].
    pose proof (pc_GetDoc_ok (impl (cc s)) e (ok_impl _ Hc)) as Hi. rewrite Ed in Hi.
    apply csys_ok_reply with e; try done; [by apply with_impl_ok|].
    unfold pending. by rewrite Hw.
  - destruct (so_fetched _ Hs _ _ _ Hw) as [Hno Hd].
    apply csys_ok_reply with e; try done.
    + apply insertLRU_ok; [done|done|]. unfold entry_epoch. by rewrite (pc_doc_epoch _ _ _ Hd).
    + unfold pending. by rewrite Hw.
    + by intros v [= <-].
  - apply csys_ok_frame; try done; [by apply tick_ok|exact (so_fetched _ Hs)].
  - apply csys_ok_frame; try done; [by apply cache_timer_ok|exact (so_fetched _ Hs)].
  - pose proof (GetEpoch_got_ok (cc s) t Hc) as [Hc' _]. pose proof (GetEpoch_got_docs (cc s) t) as Hdc.
    rewrite Eg in Hc', Hdc. cbn in Hc', Hdc.
    apply csys_ok_frame; try done.
    intros i e x Hw. rewrite Hdc. exact (so_fetched _ Hs _ _ _ Hw).
  - apply csys_ok_frame; try done. exact (so_fetched _ Hs).
  - apply csys_ok_frame; try done. unfold pending. by rewrite Hw.
  - apply csys_ok_reply with e; try done.
    + unfold pending. by rewrite Hw, Eq.
    + rewrite Eq in Hq. cbn in Hq. lia.
Qed.

(** ** The clock of the cache *)

(** The timer runs, has ticked, or a call is fetching the epoch, and only one of them; the
    memoised pair is the last one the client answered. *)
Record clock_ok (s : CSys) : Prop := {
  ck_timer : exists t, timer (cc s) = Some t /\
    match armed t, fired t, getting (clock s) with
    | true, false, false | false, true, false | false, false, true => True
    | _, _, _ => False
    end;
  ck_memo : (memEpoch (cc s), memHeight (cc s)) = default (0, 0) (head (epochs (clock s)));
}.

Definition same_clock (c c' : Cache) : Prop :=
  timer c' = timer c /\ memEpoch c' = memEpoch c /\ memHeight c' = memHeight c.

Lemma cacheGet_same_clock c e x c' : cacheGet c e = (x, c') -> same_clock c c'.
Proof. unfold cacheGet. destruct (docs c !! e); by intros [= _ <-]. Qed.
Lemma insertLRU_same_clock c x : same_clock c (insertLRU c x).
Proof. unfold insertLRU. by destruct (purge _ _ _). Qed.

Lemma clock_ok_same s c q w h cs rs :
  clock_ok s -> same_clock (cc s) c -> clock_ok (mkCSys (clock s) c q w h cs rs).
Proof. intros [Ht Hm] (E1 & E2 & E3). split; cbn; by rewrite ?E1, ?E2, ?E3. Qed.

Lemma clock_ok_init c : clock_ok (csys_init (worker_start (NewCacheClient c))).
Proof. split; [|done]. by eexists. Qed.

Lemma clock_ok_step s s' : clock_ok s -> cstep s s' -> clock_ok s'.
Proof.
  intros Hs Hstep.
  destruct Hstep as [id e d c Hid Eg|id e c Hid Eg Hroom|id e q Hw Eq|id e d c Hw Eg
    |id e c d r s' Hw Eg Ed|id e c er s' Hw Eg Ed|id e x Hw|t Ht Ha|t t' Ht Hr|t epoch h err c Hg Ht Eg
    | |Hw Hh|id e q Hw Eq];
    try (apply clock_ok_same; [done|]; first
      [done | by eapply cacheGet_same_clock | exact (cacheGet_same_clock _ _ _ _ Eg)
      | by apply insertLRU_same_clock]);
    destruct Hs as [(u & Hu & Hc) Hm]; rewrite Hu in Ht; injection Ht as ->.
  - split; cbn; [|done]. rewrite Hu. eexists. split; [done|]. cbn. rewrite Ha in Hc.
    by destruct (fired t), (getting (clock s)).
  - split; cbn; [|done]. eexists. split; [done|]. unfold Timer_recv in Hr.
    destruct (fired t); [|done]. injection Hr as <-. cbn.
    by destruct (armed t), (getting (clock s)).
  - rewrite Hg in Hc. destruct (armed t) eqn:E1, (fired t) eqn:E2; try done.
    unfold GetEpoch_got in Eg. destruct (GetEpoch (impl (cc s))) as [[[? ?] [?|]] ?];
      injection Eg as <- <- <- <-; (split; cbn; [eexists; split; [done|]; cbn; by rewrite E2|done]).
Qed.

(** After a successful call its entry is the most recent one. *)
Lemma Cache_GetDoc_last c e r :
  cache_ok c -> (Cache_GetDoc c e).1 = Ok r ->
  exists x l, entries (Cache_GetDoc c e).2 = x :: l /\ entry_epoch x = e /\ (doc x, raw x) = r.
Proof.
  intros Hc Er. pose proof (spec_GetDoc_doc c e r Hc Er) as Hd.
  destruct (Cache_GetDoc_refines c e Hc) as [Hg _]. rewrite Er in Hg. unfold spec_GetDoc in Hg.
  destruct (spec_get e (entries c)) as [[x|] l] eqn:Eg.
  - injection Hg as <- _ <-. pose proof (spec_get_elem _ _ _ _ Eg) as (_ & Ex & _).
    unfold spec_get in Eg. destruct (list_find _ _) as [[i z]|]; [|done].
    injection Eg as -> <-. eauto.
  - destruct (GetDoc (impl c) e) as [[[d raw]| |] s]; [|done..].
    injection Hg as <- _ <-. unfold spec_insert, lruMaxSize. do 2 eexists.
    split; [reflexivity|]. split; [|done]. by eapply pc_doc_epoch in Hd.
Qed.
End Cache.
Arguments Cache : clear implicits.

(** ** Properties *)

Section Properties.
Context {S : Type} `{PkiClientLaws S}.

(** C11. The cache refines an LRU cache of eight documents: any sequence of
    [GetDoc] calls on a new cache answers as the abstract cache over the same
    client does, and asks the client for exactly the same documents; the index
    and the recency list stay consistent and hold at most eight entries. *)
Theorem cache_refines_lru (s : S) (es : list Z) :
  pc_ok s ->
  let '(rs, c) := Cache_GetDocs (NewCacheClient s) es in
  spec_GetDocs s [] es = (rs, impl c, entries c) /\
  (forall k e, docs c !! k = Some e <-> e ∈ lru c /\ Epoch (doc (elem_Value e)) = k) /\
  (length (lru c) <= 8)%nat.
Proof.
  intros Hs.
  destruct (Cache_GetDocs_refines es (NewCacheClient s) (cache_ok_new s Hs)) as [Hg Hc].
  destruct (Cache_GetDocs _ es) as [rs c]. cbn in Hg, Hc. split; [exact Hg|].
  split; [exact (wf_index _ (ok_wf _ Hc))|].
  pose proof (wf_bound _ (ok_wf _ Hc)). unfold lruMaxSize in *. lia.
Qed.

(** Recently used documents are not fetched again: after [GetDoc e]
    succeeded, and any sequence of calls for at most seven other epochs, [GetDoc e]
    returns the same document without calling the client. *)
Theorem cache_keeps_recently_used (c : Cache S) (e : Z) (r : Document * bytes) (es : list Z) :
  cache_ok c -> (Cache_GetDoc c e).1 = Ok r ->
  (size (list_to_set es ∖ {[e]} : gset Z) <= 7)%nat ->
  let c1 := (Cache_GetDocs (Cache_GetDoc c e).2 es).2 in
  (Cache_GetDoc c1 e).1 = Ok r /\ impl (Cache_GetDoc c1 e).2 = impl c1.
Proof.
  intros Hc Er Hs c1.
  destruct (Cache_GetDoc_refines c e Hc) as [Hg Hc'].
  destruct (Cache_GetDoc_last c e r Hc Er) as (x & l & Hl & Hx & Hxr).
  set (c' := (Cache_GetDoc c e).2) in *.
  assert (recent x ∅ (entries c')) as Hrec by (rewrite Hl; exists [], l; done).
  destruct (recent_steps x es c' ∅ Hc' Hrec) as (B & HB & Hc1).
  { rewrite Hx, union_empty_r_L. unfold lruMaxSize. lia. }
  fold c1 in HB, Hc1. rewrite <- Hxr, <- Hx.
  destruct (Cache_GetDoc_refines c1 (entry_epoch x) Hc1) as [Hg1 _].
  unfold spec_GetDoc in Hg1.
  rewrite (recent_find x B) in Hg1 by (done || by apply cache_wf_NoDup, Hc1).
  by injection Hg1 as <- <- _.
Qed.


(** A failed epoch retrieval is forgotten at once: when the client answers
    an error on the timer's tick, the call returns the error, but the next call
    before the timer ticks again answers the old pair with a nil error; on a cache
    that never retrieved an epoch that pair is (0, 0), from which [epochtime.Now]
    computes the epoch 2^64 - 1. *)
Theorem cache_epoch_error_is_masked (c : Running) epoch h er :
  fired (running_timer c) = true ->
  (GetEpoch (impl (proj1_sig c))).1 = (epoch, h, Some er) ->
  (GetEpoch c).1 = (epoch, h, Some er) /\
  (GetEpoch (GetEpoch c).2).1 = (memEpoch (proj1_sig c), memHeight (proj1_sig c), None) /\
  (memEpoch (proj1_sig c) = 0 -> memHeight (proj1_sig c) = 0 ->
   (Now (GetEpoch c).2).1 = (2 ^ 64 - 1, 0, TestPeriod, None)).
Proof.
  intros Hf Ee. destruct c as [c Hc]. cbn [proj1_sig] in *.
  assert (GetEpoch_at c (running_timer (exist _ c Hc)) =
    ((epoch, h, Some er), mkCache (GetEpoch (impl c)).2 (docs c) (lru c) (next_elem c)
      (Some (mkTimer true false 0)) (memEpoch c) (memHeight c))) as Eg.
  { unfold GetEpoch_at, GetEpoch_got, Timer_recv. rewrite Hf.
    destruct (GetEpoch (impl c)) as [[[? ?] ?] s']. cbn in Ee. by simplify_eq. }
  split; [exact (f_equal fst Eg)|].
  assert (forall H', (GetEpoch (exist (fun c => has_timer c = true)
    (GetEpoch_at c (running_timer (exist _ c Hc))).2 H')).1 = (memEpoch c, memHeight c, None)) as E2.
  { rewrite Eg. by intros. }
  split; [exact (E2 _)|]. intros Hm1 Hm2.
  rewrite (Now_eq (S:=Running) _ (memEpoch c) (memHeight c) None);
    [|exact (E2 _)|rewrite Hm2; unfold is_u64; lia].
  by rewrite Hm1, Hm2.
Qed.
End Properties.

#[local] Existing Instance TableClient_PkiClient.
#[local] Existing Instance TableClient_Laws.

Definition ex_table : TableClient := table_of 3 1 None [1; 2; 3; 4; 5; 6; 7; 8; 9; 10].

Lemma ex_table_ok : pc_ok ex_table.
Proof. apply table_of_ok; cbv; split; congruence. Qed.

(** Ten epochs, then the first again: it was purged and is served a second time. *)
Lemma cache_refines_lru_witness :
  let es := [1; 2; 3; 4; 5; 6; 7; 8; 9; 10; 1; 42] in
  let '(rs, c) := Cache_GetDocs (NewCacheClient ex_table) es in
  spec_GetDocs ex_table [] es = (rs, impl c, entries c) /\ t_served (impl c) = 12%nat.
Proof.
  pose proof (cache_refines_lru ex_table [1; 2; 3; 4; 5; 6; 7; 8; 9; 10; 1; 42] ex_table_ok) as Hw.
  cbv zeta. destruct (Cache_GetDocs _ _) as [rs c] eqn:E. destruct Hw as [Hw _].
  split; [exact Hw|]. apply (f_equal (fun p => t_served (impl p.2))) in E. cbn [snd] in E.
  rewrite <- E. vm_compute. reflexivity.
Defined.

Lemma cache_keeps_recently_used_witness :
  let c := NewCacheClient ex_table in
  let c1 := (Cache_GetDocs (Cache_GetDoc c 1).2 [2; 3; 4; 5; 6; 7; 8; 2; 3]).2 in
  (Cache_GetDoc c1 1).1 = Ok (doc_at 1, []) /\ impl (Cache_GetDoc c1 1).2 = impl c1.
Proof.
  apply (cache_keeps_recently_used (NewCacheClient ex_table) 1 (doc_at 1, [])).
  - apply cache_ok_new, ex_table_ok.
  - vm_compute. reflexivity.
  - vm_compute. lia.
Defined.


(** A client whose first epoch retrieval fails. *)
Definition ex_failing : Running (S:=TableClient) :=
  exist _ (tick (worker_start (NewCacheClient (table_of 0 0 (Some (ErrQuery "down")) [])))) eq_refl.

Lemma cache_epoch_error_is_masked_witness :
  (GetEpoch ex_failing).1 = (0, 0, Some (ErrQuery "down")) /\
  (Now (GetEpoch ex_failing).2).1 = (2 ^ 64 - 1, 0, TestPeriod, None).
Proof.
  destruct (cache_epoch_error_is_masked (H:=TableClient_PkiClient) ex_failing 0 0
    (ErrQuery "down") eq_refl eq_refl) as (H1 & _ & H3).
  split; [exact H1|exact (H3 eq_refl eq_refl)].
Defined.
