(* ===== verification/Katzenmint.v ===== *)
(** The katzenmint implementation of the PKI client (pkiclient/katzenmint.go):
    queries to the light client, decoding of the epoch, verification of the
    documents, posting of descriptors. The light client, the JSON encoder and the
    s11n package are libraries: parameters of the model. *)

From S2P Require Import Prelude GoStd PkiClient Cache.

(** ** Data exchanged with the libraries *)

Record Query := mkQuery { Version : Z; QEpoch : Z; Command : Z; Payload : string }.

(** [abci.ResponseQuery], the fields read here. *)
Record ResponseQuery := mkResponse { Code : Z; Log : string; Value : bytes; Height : Z }.

(** The two results of [BroadcastTxCommit]: code and log. *)
Record ResultBroadcastTxCommit := mkTxResult {
  CheckTx : Z * string; DeliverTx : Z * string
}.
Definition IsOK (r : Z * string) : bool := r.1 =? 0.

(** The state [L] is the light client with the network behind it; an error of a
    library is its message. *)
Class LightClient (L : Type) := {
  ABCIQueryWithOptions : L -> bytes -> (string + ResponseQuery) * L;
  BroadcastTxCommit : L -> bytes -> (string + ResultBroadcastTxCommit) * L;
  light_Stop : L -> L;
}.

(** [light.TrustOptions] of tendermint. *)
Record TrustOptions := mkTrust { Period : Duration; TrustHeight : Z; Hash : bytes }.

#[global] Instance TrustOptions_eq_dec : EqDecision TrustOptions.
Proof. solve_decision. Defined.

Section Katzenmint.
Context {L : Type} `{LightClient L}.
(** kpki.ProtocolVersion, GetEpoch, GetConsensus, PublishMixDescriptor, EncodeJson,
    s11n.VerifyAndParseDocument. *)
Context (ProtocolVersion cmd_GetEpoch cmd_GetConsensus cmd_PublishMixDescriptor : Z).
Context (EncodeJson : Query -> string + bytes).
Context (VerifyAndParseDocument : bytes -> string + Document).

(** The database behind the light client; nil in a client made from a light client. *)
Context {D : Type}.
Record PKIClient := mkPKIClient { light : L; db : option D }.
Definition with_light (p : PKIClient) (l : L) : PKIClient := mkPKIClient l (db p).

Definition NewPKIClientFromLightClient (light : L) : PKIClient := mkPKIClient light None.

(** The configuration, less its log backend. *)
Record PKIClientConfig := mkPKIClientConfig {
  ChainID : string; Trust : TrustOptions; PrimaryAddress : string; WitnessesAddresses : list string;
  DatabaseName : string; DatabaseDir : string; RPCAddress : string
}.

(** [NewPKIClient], over tm-db's [NewDB], the light package's [NewHTTPClient], the
    http provider and lightrpc's [NewClient]. The database is not closed when a
    later step fails. *)
Definition NewPKIClient {C P} (NewDB : string -> string -> string + D)
    (NewHTTPClient : string -> TrustOptions -> string -> list string -> D -> string + C)
    (http_New : string -> string -> string + P) (lightrpc_NewClient : P -> C -> L)
    (cfg : PKIClientConfig) : string + PKIClient :=
  match NewDB (DatabaseName cfg) (DatabaseDir cfg) with
  | inl e => inl ("error opening katzenmint-pki database: " +:+ e)
  | inr db =>
      match NewHTTPClient (ChainID cfg) (Trust cfg) (PrimaryAddress cfg) (WitnessesAddresses cfg) db with
      | inl e => inl ("error initialization of katzenmint-pki light client: " +:+ e)
      | inr lightclient =>
          match http_New (RPCAddress cfg) "/websocket" with
          | inl e => inl ("error connection to katzenmint-pki full node: " +:+ e)
          | inr provider => inr (mkPKIClient (lightrpc_NewClient provider lightclient) (Some db))
          end
      end
  end.

Definition query (p : PKIClient) (epoch command : Z) : (error + ResponseQuery) * PKIClient :=
  match EncodeJson (mkQuery ProtocolVersion epoch command "") with
  | inl e => (inl (ErrEncode e), p)
  | inr data =>
      match ABCIQueryWithOptions (light p) data with
      | (inl e, l) => (inl (ErrQuery e), with_light p l)
      | (inr resp, l) => (inr resp, with_light p l)
      end
  end.

(** The named results of [GetEpoch] as they stand at each return. *)
Definition decode_epoch (resp : ResponseQuery) : Z * Z * option error :=
  if negb (Code resp =? 0) then (0, 0, Some (ErrLog (Log resp)))
  else if negb (Z.of_nat (length (Value resp)) =? 16) then (0, 0, Some ErrEpochFormat)
  else
    let epoch := (Uvarint (take 8 (Value resp))).1 in
    let startingHeight := (Varint (take 8 (drop 8 (Value resp)))).1 in
    if Height resp <? startingHeight then (epoch, 0, Some ErrStartingHeight)
    else (epoch, u64 (i64 (Height resp - startingHeight)), None).

Definition PKIClient_GetEpoch (p : PKIClient) : (Z * Z * option error) * PKIClient :=
  match query p 0 cmd_GetEpoch with
  | (inl e, p) => ((0, 0, Some e), p)
  | (inr resp, p) => (decode_epoch resp, p)
  end.

Definition decode_doc (epoch : Z) (resp : ResponseQuery) : outcome error (Document * bytes) :=
  if negb (Code resp =? 0) then
    if Code resp =? 5 then Err ErrNoDocument else Err (ErrLog (Log resp))
  else
    match VerifyAndParseDocument (Value resp) with
    | inl e => Err (ErrExtractDoc e)
    | inr doc => if negb (Epoch doc =? epoch) then Err ErrInvalidEpoch else Ok (doc, Value resp)
    end.

Definition PKIClient_GetDoc (p : PKIClient) (epoch : Z) :
    outcome error (Document * bytes) * PKIClient :=
  match query p epoch cmd_GetConsensus with
  | (inl e, p) => (Err e, p)
  | (inr resp, p) => (decode_doc epoch resp, p)
  end.

Definition PostTx (p : PKIClient) (tx : bytes) :
    outcome error ResultBroadcastTxCommit * PKIClient :=
  match BroadcastTxCommit (light p) tx with
  | (inl e, l) => (Err (ErrLibrary e), with_light p l)
  | (inr resp, l) =>
      (if negb (IsOK (CheckTx resp)) then Err (ErrCheckTx (CheckTx resp).2)
       else if negb (IsOK (DeliverTx resp)) then Err (ErrDeliverTx (DeliverTx resp).2)
       else Ok resp, with_light p l)
  end.

(** [Post], over the s11n and kpki functions it calls; the transaction is a
    PublishMixDescriptor command with the signed descriptor in hexadecimal. *)
Definition Post {Key} (IsDescriptorWellFormed : MixDescriptor -> Z -> option string)
    (SignDescriptor : Key -> MixDescriptor -> string + bytes)
    (EncodeHex : bytes -> string)
    (FormTransaction : Z -> Z -> string -> Key -> string + bytes)
    (p : PKIClient) (epoch : Z) (signingKey : Key) (d : MixDescriptor) :
    option error * PKIClient :=
  match IsDescriptorWellFormed d epoch with
  | Some e => (Some (ErrLibrary e), p)
  | None =>
      match SignDescriptor signingKey d with
      | inl e => (Some (ErrLibrary e), p)
      | inr signed =>
          match FormTransaction cmd_PublishMixDescriptor epoch (EncodeHex signed) signingKey with
          | inl e => (Some (ErrLibrary e), p)
          | inr tx =>
              match PostTx p tx with
              | (Err e, p) => (Some e, p)
              | (_, p) => (None, p)
              end
          end
      end
  end.

Definition Deserialize (raw : bytes) : outcome error Document :=
  match VerifyAndParseDocument raw with inl e => Err (ErrLibrary e) | inr d => Ok d end.

(** [Shutdown] calls a method of the database; on a nil one it panics. *)
Definition Shutdown (p : PKIClient) : outcome error PKIClient :=
  let p := with_light p (light_Stop (light p)) in
  _ ← deref (db p); mret p.

(** ** The client keeps the interface's promises *)

Definition Katzenmint_PkiClient : PkiClient PKIClient :=
  {| GetEpoch := PKIClient_GetEpoch; GetDoc := PKIClient_GetDoc |}.

(** The document is the verified content of the raw bytes that come with it. *)
Definition verified (e : Z) (r : Document * bytes) : Prop :=
  Epoch r.1 = e /\ VerifyAndParseDocument r.2 = inr r.1.

Lemma decode_doc_verified e resp r : decode_doc e resp = Ok r -> verified e r.
Proof.
  unfold decode_doc. destruct (negb (Code resp =? 0)); [by destruct (Code resp =? 5)|].
  destruct (VerifyAndParseDocument (Value resp)) as [er|d] eqn:Ev; [done|].
  destruct (Z.eqb_spec (Epoch d) e); cbn; [|done]. by intros [= <-].
Qed.

Lemma decode_epoch_range resp epoch h er :
  decode_epoch resp = (epoch, h, er) -> is_u64 epoch /\ is_u64 h.
Proof.
  unfold decode_epoch. intros E.
  assert (is_u64 0) by (unfold is_u64; lia). pose proof (Uvarint_range (take 8 (Value resp))).
  repeat case_match; simplify_eq; auto using u64_range.
Qed.

Program Definition Katzenmint_Laws : PkiClientLaws (H:=Katzenmint_PkiClient) PKIClient :=
  {| pc_ok := fun _ => True; pc_doc := verified |}.
Next Obligation. by intros e d raw [? _]. Qed.
Next Obligation. done. Qed.
Next Obligation.
  intros p e r _. cbn. unfold PKIClient_GetDoc.
  destruct (query p e cmd_GetConsensus) as [[er|resp] p']; [done|apply decode_doc_verified].
Qed.
Next Obligation. done. Qed.
Next Obligation.
  intros p epoch h er _. cbn. unfold PKIClient_GetEpoch.
  destruct (query p 0 cmd_GetEpoch) as [[e|resp] p']; cbn; intros E.
  - simplify_eq. unfold is_u64. lia.
  - by eapply decode_epoch_range.
Qed.
End Katzenmint.
Arguments PKIClient : clear implicits.

(** ** Properties *)

Section KatzenmintProperties.
Context {L D : Type} `{LightClient L}.
Context (ProtocolVersion cmd_GetEpoch cmd_GetConsensus cmd_PublishMixDescriptor : Z).
Context (EncodeJson : Query -> string + bytes).
Context (VerifyAndParseDocument : bytes -> string + Document).

#[local] Instance client : PkiClient (PKIClient L D) :=
  Katzenmint_PkiClient ProtocolVersion cmd_GetEpoch cmd_GetConsensus EncodeJson
    VerifyAndParseDocument.
#[local] Instance client_laws : PkiClientLaws (PKIClient L D) :=
  Katzenmint_Laws ProtocolVersion cmd_GetEpoch cmd_GetConsensus EncodeJson
    VerifyAndParseDocument.

(** The answer of an authority: both numbers in eight bytes, padded with zeros. *)
Definition pad8 (l : bytes) : bytes := l ++ replicate (8 - length l) (byte_of_Z 0).
Definition epoch_answer (epoch start height : Z) : ResponseQuery :=
  mkResponse 0 "" (pad8 (PutUvarint epoch) ++ pad8 (PutVarint start)) height.

Lemma length_pad8 l : (length l <= 8)%nat -> length (pad8 l) = 8%nat.
Proof. intros ?. unfold pad8. rewrite length_app, length_replicate. lia. Qed.

(** Epoch and starting height, encoded the way the authority encodes them,
    are read back, together with the number of blocks since the start; a start
    above the block's height is refused. *)
Theorem katzenmint_epoch_roundtrip epoch start height :
  0 <= epoch < 2 ^ 56 -> 0 <= start < 2 ^ 55 -> 0 <= height < 2 ^ 63 ->
  decode_epoch (epoch_answer epoch start height) =
    if height <? start then (epoch, 0, Some ErrStartingHeight)
    else (epoch, height - start, None).
Proof.
  intros He Hs Hh. unfold decode_epoch, epoch_answer. cbn [Code Value Height].
  pose proof (length_PutUvarint epoch He) as L1.
  assert (length (PutVarint start) <= 8)%nat as L2
    by (rewrite PutVarint_nonneg by lia; apply length_PutUvarint; lia).
  rewrite length_app, !length_pad8 by done. cbn [negb Z.eqb Z.of_nat].
  rewrite take_app_length', drop_app_length' by (by rewrite length_pad8).
  rewrite take_ge by (by rewrite length_pad8).
  unfold pad8. rewrite Uvarint_PutUvarint, Varint_PutVarint by lia.
  destruct (Z.ltb_spec height start); cbn; [done|].
  rewrite i64_small, u64_small by (unfold is_i64, is_u64; lia). done.
Qed.

Lemma katzenmint_epoch_roundtrip_witness :
  decode_epoch (epoch_answer 300 1000 1007) = (300, 7, None).
Proof. apply (katzenmint_epoch_roundtrip 300 1000 1007); lia. Defined.

(** A number that does not end within its eight bytes is not an error: the
    epoch is read as 0, the height as that of the block. *)
Theorem katzenmint_truncated_epoch v w height :
  length v = 8%nat -> length w = 8%nat -> 0 <= height < 2 ^ 63 ->
  Forall (fun b => 128 <= byte_to_Z b) v -> Forall (fun b => 128 <= byte_to_Z b) w ->
  decode_epoch (mkResponse 0 "" (v ++ w) height) = (0, height, None).
Proof.
  intros Lv Lw Hh Hv Hw. unfold decode_epoch. cbn [Code Value Height].
  rewrite length_app, Lv, Lw. cbn [negb Z.eqb Z.of_nat].
  rewrite take_app_length', drop_app_length' by done. rewrite take_ge by lia.
  unfold Varint, Uvarint. rewrite !uvarint_go_truncated by done. cbn -[i64 u64].
  change (i64 (Z.shiftr 0 1)) with 0. destruct (Z.ltb_spec height 0); [lia|]. rewrite Z.sub_0_r.
  by rewrite i64_small, u64_small by (unfold is_i64, is_u64; lia).
Qed.

Lemma katzenmint_truncated_epoch_witness :
  decode_epoch (mkResponse 0 "" (replicate 8 (byte_of_Z 200) ++ replicate 8 (byte_of_Z 129)) 77)
    = (0, 77, None).
Proof.
  apply katzenmint_truncated_epoch; [reflexivity|reflexivity|lia| |];
    repeat constructor; vm_compute; congruence.
Defined.

(** C10. Documents are verified end to end: callers of a cache over this client,
    the worker, the clock and [Halt] in any order and whatever the light client
    answers, every document a caller is given is of the epoch it asked for and is
    what the s11n package verifies and parses from the raw bytes given with it. *)
Theorem katzenmint_cached_documents_verified (p0 : PKIClient L D) (s : CSys) id e d raw :
  reachable (fun s => s = csys_init (worker_start (NewCacheClient p0))) cstep s ->
  calls s !! id = Some e -> replies s !! id = Some (Ok (d, raw)) ->
  Epoch d = e /\ VerifyAndParseDocument raw = inr d.
Proof.
  intros Hr Hc Hrep. assert (csys_ok s) as Hs.
  { revert s Hr Hc Hrep. intros s Hr _ _. revert s Hr.
    apply reachable_ind_inv; [|apply csys_ok_step].
    intros s ->. by apply csys_ok_init, worker_start_ok, cache_ok_new. }
  destruct (so_replies _ Hs _ _ Hrep) as (e' & He & Hd). simplify_eq.
  exact (Hd _ eq_refl).
Qed.

(** Posting publishes once: [Post] returns nil exactly when the descriptor
    is well formed for the epoch, signing and forming the transaction succeed and
    the broadcast is accepted by both checks; the transaction broadcast is the
    publication of the signed descriptor for that epoch, and nothing is sent when
    an earlier step fails. *)
Theorem katzenmint_post_spec {Key} wf sign hex (form : Z -> Z -> string -> Key -> string + bytes)
    (p : PKIClient L D) epoch k d :
  let '(err, p') := Post cmd_PublishMixDescriptor wf sign hex form p epoch k d in
  let tx := match wf d epoch, sign k d with
            | None, inr s => form cmd_PublishMixDescriptor epoch (hex s) k
            | _, _ => inl "" end in
  db p' = db p /\
  light p' = match tx with
             | inr tx => (BroadcastTxCommit (light p) tx).2 | inl _ => light p end /\
  (err = None <-> exists t r, tx = inr t /\ (BroadcastTxCommit (light p) t).1 = inr r /\
     (CheckTx r).1 = 0 /\ (DeliverTx r).1 = 0).
Proof.
  unfold Post, PostTx, IsOK.
  destruct (wf d epoch) as [er|]; cbn;
    [do 2 (split; [done|]); split; [done|by intros (? & ? & ? & _)]|].
  destruct (sign k d) as [er|sg]; cbn;
    [do 2 (split; [done|]); split; [done|by intros (? & ? & ? & _)]|].
  destruct (form _ _ _ _) as [er|tx]; cbn;
    [do 2 (split; [done|]); split; [done|by intros (? & ? & ? & _)]|].
  destruct (BroadcastTxCommit (light p) tx) as [[er|r] l] eqn:E; cbn.
  - rewrite ?E. do 2 (split; [done|]). split; [done|].
    intros (t & r & [= <-] & Er & _). by rewrite E in Er.
  - rewrite ?E. destruct (Z.eqb_spec (CheckTx r).1 0), (Z.eqb_spec (DeliverTx r).1 0); cbn.
    all: do 2 (split; [done|]); split; try done.
    all: try (intros _; exists tx, r; by rewrite E).
    all: intros (t & r' & [= <-] & Er & ? & ?); rewrite E in Er; cbn in Er; congruence.
Qed.

(** [Shutdown] of a client made from a light client panics, its database
    being nil; one made by [NewPKIClient] shuts down, its light client stopped. *)
Theorem katzenmint_shutdown_panics {C P} ndb nlc np (nrpc : P -> C -> L) cfg :
  (forall l, Shutdown (D:=D) (NewPKIClientFromLightClient l) = Panic) /\
  (forall p : PKIClient L D, NewPKIClient ndb nlc np nrpc cfg = inr p ->
     Shutdown p = Ok (mkPKIClient (light_Stop (light p)) (db p))).
Proof.
  split; [done|]. intros p. unfold NewPKIClient. intros E.
  repeat case_match; simplify_eq. done.
Qed.
End KatzenmintProperties.

(** ** Witnesses: a light client that answers every query alike *)

Definition ex_light : LightClient nat := {|
  ABCIQueryWithOptions n _ := (inr (epoch_answer 2 5 9), S n);
  BroadcastTxCommit n _ := (inr (mkTxResult (0, "") (0, "")), S n);
  light_Stop n := O;
|}.
#[local] Existing Instance ex_light.

(** Every answer parses as the document of epoch 2. *)
Definition ex_parse (raw : bytes) : string + Document := inr (doc_at 2).
Definition ex_client : PkiClient (PKIClient nat unit) :=
  Katzenmint_PkiClient 1 2 3 (fun _ => inr []) ex_parse.
#[local] Existing Instance ex_client.

Lemma katzenmint_cached_documents_verified_witness :
  let raw := Value (epoch_answer 2 5 9) in
  Epoch (doc_at 2) = 2 /\ ex_parse raw = inr (doc_at 2).
Proof.
  intros raw.
  set (c0 := worker_start (NewCacheClient (NewPKIClientFromLightClient (D:=unit) 0%nat))).
  set (c1 := with_impl c0 (mkPKIClient 1%nat None)).
  set (cs := <[0%nat := 2]> ∅ : gmap nat Z). set (x := mkCacheEntry raw (doc_at 2)).
  refine (katzenmint_cached_documents_verified 1 2 3 (fun _ => inr []) ex_parse
    (NewPKIClientFromLightClient 0%nat)
    (mkCSys (mkClock false []) (insertLRU c1 x) [] Idle false cs (<[0%nat := Ok (doc_at 2, raw)]> ∅))
    0%nat 2 (doc_at 2) raw _ eq_refl eq_refl).
  eapply reachable_step; [eapply reachable_step; [eapply reachable_step; [eapply reachable_step;
    [apply reachable_init; reflexivity|]|]|]|].
  - exact (y_enqueue (csys_init c0) 0 2 c0 eq_refl eq_refl eq_refl).
  - exact (y_take (mkCSys (mkClock false []) c0 [(0%nat, 2)] Idle false cs ∅) 0 2 [] eq_refl eq_refl).
  - exact (y_fetch (mkCSys (mkClock false []) c0 [] (Serving 0 2) false cs ∅) 0 2 c0 (doc_at 2) raw
      (mkPKIClient 1%nat None) eq_refl eq_refl eq_refl).
  - exact (y_insert (mkCSys (mkClock false []) c1 [] (Fetched 0 2 x) false cs ∅) 0 2 x eq_refl).
Defined.

Lemma katzenmint_shutdown_panics_witness :
  Shutdown (D:=unit) (mkPKIClient 7%nat (Some tt)) = Ok (mkPKIClient 0%nat (Some tt)).
Proof.
  exact (proj2 (katzenmint_shutdown_panics (L:=nat) (D:=unit) (C:=unit) (P:=unit)
    (fun _ _ => inr tt) (fun _ _ _ _ _ => inr tt) (fun _ _ => inr tt) (fun _ _ => 7%nat)
    (mkPKIClientConfig "" (mkTrust 0 0 []) "" [] "" "" "")) _ eq_refl).
Defined.
