(* ===== verification/Path.v ===== *)
(** Path selection for Sphinx packets (minclient/path.go): the hops of a route,
    the routing commands of each hop, the delays, the retries over epochs. The
    random generator, the constants of the katzenpost core packages and
    [GetNodeByKey] are parameters. *)

From S2P Require Import Prelude GoStd PkiClient.

(** ** Data *)

Inductive RoutingCommand :=
  | NodeDelay (Delay : Z)
  | Recipient (ID : bytes)
  | SURBReply (ID : bytes).

Record PathHop := mkHop { ID : bytes; PublicKey : bytes; Commands : list RoutingCommand }.

Inductive path_error :=
  | errMaxAttempts
  | ErrInvalidDestinationLayer (layer : Z)
  | ErrInvalidSourceLayer (layer : Z)
  | ErrLayerNoNodes (layer : Z).

#[global] Instance path_error_eq_dec : EqDecision path_error.
Proof. solve_decision. Defined.

(** A pseudo-random generator: [rng.Intn(n)] (called with a positive [n]) and
    [uint64(rand.Exp(rng, lambda))]. *)
Class Rng (R : Type) := {
  Intn : Z -> R -> Z * R;
  Exp : float64 -> R -> Z * R;
}.
Class RngLaws (R : Type) `{Rng R} := {
  Intn_range : forall n r, 0 < n -> 0 <= (Intn n r).1 < n;
  Exp_range : forall l r, is_u64 (Exp l r).1;
}.

Definition maxAttempts : nat := 3.

Section Path.
Context {R : Type} `{Rng R}.
(** kpki.LayerProvider; the sizes of a node's and of a recipient's identifier. *)
Context (LayerProvider : Z) (NodeIDLength RecipientIDLength SURBIDLength : nat).

(** A zeroed array with the bytes copied in. *)
Definition array_of (n : nat) (src : bytes) : bytes := copy_into (replicate n (byte_of_Z 0)) src.

(** The loop of [selectHops]: one random node per layer, until the layer of the
    destination. *)
Fixpoint pick_nodes (layers : list (list MixDescriptor)) (i dstLayer : Z)
    (hops : list MixDescriptor) (r : R) : outcome path_error (list MixDescriptor) * R :=
  match layers with
  | [] => (Ok hops, r)
  | nodes :: layers =>
      if i =? dstLayer then (Ok hops, r)
      else if Z.of_nat (length nodes) =? 0 then (Err (ErrLayerNoNodes i), r)
      else
        let '(n, r) := Intn (Z.of_nat (length nodes)) r in
        match index nodes n with
        | Ok d => pick_nodes layers (i + 1) dstLayer (hops ++ [d]) r
        | Err e => (Err e, r)
        | Panic => (Panic, r)
        end
  end.

(** The common end of [selectHops]: a negative capacity and a slice out of range
    panic. *)
Definition selectFrom (r : R) (doc : Document) (src dst : MixDescriptor)
    (isFromClient isForward : bool) (startLayer nHops : Z) :
    outcome path_error (list MixDescriptor) * R :=
  if nHops <? 0 then (Panic, r)
  else
    let hops := if isForward && isFromClient then [src] else [] in
    match slice_from (Topology doc) (Z.to_nat startLayer) with
    | Ok layers =>
        let '(hops, r) := pick_nodes layers 0 (Layer dst) hops r in
        ((fun hops => hops ++ [dst]) <$> hops, r)
    | Err e => (Err e, r)
    | Panic => (Panic, r)
    end.

Definition selectHops (r : R) (doc : Document) (src dst : MixDescriptor)
    (isFromClient isForward : bool) : outcome path_error (list MixDescriptor) * R :=
  let select := selectFrom r doc src dst isFromClient isForward in
  let len := Z.of_nat (length (Topology doc)) in
  if isForward then
    if negb (Layer dst =? LayerProvider) then (Err (ErrInvalidDestinationLayer (Layer dst)), r)
    else if isFromClient then
      if negb (Layer src =? LayerProvider) then (Err (ErrInvalidSourceLayer (Layer src)), r)
      else select 0 (len + 2)
    else if Layer src =? LayerProvider then select 0 (len - 0)
    else if Layer src =? len - 1 then (Ok [dst], r)
    else select (Layer src + 1) (len - (Layer src + 1))
  else
    if negb (Layer src =? LayerProvider) then (Err (ErrInvalidSourceLayer (Layer src)), r)
    else if Layer dst =? LayerProvider then select 0 (len + 1)
    else if Layer dst =? 0 then (Ok [dst], r)
    else select 0 (Layer dst + 1).

(** One delay of a hop, clamped when the document sets a bound. *)
Definition hop_delay (doc : Document) (r : R) : Z * R :=
  let '(x, r) := Exp (Mu doc) r in
  let delay := u64 (x + 1) in
  ((if (0 <? MuMaxDelay doc) && (MuMaxDelay doc <? delay) then MuMaxDelay doc else delay), r).

Definition terminal_commands (recipient : bytes) (surbID : option bytes) (isForward : bool) :
    list RoutingCommand :=
  Recipient (array_of RecipientIDLength recipient) ::
  match surbID with
  | Some id => if isForward then [] else [SURBReply (array_of SURBIDLength id)]
  | None => []
  end.

(** All hops but the last are delayed, and the last one of a forward path with a
    SURB attached. *)
Definition delayed (terminal : bool) (surbID : option bytes) (isForward : bool) : bool :=
  negb terminal || (bool_decide (is_Some surbID) && isForward).

(** The loop over the descriptors; [None] when a node has no key for the epoch. *)
Fixpoint make_hops (doc : Document) (recipient : bytes) (surbID : option bytes)
    (isForward : bool) (epoch : Z) (descs : list MixDescriptor) (idx len : Z)
    (path : list PathHop) (then_ : Time) (r : R) : option (list PathHop * Time) * R :=
  match descs with
  | [] => (Some (path, then_), r)
  | desc :: descs =>
      match MixKeys desc !! epoch with
      | None => (None, r)
      | Some k =>
          let terminal := idx =? len - 1 in
          let '(cmds, then_, r) :=
            if delayed terminal surbID isForward then
              let '(delay, r) := hop_delay doc r in
              ([NodeDelay (u32 delay)],
               Time_Add then_ (Duration_mul (i64 delay) Millisecond), r)
            else ([], then_, r) in
          let cmds := cmds ++
            if terminal then terminal_commands recipient surbID isForward else [] in
          make_hops doc recipient surbID isForward epoch descs (idx + 1) len
            (path ++ [mkHop (array_of NodeIDLength (IdentityKey desc)) k cmds]) then_ r
      end
  end.

Fixpoint select_loop (attempts : nat) (r : R) (doc : Document) (recipient : bytes)
    (src dst : MixDescriptor) (surbID : option bytes) (baseTime : Time)
    (isFromClient isForward : bool) (epoch : Z) :
    outcome path_error (list PathHop * Time) * R :=
  match attempts with
  | O => (Err errMaxAttempts, r)
  | S attempts =>
      match selectHops r doc src dst isFromClient isForward with
      | (Ok descs, r) =>
          match make_hops doc recipient surbID isForward epoch descs 0
                  (Z.of_nat (length descs)) [] baseTime r with
          | (Some (path, then_), r) => (Ok (path, then_), r)
          | (None, r) =>
              select_loop attempts r doc recipient src dst surbID baseTime isFromClient
                isForward (u64 (epoch + 1))
          end
      | (Err e, r) => (Err e, r)
      | (Panic, r) => (Panic, r)
      end
  end.

Definition NewPath := select_loop maxAttempts.

(** [ToString]: a line per hop, the delay of the first delay command or 0. *)
Definition first_delay (cmds : list RoutingCommand) : Z :=
  default 0 (head (omap (fun c => match c with NodeDelay d => Some d | _ => None end) cmds)).

Fixpoint ToString_go {E} (GetNodeByKey : bytes -> E + MixDescriptor) (idx : Z)
    (p : list PathHop) : outcome E (list string) :=
  match p with
  | [] => Ok []
  | v :: p =>
      match GetNodeByKey (ID v) with
      | inl e => Err e
      | inr desc =>
          cons ("Hop[" +:+ pretty idx +:+ "] '" +:+ Name desc +:+ "' - " +:+
                pretty (first_delay (Commands v)) +:+ " ms")%string
            <$> ToString_go GetNodeByKey (idx + 1) p
      end
  end.
Definition ToString {E} (GetNodeByKey : bytes -> E + MixDescriptor) := ToString_go GetNodeByKey 0.
End Path.

(** ** Which layers a route crosses *)

Section PathFacts.
Context {R : Type} `{RngLaws R}.
Context (LayerProvider : Z) (NodeIDLength RecipientIDLength SURBIDLength : nat).

Definition route_layers (doc : Document) (src dst : MixDescriptor)
    (isFromClient isForward : bool) : list (list MixDescriptor) :=
  if isForward then
    if isFromClient || (Layer src =? LayerProvider) then Topology doc
    else drop (Z.to_nat (Layer src + 1)) (Topology doc)
  else if Layer dst =? LayerProvider then Topology doc
  else take (Z.to_nat (Layer dst)) (Topology doc).

(** The ends a route may have: forward, to a provider, from a provider if the
    packet comes from a client and otherwise from a provider or a mix of the
    topology; backward, from a provider. *)
Definition ends_ok (doc : Document) (src dst : MixDescriptor) (isFromClient isForward : bool) :
    bool :=
  if isForward then
    (Layer dst =? LayerProvider) &&
    ((Layer src =? LayerProvider) ||
     (negb isFromClient && (Layer src <? Z.of_nat (length (Topology doc)))))
  else Layer src =? LayerProvider.

Definition is_layer (d : MixDescriptor) : Prop := 0 <= Layer d <= LayerProvider.

Lemma pick_nodes_ok layers i dstLayer hops r :
  i <= dstLayer ->
  let crossed := take (Z.to_nat (dstLayer - i)) layers in
  Forall (fun l => l <> []) crossed ->
  exists picks, (pick_nodes layers i dstLayer hops r).1 = Ok (hops ++ picks) /\
    Forall2 (fun d l => d ∈ l) picks crossed.
Proof.
  cbn zeta. revert i hops r. induction layers as [|nodes layers IH]; intros i hops r Hi Hne; cbn.
  { exists []. by rewrite app_nil_r, take_nil. }
  destruct (Z.eqb_spec i dstLayer) as [->|Hne']; cbn.
  { exists []. by rewrite app_nil_r, Z.sub_diag. }
  replace (Z.to_nat (dstLayer - i)) with (S (Z.to_nat (dstLayer - (i + 1)))) in * by lia.
  cbn in *. apply Forall_cons in Hne as [Hn Hne].
  destruct nodes as [|d0 nodes]; [done|].
  destruct (Z.eqb_spec (Z.of_nat (length (d0 :: nodes))) 0) as [?|_]; [done|].
  destruct (Intn _ r) as [n r'] eqn:En.
  pose proof (Intn_range (Z.of_nat (length (d0 :: nodes))) r ltac:(cbn; lia)) as Hr.
  rewrite En in Hr. cbn [fst] in Hr.
  destruct (index_Ok (E:=path_error) _ _ Hr) as (d & -> & Hd).
  destruct (IH (i + 1) (hops ++ [d]) r' ltac:(lia) Hne) as (picks & -> & Hp).
  exists (d :: picks). rewrite <-app_assoc. split; [done|]. constructor; [|done].
  by eapply list_elem_of_lookup_2.
Qed.

Lemma pick_nodes_empty layers i dstLayer hops r pre post :
  i <= dstLayer -> take (Z.to_nat (dstLayer - i)) layers = pre ++ [] :: post ->
  Forall (fun l => l <> []) pre ->
  (pick_nodes layers i dstLayer hops r).1 = Err (ErrLayerNoNodes (i + Z.of_nat (length pre))).
Proof.
  revert i hops r pre. induction layers as [|nodes layers IH]; intros i hops r pre Hi E Hne; cbn.
  { rewrite take_nil in E. by destruct pre. }
  destruct (Z.eqb_spec i dstLayer) as [->|Hne']; cbn.
  { rewrite Z.sub_diag in E. by destruct pre. }
  replace (Z.to_nat (dstLayer - i)) with (S (Z.to_nat (dstLayer - (i + 1)))) in * by lia.
  cbn in E. destruct pre as [|l pre]; cbn in E; simplify_eq.
  { cbn. by rewrite Z.add_0_r. }
  apply Forall_cons in Hne as [Hn Hne]. destruct l as [|d0 nodes]; [done|].
  destruct (Z.eqb_spec (Z.of_nat (length (d0 :: nodes))) 0) as [?|_]; [done|].
  destruct (Intn _ r) as [n r'] eqn:En.
  pose proof (Intn_range (Z.of_nat (length (d0 :: nodes))) r ltac:(cbn; lia)) as Hr.
  rewrite En in Hr. cbn [fst] in Hr.
  destruct (index_Ok (E:=path_error) _ _ Hr) as (d & -> & Hd).
  rewrite (IH (i + 1) (hops ++ [d]) r' pre ltac:(lia) ltac:(done) Hne).
  cbn [length]. do 2 f_equal. lia.
Qed.

Definition route_start (src : MixDescriptor) (isFromClient isForward : bool) :
    list MixDescriptor :=
  if isForward && isFromClient then [src] else [].

(** [selectFrom] with its layers spelled out. *)
Lemma selectFrom_ok r doc src dst c f start nHops :
  0 <= start <= Z.of_nat (length (Topology doc)) -> 0 <= nHops -> 0 <= Layer dst ->
  let crossed := take (Z.to_nat (Layer dst)) (drop (Z.to_nat start) (Topology doc)) in
  (Forall (fun l => l <> []) crossed ->
   exists picks, (selectFrom r doc src dst c f start nHops).1
     = Ok (route_start src c f ++ picks ++ [dst]) /\ Forall2 (fun d l => d ∈ l) picks crossed) /\
  (forall pre post, crossed = pre ++ [] :: post -> Forall (fun l => l <> []) pre ->
   (selectFrom r doc src dst c f start nHops).1 = Err (ErrLayerNoNodes (Z.of_nat (length pre)))).
Proof.
  intros Hs Hn Hd crossed. unfold selectFrom. destruct (Z.ltb_spec nHops 0); [lia|].
  rewrite slice_from_Ok by lia. fold (route_start src c f). split.
  - intros Hne. destruct (pick_nodes_ok (drop (Z.to_nat start) (Topology doc)) 0 (Layer dst)
      (route_start src c f) r Hd) as (picks & E & Hp); [by rewrite Z.sub_0_r|].
    rewrite Z.sub_0_r in Hp. destruct (pick_nodes _ _ _ _ _) as [res r']. cbn in *. subst.
    exists picks. cbn. by rewrite <-app_assoc.
  - intros pre post E Hne.
    pose proof (pick_nodes_empty (drop (Z.to_nat start) (Topology doc)) 0 (Layer dst)
      (route_start src c f) r pre post Hd) as Ep.
    rewrite Z.sub_0_r in Ep. specialize (Ep E Hne).
    destruct (pick_nodes _ _ _ _ _) as [res r']. cbn in *. by subst.
Qed.

Lemma selectHops_cases r doc src dst c f :
  is_layer src -> is_layer dst -> Z.of_nat (length (Topology doc)) <= LayerProvider ->
  ends_ok doc src dst c f = true ->
  let crossed := route_layers doc src dst c f in
  (Forall (fun l => l <> []) crossed ->
   exists picks, (selectHops LayerProvider r doc src dst c f).1
     = Ok (route_start src c f ++ picks ++ [dst]) /\ Forall2 (fun d l => d ∈ l) picks crossed) /\
  (forall pre post, crossed = pre ++ [] :: post -> Forall (fun l => l <> []) pre ->
   (selectHops LayerProvider r doc src dst c f).1 = Err (ErrLayerNoNodes (Z.of_nat (length pre)))).
Proof.
  unfold is_layer. intros Hs Hd Hlen Hends. cbn zeta.
  unfold ends_ok, selectHops, route_layers in *. destruct f.
  - apply andb_true_iff in Hends as [Ed Es]. apply Z.eqb_eq in Ed.
    rewrite (proj2 (Z.eqb_eq _ _) Ed). cbn [negb].
    assert (Htake : forall n, take (Z.to_nat (Layer dst)) (drop n (Topology doc))
      = drop n (Topology doc)) by (intros n; apply take_ge; rewrite length_drop; lia).
    destruct c; cbn [negb orb andb] in *.
    + rewrite orb_false_r in Es. rewrite Es. cbn [negb].
      pose proof (selectFrom_ok r doc src dst true true 0
        (Z.of_nat (length (Topology doc)) + 2)) as Hf.
      cbn zeta in Hf. rewrite Htake in Hf. apply Hf; lia.
    + destruct (Z.eqb_spec (Layer src) LayerProvider) as [E|E]; cbn [orb] in *.
      { pose proof (selectFrom_ok r doc src dst false true 0
          (Z.of_nat (length (Topology doc)) - 0)) as Hf.
        cbn zeta in Hf. rewrite Htake in Hf. apply Hf; lia. }
      apply Z.ltb_lt in Es. destruct (Z.eqb_spec (Layer src) (Z.of_nat (length (Topology doc)) - 1)).
      { rewrite drop_ge by lia. split; [by exists []|by intros []]. }
      pose proof (selectFrom_ok r doc src dst false true (Layer src + 1)
        (Z.of_nat (length (Topology doc)) - (Layer src + 1))) as Hf.
      cbn zeta in Hf. rewrite Htake in Hf. apply Hf; lia.
  - rewrite Hends. cbn [negb]. destruct (Z.eqb_spec (Layer dst) LayerProvider) as [E|E].
    + pose proof (selectFrom_ok r doc src dst c false 0
        (Z.of_nat (length (Topology doc)) + 1)) as Hf.
      cbn zeta in Hf. rewrite drop_0, take_ge in Hf by lia. apply Hf; lia.
    + destruct (Z.eqb_spec (Layer dst) 0) as [->|E0].
      { cbn. split; [by exists []|by intros []]. }
      pose proof (selectFrom_ok r doc src dst c false 0 (Layer dst + 1)) as Hf.
      cbn zeta in Hf. rewrite drop_0 in Hf. apply Hf; lia.
Qed.
End PathFacts.

(** ** The hops of a path *)

Section HopFacts.
Context {R : Type} `{RngLaws R}.
Context (LayerProvider : Z) (NodeIDLength RecipientIDLength SURBIDLength : nat).
Context (doc : Document) (recipient : bytes) (surbID : option bytes) (isForward : bool).

#[local] Abbreviation make_hops :=
  (make_hops NodeIDLength RecipientIDLength SURBIDLength doc recipient surbID isForward).

Definition hop_of (d : MixDescriptor) (k : bytes) (cmds : list RoutingCommand) : PathHop :=
  mkHop (array_of NodeIDLength (IdentityKey d)) k cmds.

(** The path for a list of nodes: every hop has its node's identity and its key
    for the epoch; all hops but the last carry just a delay, the last carries the
    recipient, after a delay if a forward packet has a SURB, before the SURB's
    identifier on the way back. *)
Inductive path_for (epoch : Z) : list MixDescriptor -> list PathHop -> Prop :=
  | pf_last d k delay :
      MixKeys d !! epoch = Some k ->
      path_for epoch [d] [hop_of d k
        ((if bool_decide (is_Some surbID) && isForward then [NodeDelay delay] else []) ++
         terminal_commands RecipientIDLength SURBIDLength recipient surbID isForward)]
  | pf_mix d k delay ds p :
      MixKeys d !! epoch = Some k -> ds <> [] -> path_for epoch ds p ->
      path_for epoch (d :: ds) (hop_of d k [NodeDelay delay] :: p).

Definition delays (p : list PathHop) : list Z := (fun h => first_delay (Commands h)) <$> p.

Lemma hop_delay_range r delay r' :
  hop_delay doc r = (delay, r') -> is_u64 (MuMaxDelay doc) -> is_u64 delay /\
  (0 < MuMaxDelay doc -> delay <= MuMaxDelay doc).
Proof.
  unfold hop_delay. destruct (Exp _ r) as [x r0]. intros [= <- <-] Hm.
  pose proof (u64_range (x + 1)).
  destruct (Z.ltb_spec 0 (MuMaxDelay doc)), (Z.ltb_spec (MuMaxDelay doc) (u64 (x + 1))); cbn;
    (split; [done|lia]).
Qed.

Lemma first_delay_terminal d t : first_delay (NodeDelay d :: t) = d.
Proof. done. Qed.
Lemma first_delay_none :
  first_delay (terminal_commands RecipientIDLength SURBIDLength recipient surbID isForward) = 0.
Proof. unfold terminal_commands. by destruct surbID, isForward. Qed.

Lemma make_hops_spec epoch descs idx len path then_ r path' then' r' :
  descs <> [] -> len = idx + Z.of_nat (length descs) ->
  make_hops epoch descs idx len path then_ r = (Some (path', then'), r') ->
  exists p, path' = path ++ p /\ path_for epoch descs p /\
    (0 < MuMaxDelay doc < 2 ^ 32 ->
     Forall (fun d => 0 <= d <= MuMaxDelay doc) (delays p) /\
     then' = then_ + zsum (delays p) * Millisecond).
Proof.
  revert idx path then_ r. induction descs as [|d descs IH]; intros idx path then_ r Hne Hlen E;
    [done|].
  cbn [Path.make_hops] in E. destruct (MixKeys d !! epoch) as [k|] eqn:Ek; [|done].
  destruct (decide (descs = [])) as [->|Hds].
  - cbn [length] in Hlen. assert ((idx =? len - 1) = true) as Et by (apply Z.eqb_eq; lia).
    rewrite Et in E. unfold delayed in E. cbn [negb orb] in E.
    destruct (bool_decide (is_Some surbID) && isForward) eqn:Es.
    + destruct (hop_delay doc r) as [delay r1] eqn:Ed. cbn in E. simplify_eq.
      eexists. split; [done|]. split; [by rewrite <-(first_delay_terminal (u32 delay) []);
        pose proof (pf_last epoch d k (u32 delay) Ek) as Hp; rewrite Es in Hp|].
      intros Hm. destruct (hop_delay_range _ _ _ Ed) as [Hr Hle]; [unfold is_u64; lia|].
      specialize (Hle ltac:(lia)). unfold is_u64 in Hr. unfold delays. cbn.
      rewrite u32_small by (unfold is_u32; lia). split; [by repeat constructor; lia|].
      unfold zsum, Time_Add, Duration_mul, Millisecond. cbn.
      rewrite !i64_small by (rewrite ?i64_small; unfold is_i64; lia). lia.
    + cbn in E. simplify_eq. eexists. split; [done|].
      split; [by pose proof (pf_last epoch d k 0 Ek) as Hp; rewrite Es in Hp|].
      intros Hm. unfold delays. cbn [fmap list_fmap Commands]. rewrite first_delay_none.
      split; [by repeat constructor; lia|]. unfold zsum, Time_Add. cbn. lia.
  - assert ((idx =? len - 1) = false) as Et.
    { apply Z.eqb_neq. destruct descs; [done|]. cbn [length] in Hlen. lia. }
    rewrite Et in E. cbn [delayed negb orb] in E.
    destruct (hop_delay doc r) as [delay r1] eqn:Ed. cbn [app] in E.
    apply IH in E as (p & -> & Hp & Ht); [|done|cbn [length] in Hlen; lia].
    eexists. rewrite <-app_assoc. split; [done|]. split; [by apply pf_mix|].
    intros Hm. destruct (Ht Hm) as [Hb ->].
    destruct (hop_delay_range _ _ _ Ed) as [Hr Hle]; [unfold is_u64; lia|].
    specialize (Hle ltac:(lia)). unfold is_u64 in Hr.
    unfold delays. cbn. rewrite u32_small by (unfold is_u32; lia).
    split; [by constructor; [cbn; lia|]|].
    unfold Time_Add, Duration_mul, Millisecond.
    rewrite !i64_small by (rewrite ?i64_small; unfold is_i64; lia).
    unfold first_delay, zsum. cbn. fold (delays p). ring.
Qed.

(** The loop gives up exactly when a node has no key. *)
Lemma make_hops_None epoch descs idx len path then_ r :
  (make_hops epoch descs idx len path then_ r).1 = None <->
  exists d, d ∈ descs /\ MixKeys d !! epoch = None.
Proof.
  revert idx path then_ r. induction descs as [|d descs IH]; intros idx path then_ r.
  { cbn. split; [done|]. intros (? & H1 & _). by apply elem_of_nil in H1. }
  cbn [Path.make_hops]. destruct (MixKeys d !! epoch) as [k|] eqn:Ek.
  - assert (forall b, (exists d0, d0 ∈ d :: descs /\ MixKeys d0 !! epoch = None) <-> b ->
      (exists d0, d0 ∈ descs /\ MixKeys d0 !! epoch = None) <-> b) as Hb.
    { intros b <-. split; intros (x & Hx & Hn); exists x; (split; [|done]); [by right|].
      apply elem_of_cons in Hx as [->|?]; [congruence|done]. }
    destruct (delayed _ _ _); [destruct (hop_delay doc r)|]; (rewrite IH; by apply Hb).
  - cbn. split; [|done]. intros _. exists d. split; [by left|done].
Qed.
End HopFacts.

(** ** Properties *)

Section PathProperties.
Context {R : Type} `{RngLaws R}.
Context (LayerProvider : Z) (NodeIDLength RecipientIDLength SURBIDLength : nat).

#[local] Abbreviation NewPath :=
  (NewPath LayerProvider NodeIDLength RecipientIDLength SURBIDLength).
#[local] Abbreviation select_loop :=
  (select_loop LayerProvider NodeIDLength RecipientIDLength SURBIDLength).
#[local] Abbreviation route_layers := (route_layers LayerProvider).
#[local] Abbreviation ends_ok := (ends_ok LayerProvider).
#[local] Abbreviation path_for := (path_for NodeIDLength RecipientIDLength SURBIDLength).

(** What the callers rely on: layers are uint8 and every layer number of the
    topology is below the providers'. *)
Record doc_layers_ok (doc : Document) (src dst : MixDescriptor) : Prop := {
  lo_src : is_layer LayerProvider src;
  lo_dst : is_layer LayerProvider dst;
  lo_len : Z.of_nat (length (Topology doc)) <= LayerProvider;
}.

Lemma first_empty {A} (ls : list (list A)) :
  Forall (fun l => l <> []) ls \/
  exists pre post, ls = pre ++ [] :: post /\ Forall (fun l => l <> []) pre.
Proof.
  induction ls as [|l ls [IH|(pre & post & -> & Hp)]]; [by left| |].
  - destruct l; [right; by exists [], ls|left; by constructor].
  - right. destruct l as [|x l]; [by exists [], (pre ++ [] :: post)|].
    exists ((x :: l) :: pre), post. split; [done|]. by constructor.
Qed.

Lemma selectHops_Ok r doc src dst c f hops :
  doc_layers_ok doc src dst ->
  (selectHops LayerProvider r doc src dst c f).1 = Ok hops ->
  ends_ok doc src dst c f = true /\
  exists picks, hops = route_start src c f ++ picks ++ [dst] /\
    Forall2 (fun d l => d ∈ l) picks (route_layers doc src dst c f).
Proof.
  intros [Hs Hd Hlen] E. assert (ends_ok doc src dst c f = true) as He.
  { unfold is_layer in *. revert E. unfold selectHops, Path.ends_ok. destruct f.
    - destruct (Z.eqb_spec (Layer dst) LayerProvider); [|done].
      destruct c; destruct (Z.eqb_spec (Layer src) LayerProvider); cbn; try done.
      destruct (Z.eqb_spec (Layer src) (Z.of_nat (length (Topology doc)) - 1));
        [intros _; apply Z.ltb_lt; lia|].
      unfold selectFrom. destruct (Z.ltb_spec (Z.of_nat (length (Topology doc)) - (Layer src + 1)) 0);
        [done|]. intros _. apply Z.ltb_lt. lia.
    - by destruct (Z.eqb_spec (Layer src) LayerProvider). }
  split; [done|]. destruct (selectHops_cases _ r doc src dst c f Hs Hd Hlen He) as [H1 H2].
  destruct (first_empty (route_layers doc src dst c f)) as [Hf|(pre & post & Ef & Hf)].
  - destruct (H1 Hf) as (picks & E' & Hp). rewrite E in E'. simplify_eq. by exists picks.
  - rewrite (H2 _ _ Ef Hf) in E. done.
Qed.

Lemma u64_succ_add e j : u64 (u64 (e + 1) + j) = u64 (e + (1 + j)).
Proof. unfold wrap_u. rewrite Zplus_mod_idemp_l. f_equal. lia. Qed.

(** What every iteration of the selection yields. *)
Lemma select_loop_Ok n r doc recipient src dst surbID t0 c f epoch p t :
  doc_layers_ok doc src dst -> is_u64 epoch ->
  (select_loop n r doc recipient src dst surbID t0 c f epoch).1 = Ok (p, t) ->
  ends_ok doc src dst c f = true /\
  exists picks j, 0 <= j < Z.of_nat n /\
    Forall2 (fun d l => d ∈ l) picks (route_layers doc src dst c f) /\
    path_for recipient surbID f (u64 (epoch + j)) (route_start src c f ++ picks ++ [dst]) p /\
    (0 < MuMaxDelay doc < 2 ^ 32 ->
     Forall (fun d => 0 <= d <= MuMaxDelay doc) (delays p) /\
     t = t0 + zsum (delays p) * Millisecond).
Proof.
  intros Hl. revert r epoch. induction n as [|n IH]; intros r epoch He E; [done|].
  cbn [Path.select_loop] in E. pose proof (selectHops_Ok r doc src dst c f) as Hsel.
  destruct (selectHops LayerProvider r doc src dst c f) as [[descs|er|] r']; [|done..].
  destruct (Hsel descs Hl eq_refl) as (Hends & picks & -> & Hp).
  destruct (make_hops _ _ _ _ _ _ _ _ _ _ _ _ _ r') as [[[p' t']|] r''] eqn:Em.
  - cbn in E. simplify_eq. split; [done|]. apply make_hops_spec in Em as (p0 & -> & Hpf & Ht);
      [|by destruct (route_start src c f), picks|lia].
    exists picks, 0. rewrite Z.add_0_r, u64_small by done. split_and!; [lia|lia|done|done|done].
  - destruct (IH _ _ ltac:(apply u64_range) E) as (_ & picks' & j & Hj & Hp' & Hpf & Ht).
    split; [done|]. exists picks', (1 + j). rewrite <-u64_succ_add.
    split_and!; [lia|lia|done|done|done].
Qed.

(** Nor does the selection panic between allowed ends. *)
Lemma select_loop_no_panic n r doc recipient src dst surbID t0 c f epoch :
  doc_layers_ok doc src dst -> ends_ok doc src dst c f = true ->
  (select_loop n r doc recipient src dst surbID t0 c f epoch).1 <> Panic.
Proof.
  intros [Hs Hd Hlen] He. revert r epoch. induction n as [|n IH]; intros r epoch; [done|].
  cbn [Path.select_loop].
  destruct (selectHops_cases _ r doc src dst c f Hs Hd Hlen He) as [H1 H2].
  destruct (selectHops LayerProvider r doc src dst c f) as [[descs|er|] r']; [|done|].
  - destruct (make_hops _ _ _ _ _ _ _ _ _ _ _ _ _ r') as [[[p' t']|] r'']; [done|apply IH].
  - destruct (first_empty (route_layers doc src dst c f)) as [Hf|(pre & post & Ef & Hf)].
    + by destruct (H1 Hf) as (picks & E & _).
    + by pose proof (H2 _ _ Ef Hf).
Qed.

(** C6. A path that is returned is a route: its ends are allowed, it starts with
    the source provider when a client sends it, crosses one node of each layer
    between source and destination, in order, and ends at the destination; all
    its nodes have a key for one and the same epoch, at most two after the
    requested one, and each hop carries its node's identity, that key and the
    commands of its position. *)
Theorem path_is_route r doc recipient src dst surbID t0 c f epoch p t :
  doc_layers_ok doc src dst -> is_u64 epoch ->
  (NewPath r doc recipient src dst surbID t0 c f epoch).1 = Ok (p, t) ->
  ends_ok doc src dst c f = true /\
  exists picks j, 0 <= j <= 2 /\
    Forall2 (fun d l => d ∈ l) picks (route_layers doc src dst c f) /\
    path_for recipient surbID f (u64 (epoch + j)) (route_start src c f ++ picks ++ [dst]) p.
Proof.
  intros Hl He E. apply select_loop_Ok in E as (Hends & picks & j & Hj & Hp & Hpf & _); [|done..].
  split; [done|]. exists picks, j. unfold maxAttempts in Hj. split_and!; [lia|lia|done|done].
Qed.

(** The delays of a path: when the document bounds the delays, below 2^32
    milliseconds, no delay command exceeds the bound and the time returned is the
    base time plus the milliseconds the commands add up to. *)
Theorem path_delays_add_up r doc recipient src dst surbID t0 c f epoch p t :
  doc_layers_ok doc src dst -> is_u64 epoch -> 0 < MuMaxDelay doc < 2 ^ 32 ->
  (NewPath r doc recipient src dst surbID t0 c f epoch).1 = Ok (p, t) ->
  Forall (fun d => 0 <= d <= MuMaxDelay doc) (delays p) /\
  t = t0 + zsum (delays p) * Millisecond.
Proof.
  intros Hl He Hm E. apply select_loop_Ok in E as (_ & _ & _ & _ & _ & _ & Ht); [|done..].
  by apply Ht.
Qed.

Lemma select_loop_retries n r doc recipient src dst surbID t0 c f epoch :
  doc_layers_ok doc src dst -> ends_ok doc src dst c f = true ->
  Forall (fun l => l <> []) (route_layers doc src dst c f) ->
  let path := (select_loop n r doc recipient src dst surbID t0 c f epoch).1 in
  let keyed e d := is_Some (MixKeys d !! e) in
  (forall j, 0 <= j < Z.of_nat n -> is_u64 epoch ->
     Forall (keyed (u64 (epoch + j)))
       (route_start src c f ++ concat (route_layers doc src dst c f) ++ [dst]) ->
     is_ok path = true) /\
  ((forall j, 0 <= j < Z.of_nat n -> MixKeys dst !! u64 (epoch + j) = None) -> is_u64 epoch ->
     path = Err errMaxAttempts).
Proof.
  intros Hl Hends Hne path keyed.
  subst path. revert r epoch. induction n as [|n IH]; intros r epoch; [split; [lia|done]|].
  cbn [Path.select_loop].
  destruct Hl as [Hls Hld Hlen].
  destruct (proj1 (selectHops_cases _ r doc src dst c f Hls Hld Hlen Hends) Hne) as (picks & Es & Hp).
  destruct (selectHops LayerProvider r doc src dst c f) as [? r']. cbn [fst] in Es. subst.
  destruct (make_hops _ _ _ _ _ _ _ _ _ _ _ _ _ r') as [[[p' t']|] r''] eqn:Em.
  - split; [done|]. intros Hn He. specialize (Hn 0 ltac:(lia)).
    rewrite Z.add_0_r, u64_small in Hn by done. exfalso.
    enough ((Some (p', t'), r'').1 = None) as Hx by done. rewrite <-Em.
    apply make_hops_None. exists dst. split; [|done].
    rewrite !elem_of_app. right. right. by left.
  - destruct (IH r'' (u64 (epoch + 1))) as [IH1 IH2]. split.
    + intros j Hj He Hk. destruct (Z.eq_dec j 0) as [->|Hj0].
      * exfalso. rewrite Z.add_0_r, u64_small in Hk by done.
        assert ((None : option (list PathHop * Z), r'').1 = None) as Hx by done.
        rewrite <-Em in Hx. apply make_hops_None in Hx as (d & Hd & Hn).
        rewrite Forall_forall in Hk. specialize (Hk d). unfold keyed in Hk. rewrite Hn in Hk.
        apply (is_Some_None (A:=bytes)), Hk. rewrite !elem_of_app in *.
        destruct Hd as [?|[Hd|?]]; [tauto| |tauto]. right. left.
        apply list_elem_of_lookup in Hd as [i Hi].
        destruct (Forall2_lookup_l _ _ _ _ _ Hp Hi) as (l & Hl & Hin).
        apply list_elem_of_In, in_concat. exists l. rewrite <-!list_elem_of_In.
        split; [by eapply list_elem_of_lookup_2|done].
      * apply (IH1 (j - 1)); [lia|apply u64_range|].
        rewrite u64_succ_add. by replace (1 + (j - 1)) with j by lia.
    + intros Hn He. apply IH2; [|apply u64_range]. intros j Hj. rewrite u64_succ_add.
      apply Hn. lia.
Qed.

(** C25. The retries: with allowed ends and no empty layer, a path is found if at
    one of the epochs requested, next and next but one all the nodes the route may
    cross have a key; if the destination has none at any of the three, the call
    gives up with [errMaxAttempts]. *)
Theorem path_retries_three_epochs r doc recipient src dst surbID t0 c f epoch :
  doc_layers_ok doc src dst -> is_u64 epoch -> ends_ok doc src dst c f = true ->
  Forall (fun l => l <> []) (route_layers doc src dst c f) ->
  let path := (NewPath r doc recipient src dst surbID t0 c f epoch).1 in
  ((exists j, 0 <= j <= 2 /\
      Forall (fun d => is_Some (MixKeys d !! u64 (epoch + j)))
        (route_start src c f ++ concat (route_layers doc src dst c f) ++ [dst])) ->
   is_ok path = true) /\
  ((forall j, 0 <= j <= 2 -> MixKeys dst !! u64 (epoch + j) = None) ->
   path = Err errMaxAttempts).
Proof.
  intros Hl He Hends Hne path.
  destruct (select_loop_retries maxAttempts r doc recipient src dst surbID t0 c f epoch
    Hl Hends Hne) as [H1 H2]. change (Z.of_nat maxAttempts) with 3 in *. split.
  - intros (j & Hj & Hk). by apply (H1 j); [lia|..].
  - intros Hn. apply H2; [|done]. intros j Hj. apply Hn. lia.
Qed.
End PathProperties.

(** ** Witnesses: a counting generator and a topology of two layers *)

Definition ex_rng : Rng nat := {|
  Intn n r := (Z.of_nat r mod n, S r);
  Exp _ r := (Z.of_nat r * 40 mod 2 ^ 32, S r);
|}.
Lemma ex_rng_laws : RngLaws (H:=ex_rng) nat.
Proof.
  split; intros n r; cbn; [intros Hn; by apply Z.mod_pos_bound|].
  pose proof (Z.mod_pos_bound (Z.of_nat r * 40) (2 ^ 32) ltac:(lia)). unfold is_u64. lia.
Qed.
#[local] Existing Instance ex_rng.
#[local] Existing Instance ex_rng_laws.

(** A node named by a byte, with a key for one epoch. *)
Definition ex_node (n layer epoch : Z) : MixDescriptor :=
  mkDesc (pretty n) [byte_of_Z n] [] {[ epoch := [byte_of_Z (n + 100)] ]} ∅ ∅ None layer.
Definition ex_doc (key_epoch : Z) : Document :=
  mkDoc 7 (S754_zero false) 90 (S754_zero false) 0 (S754_zero false) 0 (S754_zero false) 0
    [[ex_node 1 0 key_epoch; ex_node 2 0 key_epoch]; [ex_node 3 1 key_epoch]]
    [ex_node 8 255 key_epoch; ex_node 9 255 key_epoch].
Definition ex_src := ex_node 8 255.
Definition ex_dst := ex_node 9 255.

Lemma ex_doc_ok e : doc_layers_ok 255 (ex_doc e) (ex_src e) (ex_dst e).
Proof. split; unfold is_layer; cbn; lia. Qed.
Definition ex_path (e : Z) :=
  (NewPath 255 32 64 16 1%nat (ex_doc 8) [byte_of_Z 65] (ex_src 8) (ex_dst 8)
    (Some [byte_of_Z 5]) 1000 true true e).1.
(** With keys for epoch 8 only, a path asked for epoch 7 is found on the second
    attempt. *)
Definition ex_result : list PathHop * Time :=
  match ex_path 7 with Ok r => r | _ => ([], 0) end.

Lemma path_is_route_witness :
  ends_ok 255 (ex_doc 8) (ex_src 8) (ex_dst 8) true true = true /\
  exists picks j, 0 <= j <= 2 /\
    Forall2 (fun d l => d ∈ l) picks (route_layers 255 (ex_doc 8) (ex_src 8) (ex_dst 8) true true) /\
    path_for 32 64 16 [byte_of_Z 65] (Some [byte_of_Z 5]) true (u64 (7 + j))
      (route_start (ex_src 8) true true ++ picks ++ [ex_dst 8]) ex_result.1.
Proof.
  apply (path_is_route 255 32 64 16 1%nat (ex_doc 8) [byte_of_Z 65] (ex_src 8) (ex_dst 8)
    (Some [byte_of_Z 5]) 1000 true true 7 ex_result.1 ex_result.2).
  - apply ex_doc_ok.
  - unfold is_u64. lia.
  - vm_compute. reflexivity.
Defined.

Lemma path_delays_add_up_witness :
  Forall (fun d => 0 <= d <= 90) (delays ex_result.1) /\
  ex_result.2 = 1000 + zsum (delays ex_result.1) * Millisecond.
Proof.
  apply (path_delays_add_up 255 32 64 16 1%nat (ex_doc 8) [byte_of_Z 65] (ex_src 8) (ex_dst 8)
    (Some [byte_of_Z 5]) 1000 true true 7 ex_result.1 ex_result.2).
  - apply ex_doc_ok.
  - unfold is_u64. lia.
  - cbn. lia.
  - vm_compute. reflexivity.
Defined.

Lemma path_retries_three_epochs_witness :
  is_ok (ex_path 7) = true /\ ex_path 9 = Err errMaxAttempts.
Proof.
  split.
  - apply (path_retries_three_epochs 255 32 64 16 1%nat (ex_doc 8) [byte_of_Z 65] (ex_src 8)
      (ex_dst 8) (Some [byte_of_Z 5]) 1000 true true 7).
    + apply ex_doc_ok.
    + unfold is_u64. lia.
    + reflexivity.
    + repeat constructor; discriminate.
    + exists 1. split; [lia|]. change (u64 (7 + 1)) with 8.
      repeat constructor; eexists; vm_compute; reflexivity.
  - apply (path_retries_three_epochs 255 32 64 16 1%nat (ex_doc 8) [byte_of_Z 65] (ex_src 8)
      (ex_dst 8) (Some [byte_of_Z 5]) 1000 true true 9).
    + apply ex_doc_ok.
    + unfold is_u64. lia.
    + reflexivity.
    + repeat constructor; discriminate.
    + intros j Hj. assert (j = 0 \/ j = 1 \/ j = 2) as [->|[->| ->]] by lia; vm_compute; reflexivity.
Defined.
