(* ===== verification/Pki.v ===== *)
(** The minclient's document fetcher (minclient/pki.go): the worker that keeps the
    current document at hand, its timer and its two one-slot channels, the callers
    of [currentDocument], the clock skew. *)

From S2P Require Import Prelude GoStd PkiClient.

Definition initialSpawnDelay : Duration := 3 * Second.

(** The build flag [WarpedEpoch] ("true" unless the linker overrides it) sets the
    interval at package initialisation. *)
Definition recheckInterval (WarpedEpoch : string) : Duration :=
  if String.eqb WarpedEpoch "true" then 3 * Second else 10 * Second.

Section Pki.
Context {S : Type} `{PkiClient S}.
(** From the configuration: [EnableTimeSync], whether [OnDocumentFn] is set; the
    interval above. *)
Context (EnableTimeSync OnDocumentFn : bool) (recheck : Duration).

(** [forceUpdateCh] and [doneWorkerCh] have one slot: full or not. [timer] and
    [lastCallbackEpoch] are locals of the worker; [callbacks] records the calls
    of [OnDocumentFn], latest first. *)
Record pki := mkPki {
  PKIClient : S;
  docs : gmap Z Document;
  failedFetches : gmap Z error;
  clockSkew : Z;
  forceUpdateCh : bool;
  doneWorkerCh : bool;
  doneClosed : bool;
  timer : Timer;
  lastCallbackEpoch : Z;
  callbacks : list Document;
}.

Definition newPKI (client : S) : pki :=
  mkPki client ∅ ∅ 0 false false false (NewTimer initialSpawnDelay) 0 [].

Definition with_client (p : pki) (s : S) : pki :=
  mkPki s (docs p) (failedFetches p) (clockSkew p) (forceUpdateCh p) (doneWorkerCh p)
    (doneClosed p) (timer p) (lastCallbackEpoch p) (callbacks p).
Definition with_docs (p : pki) (d : gmap Z Document) (f : gmap Z error) : pki :=
  mkPki (PKIClient p) d f (clockSkew p) (forceUpdateCh p) (doneWorkerCh p)
    (doneClosed p) (timer p) (lastCallbackEpoch p) (callbacks p).
Definition with_chans (p : pki) (force done closed : bool) : pki :=
  mkPki (PKIClient p) (docs p) (failedFetches p) (clockSkew p) force done closed
    (timer p) (lastCallbackEpoch p) (callbacks p).
Definition with_timer (p : pki) (t : Timer) : pki :=
  mkPki (PKIClient p) (docs p) (failedFetches p) (clockSkew p) (forceUpdateCh p)
    (doneWorkerCh p) (doneClosed p) t (lastCallbackEpoch p) (callbacks p).
Definition with_callback (p : pki) (e : Z) (d : Document) : pki :=
  mkPki (PKIClient p) (docs p) (failedFetches p) (clockSkew p) (forceUpdateCh p)
    (doneWorkerCh p) (doneClosed p) (timer p) e (d :: callbacks p).

(** ** The clock skew *)

Definition ClockSkew (p : pki) : Duration := Duration_mul (clockSkew p) Second.

(** The wake-up is dropped when one is pending: the slot is full after it. *)
Definition setClockSkew (p : pki) (skew : Z) : pki :=
  mkPki (PKIClient p) (docs p) (failedFetches p) skew true (doneWorkerCh p)
    (doneClosed p) (timer p) (lastCallbackEpoch p) (callbacks p).

Definition skewedUnixTime (p : pki) (now : Time) : Z :=
  if negb EnableTimeSync then Time_Unix now else i64 (Time_Unix now + clockSkew p).

(** ** The worker *)

Inductive wake := Forced | Ticked.

(** The second [select] case leaves the timer as it is; after a forced wake-up the
    timer is stopped and, if it had expired, its channel must be drained: [inl]
    is the state that waits for the tick. *)
Definition worker_wake (p : pki) (w : wake) : option (pki + pki) :=
  match w with
  | Forced =>
      if forceUpdateCh p then
        let p := with_chans p false (doneWorkerCh p) (doneClosed p) in
        let '(stopped, t) := Timer_Stop (timer p) in
        Some ((if stopped then inr else inl) (with_timer p t))
      else None
  | Ticked => (fun t => inr (with_timer p t)) <$> Timer_recv (timer p)
  end.
Definition worker_drain (p : pki) : option pki :=
  (fun t => with_timer p t) <$> Timer_recv (timer p).

(** The epochs to fetch, or [None] when the epoch is not known ([continue]). *)
Definition worker_now (p : pki) : option Z * pki :=
  let '((now, _, _, err), s) := Now (PKIClient p) in
  (match err with Some _ => None | None => Some now end, with_client p s).
Definition epochs (now : Z) : list Z := [u64 (now - 1); now].

Definition getDocumentDirect (canceled : bool) (p : pki) (epoch : Z) :
    outcome error Document * pki :=
  let '(r, s) := GetDoc (PKIClient p) epoch in
  (match r with
   | Panic => Panic
   | _ => if canceled then Err errGetConsensusCanceled else fst <$> r
   end, with_client p s).

Inductive fetched :=
  | Kept (p : pki)                 (* present, known to fail, or failed *)
  | Stored (p : pki)
  | Canceled (p : pki)             (* the worker returns *)
  | Panicked.

Definition fetch (canceled : bool) (p : pki) (epoch : Z) : fetched :=
  match docs p !! epoch with
  | Some _ => Kept p
  | None =>
      match failedFetches p !! epoch with
      | Some _ => Kept p
      | None =>
          match getDocumentDirect canceled p epoch with
          | (Ok d, p) => Stored (with_docs p (<[epoch := d]> (docs p)) (failedFetches p))
          | (Err ErrNoDocument, p) =>
              Kept (with_docs p (docs p) (<[epoch := ErrNoDocument]> (failedFetches p)))
          | (Err errGetConsensusCanceled, p) => Canceled p
          | (Err _, p) => Kept p
          | (Panic, _) => Panicked
          end
      end
  end.

Definition pruneDocuments (p : pki) (now : Z) : pki :=
  with_docs p (filter (fun x => ~ x.1 < now) (docs p)) (failedFetches p).
Definition pruneFailures (p : pki) (now : Z) : pki :=
  with_docs p (docs p)
    (filter (fun x => ~ (x.1 < now \/ u64 (now + 1) < x.1)) (failedFetches p)).

(** The end of an iteration; the send on [doneWorkerCh] finds the slot empty. *)
Definition worker_finish (p : pki) (now : Z) (didUpdate : bool) : pki :=
  let p := pruneFailures p now in
  let p := if didUpdate then pruneDocuments p now else p in
  let p :=
    if negb (now =? lastCallbackEpoch p) && OnDocumentFn then
      match docs p !! now with Some d => with_callback p now d | None => p end
    else p in
  with_timer (with_chans p (forceUpdateCh p) true (doneClosed p)) (Timer_Reset (timer p) recheck).

Fixpoint fetch_all (p : pki) (es : list Z) (didUpdate : bool) : option (pki * bool) :=
  match es with
  | [] => Some (p, didUpdate)
  | e :: es =>
      match fetch false p e with
      | Kept p => fetch_all p es didUpdate
      | Stored p => fetch_all p es true
      | Canceled _ | Panicked => None
      end
  end.

(** One iteration after the wake-up, without a halt: [None] if it panics. *)
Definition worker_update (p : pki) : option pki :=
  match worker_now p with
  | (None, p) => Some p
  | (Some now, p) => '(p, did) ← fetch_all p (epochs now) false; Some (worker_finish p now did)
  end.

(** ** [currentDocument] with the worker waiting

    A caller alone with a worker that waits in its [select]. On a miss it forces
    an update (behind a pending one) and waits for the worker's token;
    [worker_first] says who moves first when a token of an earlier update is still
    there. [None]: it never returns. *)
Definition forced_update (p : pki) : option pki :=
  p ← worker_wake p Forced;
  p ← match p with inr p => Some p | inl p => worker_drain p end;
  worker_update p.

Definition currentDocument (worker_first : bool) (p : pki) : option (option Document * pki) :=
  let '((now, _, _, err), s) := Now (PKIClient p) in
  let p := with_client p s in
  match err with
  | Some _ => Some (None, p)
  | None =>
      match docs p !! now with
      | Some d => Some (Some d, p)
      | None =>
          p ← (if forceUpdateCh p then forced_update p else Some p);
          let p := with_chans p true (doneWorkerCh p) (doneClosed p) in
          let take p := with_chans p (forceUpdateCh p) false (doneClosed p) in
          if worker_first || negb (doneWorkerCh p) then
            p ← forced_update p;
            if doneWorkerCh p then Some (docs p !! now, take p) else None
          else
            let result := docs p !! now in
            p ← forced_update (take p); Some (result, p)
      end
  end.

(** ** The worker, its callers, the clock and [Halt] as a transition system *)

Inductive worker_pc :=
  | W_select
  | W_drain                                              (* <-timer.C *)
  | W_update                                             (* epochtime.Now *)
  | W_fetch (now : Z) (es : list Z) (didUpdate : bool)
  | W_exited
  | W_canceled                                           (* returned from a fetch *)
  | W_panicked.

Inductive caller_pc :=
  | C_force (now : Z)                                    (* p.forceUpdateCh <- true *)
  | C_wait (now : Z)                                     (* <-p.doneWorkerCh *)
  | C_load (now : Z)
  | C_done (now : Z) (result : option Document).

Record Sys := mkSys { st : pki; wpc : worker_pc; halted : bool; callers : gmap nat caller_pc }.

Definition sys_init (s : S) : Sys := mkSys (newPKI s) W_select false ∅.

Inductive worker_step (s : Sys) : Sys -> Prop :=
  | w_halt : wpc s = W_select -> halted s = true ->
      worker_step s (mkSys (with_chans (st s) (forceUpdateCh (st s)) (doneWorkerCh (st s)) true)
        W_exited true (callers s))
  | w_wake w r : wpc s = W_select -> worker_wake (st s) w = Some r ->
      worker_step s (match r with
        | inl p => mkSys p W_drain (halted s) (callers s)
        | inr p => mkSys p W_update (halted s) (callers s) end)
  | w_drained p : wpc s = W_drain -> worker_drain (st s) = Some p ->
      worker_step s (mkSys p W_update (halted s) (callers s))
  | w_now r p : wpc s = W_update -> worker_now (st s) = (r, p) ->
      worker_step s (mkSys p
        (match r with Some now => W_fetch now (epochs now) false | None => W_select end)
        (halted s) (callers s))
  | w_fetch canceled now e es did :
      wpc s = W_fetch now (e :: es) did -> (canceled = true -> halted s = true) ->
      worker_step s (match fetch canceled (st s) e with
        | Kept p => mkSys p (W_fetch now es did) (halted s) (callers s)
        | Stored p => mkSys p (W_fetch now es true) (halted s) (callers s)
        | Canceled p => mkSys p W_canceled (halted s) (callers s)
        | Panicked => mkSys (st s) W_panicked (halted s) (callers s) end)
  | w_finish now did : wpc s = W_fetch now [] did ->
      worker_step s (mkSys (worker_finish (st s) now did) W_select (halted s) (callers s)).

Definition with_caller (s : Sys) (p : pki) (id : nat) (c : caller_pc) : Sys :=
  mkSys p (wpc s) (halted s) (<[id := c]> (callers s)).

(** A caller waits on a channel that is full or empty; a closed one is read at once. *)
Inductive caller_step (s : Sys) : Sys -> Prop :=
  | c_call id now ellapsed till err cl : callers s !! id = None ->
      Now (PKIClient (st s)) = (now, ellapsed, till, err, cl) ->
      caller_step s (with_caller s (with_client (st s) cl) id
        match err, docs (st s) !! now with
        | Some _, _ => C_done now None
        | None, Some d => C_done now (Some d)
        | None, None => C_force now
        end)
  | c_force id now : callers s !! id = Some (C_force now) -> forceUpdateCh (st s) = false ->
      caller_step s (with_caller s
        (with_chans (st s) true (doneWorkerCh (st s)) (doneClosed (st s))) id (C_wait now))
  | c_token id now : callers s !! id = Some (C_wait now) ->
      doneWorkerCh (st s) = true \/ doneClosed (st s) = true ->
      caller_step s (with_caller s
        (with_chans (st s) (forceUpdateCh (st s)) false (doneClosed (st s))) id (C_load now))
  | c_load id now : callers s !! id = Some (C_load now) ->
      caller_step s (with_caller s (st s) id (C_done now (docs (st s) !! now))).

Inductive env_step (s : Sys) : Sys -> Prop :=
  | e_expire : armed (timer (st s)) = true ->
      env_step s (mkSys (with_timer (st s) (Timer_expire (timer (st s)))) (wpc s) (halted s) (callers s))
  | e_skew skew : env_step s (mkSys (setClockSkew (st s) skew) (wpc s) (halted s) (callers s))
  | e_halt : env_step s (mkSys (st s) (wpc s) true (callers s)).

Inductive pstep (s s' : Sys) : Prop :=
  | p_worker : worker_step s s' -> pstep s s'
  | p_caller : caller_step s s' -> pstep s s'
  | p_env : env_step s s' -> pstep s s'.
End Pki.
Arguments pki : clear implicits.
Arguments fetched : clear implicits.
Arguments Sys : clear implicits.

(** ** Invariant *)

Section PkiInvariant.
Context {S : Type} `{PkiClientLaws S}.
Context (EnableTimeSync OnDocumentFn : bool) (recheck : Duration).
#[local] Abbreviation pstep := (pstep OnDocumentFn recheck).
#[local] Abbreviation worker_finish := (worker_finish OnDocumentFn recheck).

(** The document [d] is one the client vouches for at epoch [e]. *)
Definition vouched (e : Z) (d : Document) : Prop := exists raw, pc_doc e (d, raw).

Lemma vouched_epoch e d : vouched e d -> Epoch d = e.
Proof. intros [raw Hr]. by eapply pc_doc_epoch. Qed.

(** The epochs reported by [OnDocumentFn], latest first: no two in a row are the
    same, and the worker's local holds the latest. *)
Fixpoint alternating (l : list Z) : Prop :=
  match l with x :: ((y :: _) as l) => x <> y /\ alternating l | _ => True end.

Record pki_ok (p : pki S) : Prop := {
  po_client : pc_ok (PKIClient p);
  po_docs : forall e d, docs p !! e = Some d -> vouched e d;
  po_failed : forall e er, failedFetches p !! e = Some er -> er = ErrNoDocument;
  po_callbacks : Forall (fun d => vouched (Epoch d) d) (callbacks p);
  po_alternating : alternating (Epoch <$> callbacks p);
  po_last : head (Epoch <$> callbacks p) = None \/
            head (Epoch <$> callbacks p) = Some (lastCallbackEpoch p);
}.

Lemma newPKI_ok s : pc_ok s -> pki_ok (newPKI s).
Proof. intros Hs. split; cbn; try done. by left. Qed.

Lemma with_client_ok p s : pki_ok p -> pc_ok s -> pki_ok (with_client p s).
Proof. by intros [] ?; split. Qed.
Lemma with_chans_ok p f d c : pki_ok p -> pki_ok (with_chans p f d c).
Proof. by intros []; split. Qed.
Lemma with_timer_ok p t : pki_ok p -> pki_ok (with_timer p t).
Proof. by intros []; split. Qed.
Lemma setClockSkew_ok p k : pki_ok p -> pki_ok (setClockSkew p k).
Proof. by intros []; split. Qed.
Lemma with_docs_ok p d f :
  pki_ok p -> (forall e x, d !! e = Some x -> vouched e x) ->
  (forall e er, f !! e = Some er -> er = ErrNoDocument) -> pki_ok (with_docs p d f).
Proof. by intros [] ? ?; split. Qed.
Create HintDb pki.
#[local] Hint Resolve newPKI_ok with_client_ok with_chans_ok with_timer_ok setClockSkew_ok : pki.

Lemma Now_ok s : pc_ok s -> pc_ok (Now s).2.
Proof.
  intros Hs. pose proof (pc_GetEpoch_ok s Hs). unfold Now.
  by destruct (GetEpoch s) as [[[e h] er] s'].
Qed.

Lemma worker_now_ok p r p' : pki_ok p -> worker_now p = (r, p') -> pki_ok p'.
Proof.
  intros Hp. unfold worker_now. pose proof (Now_ok _ (po_client _ Hp)).
  destruct (Now (PKIClient p)) as [[[[? ?] ?] ?] s]. intros [= _ <-]. auto with pki.
Qed.

Lemma worker_wake_ok p w r :
  pki_ok p -> worker_wake p w = Some r -> pki_ok (match r with inl p | inr p => p end).
Proof.
  intros Hp. unfold worker_wake, Timer_recv, Timer_Stop. destruct w; repeat case_match; cbn;
    intros; simplify_eq/=; auto with pki.
Qed.

Definition fetched_ok (f : fetched S) : Prop :=
  match f with Kept p | Stored p | Canceled p => pki_ok p | Panicked => True end.

Lemma fetch_ok canceled p e : pki_ok p -> fetched_ok (fetch canceled p e).
Proof.
  intros Hp. unfold fetch. destruct (docs p !! e); [done|].
  destruct (failedFetches p !! e); [done|].
  unfold getDocumentDirect. pose proof (pc_GetDoc_ok (PKIClient p) e (po_client _ Hp)) as Hc.
  pose proof (pc_GetDoc_doc (PKIClient p) e) as Hd.
  destruct (GetDoc (PKIClient p) e) as [[[d raw]|er|] s]; cbn in Hc, Hd |- *; [| |done].
  - destruct canceled; cbn; [by auto with pki|].
    apply with_docs_ok; [by auto with pki| |by apply Hp].
    intros e' x Hx. apply lookup_insert_Some in Hx as [[-> ->]|[_ Hx]].
    + exists raw. apply Hd; [apply Hp|done].
    + by eapply (po_docs _ Hp).
  - assert (pki_ok (with_docs (with_client p s) (docs p)
      (<[e := ErrNoDocument]> (failedFetches p)))) as Hk.
    { apply with_docs_ok; [by auto with pki|by apply Hp|].
      intros e' x Hx. apply lookup_insert_Some in Hx as [[_ <-]|[_ Hx]]; [done|].
      by eapply (po_failed _ Hp). }
    destruct canceled; cbn; [by auto with pki|]. destruct er; cbn; auto with pki.
Qed.

Lemma with_callback_ok p e d :
  pki_ok p -> vouched e d -> (callbacks p = [] \/ e <> lastCallbackEpoch p) ->
  pki_ok (with_callback p e d).
Proof.
  intros [] Hv Hne. pose proof (vouched_epoch _ _ Hv) as He.
  split; cbn; try done; [by constructor; [rewrite He|]| |right; by rewrite He].
  destruct (callbacks p) as [|d' l]; [done|]. cbn in *. split; [|done].
  destruct Hne as [?|Hne]; [done|]. destruct po_last0 as [|[= ->]]; [done|]. congruence.
Qed.

Lemma worker_finish_ok p now did : pki_ok p -> pki_ok (worker_finish p now did).
Proof.
  intros Hp. unfold Pki.worker_finish. apply with_timer_ok, with_chans_ok.
  assert (pki_ok (if did then pruneDocuments (pruneFailures p now) now
                  else pruneFailures p now)) as Hq.
  { assert (pki_ok (pruneFailures p now)) as Hf.
    { apply with_docs_ok; [done|apply Hp|]. intros e er Hx.
      apply map_lookup_filter_Some in Hx as [Hx _]. by eapply po_failed. }
    destruct did; [|done]. apply with_docs_ok; [done| |apply Hf].
    intros e d Hx. apply map_lookup_filter_Some in Hx as [Hx _]. by eapply po_docs. }
  revert Hq. generalize (if did then pruneDocuments (pruneFailures p now) now
                         else pruneFailures p now). intros q Hq.
  destruct (Z.eqb_spec now (lastCallbackEpoch q)) as [|Hne]; cbn; [done|].
  destruct OnDocumentFn; [|done]. destruct (docs q !! now) eqn:Ed; [|done].
  apply with_callback_ok; [done|by eapply po_docs|by right].
Qed.
#[local] Hint Resolve worker_finish_ok : pki.

Definition caller_ok (c : caller_pc) : Prop :=
  match c with C_done now (Some d) => vouched now d | _ => True end.

Record sys_ok (s : Sys S) : Prop := {
  so_pki : pki_ok (st s);
  so_callers : forall id c, callers s !! id = Some c -> caller_ok c;
}.

Lemma with_caller_ok s p id c :
  sys_ok s -> pki_ok p -> caller_ok c -> sys_ok (with_caller s p id c).
Proof.
  intros [_ Hs] Hp Hc. split; [done|]. intros i x Hx. cbn in Hx.
  apply lookup_insert_Some in Hx as [[_ <-]|[_ Hx]]; [done|by eapply Hs].
Qed.

Lemma sys_ok_step s s' : sys_ok s -> pstep s s' -> sys_ok s'.
Proof.
  intros Hs [Hw|Hc|He].
  - pose proof (so_pki _ Hs) as Hp. destruct Hs as [_ Hs].
    destruct Hw as [? ?|w r ? E|p ? E|r p ? E|canceled now e es did ? ?|now did ?];
      split; cbn; auto with pki.
    + apply worker_wake_ok in E; [|done]. by destruct r.
    + by destruct r.
    + unfold worker_drain in E. destruct (Timer_recv _); simplify_eq/=. auto with pki.
    + by eapply worker_now_ok.
    + pose proof (fetch_ok canceled (st s) e Hp). by destruct (fetch canceled (st s) e).
    + by destruct (fetch canceled (st s) e).
  - pose proof (so_pki _ Hs) as Hp.
    destruct Hc as [id now el till err cl ? E|id now ? ?|id now ? ?|id now ?];
      apply with_caller_ok; auto with pki; cbn; try done.
    + pose proof (Now_ok _ (po_client _ Hp)) as Hn. rewrite E in Hn. auto with pki.
    + destruct err; [done|]. destruct (docs (st s) !! now) eqn:Ed; [|done].
      by eapply po_docs.
    + destruct (docs (st s) !! now) eqn:Ed; [|done]. by eapply po_docs.
  - pose proof (so_pki _ Hs) as Hp. destruct Hs as [_ Hs]. inv He; split; cbn; auto with pki.
Qed.

Lemma sys_ok_reachable s0 s : pc_ok s0 -> reachable (fun s => s = sys_init s0) pstep s -> sys_ok s.
Proof.
  intros Hs0. apply reachable_ind_inv; [|apply sys_ok_step].
  intros ? ->. split; [by apply newPKI_ok|done].
Qed.
End PkiInvariant.

(** ** Properties *)

Section PkiProperties.
Context {S : Type} `{PkiClientLaws S}.
Context (OnDocumentFn : bool) (recheck : Duration).
#[local] Abbreviation pstep := (pstep OnDocumentFn recheck).
#[local] Abbreviation worker_update := (worker_update OnDocumentFn recheck).
#[local] Abbreviation currentDocument := (currentDocument OnDocumentFn recheck).

(** C17. Whatever the order of callers, worker, clock and halt, a document that
    [currentDocument] returns is of the epoch the caller asked the client for and
    is one the client vouches for; [OnDocumentFn] is only called with such
    documents, never twice in a row for one epoch; only [ErrNoDocument] is ever
    remembered as a failure. *)
Theorem pki_documents_vouched (s0 : S) (s : Sys S) :
  pc_ok s0 -> reachable (fun s => s = sys_init s0) pstep s ->
  (forall id now d, callers s !! id = Some (C_done now (Some d)) ->
     Epoch d = now /\ exists raw, pc_doc now (d, raw)) /\
  Forall (fun d => exists raw, pc_doc (Epoch d) (d, raw)) (callbacks (st s)) /\
  alternating (Epoch <$> callbacks (st s)) /\
  (forall e er, failedFetches (st s) !! e = Some er -> er = ErrNoDocument).
Proof.
  intros Hs0 Hr. destruct (sys_ok_reachable _ _ _ _ Hs0 Hr) as [Hp Hc].
  split_and!; [|by apply Hp..]. intros id now d Hd. apply Hc in Hd. cbn in Hd.
  split; [by apply vouched_epoch|done].
Qed.

(** A client that keeps answering the epoch [now] and has its document. *)
Record steady (Q : S -> Prop) (now : Z) (d : Document) : Prop := {
  sy_now : forall s, Q s -> Q (Now s).2 /\ exists el till, (Now s).1 = (now, el, till, None);
  sy_doc : forall s e, Q s -> Q (GetDoc s e).2 /\ (GetDoc s e).1 <> Panic /\
    (GetDoc s e).1 <> Err errGetConsensusCanceled;
  sy_get : forall s, Q s -> exists raw, (GetDoc s now).1 = Ok (d, raw);
}.

(** The fields a fetch leaves alone. *)
Definition same_channels (p q : pki S) : Prop :=
  forceUpdateCh q = forceUpdateCh p /\ doneWorkerCh q = doneWorkerCh p /\
  doneClosed q = doneClosed p /\ timer q = timer p.

Lemma fetch_steady Q now d p e :
  steady Q now d -> Q (PKIClient p) ->
  exists q, (fetch false p e = Kept q \/ fetch false p e = Stored q) /\ Q (PKIClient q) /\
    same_channels p q /\
    (forall k, k <> e -> docs q !! k = docs p !! k /\ failedFetches q !! k = failedFetches p !! k).
Proof.
  intros Hst HQ. unfold fetch, getDocumentDirect, same_channels.
  destruct (docs p !! e) eqn:Ed; [exists p; by eauto 10|].
  destruct (failedFetches p !! e) eqn:Ef; [exists p; by eauto 10|].
  destruct (sy_doc _ _ _ Hst (PKIClient p) e HQ) as (HQ' & Hnp & Hnc).
  destruct (GetDoc (PKIClient p) e) as [[[x raw]|er|] s]; cbn in *; [| |done].
  - eexists. split; [by right|]. cbn. split_and!; try done.
    intros k Hk. by rewrite lookup_insert_ne by done.
  - destruct er; try done; (eexists; split; [by left|]); cbn; split_and!; try done;
      intros k Hk; by rewrite ?lookup_insert_ne by done.
Qed.

Lemma fetch_steady_now Q now d p :
  steady Q now d -> Q (PKIClient p) -> docs p !! now = None -> failedFetches p !! now = None ->
  exists q, fetch false p now = Stored q /\ docs q !! now = Some d /\ same_channels p q.
Proof.
  intros Hst HQ Hd Hf. unfold fetch, getDocumentDirect. rewrite Hd, Hf.
  destruct (sy_get _ _ _ Hst (PKIClient p) HQ) as (raw & E).
  destruct (GetDoc (PKIClient p) now) as [r s]. cbn in E. subst. cbn.
  eexists. split; [done|]. cbn. by rewrite lookup_insert_eq.
Qed.

(** The end of an update keeps the document of its epoch. *)
Lemma worker_finish_spec (p : pki S) now did :
  let q := Pki.worker_finish OnDocumentFn recheck p now did in
  docs q !! now = docs p !! now /\ doneWorkerCh q = true /\
  forceUpdateCh q = forceUpdateCh p /\ doneClosed q = doneClosed p.
Proof.
  cbn zeta. unfold Pki.worker_finish. cbn [docs doneWorkerCh forceUpdateCh doneClosed with_timer with_chans].
  set (q := if did then _ else _).
  assert (docs q !! now = docs p !! now) as Hd.
  { subst q. destruct did; [|done]. cbn. rewrite map_lookup_filter.
    destruct (docs p !! now); cbn; [|done]. rewrite option_guard_True by lia. done. }
  assert (forceUpdateCh q = forceUpdateCh p /\ doneClosed q = doneClosed p) as [Hf Hc]
    by by destruct did.
  destruct (negb (now =? lastCallbackEpoch q) && OnDocumentFn); [|by rewrite Hd, Hf, Hc].
  destruct (docs q !! now) as [d|] eqn:E; cbn; by rewrite ?E, ?Hd, ?Hf, ?Hc.
Qed.

Lemma worker_update_steady Q now d (p : pki S) :
  steady Q now d -> is_u64 now -> Q (PKIClient p) ->
  docs p !! now = None -> failedFetches p !! now = None ->
  exists q, worker_update p = Some q /\ docs q !! now = Some d /\ doneWorkerCh q = true /\
    forceUpdateCh q = forceUpdateCh p /\ doneClosed q = doneClosed p.
Proof.
  intros Hst Hnow HQ Hd Hf. unfold Pki.worker_update, worker_now.
  destruct (sy_now _ _ _ Hst _ HQ) as (HQ1 & el & till & E).
  destruct (Now (PKIClient p)) as [a s1]. cbn in E, HQ1. subst a.
  unfold epochs, fetch_all. set (p1 := with_client p s1).
  assert (u64 (now - 1) <> now) as Hne.
  { destruct (Z.eq_dec now 0) as [->|]; [by rewrite u64_pred_zero|].
    unfold is_u64 in Hnow. rewrite u64_pred_pos by lia. lia. }
  destruct (fetch_steady Q now d p1 (u64 (now - 1)) Hst HQ1) as (p2 & Ef & HQ2 & Hs & Hk).
  destruct (Hk now ltac:(congruence)) as [Hk1 Hk2].
  destruct (fetch_steady_now Q now d p2 Hst HQ2) as (p3 & Ef3 & Hd3 & Hs3);
    [by rewrite Hk1|by rewrite Hk2|].
  unfold same_channels in *. cbn in Hs.
  destruct Ef as [-> | ->]; rewrite Ef3; cbn [mbind option_bind];
    (eexists; split; [done|]); destruct (worker_finish_spec p3 now true) as (-> & -> & -> & ->);
    naive_solver.
Qed.

(** [currentDocument] with a waiting worker and a client that has the
    document of the current epoch: the update it forces fetches the document, and
    the caller gets it, unless the token of an earlier update is still in
    [doneWorkerCh] and the caller moves before the worker: then it takes the stale
    token and returns nil. *)
Theorem pki_current_document (Q : S -> Prop) now d (p : pki S) worker_first :
  steady Q now d -> is_u64 now -> Q (PKIClient p) ->
  docs p !! now = None -> failedFetches p !! now = None ->
  forceUpdateCh p = false -> armed (timer p) = true ->
  exists p', currentDocument worker_first p =
      Some ((if worker_first || negb (doneWorkerCh p) then Some d else None), p') /\
    docs p' !! now = Some d.
Proof.
  intros Hst Hnow HQ Hd Hf Hforce Harmed. unfold Pki.currentDocument.
  destruct (sy_now _ _ _ Hst _ HQ) as (HQ1 & el & till & E).
  destruct (Now (PKIClient p)) as [a s1]. cbn in E, HQ1. subst a.
  cbn [docs forceUpdateCh with_client]. rewrite Hd, Hforce. cbn [mbind option_bind doneWorkerCh].
  unfold forced_update, worker_wake, Timer_Stop.
  cbn [forceUpdateCh with_chans timer with_client doneWorkerCh].
  rewrite Harmed. cbn [mbind option_bind].
  destruct (worker_first || negb (doneWorkerCh p)) eqn:Ew.
  - match goal with |- context [Pki.worker_update _ _ ?p0] =>
      destruct (worker_update_steady Q now d p0 Hst Hnow) as (q & -> & Hq & Ht & _); [done..|] end.
    cbn [mbind option_bind]. rewrite Ht. eexists. split; [by rewrite Hq|done].
  - match goal with |- context [Pki.worker_update _ _ ?p0] =>
      destruct (worker_update_steady Q now d p0 Hst Hnow) as (q & -> & Hq & Ht & _); [done..|] end.
    cbn. eexists. split; [by rewrite Hd|done].
Qed.

(** The documents after a fetch that does not end the worker. *)
Lemma fetch_docs (p : pki S) e :
  match fetch false p e with
  | Kept q => docs q = docs p
  | Stored q => exists d, docs q = <[e := d]> (docs p)
  | _ => True
  end.
Proof.
  unfold fetch, getDocumentDirect. destruct (docs p !! e); [done|].
  destruct (failedFetches p !! e); [done|].
  destruct (GetDoc (PKIClient p) e) as [[[d raw]|er|] s]; cbn; [by exists d| |done].
  by destruct er.
Qed.

Lemma worker_finish_previous (p : pki S) now did k :
  k < now -> (did = false -> docs p !! k = None) ->
  let q := Pki.worker_finish OnDocumentFn recheck p now did in
  docs q !! k = None /\ failedFetches q !! k = None.
Proof.
  intros Hk Hd. cbn zeta. unfold Pki.worker_finish. cbn [docs failedFetches with_timer with_chans].
  set (q := if did then _ else _).
  assert (docs q !! k = None /\ failedFetches q !! k = None) as [H1 H2].
  { assert (failedFetches (pruneFailures p now) !! k = None) as Hf.
    { cbn. apply map_lookup_filter_None. right. intros x _ Hx. apply Hx. by left. }
    subst q. destruct did; [|by split; [apply Hd|]]. split; [|done].
    cbn. apply map_lookup_filter_None. right. intros x _ Hx. by apply Hx. }
  destruct (negb (now =? lastCallbackEpoch q) && OnDocumentFn); [|done].
  by destruct (docs q !! now).
Qed.

(** The document of the previous epoch is fetched again and again: an update
    that did not start with it ends without it and without remembering a failure
    to fetch it, so the next update of the same epoch asks the client for it anew. *)
Theorem pki_refetches_previous (p p1 : pki S) now :
  0 < now < 2 ^ 64 -> (worker_now p).1 = Some now -> docs p !! (now - 1) = None ->
  worker_update p = Some p1 ->
  docs p1 !! (now - 1) = None /\ failedFetches p1 !! (now - 1) = None /\
  forall canceled, let p2 := (worker_now p1).2 in
    match fetch canceled p2 (now - 1) with
    | Kept q | Stored q | Canceled q => PKIClient q = (GetDoc (PKIClient p2) (now - 1)).2
    | Panicked => (GetDoc (PKIClient p2) (now - 1)).1 = Panic
    end.
Proof.
  intros Hnow En Hd E.
  assert (docs p1 !! (now - 1) = None /\ failedFetches p1 !! (now - 1) = None) as [H1 H2].
  { unfold Pki.worker_update in E.
    assert (docs (worker_now p).2 = docs p) as Hd0
      by (unfold worker_now; by destruct (Now (PKIClient p)) as [[[[? ?] ?] ?] ?]).
    destruct (worker_now p) as [r p0]. cbn in En, Hd0. subst r.
    unfold epochs, fetch_all in E. rewrite u64_pred_pos in E by lia.
    pose proof (fetch_docs p0 (now - 1)) as Hf.
    destruct (fetch false p0 (now - 1)) as [q|q| |]; [| |done..];
      pose proof (fetch_docs q now) as Hf2;
      (destruct (fetch false q now) as [q2|q2| |]; [| |done..]);
      cbn [mbind option_bind] in E; injection E as <-;
      apply worker_finish_previous; try lia; intros Hdid; try done.
    - by rewrite Hf2, Hf, Hd0. }
  split_and!; [done..|]. intros canceled p2.
  assert (docs p2 = docs p1 /\ failedFetches p2 = failedFetches p1) as [Hp Hp']
    by (subst p2; unfold worker_now; by destruct (Now (PKIClient p1)) as [[[[? ?] ?] ?] ?]).
  unfold fetch, getDocumentDirect. rewrite Hp, Hp', H1, H2.
  destruct (GetDoc (PKIClient p2) (now - 1)) as [[[d raw]|er|] s]; cbn; [..|done];
    destruct canceled; try done. by destruct er.
Qed.

(** A worker that will never iterate again: it waits for a tick of a timer that
    is not running, or a canceled fetch made it return. *)
Definition worker_dead (s : Sys S) : Prop :=
  (wpc s = W_drain /\ armed (timer (st s)) = false /\ fired (timer (st s)) = false) \/
  wpc s = W_canceled.

Lemma worker_dead_step s s' :
  worker_dead s -> pstep s s' ->
  worker_dead s' /\ docs (st s') = docs (st s) /\ doneClosed (st s') = doneClosed (st s) /\
  (doneWorkerCh (st s) = false -> doneWorkerCh (st s') = false) /\
  (doneWorkerCh (st s) = false -> doneClosed (st s) = false ->
   forall id now, callers s !! id = Some (C_wait now) -> callers s' !! id = Some (C_wait now)).
Proof.
  intros Hd [Hw|Hc|He].
  - destruct Hd as [(Hpc & Ha & Hf)|Hpc];
      destruct Hw as [? ?|w r ? E|p ? E|r p ? E|canceled now e es did ? ?|now did ?]; try congruence.
    unfold worker_drain, Timer_recv in E. by rewrite Hf in E.
  - destruct Hc as [id now el till err cl ? E|id now ? ?|id now Hi Ht|id now Hi];
      (split; [exact Hd|]); cbn; split_and!; try done; intros;
      try (rewrite lookup_insert_ne by congruence; done).
    destruct Ht; congruence.
  - destruct He as [Ha| |]; cbn; split_and!; try done; try exact Hd.
    destruct Hd as [(? & Ha' & _)|?]; [congruence|by right].
Qed.

(** The worker can die. When the client fails the first time it is asked for
    the epoch, the timer is not set again, and the next forced update leaves the
    worker waiting for a tick that cannot come. A dead worker stays dead: it does
    not notice [Halt], no document is fetched any more, and a caller that waits for
    its token waits forever. *)
Theorem pki_worker_dies (s0 : S) :
  (forall e, (GetEpoch s0).1.2 = Some e ->
     exists s, reachable (fun s => s = sys_init s0) pstep s /\ worker_dead s /\
       doneWorkerCh (st s) = false /\ doneClosed (st s) = false) /\
  (forall s s', worker_dead s -> doneWorkerCh (st s) = false -> doneClosed (st s) = false ->
     rtc pstep s s' ->
     worker_dead s' /\ docs (st s') = docs (st s) /\
     forall id now, callers s !! id = Some (C_wait now) -> callers s' !! id = Some (C_wait now)).
Proof.
  split.
  - intros e He. set (p0 := newPKI s0). set (p1 := with_timer p0 (mkTimer false true (3 * Second))).
    set (p2 := with_timer p0 (mkTimer false false (3 * Second))).
    destruct (worker_now p2) as [r p3] eqn:E3.
    assert (r = None /\ timer p3 = timer p2 /\ doneWorkerCh p3 = false /\ doneClosed p3 = false)
      as (-> & Ht & Hd & Hcl).
    { unfold worker_now, Now in E3. cbn [PKIClient p2 p0 newPKI with_timer] in E3.
      destruct (GetEpoch s0) as [[[ep h] er] s1]. cbn in He. subst er. by simplify_eq. }
    set (p4 := setClockSkew p3 0).
    set (p5 := with_timer (with_chans p4 false (doneWorkerCh p4) (doneClosed p4))
                 (mkTimer false (fired (timer p4)) (period (timer p4)))).
    assert (worker_wake p4 Forced = Some (inl p5)) as E5
      by (unfold worker_wake, Timer_Stop, p5, p4; cbn; by rewrite Ht).
    exists (mkSys p5 W_drain false ∅).
    split; [|split; [left; unfold p5, p4; cbn; by rewrite Ht|unfold p5, p4; cbn; by rewrite Hd, Hcl]].
    eapply reachable_step; [|apply p_worker;
      exact (w_wake _ _ (mkSys p4 W_select false ∅) Forced (inl p5) eq_refl E5)].
    eapply reachable_step; [|apply p_env; exact (e_skew (mkSys p3 W_select false ∅) 0)].
    eapply reachable_step; [|apply p_worker;
      exact (w_now _ _ (mkSys p2 W_update false ∅) None p3 eq_refl E3)].
    eapply reachable_step; [|apply p_worker;
      exact (w_wake _ _ (mkSys p1 W_select false ∅) Ticked (inr p2) eq_refl eq_refl)].
    eapply reachable_step; [|apply p_env; exact (e_expire (mkSys p0 W_select false ∅) eq_refl)].
    by apply reachable_init.
  - intros s s' Hd Ht Hc Hr. revert Hd Ht Hc.
    induction Hr as [s|s s1 s' Hs Hr IH]; intros Hd Ht Hc; [done|].
    destruct (worker_dead_step _ _ Hd Hs) as (Hd1 & Hdoc & Hcl & Htok & Hw).
    destruct IH as (Hd' & Hdoc' & Hw'); [done|by apply Htok|congruence|].
    split_and!; [done|congruence|]. intros id now Hi. apply Hw'. by apply Hw.
Qed.
End PkiProperties.

(** ** Witnesses *)

#[local] Existing Instance TableClient_PkiClient.
#[local] Existing Instance TableClient_Laws.

(** A client in epoch 7 (the clock says 6) with the documents of 5 and 6. *)
Definition ex_table : TableClient := table_of 7 2 None [5; 6].
Definition ex_steady (s : TableClient) : Prop :=
  t_epoch s = 7 /\ t_height s = 2 /\ t_err s = None /\ t_docs s = t_docs ex_table.

Lemma ex_steady_ok : steady ex_steady 6 (doc_at 6).
Proof.
  split.
  - intros s (E1 & E2 & E3 & E4). split; [done|]. unfold Now. cbn. rewrite E1, E2, E3. by eauto.
  - intros s e (E1 & E2 & E3 & E4). cbn. rewrite E4. by destruct (t_docs ex_table !! e).
  - intros s (_ & _ & _ & E4). exists []. cbn. by rewrite E4.
Qed.

(** The worker waiting for its timer, with or without an old token. *)
Definition ex_waiting (token : bool) : pki TableClient :=
  with_chans (newPKI ex_table) false token false.

Lemma pki_documents_vouched_witness :
  Epoch (doc_at 6) = 6 /\ exists raw : bytes, Epoch (doc_at 6) = 6.
Proof.
  set (p := newPKI ex_table).
  set (q := with_docs p (<[6 := doc_at 6]> ∅) ∅).
  set (p1 := with_timer p (mkTimer false true (3 * Second))).
  set (p2 := with_timer p (mkTimer false false (3 * Second))).
  set (t1 := mkTable 7 2 None (t_docs ex_table) 1). set (t2 := mkTable 7 2 None (t_docs ex_table) 2).
  set (p3 := with_docs (with_client p2 t1) (<[5 := doc_at 5]> ∅) ∅).
  set (p4 := with_docs (with_client p2 t2) (<[6 := doc_at 6]> (<[5 := doc_at 5]> ∅)) ∅).
  pose (s0 := sys_init ex_table).
  pose (s4 := mkSys p4 (W_fetch 6 [] true) false ∅).
  pose (s5 := with_caller s4 p4 0 (C_done 6 (Some (doc_at 6)))).
  assert (reachable (fun s => s = s0) (pstep true (3 * Second)) s5) as Hr.
  { eapply reachable_step; [eapply reachable_step; [eapply reachable_step; [eapply reachable_step;
      [eapply reachable_step; [eapply reachable_step; [apply reachable_init; reflexivity|]|]|]|]|]|].
    - exact (p_env _ _ _ _ (e_expire s0 eq_refl)).
    - exact (p_worker _ _ _ _ (w_wake _ _ (mkSys p1 W_select false ∅) Ticked (inr p2) eq_refl eq_refl)).
    - exact (p_worker _ _ _ _ (w_now _ _ (mkSys p2 W_update false ∅) (Some 6) p2 eq_refl eq_refl)).
    - exact (p_worker _ _ _ (mkSys p3 (W_fetch 6 [6] true) false ∅)
        (w_fetch _ _ (mkSys p2 (W_fetch 6 [5; 6] false) false ∅) false
          6 5 [6] false eq_refl (fun e => False_ind _ (Bool.diff_false_true e)))).
    - exact (p_worker _ _ _ s4
        (w_fetch _ _ (mkSys p3 (W_fetch 6 [6] true) false ∅) false
          6 6 [] true eq_refl (fun e => False_ind _ (Bool.diff_false_true e)))).
    - exact (p_caller _ _ _ s5 (c_call s4 0 6 (2 * Second) (8 * Second) None t2 eq_refl eq_refl)). }
  destruct (pki_documents_vouched true (3 * Second) ex_table s5) as (Hd & _).
  - apply table_of_ok; cbv; split; congruence.
  - exact Hr.
  - exact (Hd 0%nat 6 (doc_at 6) eq_refl).
Defined.

Lemma pki_current_document_witness :
  (exists p', currentDocument true (3 * Second) false (ex_waiting false) = Some (Some (doc_at 6), p')
     /\ docs p' !! 6 = Some (doc_at 6)) /\
  (exists p', currentDocument true (3 * Second) false (ex_waiting true) = Some (None, p')
     /\ docs p' !! 6 = Some (doc_at 6)).
Proof.
  split.
  - apply (pki_current_document true (3 * Second) ex_steady 6 (doc_at 6) (ex_waiting false) false
      ex_steady_ok); try reflexivity; [unfold is_u64; lia|by repeat split].
  - apply (pki_current_document true (3 * Second) ex_steady 6 (doc_at 6) (ex_waiting true) false
      ex_steady_ok); try reflexivity; [unfold is_u64; lia|by repeat split].
Defined.

Lemma pki_refetches_previous_witness :
  exists p1, worker_update true (3 * Second) (ex_waiting false) = Some p1 /\
    docs p1 !! 5 = None /\ docs p1 !! 6 = Some (doc_at 6) /\ t_served (PKIClient p1) = 2%nat.
Proof.
  eexists. split; [vm_compute; reflexivity|]. split; [|split; vm_compute; reflexivity].
  eapply (pki_refetches_previous true (3 * Second) (ex_waiting false) _ 6).
  - lia.
  - vm_compute. reflexivity.
  - vm_compute. reflexivity.
  - vm_compute. reflexivity.
Defined.

Lemma pki_worker_dies_witness :
  exists s, reachable (fun s => s = sys_init (table_of 7 2 (Some errHalted) []))
    (pstep true (3 * Second)) s /\ worker_dead s /\
    doneWorkerCh (st s) = false /\ doneClosed (st s) = false.
Proof.
  apply (proj1 (pki_worker_dies true (3 * Second) (table_of 7 2 (Some errHalted) [])) errHalted).
  reflexivity.
Defined.
