(* ===== verification/Compose.v ===== *)
(** Composing and sending Sphinx packets (minclient/send.go): the payload layout,
    the forward and reverse paths, the retry loop around epoch changes and long
    delays. The document source, the clock, the random generator, the sphinx
    library and the connection are the environment [W] the client acts on. *)

From S2P Require Import Prelude GoStd PkiClient Path.

(** The PKI client, the generator, the local clock, the document fetcher (minclient/
    pki.go), the sphinx library, the connection's [sendPacket]. [NewSURB] yields
    the SURB and its decryption keys. *)
Class SendEnv (W : Type) := {
  env_PKIClient :: PkiClient W;
  env_rng :: Rng W;
  time_Now : W -> Time * W;
  skewedUnixTime : W -> Z * W;
  CurrentDocument : W -> option Document * W;
  NewSURB : list PathHop -> W -> (string + bytes * bytes) * W;
  NewPacket : list PathHop -> bytes -> W -> (string + bytes) * W;
  sendPacket : bytes -> W -> option string * W;
}.

Inductive compose_error :=
  | ErrInvalidRecipient (recipient : string)
  | ErrInvalidCiphertextSize (n : Z)
  | ErrEpoch (e : error)
  | ErrNoCurrentDocument
  | ErrSourceProvider (e : string)
  | ErrDestinationProvider (e : string)
  | ErrPath (e : path_error)
  | ErrSphinx (e : string)
  | ErrSend (e : string).

Section Compose.
Context {W : Type} `{SendEnv W}.
(** Constants of the core packages; [doc.GetProvider]. *)
Context (LayerProvider : Z) (NodeIDLength RecipientIDLength SURBIDLength SURBLength
  UserForwardPayloadLength : nat).
Context (GetProvider : Document -> string -> string + MixDescriptor).
(** [c.cfg.User] and [c.cfg.Provider]. *)
Context (User Provider : string).

(** [makePath]; the log of the path is left out. *)
Definition makePath (w : W) (recipient provider : string) (surbID : option bytes)
    (baseTime : Time) (isForward : bool) (epoch : Z) :
    outcome compose_error (list PathHop * Time) * W :=
  let '(srcProvider, dstProvider) :=
    if isForward then (Provider, provider) else (provider, Provider) in
  match CurrentDocument w with
  | (None, w) => (Err ErrNoCurrentDocument, w)
  | (Some doc, w) =>
      match GetProvider doc srcProvider with
      | inl e => (Err (ErrSourceProvider e), w)
      | inr src =>
          match GetProvider doc dstProvider with
          | inl e => (Err (ErrDestinationProvider e), w)
          | inr dst =>
              let '(r, w) := NewPath LayerProvider NodeIDLength RecipientIDLength SURBIDLength
                w doc (bytes_of_string recipient) src dst surbID baseTime true isForward epoch in
              (map_err ErrPath r, w)
          end
      end
  end.

(** The three parts of an iteration: the paths... *)
Definition make_paths (w : W) (recipient provider : string) (surbID : option bytes)
    (now : Time) (epoch : Z) :
    outcome compose_error (list PathHop * list PathHop * Time) * W :=
  match makePath w recipient provider surbID now true epoch with
  | (Ok (fwdPath, then_), w) =>
      match surbID with
      | None => (Ok (fwdPath, [], then_), w)
      | Some _ =>
          match makePath w User provider surbID then_ false epoch with
          | (Ok (revPath, then_), w) => (Ok (fwdPath, revPath, then_), w)
          | (Err e, w) => (Err e, w)
          | (Panic, w) => (Panic, w)
          end
      end
  | (Err e, w) => (Err e, w)
  | (Panic, w) => (Panic, w)
  end.

(** ...and the packet: [k] is nil without a SURB. *)
Definition make_packet (w : W) (surbID : option bytes) (b : bytes)
    (fwdPath revPath : list PathHop) : outcome compose_error (bytes * option bytes) * W :=
  match surbID with
  | Some _ =>
      match NewSURB revPath w with
      | (inl e, w) => (Err (ErrSphinx e), w)
      | (inr (surb, k), w) =>
          match NewPacket fwdPath ([byte_of_Z 1; byte_of_Z 0] ++ surb ++ b) w with
          | (inl e, w) => (Err (ErrSphinx e), w)
          | (inr pkt, w) => (Ok (pkt, Some k), w)
          end
      end
  | None =>
      match NewPacket fwdPath (replicate (2 + SURBLength) (byte_of_Z 0) ++ b) w with
      | (inl e, w) => (Err (ErrSphinx e), w)
      | (inr pkt, w) => (Ok (pkt, None), w)
      end
  end.

(** One iteration: [None] when the selection has to be redone. *)
Definition compose_once (w : W) (recipient provider : string) (surbID : option bytes)
    (b : bytes) : option (outcome compose_error (bytes * option bytes * Duration)) * W :=
  let '(unixTime, w) := skewedUnixTime w in
  let '((epoch, _, budget, err), w) := Now w in
  match err with
  | Some e => (Some (Err (ErrEpoch e)), w)
  | None =>
      let '(start, w) := time_Now w in
      let now := time_Unix unixTime in
      match make_paths w recipient provider surbID now epoch with
      | (Ok (fwdPath, revPath, then_), w) =>
          let '(stop, w) := time_Now w in
          if budget <? Time_Sub stop start then (None, w)
          else if Time_Sub then_ now <? TestPeriod * 2 then
            let '(r, w) := make_packet w surbID b fwdPath revPath in
            (Some ((fun '(pkt, k) => (pkt, k, Time_Sub then_ now)) <$> r), w)
          else (None, w)
      | (Err e, w) => (Some (Err e), w)
      | (Panic, w) => (Some Panic, w)
      end
  end.

(** The loop; [None] when [fuel] iterations did not end it. *)
Fixpoint compose_loop (fuel : nat) (w : W) (recipient provider : string)
    (surbID : option bytes) (b : bytes) :
    option (outcome compose_error (bytes * option bytes * Duration)) * W :=
  match fuel with
  | O => (None, w)
  | S fuel =>
      match compose_once w recipient provider surbID b with
      | (Some r, w) => (Some r, w)
      | (None, w) => compose_loop fuel w recipient provider surbID b
      end
  end.

Definition ComposeSphinxPacket (fuel : nat) (w : W) (recipient provider : string)
    (surbID : option bytes) (b : bytes) :
    option (outcome compose_error (bytes * option bytes * Duration)) * W :=
  if Z.of_nat RecipientIDLength <? Z.of_nat (String.length recipient) then
    (Some (Err (ErrInvalidRecipient recipient)), w)
  else if negb (Z.of_nat (length b) =? Z.of_nat UserForwardPayloadLength) then
    (Some (Err (ErrInvalidCiphertextSize (Z.of_nat (length b)))), w)
  else compose_loop fuel w recipient provider surbID b.

Definition SendSphinxPacket (w : W) (pkt : bytes) : option compose_error * W :=
  let '(e, w) := sendPacket pkt w in (ErrSend <$> e, w).

Definition SendUnreliableCiphertext (fuel : nat) (w : W) (recipient provider : string)
    (b : bytes) : option (outcome compose_error unit) * W :=
  match ComposeSphinxPacket fuel w recipient provider None b with
  | (Some (Ok (pkt, _, _)), w) =>
      match SendSphinxPacket w pkt with
      | (Some e, w) => (Some (Err e), w)
      | (None, w) => (Some (Ok tt), w)
      end
  | (Some (Err e), w) => (Some (Err e), w)
  | (Some Panic, w) => (Some Panic, w)
  | (None, w) => (None, w)
  end.

(** The key and the round trip time are returned also when sending fails. *)
Definition SendCiphertext (fuel : nat) (w : W) (recipient provider : string)
    (surbID : option bytes) (b : bytes) :
    option (outcome Empty_set (option bytes * Duration * option compose_error)) * W :=
  match ComposeSphinxPacket fuel w recipient provider surbID b with
  | (Some (Ok (pkt, k, rtt)), w) =>
      let '(e, w) := sendPacket pkt w in (Some (Ok (k, rtt, ErrSend <$> e)), w)
  | (Some (Err e), w) => (Some (Ok (None, 0, Some e)), w)
  | (Some Panic, w) => (Some Panic, w)
  | (None, w) => (None, w)
  end.
End Compose.

(** ** Properties *)

(** What the environment promises: a lawful generator; the documents of the
    fetcher have fewer layers than the providers' number, providers are on the
    providers' layer, delays are bounded below 2^32 milliseconds. *)
Class SendEnvLaws (W : Type) `{SendEnv W} (LayerProvider : Z)
    (GetProvider : Document -> string -> string + MixDescriptor) := {
  env_rng_laws :: RngLaws W;
  env_layer : 0 <= LayerProvider;
  env_topology : forall (w : W) d, (CurrentDocument w).1 = Some d ->
    Z.of_nat (length (Topology d)) <= LayerProvider;
  env_provider : forall (w : W) d n p, (CurrentDocument w).1 = Some d ->
    GetProvider d n = inr p -> Layer p = LayerProvider;
  env_delay : forall (w : W) d, (CurrentDocument w).1 = Some d -> 0 < MuMaxDelay d < 2 ^ 32;
}.

Section ComposeFacts.
Context {W : Type} (LayerProvider : Z).
Context (NodeIDLength RecipientIDLength SURBIDLength SURBLength UserForwardPayloadLength : nat).
Context (GetProvider : Document -> string -> string + MixDescriptor).
Context `{SendEnvLaws W LayerProvider GetProvider}.
Context (User Provider : string).
#[local] Abbreviation makePath :=
  (makePath LayerProvider NodeIDLength RecipientIDLength SURBIDLength GetProvider Provider).
#[local] Abbreviation make_paths :=
  (make_paths LayerProvider NodeIDLength RecipientIDLength SURBIDLength GetProvider User Provider).
#[local] Abbreviation make_packet := (make_packet SURBLength).
#[local] Abbreviation compose_once :=
  (compose_once LayerProvider NodeIDLength RecipientIDLength SURBIDLength SURBLength GetProvider
     User Provider).
#[local] Abbreviation compose_loop :=
  (compose_loop LayerProvider NodeIDLength RecipientIDLength SURBIDLength SURBLength GetProvider
     User Provider).
#[local] Abbreviation ComposeSphinxPacket :=
  (ComposeSphinxPacket LayerProvider NodeIDLength RecipientIDLength SURBIDLength SURBLength
     UserForwardPayloadLength GetProvider User Provider).

(** The path [p] leads from one provider to another through every layer of a
    document of the fetcher; with that document. *)
Definition on_route (doc : Document) (recipient : string) (surbID : option bytes)
    (isForward : bool) (from to : string) (p : list PathHop) : Prop :=
  (exists w, (CurrentDocument w).1 = Some doc) /\
  exists src dst picks e, GetProvider doc from = inr src /\ GetProvider doc to = inr dst /\
    Forall2 (fun d l => d ∈ l) picks (Topology doc) /\
    path_for NodeIDLength RecipientIDLength SURBIDLength (bytes_of_string recipient) surbID
      isForward e ((if isForward then [src] else []) ++ picks ++ [dst]) p.

Lemma makePath_spec w recipient provider surbID t0 f epoch p t w' :
  is_u64 epoch ->
  makePath w recipient provider surbID t0 f epoch = (Ok (p, t), w') ->
  exists doc, on_route doc recipient surbID f (if f then Provider else provider)
      (if f then provider else Provider) p /\
    Forall (fun d => 0 <= d <= MuMaxDelay doc) (delays p) /\
    t = t0 + zsum (delays p) * Millisecond.
Proof.
  intros He E. unfold Compose.makePath in E.
  pose proof (fun d => env_topology w d) as Htopo. pose proof (fun d => env_delay w d) as Hdelay.
  pose proof (fun d => env_provider w d) as Hprov. pose proof env_layer as Hlp.
  assert (forall d, (CurrentDocument w).1 = Some d -> exists w, (CurrentDocument w).1 = Some d)
    as Hdoc by eauto.
  set (from := if f then Provider else provider) in *.
  set (to := if f then provider else Provider) in *.
  replace (if f then (Provider, provider) else (provider, Provider)) with (from, to) in E
    by (by subst from to; destruct f).
  destruct (CurrentDocument w) as [[doc|] w1]; [|done]. cbn [fst] in *.
  destruct (GetProvider doc from) as [|src] eqn:Es; [done|].
  destruct (GetProvider doc to) as [|dst] eqn:Ed; [done|].
  match type of E with context [NewPath ?a ?b ?c ?d ?r ?e ?g ?h ?i ?j ?k ?l ?m ?n] =>
    pose proof (select_loop_Ok a b c d maxAttempts r e g h i j k l m n p t) as Hn;
    destruct (NewPath a b c d r e g h i j k l m n) as [[[p' t']|er|] w2] eqn:En end; [|done..].
  cbn in E. simplify_eq.
  pose proof (Hprov doc from src eq_refl Es) as Hls. pose proof (Hprov doc to dst eq_refl Ed) as Hld.
  destruct Hn as (_ & picks & j & _ & Hp & Hpf & Ht).
  - split; [unfold is_layer; lia..|by apply Htopo].
  - done.
  - unfold NewPath in En. by rewrite En.
  - exists doc. split; [|by apply Ht, Hdelay]. split; [by apply Hdoc|].
    exists src, dst, picks, (u64 (epoch + j)). split_and!; [done..| |by destruct f].
    revert Hp. unfold route_layers. destruct f; [done|].
    by rewrite (proj2 (Z.eqb_eq _ _) Hld).
Qed.

Lemma makePath_no_panic w recipient provider surbID t0 f epoch :
  (makePath w recipient provider surbID t0 f epoch).1 <> Panic.
Proof.
  unfold Compose.makePath.
  pose proof (fun d => env_topology w d) as Htopo. pose proof (fun d => env_provider w d) as Hprov.
  pose proof env_layer as Hlp.
  destruct (if f then (Provider, provider) else (provider, Provider)) as [from to].
  destruct (CurrentDocument w) as [[doc|] w1]; [|done]. cbn [fst] in *.
  destruct (GetProvider doc from) as [|src] eqn:Es; [done|].
  destruct (GetProvider doc to) as [|dst] eqn:Ed; [done|].
  pose proof (Hprov doc from src eq_refl Es) as Hls. pose proof (Hprov doc to dst eq_refl Ed) as Hld.
  match goal with |- context [NewPath ?a ?b ?c ?d ?r ?e ?g ?h ?i ?j ?k ?l ?m ?n] =>
    pose proof (select_loop_no_panic a b c d maxAttempts r e g h i j k l m n) as Hn;
    unfold NewPath; destruct (select_loop a b c d maxAttempts r e g h i j k l m n) as [[?|?|] w2] end;
    cbn in *; try done.
  destruct Hn; [split; [unfold is_layer; lia..|by apply Htopo]| |done].
  unfold ends_ok. rewrite (proj2 (Z.eqb_eq _ _) Hls), (proj2 (Z.eqb_eq _ _) Hld). by destruct f.
Qed.

Lemma zsum_nonneg l b : Forall (fun x => 0 <= x <= b) l -> 0 <= zsum l.
Proof. intros Hl. by apply zsum_bounds in Hl as [? _]. Qed.

(** The reverse path is empty without a SURB. *)
Definition reverse_ok (provider : string) (surbID : option bytes) (rev : list PathHop) : Prop :=
  match surbID with
  | None => rev = []
  | Some _ => exists doc, on_route doc User surbID false provider Provider rev
  end.

Lemma make_paths_spec w recipient provider surbID now epoch fwd rev t w' :
  is_u64 epoch ->
  make_paths w recipient provider surbID now epoch = (Ok (fwd, rev, t), w') ->
  (exists doc, on_route doc recipient surbID true Provider provider fwd) /\
  reverse_ok provider surbID rev /\
  t = now + (zsum (delays fwd) + zsum (delays rev)) * Millisecond /\
  0 <= zsum (delays fwd) + zsum (delays rev).
Proof.
  intros He E. unfold Compose.make_paths in E.
  destruct (makePath w recipient provider surbID now true epoch) as [[[p1 t1]|e|] w1] eqn:E1;
    [|done..].
  apply makePath_spec in E1 as (doc & Hr & Hd & ->); [|done]. apply zsum_nonneg in Hd.
  destruct surbID as [id|].
  - destruct (makePath w1 User provider (Some id) _ false epoch) as [[[p2 t2]|e|] w2] eqn:E2;
      [|done..].
    apply makePath_spec in E2 as (doc2 & Hr2 & Hd2 & ->); [|done]. apply zsum_nonneg in Hd2.
    simplify_eq. split_and!; [by eauto|by eexists|unfold Millisecond; lia|lia].
  - simplify_eq. split_and!; [by eauto|done|cbn; unfold Millisecond; lia|cbn; lia].
Qed.

(** The packet handed to the sphinx library, with what it returned. *)
Definition packet_ok (surbID : option bytes) (b : bytes) (fwd rev : list PathHop)
    (pkt : bytes) (k : option bytes) : Prop :=
  exists w payload, (NewPacket fwd payload w).1 = inr pkt /\
  match surbID with
  | None => k = None /\ payload = replicate (2 + SURBLength) (byte_of_Z 0) ++ b
  | Some _ => exists w surb key, (NewSURB rev w).1 = inr (surb, key) /\ k = Some key /\
      payload = [byte_of_Z 1; byte_of_Z 0] ++ surb ++ b
  end.

Lemma make_packet_spec w surbID b fwd rev pkt k w' :
  make_packet w surbID b fwd rev = (Ok (pkt, k), w') -> packet_ok surbID b fwd rev pkt k.
Proof.
  unfold Compose.make_packet. destruct surbID as [id|].
  - destruct (NewSURB rev w) as [[e|[surb key]] w1] eqn:E1; [done|].
    destruct (NewPacket fwd _ w1) as [[e|pkt'] w2] eqn:E2; [done|]. intros [= <- <- _].
    exists w1. eexists. rewrite E2. split; [done|]. exists w, surb, key. by rewrite E1.
  - destruct (NewPacket fwd _ w) as [[e|pkt'] w2] eqn:E2; [done|]. intros [= <- <- _].
    exists w. eexists. by rewrite E2.
Qed.

Lemma Now_range (w : W) : is_u64 (Now w).1.1.1.1.
Proof. unfold Now. destruct (GetEpoch w) as [[[? ?] ?] ?]. apply u64_range. Qed.

Definition composed (recipient provider : string) (surbID : option bytes) (b : bytes)
    (pkt : bytes) (k : option bytes) (rtt : Duration) : Prop :=
  exists fwd rev,
    (exists doc, on_route doc recipient surbID true Provider provider fwd) /\
    reverse_ok provider surbID rev /\
    packet_ok surbID b fwd rev pkt k /\
    rtt = (zsum (delays fwd) + zsum (delays rev)) * Millisecond /\ 0 <= rtt < 2 * TestPeriod.

Lemma compose_once_spec w recipient provider surbID b pkt k rtt w' :
  compose_once w recipient provider surbID b = (Some (Ok (pkt, k, rtt)), w') ->
  composed recipient provider surbID b pkt k rtt.
Proof.
  unfold Compose.compose_once. destruct (skewedUnixTime w) as [ut w1].
  pose proof (Now_range w1) as He. destruct (Now w1) as [[[[epoch el] budget] [err|]] w2]; [done|].
  cbn in He. destruct (time_Now w2) as [start w3].
  destruct (make_paths w3 recipient provider surbID (time_Unix ut) epoch) as [[[[fwd rev] t]|e|] w4]
    eqn:Ep; [|done..].
  apply make_paths_spec in Ep as (Hf & Hr & -> & Hn); [|done].
  destruct (time_Now w4) as [stop w5]. destruct (budget <? _); [done|].
  replace (Time_Sub _ (time_Unix ut)) with
    (Z.min MaxInt64 ((zsum (delays fwd) + zsum (delays rev)) * Millisecond))
    by (unfold Time_Sub, MinInt64, MaxInt64, Millisecond; lia).
  destruct (Z.ltb_spec (Z.min MaxInt64 ((zsum (delays fwd) + zsum (delays rev)) * Millisecond))
    (TestPeriod * 2)) as [Hlt|]; [|done].
  destruct (make_packet w5 surbID b fwd rev) as [[[pkt' k']|e|] w6] eqn:Ek; [|done..].
  apply make_packet_spec in Ek. intros [= <- <- <- _]. exists fwd, rev.
  unfold TestPeriod, Second, MaxInt64, Millisecond in *. split_and!; [done..|lia|lia|lia].
Qed.

Lemma compose_loop_spec fuel w recipient provider surbID b pkt k rtt w' :
  compose_loop fuel w recipient provider surbID b = (Some (Ok (pkt, k, rtt)), w') ->
  composed recipient provider surbID b pkt k rtt.
Proof.
  revert w. induction fuel as [|fuel IH]; intros w E; [done|]. cbn in E.
  destruct (compose_once w recipient provider surbID b) as [[r|] w1] eqn:E1; [|by eapply IH].
  simplify_eq. by eapply compose_once_spec.
Qed.

Lemma compose_once_no_panic w recipient provider surbID b :
  (compose_once w recipient provider surbID b).1 <> Some Panic.
Proof.
  unfold Compose.compose_once, Compose.make_paths, Compose.make_packet.
  destruct (skewedUnixTime w) as [ut w1]. destruct (Now w1) as [[[[epoch el] budget] [err|]] w2]; [done|].
  destruct (time_Now w2) as [start w3].
  pose proof (makePath_no_panic w3 recipient provider surbID (time_Unix ut) true epoch) as H1'.
  destruct (makePath w3 recipient provider surbID _ true epoch) as [[[p1 t1]|e|] w4]; [|done..].
  destruct surbID as [id|].
  - pose proof (makePath_no_panic w4 User provider (Some id) t1 false epoch) as H2'.
    destruct (makePath w4 User provider (Some id) t1 false epoch) as [[[p2 t2]|e|] w5]; [|done..].
    destruct (time_Now w5) as [stop w6]. destruct (budget <? _); [done|].
    destruct (_ <? TestPeriod * 2); [|done].
    destruct (NewSURB p2 w6) as [[e|[surb k]] w7]; [done|]. by destruct (NewPacket _ _ _) as [[|] ?].
  - destruct (time_Now w4) as [stop w6]. destruct (budget <? _); [done|].
    destruct (_ <? TestPeriod * 2); [|done]. by destruct (NewPacket _ _ _) as [[|] ?].
Qed.

Lemma compose_loop_no_panic fuel w recipient provider surbID b :
  (compose_loop fuel w recipient provider surbID b).1 <> Some Panic.
Proof.
  revert w. induction fuel as [|fuel IH]; intros w; [done|]. cbn.
  pose proof (compose_once_no_panic w recipient provider surbID b).
  by destruct (compose_once w recipient provider surbID b) as [[r|] w1].
Qed.

Lemma ComposeSphinxPacket_ok fuel w recipient provider surbID b pkt k rtt w' :
  ComposeSphinxPacket fuel w recipient provider surbID b = (Some (Ok (pkt, k, rtt)), w') ->
  (String.length recipient <= RecipientIDLength)%nat /\ length b = UserForwardPayloadLength /\
  composed recipient provider surbID b pkt k rtt.
Proof.
  unfold Compose.ComposeSphinxPacket.
  destruct (Z.ltb_spec (Z.of_nat RecipientIDLength) (Z.of_nat (String.length recipient))); [done|].
  destruct (Z.eqb_spec (Z.of_nat (length b)) (Z.of_nat UserForwardPayloadLength)); [|done].
  cbn [negb]. intros E. split; [lia|]. split; [lia|]. by apply compose_loop_spec in E.
Qed.

(** ** Termination *)

(** An iteration in which path selection took longer than the epoch had left. *)
Definition straddles (w : W) (recipient provider : string) (surbID : option bytes) : bool :=
  let '(unixTime, w) := skewedUnixTime w in
  let '((epoch, _, budget, _), w) := Now w in
  let '(start, w) := time_Now w in
  let w := (make_paths w recipient provider surbID (time_Unix unixTime) epoch).2 in
  let '(stop, _) := time_Now w in
  budget <? Time_Sub stop start.

(** The state after [n] redone iterations. *)
Fixpoint after (n : nat) (w : W) (recipient provider : string) (surbID : option bytes)
    (b : bytes) : W :=
  match n with
  | O => w
  | S n => after n (compose_once w recipient provider surbID b).2 recipient provider surbID b
  end.

(** The delays of a path fit in an epoch's length. *)
Definition delays_fit : Prop := forall (w : W) d, (CurrentDocument w).1 = Some d ->
  (Z.of_nat (length (Topology d)) + 2) * MuMaxDelay d * Millisecond < TestPeriod.

Lemma path_for_length recipient surbID f e ds p :
  path_for NodeIDLength RecipientIDLength SURBIDLength recipient surbID f e ds p ->
  length p = length ds.
Proof. induction 1; cbn; congruence. Qed.

Lemma on_route_delays doc recipient surbID f from to p :
  delays_fit -> on_route doc recipient surbID f from to p ->
  Forall (fun d => 0 <= d <= MuMaxDelay doc) (delays p) ->
  zsum (delays p) * Millisecond < TestPeriod.
Proof.
  intros Hfit ([w Hw] & src & dst & picks & e & _ & _ & Hp & Hpf) Hd.
  apply path_for_length in Hpf. apply Forall2_length in Hp. apply Hfit in Hw as Hf.
  apply zsum_bounds in Hd as [_ Hd].
  assert (0 < MuMaxDelay doc) by by apply (env_delay w).
  assert (length (delays p) <= length (Topology doc) + 2)%nat as Hlen.
  { unfold delays. rewrite length_fmap, Hpf, !length_app, Hp. destruct f; cbn; lia. }
  unfold Millisecond in *. nia.
Qed.

Lemma make_paths_fit w recipient provider surbID now epoch fwd rev t w' :
  delays_fit -> is_u64 epoch ->
  make_paths w recipient provider surbID now epoch = (Ok (fwd, rev, t), w') ->
  0 <= t - now < 2 * TestPeriod.
Proof.
  intros Hfit He E. unfold Compose.make_paths in E.
  destruct (makePath w recipient provider surbID now true epoch) as [[[p1 t1]|e|] w1] eqn:E1;
    [|done..].
  apply makePath_spec in E1 as (doc & Hr & Hd & ->); [|done].
  pose proof (on_route_delays _ _ _ _ _ _ _ Hfit Hr Hd). apply zsum_nonneg in Hd.
  unfold Millisecond, TestPeriod, Second in *.
  destruct surbID as [id|]; [|simplify_eq; lia].
  destruct (makePath w1 User provider (Some id) _ false epoch) as [[[p2 t2]|e|] w2] eqn:E2;
    [|done..].
  apply makePath_spec in E2 as (doc2 & Hr2 & Hd2 & ->); [|done].
  pose proof (on_route_delays _ _ _ _ _ _ _ Hfit Hr2 Hd2). apply zsum_nonneg in Hd2.
  unfold Millisecond, TestPeriod, Second in *. simplify_eq. lia.
Qed.

Lemma compose_once_redo w recipient provider surbID b :
  delays_fit -> straddles w recipient provider surbID = false ->
  (compose_once w recipient provider surbID b).1 <> None.
Proof.
  intros Hfit. unfold straddles, Compose.compose_once.
  destruct (skewedUnixTime w) as [ut w1]. pose proof (Now_range w1) as He.
  destruct (Now w1) as [[[[epoch el] budget] [err|]] w2]; [done|].
  cbn in He. destruct (time_Now w2) as [start w3].
  pose proof (make_paths_fit w3 recipient provider surbID (time_Unix ut) epoch) as Hm.
  destruct (make_paths w3 recipient provider surbID (time_Unix ut) epoch) as [[[[fwd rev] t]|e|] w4];
    [|done..].
  cbn [snd]. destruct (time_Now w4) as [stop w5]. intros ->.
  destruct (Hm _ _ _ _ Hfit He eq_refl) as [H1' H2'].
  rewrite Time_Sub_small by (unfold is_i64, TestPeriod, Second in *; lia).
  rewrite (proj2 (Z.ltb_lt _ _)) by lia.
  by destruct (make_packet w5 surbID b fwd rev) as [[[? ?]|?|] ?].
Qed.

Lemma compose_loop_redo n fuel w recipient provider surbID b :
  delays_fit -> (n < fuel)%nat ->
  straddles (after n w recipient provider surbID b) recipient provider surbID = false ->
  (compose_loop fuel w recipient provider surbID b).1 <> None.
Proof.
  intros Hfit. revert fuel w. induction n as [|n IH]; intros fuel w Hn Hs;
    (destruct fuel as [|fuel]; [lia|]); cbn in *.
  - pose proof (compose_once_redo w recipient provider surbID b Hfit Hs).
    by destruct (compose_once w recipient provider surbID b) as [[r|] w1].
  - destruct (compose_once w recipient provider surbID b) as [[r|] w1]; [done|].
    apply IH; [lia|exact Hs].
Qed.

Lemma ComposeSphinxPacket_returns n fuel w recipient provider surbID b :
  delays_fit -> (n < fuel)%nat ->
  straddles (after n w recipient provider surbID b) recipient provider surbID = false ->
  exists r, (ComposeSphinxPacket fuel w recipient provider surbID b).1 = Some r /\ r <> Panic.
Proof.
  intros Hfit Hn Hs. unfold Compose.ComposeSphinxPacket.
  destruct (_ <? _); [by eauto|]. destruct (negb _); [by eauto|].
  pose proof (compose_loop_redo n fuel w recipient provider surbID b Hfit Hn Hs) as H1'.
  pose proof (compose_loop_no_panic fuel w recipient provider surbID b) as H2'.
  destruct (compose_loop fuel w recipient provider surbID b) as [[r|] w']; [|done].
  exists r. split; [done|]. intros ->. by apply H2'.
Qed.
End ComposeFacts.

Section ComposeProperties.
Context {W : Type} (LayerProvider : Z).
Context (NodeIDLength RecipientIDLength SURBIDLength SURBLength UserForwardPayloadLength : nat).
Context (GetProvider : Document -> string -> string + MixDescriptor).
Context `{SendEnvLaws W LayerProvider GetProvider}.
Context (User Provider : string).
#[local] Abbreviation ComposeSphinxPacket :=
  (ComposeSphinxPacket LayerProvider NodeIDLength RecipientIDLength SURBIDLength SURBLength
     UserForwardPayloadLength GetProvider User Provider).

(** C5. A composed packet: recipient and message have the right sizes; the packet
    is the sphinx library's for a route from the client's provider through every
    layer to the recipient's provider and the payload made of the flag bytes, the
    SURB (or zeros) and the message; the SURB, whose key is returned, is for a
    route back from that provider to the user; the round trip time is the sum of
    all delay commands of both routes, below two epochs. *)
Theorem compose_packet_spec fuel (w w' : W) recipient provider surbID b pkt k rtt :
  ComposeSphinxPacket fuel w recipient provider surbID b = (Some (Ok (pkt, k, rtt)), w') ->
  (String.length recipient <= RecipientIDLength)%nat /\ length b = UserForwardPayloadLength /\
  exists fwd rev,
    (exists doc, on_route NodeIDLength RecipientIDLength SURBIDLength GetProvider doc recipient
       surbID true Provider provider fwd) /\
    match surbID with
    | None => rev = []
    | Some _ => exists doc, on_route NodeIDLength RecipientIDLength SURBIDLength GetProvider doc
        User surbID false provider Provider rev
    end /\
    packet_ok SURBLength surbID b fwd rev pkt k /\
    rtt = (zsum (delays fwd) + zsum (delays rev)) * Millisecond /\ 0 <= rtt < 2 * TestPeriod.
Proof.
  intros E. by apply ComposeSphinxPacket_ok in E.
Qed.

(** C24. Composing terminates: if the delays allowed by the documents fit in an
    epoch's length, the call returns, without a panic, with the first iteration whose path
    selection does not take longer than the epoch has left; recipients and messages of a
    wrong size are refused before the environment is touched. *)
Theorem compose_terminates fuel n (w : W) recipient provider surbID b :
  delays_fit -> (n < fuel)%nat ->
  straddles LayerProvider NodeIDLength RecipientIDLength SURBIDLength GetProvider User Provider
    (after LayerProvider NodeIDLength RecipientIDLength SURBIDLength SURBLength GetProvider User
       Provider n w recipient provider surbID b)
    recipient provider surbID = false ->
  (exists r, (ComposeSphinxPacket fuel w recipient provider surbID b).1 = Some r /\ r <> Panic) /\
  ((RecipientIDLength < String.length recipient)%nat \/ length b <> UserForwardPayloadLength ->
   exists e, ComposeSphinxPacket fuel w recipient provider surbID b = (Some (Err e), w)).
Proof.
  intros Hfit Hn Hs. split; [by eapply ComposeSphinxPacket_returns|].
  intros Hbad. unfold Compose.ComposeSphinxPacket.
  destruct (Z.ltb_spec (Z.of_nat RecipientIDLength) (Z.of_nat (String.length recipient))); [by eauto|].
  destruct (Z.eqb_spec (Z.of_nat (length b)) (Z.of_nat UserForwardPayloadLength)); cbn [negb];
    [lia|by eauto].
Qed.
End ComposeProperties.

(** ** Witnesses: a still clock, the documents and the generator of Path *)

Definition ex_compose_client : PkiClient nat := {|
  GetEpoch n := ((9, 2, None), n);
  GetDoc n _ := (Ok (ex_doc 8, []), n);
|}.
Definition ex_env : SendEnv nat := {|
  env_PKIClient := ex_compose_client;
  env_rng := ex_rng;
  time_Now n := (5, n);
  skewedUnixTime n := (100, n);
  CurrentDocument n := (Some (ex_doc 8), n);
  NewSURB _ n := (inr (replicate 4 (byte_of_Z 3), [byte_of_Z 7]), n);
  NewPacket _ payload n := (inr payload, n);
  sendPacket _ n := (None, n);
|}.
#[local] Existing Instance ex_env.
Definition ex_GetProvider (d : Document) (name : string) : string + MixDescriptor :=
  if String.eqb name "src" then inr (ex_src 8)
  else if String.eqb name "dst" then inr (ex_dst 8) else inl "no such provider"%string.

Lemma ex_env_laws : SendEnvLaws (H:=ex_env) nat 255 ex_GetProvider.
Proof.
  split.
  - exact ex_rng_laws.
  - lia.
  - intros w d [= <-]. vm_compute. congruence.
  - intros w d n p _. unfold ex_GetProvider. repeat case_match; by intros [= <-].
  - intros w d [= <-]. cbn. lia.
Qed.
#[local] Existing Instance ex_env_laws.

Definition ex_message : bytes := [byte_of_Z 9; byte_of_Z 8].
Definition ex_compose (fuel : nat) :=
  ComposeSphinxPacket 255 32 64 16 4 2 ex_GetProvider "alice" "src" fuel 1%nat "bob" "dst"
    (Some [byte_of_Z 5]) ex_message.

Lemma compose_packet_spec_witness :
  exists pkt k rtt fwd rev, (ex_compose 1).1 = Some (Ok (pkt, k, rtt)) /\
    packet_ok 4 (Some [byte_of_Z 5]) ex_message fwd rev pkt k /\
    rtt = (zsum (delays fwd) + zsum (delays rev)) * Millisecond /\ 0 <= rtt < 2 * TestPeriod.
Proof.
  destruct (ex_compose 1) as [r w'] eqn:E.
  assert (exists pkt k rtt, r = Some (Ok (pkt, k, rtt))) as (pkt & k & rtt & ->).
  { vm_compute in E. injection E as <- _. do 3 eexists. reflexivity. }
  destruct (compose_packet_spec 255 32 64 16 4 2 ex_GetProvider "alice" "src" 1 1%nat w' "bob" "dst"
    (Some [byte_of_Z 5]) ex_message pkt k rtt E) as (_ & _ & fwd & rev & _ & _ & Hk & Hr).
  exists pkt, k, rtt, fwd, rev. exact (conj eq_refl (conj Hk Hr)).
Defined.

Lemma compose_terminates_witness : exists r, (ex_compose 1).1 = Some r /\ r <> Panic.
Proof.
  apply (compose_terminates 255 32 64 16 4 2 ex_GetProvider "alice" "src" 1 0 1%nat "bob" "dst"
    (Some [byte_of_Z 5]) ex_message).
  - intros w d [= <-]. vm_compute. reflexivity.
  - lia.
  - vm_compute. reflexivity.
Defined.
