(* ===== verification/Connection.v ===== *)
(** The connection to the provider (minclient/connection.go): the cached
    descriptor, the loop over an established session with its sequence numbers
    and fetches, the connect loop with its back-off, and the hand-over of packets
    under the connection's lock. The wire protocol, the dialer and the document
    source are the environment: each iteration is given what they answered. *)

From S2P Require Import Prelude GoStd PkiClient.

(** ** Data *)

(** The wire commands the loop sends or understands. *)
Inductive command :=
  | NoOp
  | Disconnect
  | MessageEmpty (Sequence : Z)
  | Message (QueueSizeHint Sequence : Z) (Payload : bytes)
  | MessageACK (Sequence : Z) (ID Payload : bytes)
  | Consensus (ErrorCode : Z) (Payload : bytes)
  | RetrieveMessage (Sequence : Z)
  | GetConsensus (Epoch : Z)
  | SendPacket (SphinxPacket : bytes)
  | OtherCommand.

Inductive proto_error :=
  | InvalidSequence (seq expecting : Z)
  | ReceiveWorkerTerminated
  | NoLongerListed
  | PeerSentDisconnect
  | SpuriousConsensus
  | UnknownCommand.

Inductive pki_error :=
  | NoDocument
  | NoProvider (e : string)
  | KeyPinMismatch.

(** [ErrWire] and [ErrCallback] are errors of the session and of a callback. *)
Inductive conn_error :=
  | ErrNotConnected
  | ErrShutdown
  | ConnectError (e : string)
  | PKIError (e : pki_error)
  | ProtocolError (e : proto_error)
  | ErrWire (e : string)
  | ErrCallback (e : string).

(** What the connection does to its surroundings, in order. *)
Inductive effect :=
  | OnConn (err : option conn_error)            (* cfg.OnConnFn *)
  | Sent (cmd : command)                        (* w.SendCommand *)
  | Done (err : option string)                  (* ctx.doneFn *)
  | Refused (epoch : Z)                         (* ctx.doneFn, outstanding GetConsensus *)
  | Go_OnEmpty                                  (* go func() { ... cfg.OnEmptyFn() ... }() *)
  | Go_OnMessage (payload : bytes)              (* go ... cfg.OnMessageFn *)
  | Go_OnACK (id payload : bytes)               (* go ... cfg.OnACKFn *)
  | Replied (cmd : option command)              (* consensusCtx.replyCh; None: ErrNotConnected *)
  | SetClockSkew (seconds : Z)
  | Dialed (delay : Duration) (addr : string).  (* after waiting for the back-off *)

Record PeerCredentials := mkCreds { AdditionalData : bytes; PublicKey : bytes }.

Record connection := mkConn {
  pkiEpoch : Z;
  descriptor : option MixDescriptor;
  retryDelay : Z;
  isConnected : bool;
  fetchCh : bool;
  effects : list effect;
}.

Definition newConnection : connection := mkConn 0 None 0 false false [].

Definition emit (c : connection) (es : list effect) : connection :=
  mkConn (pkiEpoch c) (descriptor c) (retryDelay c) (isConnected c) (fetchCh c) (effects c ++ es).
Definition with_descriptor (c : connection) (e : Z) (d : option MixDescriptor) : connection :=
  mkConn e d (retryDelay c) (isConnected c) (fetchCh c) (effects c).
Definition with_retryDelay (c : connection) (d : Z) : connection :=
  mkConn (pkiEpoch c) (descriptor c) d (isConnected c) (fetchCh c) (effects c).
Definition with_connected (c : connection) (b f : bool) : connection :=
  mkConn (pkiEpoch c) (descriptor c) (retryDelay c) b f (effects c).

(** [ForceFetch]: a request is dropped when one is pending. *)
Definition ForceFetch (c : connection) : connection := with_connected c (isConnected c) true.

Section Connection.
(** [doc.GetProvider]; [cfg.Provider], [cfg.ProviderKeyPin], which callbacks are
    set, [cfg.PreferedTransports] or [cpki.ClientTransports]. *)
Context (GetProvider : Document -> string -> string + MixDescriptor).
Context (Provider : string) (ProviderKeyPin : option bytes).
Context (OnConnFn OnEmptyFn OnMessageFn OnACKFn : bool).
Context (transports : list string).

Definition onConn (c : connection) (err : option conn_error) : connection :=
  if OnConnFn then emit c [OnConn err] else c.

(** ** The descriptor *)

(** [doc] is the fetcher's current document. *)
Definition getDescriptor (doc : option Document) (c : connection) :
    option conn_error * connection :=
  let fail e := (Some (PKIError e), with_descriptor c 0 None) in
  match doc with
  | None => fail NoDocument
  | Some doc =>
      match GetProvider doc Provider with
      | inl e => fail (NoProvider e)
      | inr desc =>
          if (match ProviderKeyPin with Some k => negb (bool_decide (k = IdentityKey desc))
              | None => false end)
          then fail KeyPinMismatch
          else (None, with_descriptor c (Epoch doc) (Some desc))
      end
  end.

Definition IsPeerValid (doc : option Document) (creds : PeerCredentials) (c : connection) :
    bool * connection :=
  match getDescriptor doc c with
  | (Some _, c) => (false, c)
  | (None, c) =>
      (match descriptor c with
       | Some d => bool_decide (IdentityKey d = AdditionalData creds) &&
                   bool_decide (LinkKey d = PublicKey creds)
       | None => false
       end, c)
  end.

Definition onConnStatusChange (c : connection) (err : option conn_error) : connection :=
  let c := match err with
           | None => with_connected c true (fetchCh c)
           | Some _ => with_connected c false false
           end in
  onConn c err.

(** ** The loop over a session *)

(** The locals of [onWireConn]; [consensusCtx] is the epoch of the outstanding
    request. *)
Record wire := mkWire {
  conn : connection;
  seq : Z;
  nrReqs : Z;
  nrResps : Z;
  fetchDelay : Duration;
  consensusCtx : option Z;
}.

Definition wire_init (c : connection) : wire := mkWire c 0 0 0 0 None.

Definition with_conn (w : wire) (c : connection) : wire :=
  mkWire c (seq w) (nrReqs w) (nrResps w) (fetchDelay w) (consensusCtx w).
Definition with_delay (w : wire) (d : Duration) : wire :=
  mkWire (conn w) (seq w) (nrReqs w) (nrResps w) d (consensusCtx w).
Definition with_consensus (w : wire) (e : option Z) : wire :=
  mkWire (conn w) (seq w) (nrReqs w) (nrResps w) (fetchDelay w) e.
Definition wire_emit (w : wire) (es : list effect) : wire := with_conn w (emit (conn w) es).
(** [nrResps++], and [seq++] for a message or an acknowledgement. *)
Definition responded (w : wire) (advance : bool) : wire :=
  mkWire (conn w) (if advance then u32 (seq w + 1) else seq w) (nrReqs w) (nrResps w + 1)
    (fetchDelay w) (consensusCtx w).

(** The ready case of the [select]. *)
Inductive selected :=
  | S_after                                   (* time.After(fetchDelay) *)
  | S_fetch                                   (* <-c.fetchCh *)
  | S_getConsensus (epoch : Z)                (* <-c.getConsensusCh *)
  | S_send (pkt : bytes)                      (* <-c.sendCh *)
  | S_command (cmd : command)                 (* <-cmdCh *)
  | S_recvError (e : string)
  | S_recvClosed
  | S_halt
  | S_callback (e : string).                  (* <-closeConnCh: a callback failed *)

(** What the libraries and the clock answer during an iteration: the time spent
    in the [select], the result of [SendCommand], the peer's credentials, the
    current document, [GetPollInterval]. *)
Record iteration_env := mkIter {
  deltaT : Duration;
  sendErr : option string;
  creds : option PeerCredentials;
  current : option Document;
  pollInterval : Duration;
}.

Definition adjFetchDelay (w : wire) (dt : Duration) : wire :=
  with_delay w (if dt <? fetchDelay w then i64 (fetchDelay w - dt) else 0).

Definition checkSeq (w : wire) (cmdSeq : Z) : option conn_error :=
  if negb (seq w =? cmdSeq) then Some (ProtocolError (InvalidSequence cmdSeq (seq w))) else None.

Definition dispatchOnEmpty (w : wire) : wire := if OnEmptyFn then wire_emit w [Go_OnEmpty] else w.

(** An iteration goes on, or the function returns with [wireErr]. *)
Inductive turn := Next (w : wire) | Return (wireErr : option conn_error) (w : wire).

Definition turn_wire (t : turn) : wire := match t with Next w | Return _ w => w end.

(** Sends a fetch if there is not one outstanding. *)
Definition handle_fetch (w : wire) (env : iteration_env) : turn :=
  if nrReqs w =? nrResps w then
    let w := wire_emit w [Sent (RetrieveMessage (seq w))] in
    match sendErr env with
    | Some e => Return (Some (ErrWire e)) w
    | None => Next (mkWire (conn w) (seq w) (nrReqs w + 1) (nrResps w) (pollInterval env)
                      (consensusCtx w))
    end
  else Next (with_delay w (pollInterval env)).

(** The handling of a command once the peer is known to be valid. *)
Definition handle_command (w : wire) (cmd : command) : turn :=
  match cmd with
  | NoOp => Next w
  | Disconnect => Return (Some (ProtocolError PeerSentDisconnect)) w
  | MessageEmpty s =>
      match checkSeq w s with
      | Some e => Return (Some e) w
      | None => Next (dispatchOnEmpty (responded w false))
      end
  | Message hint s payload =>
      match checkSeq w s with
      | Some e => Return (Some e) w
      | None =>
          let w := responded w true in
          let w := if OnMessageFn then wire_emit w [Go_OnMessage payload] else w in
          Next (if hint =? 0 then dispatchOnEmpty w else w)
      end
  | MessageACK s id payload =>
      match checkSeq w s with
      | Some e => Return (Some e) w
      | None =>
          let w := responded w true in
          Next (if OnACKFn then wire_emit w [Go_OnACK id payload] else w)
      end
  | Consensus _ _ =>
      match consensusCtx w with
      | Some _ => Next (with_consensus (wire_emit w [Replied (Some cmd)]) None)
      | None => Return (Some (ProtocolError SpuriousConsensus)) w
      end
  | _ => Return (Some (ProtocolError UnknownCommand)) w
  end.

(** The reader goroutine clears the back-off with each command it receives. *)
Definition handle_received (w : wire) (cmd : command) (env : iteration_env) : turn :=
  let w := with_conn w (with_retryDelay (conn w) 0) in
  match creds env with
  | None => Next w
  | Some cr =>
      let '(valid, c) := IsPeerValid (current env) cr (conn w) in
      let w := with_conn w c in
      if negb valid then Return (Some (ProtocolError NoLongerListed)) w
      else handle_command w cmd
  end.

Definition iteration (w : wire) (s : selected) (env : iteration_env) : turn :=
  match s with
  | S_after => handle_fetch w env
  | S_fetch =>
      handle_fetch (with_conn w (with_connected (conn w) (isConnected (conn w)) false)) env
  | S_getConsensus epoch =>
      match consensusCtx w with
      | Some e => Next (adjFetchDelay (wire_emit w [Refused e]) (deltaT env))
      | None =>
          let w := with_consensus w (Some epoch) in
          let w := wire_emit w [Sent (GetConsensus epoch); Done (sendErr env)] in
          match sendErr env with
          | Some e => Return (Some (ErrWire e)) w
          | None => Next (adjFetchDelay w (deltaT env))
          end
      end
  | S_send pkt =>
      let w := wire_emit w [Sent (SendPacket pkt); Done (sendErr env)] in
      match sendErr env with
      | Some e => Return (Some (ErrWire e)) w
      | None => Next (adjFetchDelay w (deltaT env))
      end
  | S_command cmd => handle_received w cmd env
  | S_recvError e => Return (Some (ErrWire e)) w
  | S_recvClosed => Return (Some (ProtocolError ReceiveWorkerTerminated)) w
  | S_halt => Return (Some ErrShutdown) w
  | S_callback e => Return (Some (ErrCallback e)) w
  end.

(** The loop over the iterations of a session; it is still running when they end. *)
Fixpoint wire_loop (w : wire) (its : list (selected * iteration_env)) : turn :=
  match its with
  | [] => Next w
  | (s, env) :: its =>
      match iteration w s env with
      | Next w => wire_loop w its
      | Return e w => Return e w
      end
  end.

(** The deferred functions: an outstanding consensus request is answered, a nil
    [wireErr] panics, the status changes. [None]: still running. *)
Definition onWireConn (c : connection) (its : list (selected * iteration_env)) :
    option (outcome Empty_set connection) :=
  match wire_loop (wire_init (onConnStatusChange c None)) its with
  | Next _ => None
  | Return wireErr w =>
      let c := match consensusCtx w with Some _ => emit (conn w) [Replied None] | None => conn w end in
      Some (match wireErr with
            | None => Panic
            | Some e => Ok (onConnStatusChange c (Some e))
            end)
  end.

(** ** Connecting *)

(** What becomes of a TCP connection. *)
Inductive session_script :=
  | NewSessionFails (e : string)
  | HandshakeFails (e : string)
  | Established (clockSkew : Z) (its : list (selected * iteration_env)).

(** The environment of the connect loop: the PKI client, the document fetcher,
    whether [HaltCh] is the ready case of a [select], the dialer, the session over
    the connection it returned. *)
Class ConnEnv (W : Type) := {
  cenv_PKIClient :: PkiClient W;
  cenv_CurrentDocument : W -> option Document * W;
  cenv_halted : W -> bool * W;
  cenv_dial : string -> W -> option string * W;
  cenv_session : W -> session_script * W;
}.

Context {W : Type} `{ConnEnv W}.

Definition retryIncrement : Duration := 2 * Second.
Definition maxRetryDelay : Duration := 5 * Second.

(** [None]: the session is still running. *)
Definition onTCPConn (c : connection) (sc : session_script) :
    option (outcome Empty_set connection) :=
  match sc with
  | NewSessionFails e | HandshakeFails e => Some (Ok (onConn c (Some (ConnectError e))))
  | Established skew its => onWireConn (emit c [SetClockSkew skew]) its
  end.

Definition candidates (d : MixDescriptor) : list string :=
  transports ≫= (fun t => default [] (Addresses d !! t)).

Definition back_off (c : connection) : connection :=
  let d := i64 (retryDelay c + retryIncrement) in
  with_retryDelay c (if maxRetryDelay <? d then maxRetryDelay else d).

(** The loop over the addresses ends with a return, or with another round. *)
Inductive dialed :=
  | D_return (connErr : option conn_error) (c : connection) (w : W)
  | D_again (c : connection) (w : W)
  | D_running
  | D_panic.

Fixpoint dial_addresses (addrs : list string) (c : connection) (w : W) : dialed :=
  match addrs with
  | [] => D_again c w
  | addrPort :: addrs =>
      match cenv_halted w with
      | (true, w) => D_return (Some ErrShutdown) c w
      | (false, w) =>
          let c := back_off (emit c [Dialed (retryDelay c) addrPort]) in
          let '(err, w) := cenv_dial addrPort w in
          match cenv_halted w with
          | (true, w) => D_return (Some ErrShutdown) c w
          | (false, w) =>
              match err with
              | Some e => dial_addresses addrs (onConn c (Some (ConnectError e))) w
              | None =>
                  let '(sc, w) := cenv_session w in
                  match onTCPConn c sc with
                  | Some (Ok c) => D_again (onConnStatusChange c (Some ErrNotConnected)) w
                  | Some _ => D_panic
                  | None => D_running
                  end
              end
          end
      end
  end.

(** The deferred function: a nil [connErr] panics. *)
Definition doConnect_end (connErr : option conn_error) (c : connection) (w : W) :
    option (outcome Empty_set connection * W) :=
  match connErr with
  | None => Some (Panic, w)
  | Some e => Some (Ok (onConn c (Some e)), w)
  end.

(** [fuel] bounds the rounds; [None]: still connecting or connected. *)
Fixpoint doConnect (fuel : nat) (c : connection) (w : W) :
    option (outcome Empty_set connection * W) :=
  match fuel with
  | O => None
  | S fuel =>
      let '(doc, w) := cenv_CurrentDocument w in
      match getDescriptor doc c with
      | (Some e, c) => doConnect_end (Some e) c w
      | (None, c) =>
          match default [] (candidates <$> descriptor c) with
          | [] =>
              doConnect_end (Some (ConnectError "no suitable addreses found"))
                (with_descriptor c (pkiEpoch c) None) w
          | dstAddrs =>
              match dial_addresses dstAddrs c w with
              | D_return e c w => doConnect_end e c w
              | D_again c w => doConnect fuel c w
              | D_running => None
              | D_panic => Some (Panic, w)
              end
          end
      end
  end.

(** One tick of [connectWorker]: nothing to do within an epoch. *)
Definition connect_tick (fuel : nat) (c : connection) (w : W) :
    option (outcome Empty_set connection * W) :=
  let '((now, _, _, _), w) := Now w in
  if negb (now =? pkiEpoch c) then
    let '(doc, w) := cenv_CurrentDocument w in
    match getDescriptor doc c with
    | (None, c) => doConnect fuel c w
    | (Some e, c) => Some (Ok (onConn c (Some e)), w)
    end
  else Some (Ok c, w).

(** [connectWorker]: its select yields a tick of the timer or the halt. *)
Inductive worker_event := WorkerTick | WorkerHalt.
Fixpoint connectWorker (fuel : nat) (evs : list worker_event) (c : connection) (w : W) :
    option (outcome Empty_set connection * W) :=
  match evs with
  | [] => None
  | WorkerHalt :: _ => Some (Ok c, w)
  | WorkerTick :: evs =>
      match connect_tick fuel c w with
      | Some (Ok c, w) => connectWorker fuel evs c w
      | r => r
      end
  end.
End Connection.

(** ** Facts about the session loop *)

Section WireFacts.
Context (GetProvider : Document -> string -> string + MixDescriptor).
Context (Provider : string) (ProviderKeyPin : option bytes).
Context (OnEmptyFn OnMessageFn OnACKFn : bool).
#[local] Abbreviation iteration :=
  (iteration GetProvider Provider ProviderKeyPin OnEmptyFn OnMessageFn OnACKFn).
#[local] Abbreviation wire_loop :=
  (wire_loop GetProvider Provider ProviderKeyPin OnEmptyFn OnMessageFn OnACKFn).
#[local] Abbreviation handle_command := (handle_command OnEmptyFn OnMessageFn OnACKFn).
#[local] Abbreviation IsPeerValid := (IsPeerValid GetProvider Provider ProviderKeyPin).
#[local] Abbreviation getDescriptor := (getDescriptor GetProvider Provider ProviderKeyPin).

(** The loop over a list is the loop over its parts. *)
Lemma wire_loop_app w its its' :
  wire_loop w (its ++ its') =
  match wire_loop w its with Next w => wire_loop w its' | Return e w => Return e w end.
Proof.
  revert w. induction its as [|[s env] its IH]; intros w; [done|]. cbn.
  by destruct (iteration w s env).
Qed.

Lemma wire_loop_snoc w its s env w' :
  wire_loop w (its ++ [(s, env)]) = Next w' ->
  exists w1, wire_loop w its = Next w1 /\ iteration w1 s env = Next w'.
Proof.
  rewrite wire_loop_app. destruct (wire_loop w its) as [w1|e w1]; [|done]. cbn.
  intros E. exists w1. split; [done|]. by destruct (iteration w1 s env).
Qed.

(** A property of the state that every iteration that goes on extends. *)
Lemma wire_loop_ind (P : list (selected * iteration_env) -> wire -> Prop) w0 :
  P [] w0 ->
  (forall its w s env w', P its w -> iteration w s env = Next w' -> P (its ++ [(s, env)]) w') ->
  forall its w, wire_loop w0 its = Next w -> P its w.
Proof.
  intros H0 Hs its. induction its as [|[s env] its IH] using rev_ind; intros w E.
  - by injection E as <-.
  - apply wire_loop_snoc in E as (w1 & E1 & E2). eapply Hs; [by apply IH|done].
Qed.

(** What the callbacks are to be given, in the order their goroutines are started. *)
Definition delivery (e : effect) : option (option bytes * bytes) :=
  match e with
  | Go_OnMessage p => Some (None, p)
  | Go_OnACK id p => Some (Some id, p)
  | _ => None
  end.
Definition deliveries (c : connection) := omap delivery (effects c).

Definition fetch_sent (e : effect) : option Z :=
  match e with Sent (RetrieveMessage s) => Some s | _ => None end.
Definition fetches_sent (c : connection) := omap fetch_sent (effects c).

(** The numbered commands that the loop looked at, with what they deliver. *)
Definition numbered (x : selected * iteration_env) : option (Z * (option bytes * bytes)) :=
  match x with
  | (S_command (Message _ s p), mkIter _ _ (Some _) _ _) => Some (s, (None, p))
  | (S_command (MessageACK s id p), mkIter _ _ (Some _) _ _) => Some (s, (Some id, p))
  | _ => None
  end.
Definition response (x : selected * iteration_env) : option unit :=
  match x with
  | (S_command (Message _ _ _ | MessageACK _ _ _ | MessageEmpty _), mkIter _ _ (Some _) _ _) => Some tt
  | _ => None
  end.

(** Emitting and changing the descriptor. *)
Lemma effects_getDescriptor doc c r c' : getDescriptor doc c = (r, c') -> effects c' = effects c.
Proof. unfold Connection.getDescriptor. repeat case_match; intros; simplify_eq; done. Qed.

Lemma effects_IsPeerValid doc cr c b c' : IsPeerValid doc cr c = (b, c') -> effects c' = effects c.
Proof.
  unfold Connection.IsPeerValid. destruct (getDescriptor doc c) as [[e|] c1] eqn:E;
    intros [= _ <-]; by eapply effects_getDescriptor.
Qed.

(** The effect of a handled command on what the counters count. *)
Lemma handle_command_next w cmd w' (env : iteration_env) cr :
  creds env = Some cr -> OnMessageFn = true -> OnACKFn = true ->
  handle_command w cmd = Next w' ->
  let n := numbered (S_command cmd, env) in
  omap delivery (effects (conn w')) = omap delivery (effects (conn w)) ++ option_list (snd <$> n) /\
  fetches_sent (conn w') = fetches_sent (conn w) /\
  nrReqs w' = nrReqs w /\
  nrResps w' = nrResps w + Z.of_nat (length (option_list (response (S_command cmd, env)))) /\
  seq w' = (match n with Some _ => u32 (seq w + 1) | None => seq w end) /\
  (forall s d, n = Some (s, d) -> s = seq w).
Proof.
  intros Hcr -> -> E. destruct env as [dt se cr' cur poll]. cbn in Hcr. subst cr'.
  unfold fetches_sent.
  destruct cmd as [| |s|hint s p|s id p|ec p|s|ep|pkt|]; cbn in E |- *; try done.
  - simplify_eq. rewrite app_nil_r. split_and!; done || lia.
  - unfold checkSeq in E. destruct (Z.eqb_spec (seq w) s); cbn in E; [|done].
    unfold dispatchOnEmpty in E.
    destruct OnEmptyFn; simplify_eq/=; rewrite ?omap_app, ?app_nil_r; split_and!; done || lia.
  - unfold checkSeq in E. destruct (Z.eqb_spec (seq w) s); cbn in E; [|done].
    unfold dispatchOnEmpty in E.
    destruct (hint =? 0), OnEmptyFn; simplify_eq/=; rewrite ?omap_app, ?app_nil_r; cbn;
      rewrite ?app_nil_r; split_and!; try done; try lia; intros ? ? [= <- _]; done.
  - unfold checkSeq in E. destruct (Z.eqb_spec (seq w) s); cbn in E; [|done].
    simplify_eq/=. rewrite ?omap_app. cbn. rewrite app_nil_r.
    split_and!; try done; try lia; intros ? ? [= <- _]; done.
  - destruct (consensusCtx w); [|done]. simplify_eq/=. rewrite ?omap_app. cbn.
    rewrite ?app_nil_r. split_and!; done || lia.
Qed.

(** The same for a whole iteration, where a fetch may be sent. *)
Lemma iteration_next w s env w' :
  OnMessageFn = true -> OnACKFn = true -> iteration w s env = Next w' ->
  let n := numbered (s, env) in
  deliveries (conn w') = deliveries (conn w) ++ option_list (snd <$> n) /\
  seq w' = (match n with Some _ => u32 (seq w + 1) | None => seq w end) /\
  (forall q d, n = Some (q, d) -> q = seq w) /\
  nrResps w' = nrResps w + Z.of_nat (length (option_list (response (s, env)))) /\
  ((nrReqs w' = nrReqs w /\ fetches_sent (conn w') = fetches_sent (conn w)) \/
   (nrReqs w = nrResps w /\ nrReqs w' = nrReqs w + 1 /\
    fetches_sent (conn w') = fetches_sent (conn w) ++ [seq w])).
Proof.
  intros HM HA E. unfold deliveries.
  assert (forall w0, seq w0 = seq w -> nrReqs w0 = nrReqs w -> nrResps w0 = nrResps w ->
    effects (conn w0) = effects (conn w) -> numbered (s, env) = None -> response (s, env) = None ->
    handle_fetch w0 env = Next w' -> 
    omap delivery (effects (conn w')) = omap delivery (effects (conn w)) /\ seq w' = seq w /\
    nrResps w' = nrResps w /\
    ((nrReqs w' = nrReqs w /\ fetches_sent (conn w') = fetches_sent (conn w)) \/
     (nrReqs w = nrResps w /\ nrReqs w' = nrReqs w + 1 /\
      fetches_sent (conn w') = fetches_sent (conn w) ++ [seq w]))) as Hfetch.
  { intros w0 E1 E2 E3 E4 _ _ Ef. unfold handle_fetch in Ef. unfold fetches_sent.
    destruct (Z.eqb_spec (nrReqs w0) (nrResps w0)) as [Eq|].
    - destruct (sendErr env); [done|]. simplify_eq/=. rewrite E4, !omap_app. cbn.
      rewrite app_nil_r. split_and!; [done..|]. right. split_and!; [congruence|lia|congruence].
    - simplify_eq/=. rewrite E4. split_and!; [done..|]. by left. }
  destruct s as [| |epoch|pkt|cmd|e| | |e]; cbn [Connection.iteration] in E; try done; cbn [numbered response];
    try match type of E with handle_fetch ?w0 _ = _ =>
      destruct (Hfetch w0 eq_refl eq_refl eq_refl eq_refl eq_refl eq_refl E) as (-> & -> & -> & Hf);
      cbn; rewrite app_nil_r; split_and!; [done..|lia|exact Hf] end.
  - destruct (consensusCtx w); [|destruct (sendErr env); [done|]]; simplify_eq/=;
      unfold fetches_sent; cbn; rewrite !omap_app; cbn; rewrite !app_nil_r;
      split_and!; try done; try lia; by left.
  - destruct (sendErr env); [done|]. simplify_eq/=. unfold fetches_sent; cbn; rewrite !omap_app; cbn.
    rewrite !app_nil_r. split_and!; try done; try lia. by left.
  - unfold handle_received in E. destruct (creds env) as [cr|] eqn:Ecr.
    + destruct (IsPeerValid (current env) cr _) as [valid c] eqn:Ev.
      apply effects_IsPeerValid in Ev. cbn in Ev.
      destruct valid; cbn in E; [|done].
      destruct (handle_command_next _ _ _ env cr Ecr HM HA E) as (H1 & H2 & H3 & H4 & H5 & H6).
      unfold fetches_sent in *. cbn in *. rewrite Ev in H1, H2.
      split_and!; [done..|]. by left.
    + simplify_eq/=. destruct env as [dt se cr' cur poll]. cbn in Ecr. subst.
      destruct cmd; cbn; rewrite ?app_nil_r; (split_and!; try done; try lia; by left).
Qed.
End WireFacts.

(** ** Properties of the session loop *)

Section WireProperties.
Context (GetProvider : Document -> string -> string + MixDescriptor).
Context (Provider : string) (ProviderKeyPin : option bytes).
Context (OnEmptyFn : bool).
#[local] Abbreviation iteration :=
  (iteration GetProvider Provider ProviderKeyPin OnEmptyFn).
#[local] Abbreviation wire_loop :=
  (wire_loop GetProvider Provider ProviderKeyPin OnEmptyFn).
#[local] Abbreviation IsPeerValid := (IsPeerValid GetProvider Provider ProviderKeyPin).

Lemma u32_succ_mod n : 0 <= n -> u32 (n mod 2 ^ 32 + 1) = (n + 1) mod 2 ^ 32.
Proof. intros Hn. unfold wrap_u. by rewrite Zplus_mod_idemp_l. Qed.

Lemma seqZ_snoc_mod n :
  (fun i => i mod 2 ^ 32) <$> seqZ 0 (Z.of_nat n + 1)
  = ((fun i => i mod 2 ^ 32) <$> seqZ 0 (Z.of_nat n)) ++ [Z.of_nat n mod 2 ^ 32].
Proof.
  rewrite seqZ_app by lia. rewrite fmap_app. f_equal.
Qed.

(** The numbering of what the loop has looked at. *)
Lemma wire_numbering c its w :
  wire_loop true true (wire_init c) its = Next w ->
  let cmds := omap numbered its in
  cmds.*1 = (fun i => i mod 2 ^ 32) <$> seqZ 0 (Z.of_nat (length cmds)) /\
  deliveries (conn w) = deliveries c ++ cmds.*2 /\
  seq w = Z.of_nat (length cmds) mod 2 ^ 32.
Proof.
  revert its w. apply (wire_loop_ind _ _ _ _ _ _ (fun its w =>
    (omap numbered its).*1 = (fun i => i mod 2 ^ 32) <$> seqZ 0 (Z.of_nat (length (omap numbered its)))
    /\ deliveries (conn w) = deliveries c ++ (omap numbered its).*2
    /\ seq w = Z.of_nat (length (omap numbered its)) mod 2 ^ 32)).
  - cbn. by rewrite app_nil_r.
  - intros its w s env w' (H1 & H2 & H3) E.
    apply iteration_next in E as (Hd & Hq & Hn & _); [|done..].
    rewrite omap_app, fmap_app, fmap_app, length_app. cbn [omap list_omap].
    change (match numbered (s, env) with Some y => [y] | None => [] end)
      with (option_list (numbered (s, env))) in *.
    destruct (numbered (s, env)) as [[q d]|]; cbn in *.
    + rewrite Hd, H1, H2, Hq, H3. rewrite (Hn q d eq_refl), H3.
      rewrite Nat.add_1_r, Nat2Z.inj_succ. unfold Z.succ.
      split_and!; [by rewrite seqZ_snoc_mod|by rewrite <-app_assoc|apply u32_succ_mod; lia].
    + rewrite !app_nil_r, Nat.add_0_r in *. rewrite Hd, Hq. done.
Qed.

(** The loop with the goroutines of its callbacks: those started and not yet run, and what
    has been handed to the callbacks. A goroutine runs when the scheduler lets it. *)
Record delivering := mkDelivering {
  dl_wire : wire;
  dl_taken : list (selected * iteration_env);
  dl_started : list (option bytes * bytes);
  dl_called : list (option bytes * bytes);
}.
Inductive dl_step (s : delivering) : delivering -> Prop :=
  | dl_loop x w' : iteration true true (dl_wire s) x.1 x.2 = Next w' ->
      dl_step s (mkDelivering w' (dl_taken s ++ [x])
        (dl_started s ++ drop (length (deliveries (conn (dl_wire s)))) (deliveries (conn w')))
        (dl_called s))
  | dl_call l d l' : dl_started s = l ++ d :: l' ->
      dl_step s (mkDelivering (dl_wire s) (dl_taken s) (l ++ l') (dl_called s ++ [d])).

Record delivering_ok (c : connection) (s : delivering) : Prop := {
  do_loop : wire_loop true true (wire_init c) (dl_taken s) = Next (dl_wire s);
  do_once : dl_called s ++ dl_started s ≡ₚ (omap numbered (dl_taken s)).*2;
}.

Lemma delivering_ok_step c s s' : delivering_ok c s -> dl_step s s' -> delivering_ok c s'.
Proof.
  intros [Hl Ho] [x w' Ex|l d l' Es].
  - assert (wire_loop true true (wire_init c) (dl_taken s ++ [x]) = Next w') as Hl'.
    { rewrite wire_loop_app, Hl. cbn. destruct x as [x e]. cbn in Ex. by rewrite Ex. }
    split; cbn; [done|].
    destruct (wire_numbering c _ _ Hl) as (_ & E1 & _).
    destruct (wire_numbering c _ _ Hl') as (_ & E2 & _).
    rewrite omap_app, fmap_app, app_assoc in E2. rewrite <- E1 in E2.
    by rewrite E2, drop_app_length, omap_app, fmap_app, app_assoc, Ho.
  - split; cbn; [done|]. rewrite <- Ho, Es, <- app_assoc. apply Permutation_app_head. cbn.
    by rewrite Permutation_middle.
Qed.

(** A run of the loop alone is one of the loop with its goroutines. *)
Lemma dl_run w its w' t st ca :
  wire_loop true true w its = Next w' ->
  exists st', rtc dl_step (mkDelivering w t st ca) (mkDelivering w' (t ++ its) st' ca).
Proof.
  revert w t st. induction its as [|[x env] its IH]; intros w t st E.
  - injection E as <-. exists st. by rewrite app_nil_r.
  - cbn in E. destruct (iteration true true w x env) as [w1|e w1] eqn:E1; [|done].
    destruct (IH w1 (t ++ [(x, env)])
      (st ++ drop (length (deliveries (conn w))) (deliveries (conn w1))) E) as (st' & H).
    exists st'. rewrite <- app_assoc in H. eapply rtc_l; [|exact H].
    exact (dl_loop (mkDelivering w t st ca) (x, env) w1 E1).
Qed.

(** C7. Messages and acknowledgements exactly once: while the loop runs, those it has looked
    at carry the sequence numbers 0, 1, 2, ... (modulo 2^32), it starts one goroutine for
    each, in this order, and nothing is handed to the callbacks but what these carry, each
    once. The order of the calls is the scheduler's: whatever order the goroutines started
    so far are run in, there is a run of the connection with it. *)
Theorem wire_delivers_once c s :
  reachable (eq (mkDelivering (wire_init c) [] [] [])) dl_step s ->
  let cmds := omap numbered (dl_taken s) in
  cmds.*1 = (fun i => i mod 2 ^ 32) <$> seqZ 0 (Z.of_nat (length cmds)) /\
  deliveries (conn (dl_wire s)) = deliveries c ++ cmds.*2 /\
  seq (dl_wire s) = Z.of_nat (length cmds) mod 2 ^ 32 /\
  dl_called s ++ dl_started s ≡ₚ cmds.*2 /\
  forall l, l ≡ₚ dl_started s -> exists s', rtc dl_step s s' /\
    dl_called s' = dl_called s ++ l /\ dl_started s' = [].
Proof.
  intros Hr cmds. assert (delivering_ok c s) as [Hl Ho].
  { revert s Hr cmds. intros s Hr _. revert s Hr. apply reachable_ind_inv; [|apply delivering_ok_step].
    by intros s <-. }
  destruct (wire_numbering c _ _ Hl) as (H1 & H2 & H3). split_and!; [done..|].
  intros l Hp. clear -Hp. revert s Hp. induction l as [|d l IH]; intros s Hp.
  - apply Permutation_nil_l in Hp. exists s. by rewrite app_nil_r.
  - assert (d ∈ dl_started s) as (l1 & l2 & E)%list_elem_of_split by (rewrite <- Hp; left).
    pose proof (dl_call s l1 d l2 E) as Hs.
    destruct (IH (mkDelivering (dl_wire s) (dl_taken s) (l1 ++ l2) (dl_called s ++ [d])))
      as (s' & Hrtc & Hc & Hst).
    { cbn. apply (Permutation_cons_inv (a:=d)). by rewrite Hp, E, Permutation_middle. }
    exists s'. split; [by eapply rtc_l|]. cbn in Hc. by rewrite Hc, <- app_assoc.
Qed.

Lemma wire_fetch_counters c its w :
  wire_loop true true (wire_init c) its = Next w ->
  (exists l, fetches_sent (conn w) = fetches_sent c ++ l /\ nrReqs w = Z.of_nat (length l)) /\
  nrResps w = Z.of_nat (length (omap response its)) /\ nrReqs w <= nrResps w + 1.
Proof.
  revert its w. apply (wire_loop_ind _ _ _ _ _ _ (fun its w =>
    (exists l, fetches_sent (conn w) = fetches_sent c ++ l /\ nrReqs w = Z.of_nat (length l)) /\
    nrResps w = Z.of_nat (length (omap response its)) /\ nrReqs w <= nrResps w + 1)).
  - cbn. split_and!; [exists []; by rewrite app_nil_r|done|lia].
  - intros its w s env w' ((l & H1 & H2) & H3 & H4) E.
    apply iteration_next in E as (_ & _ & _ & Hr & Hf); [|done..].
    rewrite omap_app, length_app, Nat2Z.inj_add.
    assert (length (omap response [(s, env)]) = length (option_list (response (s, env)))) as ->
      by (cbn; by destruct (match s with S_after => _ | _ => _ end)).
    split_and!.
    + destruct Hf as [[-> ->]|(_ & -> & ->)]; [by exists l|].
      exists (l ++ [seq w]). rewrite H1, <-app_assoc, length_app. cbn. split; [done|lia].
    + lia.
    + destruct Hf as [[-> _]|(? & -> & _)]; lia.
Qed.

Lemma wire_loop_stalled w its w' :
  wire_loop true true w its = Next w' -> nrReqs w < nrResps w ->
  fetches_sent (conn w') = fetches_sent (conn w) /\ nrReqs w' < nrResps w'.
Proof.
  revert w. induction its as [|[s env] its IH]; intros w E Hlt; [by injection E as <-|].
  cbn in E. destruct (iteration true true w s env) as [w1|e w1] eqn:E1; [|done].
  apply iteration_next in E1 as (_ & _ & _ & Hr & Hf); [|done..].
  destruct Hf as [[Hq Hf]|(? & _)]; [|lia].
  destruct (IH _ E) as [H1 H2]; [lia|]. by rewrite H1.
Qed.

(** C26. Fetches: while the loop runs, at most one fetch is outstanding, a
    fetch is counted for each one sent and a response for each one received; once
    the provider has sent a response that was not asked for, no message is ever
    fetched again on that connection. *)
Theorem wire_fetch_discipline c its w :
  wire_loop true true (wire_init c) its = Next w ->
  (exists l, fetches_sent (conn w) = fetches_sent c ++ l /\ nrReqs w = Z.of_nat (length l)) /\
  nrResps w = Z.of_nat (length (omap response its)) /\ nrReqs w <= nrResps w + 1 /\
  (nrReqs w < nrResps w -> forall its' w', wire_loop true true w its' = Next w' ->
     fetches_sent (conn w') = fetches_sent (conn w)).
Proof.
  intros E. destruct (wire_fetch_counters _ _ _ E) as (H1 & H2 & H3).
  split_and!; [done..|]. intros Hlt its' w' E'. by eapply wire_loop_stalled.
Qed.

(** The starts of the callbacks' goroutines. *)
Definition is_callback (e : effect) : bool :=
  match e with Go_OnEmpty | Go_OnMessage _ | Go_OnACK _ _ => true | _ => false end.

(** The document lists the provider, under the pinned key if there is one, with
    the keys the peer authenticated with. *)
Definition authenticated (env : iteration_env) : Prop :=
  exists cr doc desc, creds env = Some cr /\ current env = Some doc /\
    GetProvider doc Provider = inr desc /\
    IdentityKey desc = AdditionalData cr /\ LinkKey desc = PublicKey cr /\
    (forall k, ProviderKeyPin = Some k -> k = IdentityKey desc).

Lemma IsPeerValid_spec env cr c b c' :
  creds env = Some cr -> IsPeerValid (current env) cr c = (b, c') ->
  (b = true <-> authenticated env).
Proof.
  intros Hcr E. unfold Connection.IsPeerValid, getDescriptor in E.
  destruct (current env) as [doc|] eqn:Ed; [|injection E as <- _; split; [done|];
    intros (? & ? & ? & _ & ? & _); congruence].
  destruct (GetProvider doc Provider) as [er|desc] eqn:Eg; [injection E as <- _; split; [done|];
    intros (? & ? & ? & _ & ? & ? & _); congruence|].
  destruct ProviderKeyPin as [k|] eqn:Ek.
  - case_bool_decide as Hk; cbn in E.
    + injection E as <- _. rewrite andb_true_iff, !bool_decide_eq_true. split.
      * intros [Hi Hl]. exists cr, doc, desc. split_and!; try done. intros k0 Hk0. congruence.
      * intros (cr' & doc' & desc' & ? & ? & ? & ? & ? & _).
        assert (doc' = doc) by congruence. subst doc'. split; congruence.
    + injection E as <- _. split; [done|]. intros (cr' & doc' & desc' & ? & ? & ? & _ & _ & Hp).
      assert (doc' = doc) by congruence. subst doc'. destruct Hk.
      rewrite (Hp k Ek). congruence.
  - cbn in E. injection E as <- _. rewrite andb_true_iff, !bool_decide_eq_true. split.
    + intros [Hi Hl]. exists cr, doc, desc. split_and!; try done. intros k0 Hk0. congruence.
    + intros (cr' & doc' & desc' & ? & ? & ? & ? & ? & _).
      assert (doc' = doc) by congruence. subst doc'. split; congruence.
Qed.

Lemma handle_command_effects fm fa w cmd :
  exists es, effects (conn (turn_wire (handle_command OnEmptyFn fm fa w cmd))) = effects (conn w) ++ es.
Proof.
  destruct cmd; cbn; try (exists []; by rewrite app_nil_r).
  - unfold dispatchOnEmpty. destruct (checkSeq w Sequence); cbn; [exists []; by rewrite app_nil_r|].
    destruct OnEmptyFn; cbn; [by eexists|exists []; by rewrite app_nil_r].
  - unfold dispatchOnEmpty. destruct (checkSeq w Sequence); cbn; [exists []; by rewrite app_nil_r|].
    destruct fm, (QueueSizeHint =? 0), OnEmptyFn; cbn; rewrite <-?app_assoc;
      first [by eexists|exists []; by rewrite app_nil_r].
  - destruct (checkSeq w Sequence); cbn; [exists []; by rewrite app_nil_r|].
    destruct fa; cbn; [by eexists|exists []; by rewrite app_nil_r].
  - destruct (consensusCtx w); cbn; [by eexists|exists []; by rewrite app_nil_r].
Qed.

(** C8. Callbacks only run for an authenticated provider: whatever the state
    and the libraries' answers, an iteration that calls [OnMessageFn], [OnACKFn]
    or [OnEmptyFn] handles a command from a peer whose keys are those the current
    document lists for the provider, its identity key being the pinned one; if
    the document no longer does, the connection is closed with a protocol error
    and nothing is called. *)
Theorem wire_peer_authenticated fm fa w s env :
  exists es, effects (conn (turn_wire (iteration fm fa w s env))) = effects (conn w) ++ es /\
  (existsb is_callback es = true -> (exists cmd, s = S_command cmd) /\ authenticated env) /\
  (forall cmd cr, s = S_command cmd -> creds env = Some cr -> ~ authenticated env ->
     es = [] /\ exists w', iteration fm fa w s env = Return (Some (ProtocolError NoLongerListed)) w').
Proof.
  assert (forall w0, conn w0 = conn w \/ effects (conn w0) = effects (conn w) ->
    exists es, effects (conn (turn_wire (handle_fetch w0 env))) = effects (conn w) ++ es /\
      existsb is_callback es = false) as Hfetch.
  { intros w0 Hw0. assert (effects (conn w0) = effects (conn w)) as Hw by by destruct Hw0 as [->|].
    unfold handle_fetch. destruct (nrReqs w0 =? nrResps w0); [destruct (sendErr env)|]; cbn; rewrite Hw;
      first [by eexists|exists []; by rewrite app_nil_r]. }
  destruct s as [| |epoch|pkt|cmd|e| | |e]; cbn [Connection.iteration];
    try (exists []; rewrite app_nil_r; by split_and!).
  - destruct (Hfetch w (or_introl eq_refl)) as (es & E & Hes). exists es. rewrite Hes. by split_and!.
  - match goal with |- context [handle_fetch ?w0 _] =>
      destruct (Hfetch w0 (or_intror eq_refl)) as (es & E & Hes) end.
    exists es. rewrite Hes. by split_and!.
  - destruct (consensusCtx w); [|destruct (sendErr env)]; cbn; eexists; by split_and!.
  - destruct (sendErr env); cbn; eexists; by split_and!.
  - unfold handle_received. destruct (creds env) as [cr|] eqn:Ecr;
      [|exists []; rewrite app_nil_r; by split_and!].
    destruct (IsPeerValid (current env) cr _) as [valid c] eqn:Ev.
    pose proof (IsPeerValid_spec env cr _ _ _ Ecr Ev) as Hv. apply effects_IsPeerValid in Ev.
    cbn in Ev. destruct valid; cbn [negb].
    + match goal with |- context [handle_command _ _ _ ?w0 _] =>
        destruct (handle_command_effects fm fa w0 cmd) as [es E] end.
      exists es. rewrite E. cbn. rewrite Ev. split; [done|]. split; [|tauto].
      intros _. split; [by eexists|by apply Hv].
    + exists []. cbn. rewrite Ev, app_nil_r. split; [done|]. split; [done|].
      intros _ _ _ _ _. split; [done|]. by eexists.
Qed.
End WireProperties.

(** ** The connect loop *)

Section ConnectFacts.
Context (GetProvider : Document -> string -> string + MixDescriptor).
Context (Provider : string) (ProviderKeyPin : option bytes).
Context (OnConnFn OnEmptyFn OnMessageFn OnACKFn : bool) (transports : list string).
Context {W : Type} `{ConnEnv W}.
#[local] Abbreviation iteration :=
  (iteration GetProvider Provider ProviderKeyPin OnEmptyFn OnMessageFn OnACKFn).
#[local] Abbreviation wire_loop :=
  (wire_loop GetProvider Provider ProviderKeyPin OnEmptyFn OnMessageFn OnACKFn).
#[local] Abbreviation onWireConn :=
  (onWireConn GetProvider Provider ProviderKeyPin OnConnFn OnEmptyFn OnMessageFn OnACKFn).
#[local] Abbreviation onTCPConn :=
  (onTCPConn GetProvider Provider ProviderKeyPin OnConnFn OnEmptyFn OnMessageFn OnACKFn).
#[local] Abbreviation getDescriptor := (getDescriptor GetProvider Provider ProviderKeyPin).
#[local] Abbreviation IsPeerValid := (IsPeerValid GetProvider Provider ProviderKeyPin).
#[local] Abbreviation dial_addresses :=
  (dial_addresses GetProvider Provider ProviderKeyPin OnConnFn OnEmptyFn OnMessageFn OnACKFn).
#[local] Abbreviation doConnect :=
  (doConnect GetProvider Provider ProviderKeyPin OnConnFn OnEmptyFn OnMessageFn OnACKFn transports).
#[local] Abbreviation connect_tick :=
  (connect_tick GetProvider Provider ProviderKeyPin OnConnFn OnEmptyFn OnMessageFn OnACKFn transports).
#[local] Abbreviation connectWorker :=
  (connectWorker GetProvider Provider ProviderKeyPin OnConnFn OnEmptyFn OnMessageFn OnACKFn transports).

(** The back-off delays, and a log in which every dial waited for one of them. *)
Definition backoff_delay (d : Duration) : Prop :=
  d = 0 \/ d = 2 * Second \/ d = 4 * Second \/ d = 5 * Second.
Definition dial_ok (e : effect) : Prop :=
  match e with Dialed d _ => backoff_delay d | _ => True end.
Record conn_ok (c : connection) : Prop := {
  co_delay : backoff_delay (retryDelay c);
  co_dials : Forall dial_ok (effects c);
}.

Lemma emit_ok c es : conn_ok c -> Forall dial_ok es -> conn_ok (emit c es).
Proof. intros [] ?. split; [done|]. by apply Forall_app. Qed.
Lemma onConn_ok c e : conn_ok c -> conn_ok (onConn OnConnFn c e).
Proof.
  intros Hc. unfold onConn. destruct OnConnFn; [|done]. apply emit_ok; [done|by repeat constructor].
Qed.
Lemma with_descriptor_ok c e d : conn_ok c -> conn_ok (with_descriptor c e d).
Proof. by intros []. Qed.
Lemma with_connected_ok c b f : conn_ok c -> conn_ok (with_connected c b f).
Proof. by intros []. Qed.
Lemma with_retryDelay_ok c d : conn_ok c -> backoff_delay d -> conn_ok (with_retryDelay c d).
Proof. by intros []. Qed.
Lemma onConnStatusChange_ok c e : conn_ok c -> conn_ok (onConnStatusChange OnConnFn c e).
Proof. intros Hc. apply onConn_ok. destruct e; by apply with_connected_ok. Qed.
Lemma getDescriptor_ok doc c r c' : conn_ok c -> getDescriptor doc c = (r, c') -> conn_ok c'.
Proof.
  intros Hc. unfold Connection.getDescriptor. repeat case_match; intros; simplify_eq;
    by apply with_descriptor_ok.
Qed.
Lemma IsPeerValid_ok doc cr c b c' : conn_ok c -> IsPeerValid doc cr c = (b, c') -> conn_ok c'.
Proof.
  intros Hc. unfold Connection.IsPeerValid. destruct (getDescriptor doc c) as [[e|] c1] eqn:E;
    intros [= _ <-]; by eapply getDescriptor_ok.
Qed.
Lemma back_off_ok c : conn_ok c -> conn_ok (back_off c).
Proof.
  intros [Hd He]. apply with_retryDelay_ok; [done|].
  destruct Hd as [->|[->|[->| ->]]]; vm_compute; tauto.
Qed.

Lemma handle_command_ok w cmd :
  conn_ok (conn w) -> conn_ok (conn (turn_wire (handle_command OnEmptyFn OnMessageFn OnACKFn w cmd))).
Proof.
  intros Hc. destruct cmd; cbn; try done.
  - unfold dispatchOnEmpty. destruct (checkSeq w Sequence); [done|].
    destruct OnEmptyFn; [|done]. apply emit_ok; [done|by repeat constructor].
  - unfold dispatchOnEmpty. destruct (checkSeq w Sequence); [done|].
    destruct OnMessageFn, (QueueSizeHint =? 0), OnEmptyFn; cbn; try done;
      repeat apply emit_ok; try done; by repeat constructor.
  - destruct (checkSeq w Sequence); [done|].
    destruct OnACKFn; [|done]. apply emit_ok; [done|by repeat constructor].
  - destruct (consensusCtx w); [|done]. apply emit_ok; [done|by repeat constructor].
Qed.

Lemma handle_fetch_ok w env : conn_ok (conn w) -> conn_ok (conn (turn_wire (handle_fetch w env))).
Proof.
  intros Hc. unfold handle_fetch. destruct (_ =? _); [|done].
  destruct (sendErr env); (apply emit_ok; [done|by repeat constructor]).
Qed.

Lemma iteration_ok w s env :
  conn_ok (conn w) ->
  conn_ok (conn (turn_wire (iteration w s env))) /\
  (forall e w', iteration w s env = Return e w' -> e <> None).
Proof.
  intros Hc. split.
  - destruct s; cbn; try done; try (apply handle_fetch_ok; by try apply with_connected_ok).
    + destruct (consensusCtx w); [|destruct (sendErr env)]; cbn; apply emit_ok; try done;
        by repeat constructor.
    + destruct (sendErr env); cbn; apply emit_ok; try done; by repeat constructor.
    + unfold handle_received. assert (backoff_delay 0) by by left.
      destruct (creds env); [|by apply with_retryDelay_ok].
      destruct (IsPeerValid _ _ _) as [valid c] eqn:Ev.
      apply IsPeerValid_ok in Ev; [|by apply with_retryDelay_ok].
      destruct valid; cbn; [by apply handle_command_ok|done].
  - intros e w'. destruct s; cbn; unfold handle_fetch, handle_received, handle_command, checkSeq;
      repeat case_match; congruence.
Qed.

Lemma wire_loop_ok its w :
  conn_ok (conn w) -> conn_ok (conn (turn_wire (wire_loop w its))) /\
  (forall e w', wire_loop w its = Return e w' -> e <> None).
Proof.
  revert w. induction its as [|[s env] its IH]; intros w Hc; [done|]. cbn.
  destruct (iteration_ok w s env Hc) as [H1 H2]. destruct (iteration w s env) as [w1|e w1].
  - by apply IH.
  - split; [done|]. intros e' w' [= <- <-]. by eapply H2.
Qed.

Lemma onWireConn_ok c its r :
  conn_ok c -> onWireConn c its = Some r -> exists c', r = Ok c' /\ conn_ok c'.
Proof.
  intros Hc. unfold Connection.onWireConn.
  destruct (wire_loop_ok its (wire_init (onConnStatusChange OnConnFn c None))) as [H1 H2];
    [by apply onConnStatusChange_ok|].
  destruct (wire_loop _ its) as [w1|[e|] w1]; cbn in *; [done| |by destruct (H2 None w1)].
  intros [= <-]. eexists. split; [done|]. apply onConnStatusChange_ok.
  destruct (consensusCtx w1); [apply emit_ok; [done|by repeat constructor]|done].
Qed.

Lemma onTCPConn_ok c sc r :
  conn_ok c -> onTCPConn c sc = Some r -> exists c', r = Ok c' /\ conn_ok c'.
Proof.
  intros Hc. destruct sc; cbn; [intros [= <-]; eexists; split; [done|by apply onConn_ok]..|].
  apply onWireConn_ok. apply emit_ok; [done|by repeat constructor].
Qed.

Lemma dial_addresses_ok addrs c w :
  conn_ok c ->
  match dial_addresses addrs c w with
  | D_return e c' _ => e = Some ErrShutdown /\ conn_ok c'
  | D_again c' _ => conn_ok c'
  | D_running => True
  | D_panic => False
  end.
Proof.
  revert c w. induction addrs as [|a addrs IH]; intros c w Hc; cbn; [done|].
  destruct (cenv_halted w) as [[] w1]; [done|].
  assert (conn_ok (back_off (emit c [Dialed (retryDelay c) a]))) as Hc1.
  { apply back_off_ok, emit_ok; [done|]. constructor; [apply Hc|constructor]. }
  destruct (cenv_dial a w1) as [err w2]. destruct (cenv_halted w2) as [[] w3]; [done|].
  destruct err as [e|]; [by apply IH, onConn_ok|].
  destruct (cenv_session w3) as [sc w4].
  destruct (onTCPConn _ sc) as [r|] eqn:E; [|done].
  apply onTCPConn_ok in E as (c' & -> & Hc'); [|done].
  by apply onConnStatusChange_ok.
Qed.

Lemma doConnect_end_ok e c (w w' : W) r :
  conn_ok c -> doConnect_end OnConnFn (Some e) c w = Some (r, w') ->
  exists c', r = Ok c' /\ conn_ok c' /\
    (OnConnFn = true -> last (effects c') = Some (OnConn (Some e))).
Proof.
  intros Hc [= <- _]. eexists. split; [done|]. split; [by apply onConn_ok|].
  unfold onConn. intros ->. cbn. by rewrite last_snoc.
Qed.

Lemma doConnect_ok fuel c (w w' : W) r :
  backoff_delay (retryDelay c) -> Forall dial_ok (effects c) ->
  doConnect fuel c w = Some (r, w') ->
  exists c' e, r = Ok c' /\ backoff_delay (retryDelay c') /\ Forall dial_ok (effects c') /\
    (OnConnFn = true -> last (effects c') = Some (OnConn (Some e))).
Proof.
  intros Hd He. assert (conn_ok c) as Hc by done. clear Hd He.
  enough (doConnect fuel c w = Some (r, w') -> exists c' e, r = Ok c' /\ conn_ok c' /\
    (OnConnFn = true -> last (effects c') = Some (OnConn (Some e)))) as Hen.
  { intros E. destruct (Hen E) as (c' & e & ? & [] & ?). by exists c', e. }
  revert c w Hc. induction fuel as [|fuel IH]; intros c w Hc; [done|]. cbn [Connection.doConnect].
  destruct (cenv_CurrentDocument w) as [doc w1].
  destruct (getDescriptor doc c) as [[e|] c1] eqn:Eg; apply getDescriptor_ok in Eg; try done.
  { intros E. eapply doConnect_end_ok in E as (c' & ? & ? & ?); [by exists c', e|done]. }
  destruct (default [] (candidates transports <$> descriptor c1)) as [|a addrs].
  { intros E. eapply doConnect_end_ok in E as (c' & ? & ? & ?); [by eexists _, _|].
    by apply with_descriptor_ok. }
  pose proof (dial_addresses_ok (a :: addrs) c1 w1 Eg) as Hda.
  destruct (dial_addresses (a :: addrs) c1 w1) as [e c2 w2|c2 w2| |]; try done.
  - destruct Hda as [-> Hc2]. intros E.
    eapply doConnect_end_ok in E as (c' & ? & ? & ?); [by eexists _, _|done].
  - by apply IH.
Qed.

Lemma connect_tick_ok fuel c (w w' : W) r :
  conn_ok c -> connect_tick fuel c w = Some (r, w') -> exists c', r = Ok c' /\ conn_ok c'.
Proof.
  intros Hc. unfold Connection.connect_tick. destruct (Now w) as [[[[now ?] ?] ?] w1].
  destruct (negb (now =? pkiEpoch c)); [|intros [= <- _]; by exists c].
  destruct (cenv_CurrentDocument w1) as [doc w2].
  destruct (getDescriptor doc c) as [[e|] c1] eqn:Eg; apply getDescriptor_ok in Eg; try done.
  - intros [= <- _]. eexists. split; [done|]. by apply onConn_ok.
  - intros E. destruct Eg as [Hd He].
    destruct (doConnect_ok fuel c1 w2 w' r Hd He E) as (c' & e & -> & ? & ? & _).
    exists c'. by split.
Qed.

Lemma connectWorker_ok fuel evs c (w w' : W) r :
  conn_ok c -> connectWorker fuel evs c w = Some (r, w') -> exists c', r = Ok c' /\ conn_ok c'.
Proof.
  revert c w. induction evs as [|[] evs IH]; intros c w Hc; cbn [Connection.connectWorker]; [done| |].
  - destruct (connect_tick fuel c w) as [[r1 w1]|] eqn:E; [|done].
    destruct (connect_tick_ok fuel c w w1 r1 Hc E) as (c1 & -> & Hc1). by apply IH.
  - intros [= <- _]. by exists c.
Qed.

Lemma connectWorker_ends fuel evs c (w w' : W) c' :
  connectWorker fuel evs c w = Some (Ok c', w') -> WorkerHalt ∈ evs.
Proof.
  revert c w. induction evs as [|[] evs IH]; intros c w; cbn [Connection.connectWorker]; [done| |].
  - destruct (connect_tick fuel c w) as [[[c1|e|] w1]|]; [|done..].
    intros E. right. by eapply IH.
  - intros _. by left.
Qed.

(** Once halted, the next round is the last. *)
Lemma doConnect_halted fuel c w :
  (cenv_halted (cenv_CurrentDocument w).2).1 = true -> is_Some (doConnect (S fuel) c w).
Proof.
  intros Hh. cbn [Connection.doConnect]. destruct (cenv_CurrentDocument w) as [doc w1]. cbn in Hh.
  destruct (getDescriptor doc c) as [[e|] c1]; [by eexists|].
  destruct (default [] (candidates transports <$> descriptor c1)) as [|a addrs]; [by eexists|].
  cbn [Connection.dial_addresses]. destruct (cenv_halted w1) as [[] w2]; [by eexists|done].
Qed.

(** C27. The connect loop: whenever it returns, the invariant its deferred function
    asserts holds (it does not panic), the callback has been told the reason last,
    and every dial of the connection's life waited for 0, 2, 4 or 5 seconds; so too for
    the whole of connectWorker, which ends only when it is halted. It retries for ever
    otherwise, but a round that begins when the halt is there returns. *)
Theorem connect_never_panics fuel c (w w' : W) r :
  backoff_delay (retryDelay c) -> Forall dial_ok (effects c) ->
  (doConnect fuel c w = Some (r, w') ->
   exists c' e, r = Ok c' /\ backoff_delay (retryDelay c') /\ Forall dial_ok (effects c') /\
     (OnConnFn = true -> last (effects c') = Some (OnConn (Some e)))) /\
  (forall evs, connectWorker fuel evs c w = Some (r, w') ->
   WorkerHalt ∈ evs /\
   exists c', r = Ok c' /\ backoff_delay (retryDelay c') /\ Forall dial_ok (effects c')) /\
  ((cenv_halted (cenv_CurrentDocument w).2).1 = true -> is_Some (doConnect (S fuel) c w)).
Proof.
  intros Hd He. split; [by apply doConnect_ok|]. split; [|apply doConnect_halted]. intros evs E.
  assert (conn_ok c) as Hc by done. destruct (connectWorker_ok fuel evs c w w' r Hc E) as (c' & -> & Hd' & He').
  split; [by eapply connectWorker_ends|]. by exists c'.
Qed.
End ConnectFacts.

(** ** Witnesses: a provider listed with one-byte keys *)

Definition ex_desc : MixDescriptor :=
  mkDesc "prov" [byte_of_Z 1] [byte_of_Z 2] ∅ {[ "tcp"%string := ["a:1"; "b:2"]%string ]} ∅ None 255.
Definition ex_GetProvider (d : Document) (n : string) : string + MixDescriptor := inr ex_desc.
Definition ex_iter (err : option string) : iteration_env :=
  mkIter 0 err (Some (mkCreds [byte_of_Z 1] [byte_of_Z 2])) (Some (doc_at 3)) 1000.
Definition ex_script : list (selected * iteration_env) :=
  [(S_after, ex_iter None); (S_command (Message 1 0 [byte_of_Z 5]), ex_iter None);
   (S_send [byte_of_Z 7], ex_iter None); (S_fetch, ex_iter None);
   (S_command (MessageACK 1 [byte_of_Z 6] [byte_of_Z 9]), ex_iter None)].
#[local] Abbreviation ex_loop := (wire_loop ex_GetProvider "prov" None true true true).
(** A response nobody asked for. *)
Definition ex_unsolicited : list (selected * iteration_env) :=
  [(S_command (MessageEmpty 0), ex_iter None)].

(** A message and an acknowledgement, their callbacks called the other way round. *)
Lemma wire_delivers_once_witness :
  exists s, reachable (eq (mkDelivering (wire_init newConnection) [] [] []))
      (dl_step ex_GetProvider "prov" None true) s /\
    dl_called s = [(Some [byte_of_Z 6], [byte_of_Z 9]); (None, [byte_of_Z 5])].
Proof.
  destruct (ex_loop (wire_init newConnection) ex_script) as [w|e w] eqn:E;
    [|vm_compute in E; discriminate E].
  destruct (dl_run ex_GetProvider "prov" None true _ _ w [] [] [] E) as (st & Hs).
  set (i := mkDelivering (wire_init newConnection) [] [] []) in *.
  assert (reachable (eq i) (dl_step ex_GetProvider "prov" None true)
    (mkDelivering w ([] ++ ex_script) st [])) as Hr by (exists i; split; [reflexivity|exact Hs]).
  destruct (wire_delivers_once ex_GetProvider "prov" None true newConnection _ Hr)
    as (_ & _ & _ & Hp & H).
  destruct (H [(Some [byte_of_Z 6], [byte_of_Z 9]); (None, [byte_of_Z 5])]) as (s' & Hs' & Hc & _).
  - cbn [dl_started dl_called app] in *. rewrite Hp. vm_compute. apply Permutation_swap.
  - exists s'. split; [|exact Hc]. exists i. split; [reflexivity|by etrans].
Defined.

Lemma wire_fetch_discipline_witness :
  exists w w', ex_loop (wire_init newConnection) ex_unsolicited = Next w /\
    ex_loop w ex_script = Next w' /\ fetches_sent (conn w') = [].
Proof.
  destruct (ex_loop (wire_init newConnection) ex_unsolicited) as [w|e w] eqn:E;
    [|vm_compute in E; discriminate E].
  destruct (ex_loop w [(S_after, ex_iter None); (S_fetch, ex_iter None)]) as [w'|e w'] eqn:E';
    [|vm_compute in E; injection E as <-; vm_compute in E'; discriminate E'].
  destruct (wire_fetch_discipline ex_GetProvider "prov" None true newConnection ex_unsolicited w E)
    as (_ & _ & _ & H).
  assert (fetches_sent (conn w') = fetches_sent (conn w)) as Hf.
  { apply (H ltac:(vm_compute in E; injection E as <-; reflexivity) _ _ E'). }
  vm_compute in E. injection E as <-. eexists _, _. split; [reflexivity|].
  split; [vm_compute; reflexivity|vm_compute; reflexivity].
Defined.

Lemma wire_peer_authenticated_witness :
  authenticated ex_GetProvider "prov" None (ex_iter None).
Proof.
  destruct (wire_peer_authenticated ex_GetProvider "prov" None true true true
    (wire_init newConnection) (S_command (Message 1 0 [byte_of_Z 5])) (ex_iter None)) as (es & E & H & _).
  apply H. vm_compute in E. rewrite <-E. vm_compute. reflexivity.
Defined.

(** A world whose dials fail until it is halted. *)
Definition ex_conn_env : ConnEnv nat := {|
  cenv_PKIClient := {| GetEpoch n := ((4, 1, None), n); GetDoc n _ := (Err ErrNoDocument, n) |};
  cenv_CurrentDocument n := (Some (doc_at 3), n);
  cenv_halted n := (Nat.ltb 12 n, S n);
  cenv_dial _ n := (Some "refused"%string, n);
  cenv_session n := (NewSessionFails "none", n);
|}.

Definition ex_connect : option (outcome Empty_set connection * nat) :=
  doConnect (H:=ex_conn_env) ex_GetProvider "prov" None true true true true ["tcp"%string] 20
    newConnection 0%nat.

Lemma connect_never_panics_witness :
  exists c, fst <$> ex_connect = Some (Ok c) /\ Forall dial_ok (effects c).
Proof.
  destruct ex_connect as [[r w']|] eqn:E; [|vm_compute in E; discriminate E].
  destruct (connect_never_panics (H:=ex_conn_env) ex_GetProvider "prov" None true true true true
    ["tcp"%string] 20 newConnection 0%nat w' r) as [Hd _].
  - left. reflexivity.
  - constructor.
  - destruct (Hd E) as (c & e & -> & _ & H & _). exists c. split; [reflexivity|exact H].
Defined.
