(* ===== verification/Reader.v ===== *)
(** The goroutines of one established connection (onWireConn and onTCPConn of
    minclient/connection.go): the session loop, the peer reader that feeds it over an
    unbuffered channel, the callbacks it starts, the callers of sendPacket and the lock
    they share with it, and how they end. Connection.v has what the loop does with a
    command, Handover.v the answers to the callers; here is who waits for whom when the
    loop returns. *)

From S2P Require Import Prelude GoStd.

(** The loop: in its select; writing a packet and answering its sender; in a write or a
    look at the document that does not return; in its deferred function before the
    [c.Lock()] of onConnStatusChange, in OnConnFn before close(cmdCloseCh), in an OnConnFn
    that does not return, in cbWg.Wait(), before the closing of the connection; returned. *)
Inductive loop_pc :=
  | L_select | L_sending | L_hung
  | L_deferred | L_status | L_status_hung | L_waiting | L_closing | L_returned.
(** The reader: in RecvCommand, in the select with a command, in the send of the error,
    gone. *)
Inductive reader_pc := R_recv | R_offer | R_error | R_gone.
(** The caller of sendPacket that holds the connection's lock, if any: offering its packet
    on sendCh, or with the packet taken and about to unlock. *)
Inductive sender_pc := S_none | S_offering | S_unlocking.

Record RSys := mkRSys {
  loop : loop_pc;
  reader : reader_pc;
  sender : sender_pc;
  callbacks : nat;          (* goroutines counted by cbWg that will return *)
  hung : nat;               (* those that will not *)
  commands : nat;           (* commands the peer still sends *)
  packets : nat;            (* calls of sendPacket still to come *)
  force_close : bool;       (* closeConnCh holds an error *)
  cmd_closed : bool;        (* cmdCloseCh is closed *)
  conn_closed : bool;       (* conn.Close() *)
  told : bool;              (* the loop has received the reader's error *)
}.

Definition rsys_init (n p : nat) : RSys :=
  mkRSys L_select R_recv S_none 0 0 n p false false false false.

Definition set_loop (s : RSys) (l : loop_pc) : RSys :=
  mkRSys l (reader s) (sender s) (callbacks s) (hung s) (commands s) (packets s) (force_close s)
    (cmd_closed s) (conn_closed s) (told s).
Definition set_reader (s : RSys) (r : reader_pc) : RSys :=
  mkRSys (loop s) r (sender s) (callbacks s) (hung s) (commands s) (packets s) (force_close s)
    (cmd_closed s) (conn_closed s) (told s).
Definition set_sender (s : RSys) (x : sender_pc) : RSys :=
  mkRSys (loop s) (reader s) x (callbacks s) (hung s) (commands s) (packets s) (force_close s)
    (cmd_closed s) (conn_closed s) (told s).
Definition set_callbacks (s : RSys) (n h : nat) : RSys :=
  mkRSys (loop s) (reader s) (sender s) n h (commands s) (packets s) (force_close s)
    (cmd_closed s) (conn_closed s) (told s).
Definition set_commands (s : RSys) (n : nat) : RSys :=
  mkRSys (loop s) (reader s) (sender s) (callbacks s) (hung s) n (packets s) (force_close s)
    (cmd_closed s) (conn_closed s) (told s).
Definition set_packets (s : RSys) (n : nat) : RSys :=
  mkRSys (loop s) (reader s) (sender s) (callbacks s) (hung s) (commands s) n (force_close s)
    (cmd_closed s) (conn_closed s) (told s).
Definition set_force (s : RSys) : RSys :=
  mkRSys (loop s) (reader s) (sender s) (callbacks s) (hung s) (commands s) (packets s) true
    (cmd_closed s) (conn_closed s) (told s).
Definition set_cmd_closed (s : RSys) : RSys :=
  mkRSys (loop s) (reader s) (sender s) (callbacks s) (hung s) (commands s) (packets s)
    (force_close s) true (conn_closed s) (told s).
Definition set_conn_closed (s : RSys) : RSys :=
  mkRSys (loop s) (reader s) (sender s) (callbacks s) (hung s) (commands s) (packets s)
    (force_close s) (cmd_closed s) true (told s).
Definition set_told (s : RSys) : RSys :=
  mkRSys (loop s) (reader s) (sender s) (callbacks s) (hung s) (commands s) (packets s)
    (force_close s) (cmd_closed s) (conn_closed s) true.

(** [isConnected], which onConnStatusChange clears under the lock. *)
Definition is_connected (l : loop_pc) : bool :=
  match l with L_select | L_sending | L_hung | L_deferred => true | _ => false end.

(** [hangs]: whether calls of code that the connection does not control (a callback, a
    write to the peer, the minclient's document) may fail to return. A fetch that succeeds
    leaves the state as it is. *)
Inductive rstep (hangs : bool) (s : RSys) : RSys -> Prop :=
  (* the reader *)
  | r_command n : reader s = R_recv -> commands s = S n -> conn_closed s = false ->
      rstep hangs s (set_commands (set_reader s R_offer) n)
  | r_fails : reader s = R_recv -> rstep hangs s (set_reader s R_error)
  | r_cancelled : reader s = R_offer -> cmd_closed s = true -> rstep hangs s (set_reader s R_gone)
  (* the loop takes a command: nothing, a callback, or an error of the protocol *)
  | r_plain : reader s = R_offer -> loop s = L_select -> rstep hangs s (set_reader s R_recv)
  | r_callback : reader s = R_offer -> loop s = L_select ->
      rstep hangs s (set_callbacks (set_reader s R_recv) (S (callbacks s)) (hung s))
  | r_protocol : reader s = R_offer -> loop s = L_select ->
      rstep hangs s (set_loop (set_reader s R_recv) L_deferred)
  (* the loop takes the reader's error *)
  | r_error : reader s = R_error -> loop s = L_select ->
      rstep hangs s (set_told (set_loop (set_reader s R_gone) L_deferred))
  (* a callback returns, with an error for the first of which closeConnCh has room *)
  | r_callback_ok n : callbacks s = S n -> rstep hangs s (set_callbacks s n (hung s))
  | r_callback_fails n : callbacks s = S n -> rstep hangs s (set_force (set_callbacks s n (hung s)))
  | r_callback_hangs n : hangs = true -> callbacks s = S n ->
      rstep hangs s (set_callbacks s n (S (hung s)))
  (* sendPacket: the lock, the rendezvous with the loop, the unlocking, the answer *)
  | r_send_refused n : packets s = S n -> sender s = S_none -> is_connected (loop s) = false ->
      rstep hangs s (set_packets s n)
  | r_send_offers n : packets s = S n -> sender s = S_none -> is_connected (loop s) = true ->
      rstep hangs s (set_sender (set_packets s n) S_offering)
  | r_rendezvous : sender s = S_offering -> loop s = L_select ->
      rstep hangs s (set_loop (set_sender s S_unlocking) L_sending)
  | r_unlock : sender s = S_unlocking -> rstep hangs s (set_sender s S_none)
  | r_sent : loop s = L_sending -> sender s <> S_unlocking -> rstep hangs s (set_loop s L_select)
  | r_send_fails : loop s = L_sending -> sender s <> S_unlocking ->
      rstep hangs s (set_loop s L_deferred)
  (* other returns of the loop: a callback's error; the halt, or a failed fetch *)
  | r_forced : loop s = L_select -> force_close s = true -> rstep hangs s (set_loop s L_deferred)
  | r_ends : loop s = L_select -> rstep hangs s (set_loop s L_deferred)
  | r_loop_hangs : hangs = true -> loop s = L_select \/ loop s = L_sending ->
      rstep hangs s (set_loop s L_hung)
  (* the deferred functions *)
  | r_lock : loop s = L_deferred -> sender s = S_none -> rstep hangs s (set_loop s L_status)
  | r_close_cmd : loop s = L_status -> rstep hangs s (set_cmd_closed (set_loop s L_waiting))
  | r_status_hangs : hangs = true -> loop s = L_status -> rstep hangs s (set_loop s L_status_hung)
  | r_waited : loop s = L_waiting -> callbacks s = 0%nat -> hung s = 0%nat ->
      rstep hangs s (set_loop s L_closing)
  | r_close_conn : loop s = L_closing -> rstep hangs s (set_conn_closed (set_loop s L_returned)).

(** [n] commands and [p] packets. *)
Definition rreaches (hangs : bool) (n p : nat) : RSys -> Prop :=
  reachable (fun s => s = rsys_init n p) (rstep hangs).

Definition past_deferred (l : loop_pc) : bool :=
  match l with L_waiting | L_closing | L_returned => true | _ => false end.
Definition in_loop (l : loop_pc) : bool :=
  match l with L_select | L_sending => true | _ => false end.

Record rsys_ok (hangs : bool) (p : nat) (s : RSys) : Prop := {
  ro_cmd : cmd_closed s = past_deferred (loop s);
  ro_conn : conn_closed s = true <-> loop s = L_returned;
  ro_callbacks : loop s = L_closing \/ loop s = L_returned -> callbacks s = 0%nat /\ hung s = 0%nat;
  ro_gone : reader s = R_gone -> told s = true \/ cmd_closed s = true;
  ro_told : told s = true -> reader s = R_gone /\ in_loop (loop s) = false;
  ro_sender : sender s <> S_none -> is_connected (loop s) = true /\ (packets s < p)%nat;
  ro_packets : (packets s <= p)%nat;
  ro_hung : hangs = false ->
    hung s = 0%nat /\ loop s <> L_hung /\ loop s <> L_status_hung;
}.

Lemma rsys_init_ok hangs n p : rsys_ok hangs p (rsys_init n p).
Proof. by split. Qed.

Lemma rstep_ok hangs p s s' : rsys_ok hangs p s -> rstep hangs s s' -> rsys_ok hangs p s'.
Proof.
  intros [H1 H2 H3 H4 H5 H6 H7 H8] Hs. destruct Hs; destruct s; cbn in *; subst;
    split; cbn in *; intros;
    try solve [done | tauto | lia | congruence | intuition (congruence || lia)].
  all: repeat match goal with H : _ \/ _ |- _ => destruct H end; subst; cbn in *;
    intuition (congruence || lia).
Qed.

Lemma rreaches_ok hangs n p s : rreaches hangs n p s -> rsys_ok hangs p s.
Proof.
  apply reachable_ind_inv; [intros ? ->; apply rsys_init_ok|].
  intros s1 s2 Hok Hs. by eapply rstep_ok.
Qed.

(** ** Every run ends *)

Definition reader_rank (r : reader_pc) : nat :=
  match r with R_offer => 6 | R_recv => 2 | R_error => 1 | R_gone => 0 end.
Definition sender_rank (x : sender_pc) : nat :=
  match x with S_offering => 5 | S_unlocking => 1 | S_none => 0 end.
Definition loop_rank (l : loop_pc) : nat :=
  match l with
  | L_sending => 7 | L_select => 6 | L_deferred => 5 | L_status => 4 | L_waiting => 3
  | L_closing => 2 | L_hung | L_status_hung | L_returned => 1
  end.
Definition rsys_rank (s : RSys) : nat :=
  5 * commands s + 6 * packets s + reader_rank (reader s) + sender_rank (sender s) +
  2 * callbacks s + hung s + loop_rank (loop s).

Lemma rstep_rank hangs s s' : rstep hangs s s' -> (rsys_rank s' < rsys_rank s)%nat.
Proof.
  intros Hs; destruct Hs; destruct s; unfold rsys_rank; cbn in *;
    repeat match goal with H : _ \/ _ |- _ => destruct H end; subst; cbn; lia.
Qed.

(** ** How it ends *)

Definition ended (s : RSys) : Prop :=
  loop s = L_returned /\ callbacks s = 0%nat /\ hung s = 0%nat /\ sender s = S_none /\
  conn_closed s = true /\
  (told s = true /\ reader s = R_gone \/ told s = false /\ (reader s = R_gone \/ reader s = R_error)).

Lemma stuck_reader hangs p s :
  rsys_ok hangs p s -> stuck (rstep hangs) s -> loop s = L_returned ->
  told s = true /\ reader s = R_gone \/ told s = false /\ (reader s = R_gone \/ reader s = R_error).
Proof.
  intros Hok Hst Hl. destruct (told s) eqn:Et; [left; split; [done|apply (ro_told _ _ _ Hok Et)]|right].
  split; [done|]. destruct (reader s) eqn:Er; [| |by right|by left].
  - destruct (Hst _ (r_fails _ s Er)).
  - assert (cmd_closed s = true) as Hc by (by rewrite (ro_cmd _ _ _ Hok), Hl).
    destruct (Hst _ (r_cancelled _ s Er Hc)).
Qed.

Lemma stuck_sender hangs s : stuck (rstep hangs) s -> sender s <> S_unlocking.
Proof. intros Hst E. destruct (Hst _ (r_unlock _ s E)). Qed.

Lemma stuck_returned hangs p s :
  rsys_ok hangs p s -> stuck (rstep hangs) s ->
  ended s \/ loop s = L_deferred /\ sender s = S_offering /\ (0 < p)%nat \/
  hangs = true /\
    (loop s = L_hung \/ loop s = L_status_hung \/ loop s = L_waiting /\ hung s <> 0%nat).
Proof.
  intros Hok Hst. pose proof (stuck_sender _ _ Hst) as Hu.
  assert (hangs = true \/ hangs = false) as Hh by (destruct hangs; auto).
  assert (callbacks s = 0%nat) as Hcb.
  { destruct (callbacks s) as [|n] eqn:E; [done|]. destruct (Hst _ (r_callback_ok _ s n E)). }
  destruct (loop s) eqn:El.
  - destruct (Hst _ (r_ends _ s El)).
  - destruct (Hst _ (r_sent _ s El Hu)).
  - destruct Hh as [|Hh]; [by auto 10|]. by destruct (ro_hung _ _ _ Hok Hh) as (_ & ? & _).
  - right; left. destruct (sender s) eqn:Es; [destruct (Hst _ (r_lock _ s El Es))| |done].
    destruct (ro_sender _ _ _ Hok ltac:(congruence)). split_and!; [done..|lia].
  - destruct (Hst _ (r_close_cmd _ s El)).
  - destruct Hh as [|Hh]; [by auto 10|]. by destruct (ro_hung _ _ _ Hok Hh) as (_ & _ & ?).
  - destruct (hung s) eqn:Eh; [destruct (Hst _ (r_waited _ s El Hcb Eh))|].
    destruct Hh as [|Hh]; [by auto 10|]. destruct (ro_hung _ _ _ Hok Hh). congruence.
  - destruct (Hst _ (r_close_conn _ s El)).
  - left. destruct (ro_callbacks _ _ _ Hok (or_intror El)) as [_ Hhg]. split_and!; try done.
    + destruct (sender s) eqn:Es; [done| |done].
      destruct (ro_sender _ _ _ Hok ltac:(congruence)) as [Hc _]. by rewrite El in Hc.
    + by apply (ro_conn _ _ _ Hok).
    + by eapply stuck_reader.
Qed.

(** Runs, from the steps named. *)
Tactic Notation "go" uconstr(c) := eapply rtc_l; [apply c; done|].

(** A connection ended by a halt while the reader was in RecvCommand. *)
Definition leaked : RSys := mkRSys L_returned R_error S_none 0 0 0 0 false true true false.

Lemma leaked_reached : rreaches false 0 0 leaked.
Proof.
  exists (rsys_init 0 0). split; [done|]. go r_ends. go r_lock. go r_close_cmd. go r_waited.
  go r_close_conn. go r_fails. apply rtc_refl.
Qed.

(** A connection whose peer is gone, which a sender with the lock waits for. *)
Definition locked_out : RSys := mkRSys L_deferred R_gone S_offering 0 0 0 0 false false false true.

Lemma locked_out_reached : rreaches false 0 1 locked_out.
Proof.
  exists (rsys_init 0 1). split; [done|]. go (r_send_offers _ _ 0). go r_fails. go r_error.
  apply rtc_refl.
Qed.

(** C35. An established connection always comes to rest, however commands, callbacks,
    packets and errors are interleaved: every run is finite. When nobody can go on, the
    loop has returned, its callbacks with it, and the TCP connection is closed; except
    that a sender which holds the lock while it offers its packet keeps the loop out of
    onConnStatusChange for ever, and that a callback, a write or a look at the document
    that does not return keeps the loop where it waits for it. So without packets, and if
    those calls return, every connection ends. The reader of one that ended is gone if the
    loop took its error; but a loop that returns for another reason can leave it for ever
    in the send of that error, which has no case for cmdCloseCh. *)
Theorem connection_ends hangs n p :
  well_founded (fun s' s => rstep hangs s s') /\
  (forall s, rreaches hangs n p s -> stuck (rstep hangs) s ->
     (loop s = L_returned /\ callbacks s = 0%nat /\ hung s = 0%nat /\ sender s = S_none /\
      conn_closed s = true /\
      (told s = true /\ reader s = R_gone \/
       told s = false /\ (reader s = R_gone \/ reader s = R_error))) \/
     loop s = L_deferred /\ sender s = S_offering /\ (0 < p)%nat \/
     hangs = true /\
       (loop s = L_hung \/ loop s = L_status_hung \/ loop s = L_waiting /\ hung s <> 0%nat)) /\
  (rreaches false 0 0 leaked /\ stuck (rstep false) leaked /\ reader leaked = R_error) /\
  (rreaches false 0 1 locked_out /\ stuck (rstep false) locked_out /\
   loop locked_out = L_deferred /\ sender locked_out = S_offering).
Proof.
  split_and!.
  - apply (well_founded_lt_compat _ rsys_rank). intros s' s. apply rstep_rank.
  - intros s Hok%rreaches_ok. by apply stuck_returned.
  - exact leaked_reached.
  - intros s' Hs. by inversion Hs.
  - done.
  - exact locked_out_reached.
  - intros s' Hs. by inversion Hs.
  - done.
  - done.
Qed.

Lemma connection_ends_witness : loop leaked = L_returned /\ told leaked = false.
Proof.
  destruct (connection_ends false 0 0) as (_ & H & (Hr & Hs & _) & _).
  destruct (H leaked Hr Hs) as [(Hl & _ & _ & _ & _ & [[E _]|[E _]])|[(E & _)|[E _]]]; [done| |done..].
  split; [exact Hl|exact E].
Defined.
