(* ===== verification/Handover.v ===== *)
(** The hand-over of packets from [sendPacket] to the session loop
    (minclient/connection.go): callers hold the connection's lock while they offer
    a packet on an unbuffered channel, the loop answers through another one and
    takes the lock when its status changes. An interleaving of any number of
    callers with the loop. *)

From S2P Require Import Prelude GoStd PkiClient Connection.

(** The loop: not connected, in its [select], sending for a caller, answering it
    ([errCh <- err]), or returned and about to lock in [onConnStatusChange]. *)
Inductive loop_pc :=
  | L_down
  | L_select
  | L_sending (id : nat)
  | L_reply (id : nat) (err : option conn_error)
  | L_teardown.

(** A caller: before the lock, offering its packet, past the rendezvous but still
    holding the lock, waiting for the answer, returned. *)
Inductive caller_pc :=
  | P_lock
  | P_send
  | P_unlock
  | P_wait
  | P_done (err : option conn_error).

Record HSys := mkHSys {
  lock : option nat;                  (* the caller that holds it *)
  connected : bool;
  loop : loop_pc;
  callers : gmap nat caller_pc;
  sent : list nat;                    (* packets written to the wire *)
}.

Definition hsys_init : HSys := mkHSys None false L_down ∅ [].

Inductive hstep (s : HSys) : HSys -> Prop :=
  | h_call id : callers s !! id = None ->
      hstep s (mkHSys (lock s) (connected s) (loop s) (<[id := P_lock]> (callers s)) (sent s))
  | h_lock id : callers s !! id = Some P_lock -> lock s = None ->
      hstep s (if connected s
        then mkHSys (Some id) true (loop s) (<[id := P_send]> (callers s)) (sent s)
        else mkHSys None false (loop s) (<[id := P_done (Some ErrNotConnected)]> (callers s)) (sent s))
  | h_rendezvous id : callers s !! id = Some P_send -> loop s = L_select ->
      hstep s (mkHSys (lock s) (connected s) (L_sending id) (<[id := P_unlock]> (callers s)) (sent s))
  | h_unlock id : callers s !! id = Some P_unlock ->
      hstep s (mkHSys None (connected s) (loop s) (<[id := P_wait]> (callers s)) (sent s))
  | h_sent id : loop s = L_sending id ->
      hstep s (mkHSys (lock s) (connected s) (L_reply id None) (callers s) (id :: sent s))
  | h_send_fails id e : loop s = L_sending id ->
      hstep s (mkHSys (lock s) (connected s) (L_reply id (Some (ErrWire e))) (callers s) (sent s))
  | h_reply id err : loop s = L_reply id err -> callers s !! id = Some P_wait ->
      hstep s (mkHSys (lock s) (connected s) (match err with None => L_select | Some _ => L_teardown end)
        (<[id := P_done err]> (callers s)) (sent s))
  (** any other return of the loop: halt, receive error, protocol or callback error *)
  | h_close : loop s = L_select ->
      hstep s (mkHSys (lock s) (connected s) L_teardown (callers s) (sent s))
  (** [onConnStatusChange], which needs the lock *)
  | h_teardown : loop s = L_teardown -> lock s = None ->
      hstep s (mkHSys None false L_down (callers s) (sent s))
  | h_connect : loop s = L_down -> lock s = None ->
      hstep s (mkHSys None true L_select (callers s) (sent s)).

(** ** Invariant *)

(** The caller the loop works for. *)
Definition served (l : loop_pc) : option nat :=
  match l with L_sending id | L_reply id _ => Some id | _ => None end.

(** Where a caller may be, given the lock, the loop and the wire. *)
Definition place_ok (lock served : option nat) (sent : list nat) (id : nat) (c : option caller_pc) :
    Prop :=
  match c with
  | None | Some P_lock => served <> Some id /\ id ∉ sent
  | Some P_send => lock = Some id /\ served <> Some id /\ id ∉ sent
  | Some P_unlock => lock = Some id /\ served = Some id
  | Some P_wait => served = Some id
  | Some (P_done None) => served <> Some id /\ id ∈ sent
  | Some (P_done (Some _)) => served <> Some id /\ id ∉ sent
  end.

Definition loop_ok (l : loop_pc) (sent : list nat) : Prop :=
  match l with
  | L_sending id | L_reply id (Some _) => id ∉ sent
  | L_reply id None => id ∈ sent
  | _ => True
  end.

Record hsys_ok (s : HSys) : Prop := {
  ho_places : forall id, place_ok (lock s) (served (loop s)) (sent s) id (callers s !! id);
  ho_loop : loop_ok (loop s) (sent s);
  ho_nodup : NoDup (sent s);
}.

Lemma hsys_ok_init : hsys_ok hsys_init.
Proof. split; cbn; [|done|constructor]. intros id. split; [done|by apply not_elem_of_nil]. Qed.

(** One caller moves; for the others lock, loop and wire change compatibly. *)
Lemma places_insert (m : gmap nat caller_pc) lock lock' sv sv' sent id c :
  (forall i, place_ok lock sv sent i (m !! i)) ->
  place_ok lock' sv' sent id (Some c) ->
  (forall i, i <> id -> lock = Some i -> lock' = Some i) ->
  (forall i, i <> id -> sv = Some i <-> sv' = Some i) ->
  forall i, place_ok lock' sv' sent i (<[id := c]> m !! i).
Proof.
  intros Hp Hid Hl Hs i. destruct (decide (id = i)) as [<-|Hne].
  - by rewrite lookup_insert_eq.
  - rewrite lookup_insert_ne by done. specialize (Hp i).
    specialize (Hl i (not_eq_sym Hne)). specialize (Hs i (not_eq_sym Hne)).
    destruct (m !! i) as [[| | | |[e|]]|]; cbn in *; tauto.
Qed.

Lemma hsys_ok_step s s' : hsys_ok s -> hstep s s' -> hsys_ok s'.
Proof.
  intros [Hp Hl Hn] Hst.
  destruct Hst as [id Hi|id Hi Hlk|id Hi Hlo|id Hi|id Hlo|id e Hlo|id err Hlo Hi|Hlo|Hlo Hlk|Hlo Hlk];
    try (pose proof (Hp id) as Hid; rewrite ?Hi in Hid; cbn in Hid).
  - split; cbn; [|done..]. by eapply places_insert.
  - destruct (connected s); (split; cbn; [|done..]); (eapply places_insert; [exact Hp|..]);
      cbn; try tauto; congruence.
  - rewrite Hlo in *. split; cbn; [|tauto|done].
    eapply places_insert; [exact Hp|cbn; tauto|done|]. cbn. intros i Hne. split; congruence.
  - split; cbn; [|done..]. eapply places_insert; [exact Hp|cbn; tauto| |done].
    intros i Hne. destruct Hid. congruence.
  - rewrite Hlo in *. cbn in Hl, Hp. split; cbn; [|by left|by constructor].
    intros i. specialize (Hp i). destruct (decide (i = id)) as [->|Hne].
    + destruct (callers s !! id) as [[| | | |[e|]]|]; cbn in *; tauto.
    + destruct (callers s !! i) as [[| | | |[e|]]|]; cbn in *;
        rewrite ?not_elem_of_cons, ?elem_of_cons; tauto.
  - rewrite Hlo in *. split; cbn; done.
  - rewrite Hlo in *. cbn in Hl, Hp.
    assert (forall i, i <> id -> Some id = Some i <-> (None : option nat) = Some i) as Hsv
      by (intros i Hne; split; congruence).
    destruct err; cbn in *; (split; cbn; [|done..]); (eapply places_insert; [exact Hp|by cbn|done|exact Hsv]).
  - rewrite Hlo in *. by split.
  - rewrite Hlo, Hlk in *. by split.
  - rewrite Hlo, Hlk in *. by split.
Qed.

Lemma hsys_ok_reachable s : reachable (eq hsys_init) hstep s -> hsys_ok s.
Proof.
  apply reachable_ind_inv; [intros ? <-; apply hsys_ok_init|apply hsys_ok_step].
Qed.

(** ** Properties *)

(** C13. The answer of [sendPacket] is the truth: of any number of concurrent
    callers, one that returned nil has had its packet written to the wire exactly
    once, one that returned an error has not, and no two callers are ever past the
    lock together. *)
Theorem handover_answers_are_true s :
  reachable (eq hsys_init) hstep s ->
  (forall id err, callers s !! id = Some (P_done err) -> (err = None <-> id ∈ sent s)) /\
  NoDup (sent s) /\
  (forall i j, (callers s !! i = Some P_send \/ callers s !! i = Some P_unlock) ->
     (callers s !! j = Some P_send \/ callers s !! j = Some P_unlock) -> i = j).
Proof.
  intros Hr. apply hsys_ok_reachable in Hr as [Hp _ Hn]. split_and!; [|done|].
  - intros id err Hi. specialize (Hp id). rewrite Hi in Hp. cbn in Hp.
    destruct err as [e|]; cbn in Hp; destruct Hp; split; done.
  - intros i j Hi Hj. pose proof (Hp i). pose proof (Hp j).
    destruct Hi as [E1|E1], Hj as [E2|E2]; rewrite E1, E2 in *; cbn in *; naive_solver.
Qed.

(** The loop has returned while a caller offers a packet and holds the lock. *)
Definition deadlocked (s : HSys) (id : nat) : Prop :=
  loop s = L_teardown /\ lock s = Some id /\ callers s !! id = Some P_send.

Lemma deadlocked_step s s' id :
  hsys_ok s -> deadlocked s id -> hstep s s' ->
  deadlocked s' id /\
  (forall i e, callers s' !! i = Some (P_done e) -> callers s !! i = Some (P_done e)).
Proof.
  intros [Hp _ _] (Hlo & Hlk & Hid) Hst.
  destruct Hst as [i Hi|i Hi Hl|i Hi Hl|i Hi|i Hl|i e Hl|i err Hl Hi|Hl|Hl Hl'|Hl Hl']; try congruence.
  - split; [split_and!; cbn; try done; by rewrite lookup_insert_ne by congruence|].
    cbn. intros j e Hj. apply lookup_insert_Some in Hj as [[_ ?]|[_ ?]]; done.
  - exfalso. specialize (Hp i). rewrite Hi in Hp. destruct Hp as [Hp _].
    assert (i = id) as -> by congruence. congruence.
Qed.

(** C40. The hand-over can deadlock: a run exists in which the loop returns (a
    halt, a receive error, ...) while a caller offers its packet; the loop then
    waits for the lock the caller holds and the caller for the loop, forever, and
    no call of [sendPacket] ever returns again. *)
Theorem handover_deadlock :
  (exists s, reachable (eq hsys_init) hstep s /\ deadlocked s 0) /\
  (forall s s' id, reachable (eq hsys_init) hstep s -> deadlocked s id -> rtc hstep s s' ->
     deadlocked s' id /\
     forall i e, callers s' !! i = Some (P_done e) -> callers s !! i = Some (P_done e)).
Proof.
  split.
  - set (m0 := <[0%nat := P_lock]> ∅ : gmap nat caller_pc).
    exists (mkHSys (Some 0%nat) true L_teardown (<[0%nat := P_send]> m0) []).
    split; [|by split_and!].
    eapply reachable_step; [eapply reachable_step; [eapply reachable_step; [eapply reachable_step;
      [by apply reachable_init|]|]|]|].
    + exact (h_connect hsys_init eq_refl eq_refl).
    + exact (h_call (mkHSys None true L_select ∅ []) 0 eq_refl).
    + exact (h_lock (mkHSys None true L_select m0 []) 0 eq_refl eq_refl).
    + exact (h_close (mkHSys (Some 0%nat) true L_select (<[0%nat := P_send]> m0) []) eq_refl).
  - intros s s' id Hr. apply hsys_ok_reachable in Hr. intros Hd Hrtc. revert Hr Hd.
    induction Hrtc as [s|s s1 s' Hs Hrtc IH]; intros Hok Hd; [done|].
    destruct (deadlocked_step _ _ _ Hok Hd Hs) as [Hd1 Hk].
    destruct IH as [Hd' Hk']; [by eapply hsys_ok_step|done|].
    split; [done|]. intros i e Hi. by apply Hk, Hk'.
Qed.

(** ** Witnesses *)

Lemma handover_answers_are_true_witness :
  exists s, callers s !! 0%nat = Some (P_done None) /\ (0%nat ∈ sent s).
Proof.
  set (m0 := <[0%nat := P_lock]> ∅ : gmap nat caller_pc).
  set (m1 := <[0%nat := P_send]> m0). set (m2 := <[0%nat := P_unlock]> m1).
  set (m3 := <[0%nat := P_wait]> m2).
  set (s := mkHSys None true L_select (<[0%nat := P_done None]> m3) [0%nat]).
  exists s. split; [reflexivity|].
  refine (proj1 (proj1 (handover_answers_are_true s _) 0%nat None eq_refl) eq_refl).
  eapply reachable_step; [eapply reachable_step; [eapply reachable_step; [eapply reachable_step;
    [eapply reachable_step; [eapply reachable_step; [eapply reachable_step;
    [apply reachable_init; reflexivity|]|]|]|]|]|]|].
  - exact (h_connect hsys_init eq_refl eq_refl).
  - exact (h_call (mkHSys None true L_select ∅ []) 0 eq_refl).
  - exact (h_lock (mkHSys None true L_select m0 []) 0 eq_refl eq_refl).
  - exact (h_rendezvous (mkHSys (Some 0%nat) true L_select m1 []) 0 eq_refl eq_refl).
  - exact (h_unlock (mkHSys (Some 0%nat) true (L_sending 0) m2 []) 0 eq_refl).
  - exact (h_sent (mkHSys None true (L_sending 0) m3 []) 0 eq_refl).
  - exact (h_reply (mkHSys None true (L_reply 0 None) m3 [0%nat]) 0 None eq_refl eq_refl).
Defined.

Lemma handover_deadlock_witness :
  let m := <[0%nat := P_send]> (<[0%nat := P_lock]> ∅) : gmap nat caller_pc in
  let s' := mkHSys (Some 0%nat) true L_teardown (<[1%nat := P_lock]> m) [] in
  deadlocked s' 0.
Proof.
  intros m s'.
  refine (proj1 (proj2 handover_deadlock (mkHSys (Some 0%nat) true L_teardown m []) s' 0%nat _ _ _)).
  - set (m0 := <[0%nat := P_lock]> ∅ : gmap nat caller_pc).
    eapply reachable_step; [eapply reachable_step; [eapply reachable_step; [eapply reachable_step;
      [apply reachable_init; reflexivity|]|]|]|].
    + exact (h_connect hsys_init eq_refl eq_refl).
    + exact (h_call (mkHSys None true L_select ∅ []) 0 eq_refl).
    + exact (h_lock (mkHSys None true L_select m0 []) 0 eq_refl eq_refl).
    + exact (h_close (mkHSys (Some 0%nat) true L_select (<[0%nat := P_send]> m0) []) eq_refl).
  - repeat split.
  - eapply rtc_l; [|apply rtc_refl].
    exact (h_call (mkHSys (Some 0%nat) true L_teardown m []) 1 eq_refl).
Defined.
