(* ===== verification/Message.v ===== *)
(** The message record of the client (message.go), the events it reports and
    their textual form (events.go). *)

From S2P Require Import Prelude GoStd PkiClient.

(** [SURBID], [Reply] and the queue priority are not set by the code modelled
    here. An error is known through its text. *)
Record Message := mkMessage {
  ID : bytes;
  Recipient : string;
  Provider : string;
  Payload : bytes;
  SentAt : Time;
  ReplyETA : Duration;
  IsBlocking : bool;
  SURBID : option bytes;
  Key : bytes;
  Reply : bytes;
  WithSURB : bool;
  IsDecoy : bool;
  QueuePriority : Z;
}.

Definition Priority (m : Message) : Z := QueuePriority m.

(** A fresh message of the client: the zero value but for these fields. *)
Definition new_Message (id : bytes) (recipient provider : string) (payload : bytes)
    (withSURB isBlocking isDecoy : bool) : Message :=
  mkMessage id recipient provider payload Time_zero 0 isBlocking None [] [] withSURB isDecoy 0.

Definition set_SentAt (m : Message) (t : Time) : Message :=
  mkMessage (ID m) (Recipient m) (Provider m) (Payload m) t (ReplyETA m) (IsBlocking m)
    (SURBID m) (Key m) (Reply m) (WithSURB m) (IsDecoy m) (QueuePriority m).
Definition set_reply (m : Message) (eta : Duration) (key : bytes) : Message :=
  mkMessage (ID m) (Recipient m) (Provider m) (Payload m) (SentAt m) eta (IsBlocking m)
    (SURBID m) key (Reply m) (WithSURB m) (IsDecoy m) (QueuePriority m).

(** ** Events *)

Inductive Event :=
  | ConnectionStatusEvent (IsConnected : bool) (Err : option string)
  | MessageReplyEvent (MessageID : bytes) (Payload : bytes) (Err : option string)
  | MessageSentEvent (MessageID : bytes) (SentAt : Time) (ReplyETA : Duration) (Err : option string)
  | MessageIDGarbageCollected (MessageID : bytes)
  | NewDocumentEvent (Document : Document).

(** [%v] of a bool and of an error. *)
Definition show_bool (b : bool) : string := if b then "true" else "false".
Definition show_err (e : option string) : string := default "<nil>" e.

Definition Event_String (e : Event) : string :=
  match e with
  | ConnectionStatusEvent c err =>
      if negb c then "ConnectionStatus: " +:+ show_bool c +:+ " (" +:+ show_err err +:+ ")"
      else "ConnectionStatus: " +:+ show_bool c
  | MessageReplyEvent id payload err =>
      match err with
      | Some er => "MessageReply: " +:+ hex_EncodeToString id +:+ " failed: " +:+ er
      | None => "KaetzchenReply: " +:+ hex_EncodeToString id +:+ " (" +:+
                pretty (Z.of_nat (length payload)) +:+ " bytes)"
      end
  | MessageSentEvent id _ _ err =>
      match err with
      | Some er => "MessageSent: " +:+ hex_EncodeToString id +:+ " failed: " +:+ er
      | None => "MessageSent: " +:+ hex_EncodeToString id
      end
  | MessageIDGarbageCollected id => "MessageIDGarbageCollected: " +:+ hex_EncodeToString id
  | NewDocumentEvent d => "PKI Document for epoch " +:+ pretty (Epoch d)
  end%string.
