(* ===== verification/Session.v ===== *)
(** The client session (session.go, send.go): composing and queueing messages,
    sending them with and without a SURB, decoys, the replies and their garbage
    collection. Messages are shared by pointer between the egress queue, the SURB
    map and the waiting callers, so they live on a heap and are known by address.
    The minclient, the random source, the clock and the sphinx library are the
    environment. *)

From S2P Require Import Prelude GoStd PkiClient Queue Message.

(** [utils.ServiceDescriptor] *)
Record ServiceDescriptor := mkService { Name : string; ServiceProvider : string }.

(** The minclient's [SendCiphertext] returns a key, a round trip time and an
    error; [rand_Read n] fills an array of [n] bytes or fails; [mrand_Intn] is the
    [Intn] of math/rand. *)
Class SessionEnv (M : Type) := {
  rand_Read : nat -> M -> option bytes * M;
  SendCiphertext : M -> string -> string -> bytes -> bytes -> (bytes * Duration * option string) * M;
  SendUnreliableCiphertext : M -> string -> string -> bytes -> option string * M;
  CurrentDocument : M -> option Document * M;
  time_Now : M -> Time * M;
  mrand_Intn : Z -> M -> Z * M;
}.

Inductive session_error :=
  | ErrPeek | ErrNilMessage | ErrPop
  | ErrSURBID (id : bytes)
  | ErrNoSentWaitChan (id : bytes)
  | ErrLoopService
  | ErrMessageID
  | ErrNilDoc | ErrNoService
  | ErrInvalidSize (n : Z)
  | ErrRand
  | ErrQueue (e : queue_error)
  | ErrNoLoopService
  | ErrReplyTimeout
  | ErrMessageNotSent.

Inductive workerOp :=
  | opConnStatusChanged (isConnected : bool)
  | opNewDocument (doc : Document).

(** What the session sends on its channels, in order. *)
Inductive effect :=
  | SendEvent (e : Event)                        (* eventCh.In() *)
  | SendFatal (e : session_error)                (* fatalErrCh *)
  | SendSentWait (ch : nat) (msg : option nat)   (* sentWaitChan: a message, or closed *)
  | SendReplyWait (ch : nat) (payload : bytes).  (* replyWaitChan *)

Section Session.
Context {M : Type} `{SessionEnv M} {Q : Type} `{EgressQueue Q (option nat)}.
(** Constants of the client and core packages; the sphinx and utils functions;
    from the configuration. *)
Context (MessageIDLength SURBIDLength UserForwardPayloadLength ForwardPayloadLength : nat).
Context (RoundTripTimeSlop : Duration) (LoopService : string).
Context (DecryptSURBPayload : bytes -> bytes -> string + bytes).
Context (FindServices : string -> Document -> list ServiceDescriptor).
Context (DisableDecoyTraffic : bool).

Record Session := mkSession {
  env : M;
  heap : gmap nat Message;
  next_addr : nat;
  egressQueue : Q;
  surbIDMap : gmap bytes nat;
  sentWaitChanMap : gmap bytes nat;
  replyWaitChanMap : gmap bytes nat;
  decoyLoopTally : Z;
  hasPKIDoc : bool;
  opCh : list workerOp;
  effects : list effect;
}.

Definition with_env (s : Session) (e : M) : Session :=
  mkSession e (heap s) (next_addr s) (egressQueue s) (surbIDMap s) (sentWaitChanMap s)
    (replyWaitChanMap s) (decoyLoopTally s) (hasPKIDoc s) (opCh s) (effects s).
Definition with_heap (s : Session) (h : gmap nat Message) (n : nat) : Session :=
  mkSession (env s) h n (egressQueue s) (surbIDMap s) (sentWaitChanMap s)
    (replyWaitChanMap s) (decoyLoopTally s) (hasPKIDoc s) (opCh s) (effects s).
Definition with_queue (s : Session) (q : Q) : Session :=
  mkSession (env s) (heap s) (next_addr s) q (surbIDMap s) (sentWaitChanMap s)
    (replyWaitChanMap s) (decoyLoopTally s) (hasPKIDoc s) (opCh s) (effects s).
Definition with_surbs (s : Session) (m : gmap bytes nat) : Session :=
  mkSession (env s) (heap s) (next_addr s) (egressQueue s) m (sentWaitChanMap s)
    (replyWaitChanMap s) (decoyLoopTally s) (hasPKIDoc s) (opCh s) (effects s).
Definition with_chans (s : Session) (sw rw : gmap bytes nat) : Session :=
  mkSession (env s) (heap s) (next_addr s) (egressQueue s) (surbIDMap s) sw rw
    (decoyLoopTally s) (hasPKIDoc s) (opCh s) (effects s).
Definition with_tally (s : Session) (t : Z) : Session :=
  mkSession (env s) (heap s) (next_addr s) (egressQueue s) (surbIDMap s) (sentWaitChanMap s)
    (replyWaitChanMap s) t (hasPKIDoc s) (opCh s) (effects s).
Definition emit (s : Session) (e : effect) : Session :=
  mkSession (env s) (heap s) (next_addr s) (egressQueue s) (surbIDMap s) (sentWaitChanMap s)
    (replyWaitChanMap s) (decoyLoopTally s) (hasPKIDoc s) (opCh s) (effects s ++ [e]).

(** The literal [&Message{...}]. *)
Definition alloc (s : Session) (m : Message) : nat * Session :=
  (next_addr s, with_heap s (<[next_addr s := m]> (heap s)) (S (next_addr s))).

(** ** Sending *)

(** What [doSend] tells the minclient, and the message as it stands afterwards:
    the sending time, and with a SURB the reply's expected time and key. *)
Definition transmit (e : M) (surbID : bytes) (msg : Message) : option string * Message * M :=
  if WithSURB msg then
    let '((key, eta, err), e) := SendCiphertext e (Recipient msg) (Provider msg) surbID (Payload msg) in
    match err with
    | None => let '(t, e) := time_Now e in (None, set_reply (set_SentAt msg t) eta key, e)
    | Some er => (Some er, msg, e)
    end
  else
    let '(err, e) := SendUnreliableCiphertext e (Recipient msg) (Provider msg) (Payload msg) in
    match err with
    | None => let '(t, e) := time_Now e in (None, set_SentAt msg t, e)
    | Some er => (Some er, msg, e)
    end.

Definition doSend (s : Session) (a : nat) : Session :=
  match heap s !! a with
  | None => s (* not a message of this session *)
  | Some msg =>
      let '(surbID, e) := rand_Read SURBIDLength (env s) in
      match surbID with
      | None => emit (with_env s e) (SendFatal (ErrSURBID (ID msg)))
      | Some surbID =>
          let '(err, msg, e) := transmit e surbID msg in
          let s := with_heap (with_env s e) (<[a := msg]> (heap s)) (next_addr s) in
          let s := match err with
                   | None => if WithSURB msg then with_surbs s (<[surbID := a]> (surbIDMap s)) else s
                   | Some _ => s
                   end in
          if WithSURB msg && IsBlocking msg then
            match sentWaitChanMap s !! ID msg with
            | None => emit s (SendFatal (ErrNoSentWaitChan (ID msg)))
            | Some ch => emit s (SendSentWait ch (match err with None => Some a | Some _ => None end))
            end
          else emit s (SendEvent (MessageSentEvent (ID msg) (SentAt msg) (ReplyETA msg) err))
      end
  end.

Definition sendNext (s : Session) : outcome Empty_set Session :=
  match eq_Peek (egressQueue s) with
  | Err _ => Ok (emit s (SendFatal ErrPeek))
  | Panic => Panic
  | Ok None => Ok (emit s (SendFatal ErrNilMessage))
  | Ok (Some a) =>
      let s := doSend s a in
      match eq_Pop (egressQueue s) with
      | Ok (_, q) => Ok (with_queue s q)
      | Err _ => Ok (emit s (SendFatal ErrPop))
      | Panic => Panic
      end
  end.

Definition GetService (s : Session) (serviceName : string) :
    outcome session_error ServiceDescriptor * Session :=
  let '(doc, e) := CurrentDocument (env s) in
  match doc with
  | None => (Err ErrNilDoc, with_env s e)
  | Some doc =>
      let serviceDescriptors := FindServices serviceName doc in
      if Z.of_nat (length serviceDescriptors) =? 0 then (Err ErrNoService, with_env s e)
      else
        let '(i, e) := mrand_Intn (Z.of_nat (length serviceDescriptors)) e in
        (index serviceDescriptors i, with_env s e)
  end.

(** The zeroed payload of the decoys. *)
Definition zero_payload : bytes := replicate UserForwardPayloadLength (byte_of_Z 0).

(** The common part of the two decoys: [None] when nothing is sent. *)
Definition compose_decoy (s : Session) (withSURB : bool) : outcome Empty_set (option nat * Session) :=
  match GetService s LoopService with
  | (Err _, s) => Ok (None, emit s (SendFatal ErrLoopService))
  | (Panic, _) => Panic
  | (Ok serviceDesc, s) =>
      let '(id, e) := rand_Read MessageIDLength (env s) in
      let s := with_env s e in
      match id with
      | None => Ok (None, emit s (SendFatal ErrMessageID))
      | Some id =>
          let '(a, s) := alloc s (new_Message id (Name serviceDesc) (ServiceProvider serviceDesc)
            zero_payload withSURB false true) in
          Ok (Some a, s)
      end
  end.

Definition sendDropDecoy (s : Session) : outcome Empty_set Session :=
  '(a, s) ← compose_decoy s false;
  mret (match a with Some a => doSend s a | None => s end).

Definition incrementDecoyLoopTally (s : Session) : Session :=
  with_tally s (u64 (decoyLoopTally s + 1)).
Definition decrementDecoyLoopTally (s : Session) : Session :=
  with_tally s (u64 (decoyLoopTally s + (2 ^ 64 - 1))).

(** The tally is incremented whether or not the message was sent. *)
Definition sendLoopDecoy (s : Session) : outcome Empty_set Session :=
  '(a, s) ← compose_decoy s true;
  mret (match a with Some a => incrementDecoyLoopTally (doSend s a) | None => s end).

Definition sendFromQueueOrDecoy (s : Session) : outcome Empty_set Session :=
  match eq_Peek (egressQueue s) with
  | Ok _ => sendNext s
  | Err _ => if negb DisableDecoyTraffic then sendDropDecoy s else Ok s
  | Panic => Panic
  end.

(** ** Composing *)

Definition payload_of (message : bytes) : bytes :=
  copy_into zero_payload (be32 (u32 (Z.of_nat (length message))) ++ message).

Definition composeMessage (s : Session) (recipient provider : string) (message : bytes)
    (isBlocking : bool) : outcome session_error nat * Session :=
  if Z.of_nat UserForwardPayloadLength - 4 <? Z.of_nat (length message) then
    (Err (ErrInvalidSize (Z.of_nat (length message))), s)
  else
    let '(id, e) := rand_Read MessageIDLength (env s) in
    let s := with_env s e in
    match id with
    | None => (Err ErrRand, s)
    | Some id =>
        let '(a, s) := alloc s (new_Message id recipient provider (payload_of message)
          true isBlocking false) in
        (Ok a, s)
    end.

(** The result is the message's ID. *)
Definition SendUnreliableMessage (s : Session) (recipient provider : string) (message : bytes) :
    outcome session_error bytes * Session :=
  match composeMessage s recipient provider message false with
  | (Err e, s) => (Err e, s)
  | (Panic, s) => (Panic, s)
  | (Ok a, s) =>
      match eq_Push (egressQueue s) (Some a) with
      | Err e => (Err (ErrQueue e), s)
      | Panic => (Panic, s)
      | Ok q => (ID <$> deref (heap s !! a), with_queue s q)
      end
  end.

(** [BlockingSendUnreliableMessage] up to its first wait: the message and the two
    channels, known by their numbers; the deferred deletions if the push fails. *)
Definition blocking_start (s : Session) (recipient provider : string) (message : bytes)
    (sentCh replyCh : nat) : outcome session_error nat * Session :=
  match composeMessage s recipient provider message true with
  | (Err e, s) => (Err e, s)
  | (Panic, s) => (Panic, s)
  | (Ok a, s) =>
      match heap s !! a with
      | None => (Panic, s)
      | Some msg =>
          let s := with_chans s (<[ID msg := sentCh]> (sentWaitChanMap s))
                     (<[ID msg := replyCh]> (replyWaitChanMap s)) in
          match eq_Push (egressQueue s) (Some a) with
          | Ok q => (Ok a, with_queue s q)
          | Err e => (Err (ErrQueue e), with_chans s (delete (ID msg) (sentWaitChanMap s))
                        (delete (ID msg) (replyWaitChanMap s)))
          | Panic => (Panic, s)
          end
      end
  end.

(** ** Replies *)

Definition onMessage (s : Session) : Session := s.

(** [onACK] always returns nil; slicing a short plaintext panics. *)
Definition onACK (s : Session) (surbID ciphertext : bytes) : outcome Empty_set Session :=
  match surbIDMap s !! surbID with
  | None => Ok s
  | Some a =>
      let s := with_surbs s (delete surbID (surbIDMap s)) in
      match heap s !! a with
      | None => Panic
      | Some msg =>
          match DecryptSURBPayload ciphertext (Key msg) with
          | inl _ => Ok s
          | inr plaintext =>
              if negb (Z.of_nat (length plaintext) =? Z.of_nat ForwardPayloadLength) then Ok s
              else if WithSURB msg && IsDecoy msg then Ok (decrementDecoyLoopTally s)
              else if IsBlocking msg then
                match replyWaitChanMap s !! ID msg with
                | None => Ok s
                | Some ch => payload ← slice_from plaintext 2; mret (emit s (SendReplyWait ch payload))
                end
              else
                payload ← slice_from plaintext 2;
                mret (emit s (SendEvent (MessageReplyEvent (ID msg) payload None)))
          end
      end
  end.

Definition expired (now : Time) (m : Message) : bool :=
  Time_After now (Time_Add (Time_Add (SentAt m) (ReplyETA m)) RoundTripTimeSlop).

(** The body of the range function; the clock is read for each entry. *)
Definition collect (s : Session) (x : bytes * nat) : Session :=
  match heap s !! x.2 with
  | None => s
  | Some message =>
      let '(t, e) := time_Now (env s) in
      let s := with_env s e in
      if expired t message then
        emit (with_surbs s (delete x.1 (surbIDMap s)))
          (SendEvent (MessageIDGarbageCollected (ID message)))
      else s
  end.
Definition garbageCollect (s : Session) : Session :=
  foldl collect s (map_to_list (surbIDMap s)).

(** ** Callbacks of the minclient *)

(** [opCh] holds eight operations; a callback that finds it full blocks. *)
Definition op_send (s : Session) (op : workerOp) : option Session :=
  if Z.of_nat (length (opCh s)) <? 8 then
    Some (mkSession (env s) (heap s) (next_addr s) (egressQueue s) (surbIDMap s)
      (sentWaitChanMap s) (replyWaitChanMap s) (decoyLoopTally s) (hasPKIDoc s)
      (opCh s ++ [op]) (effects s))
  else None.

Definition onConnection (s : Session) (err : option string) : option Session :=
  let connected := match err with None => true | Some _ => false end in
  op_send (emit s (SendEvent (ConnectionStatusEvent connected err))) (opConnStatusChanged connected).

Definition onDocument (s : Session) (doc : Document) : option Session :=
  let s := mkSession (env s) (heap s) (next_addr s) (egressQueue s) (surbIDMap s)
    (sentWaitChanMap s) (replyWaitChanMap s) (decoyLoopTally s) true (opCh s) (effects s) in
  s ← op_send s (opNewDocument doc);
  Some (emit s (SendEvent (NewDocumentEvent doc))).

(** Every provider must run the loop service. *)
Definition isDocValid (doc : Document) : option session_error :=
  if forallb (fun p => bool_decide (is_Some (Kaetzchen p !! LoopService))) (Providers doc)
  then None else Some ErrNoLoopService.
End Session.
Arguments Session : clear implicits.

(** [ValidateReply] (client.go). *)
Definition ValidateReply (reply : bytes) : outcome string bytes :=
  header ← slice reply 0 4;
  realLen ← BigEndian_Uint32 header;
  if Z.of_nat (length reply) <? realLen + 4 then Err "reply len error"%string
  else slice_from reply 4.

(** ** Facts *)

Section SessionFacts.
Context {M : Type} `{SessionEnv M} {Q : Type} `{EgressQueueLaws Q (option nat)}.
Context (MessageIDLength SURBIDLength UserForwardPayloadLength ForwardPayloadLength : nat).
Context (RoundTripTimeSlop : Duration).
Context (DecryptSURBPayload : bytes -> bytes -> string + bytes).
#[local] Abbreviation doSend := (doSend SURBIDLength).
#[local] Abbreviation sendNext := (sendNext SURBIDLength).
#[local] Abbreviation SendUnreliableMessage := (SendUnreliableMessage MessageIDLength UserForwardPayloadLength).
#[local] Abbreviation payload_of := (payload_of UserForwardPayloadLength).
#[local] Abbreviation onACK := (onACK ForwardPayloadLength DecryptSURBPayload).

Lemma payload_of_eq m :
  (length m + 4 <= UserForwardPayloadLength)%nat ->
  payload_of m = be32 (u32 (Z.of_nat (length m))) ++ m ++
    replicate (UserForwardPayloadLength - 4 - length m) (byte_of_Z 0).
Proof.
  intros Hm. unfold Session.payload_of, zero_payload.
  rewrite copy_into_le by (rewrite length_app, length_be32, length_replicate; lia).
  rewrite length_app, length_be32, drop_replicate, <-app_assoc. do 3 f_equal. lia.
Qed.

(** What sending a message does to the environment. *)
Definition sends (e : M) (msg : Message) : M :=
  match rand_Read SURBIDLength e with
  | (None, e) => e
  | (Some x, e) => (transmit e x msg).2
  end.

Lemma doSend_frame (s : Session M Q) a msg :
  heap s !! a = Some msg ->
  env (doSend s a) = sends (env s) msg /\ egressQueue (doSend s a) = egressQueue s /\
  next_addr (doSend s a) = next_addr s /\
  (forall b, b <> a -> heap (doSend s a) !! b = heap s !! b).
Proof.
  intros Ha. unfold Session.doSend, sends. rewrite Ha.
  destruct (rand_Read SURBIDLength (env s)) as [[x|] e]; [|done].
  destruct (transmit e x msg) as [[err msg'] e'] eqn:Et.
  assert (WithSURB msg' = WithSURB msg) as Hw.
  { unfold transmit in Et. repeat case_match; simplify_eq/=; congruence. }
  destruct (WithSURB msg' && IsBlocking msg'), err, (WithSURB msg'); cbn;
    repeat (case_match; cbn); split_and!; try done; intros b Hb; by rewrite lookup_insert_ne.
Qed.

(** ** The queue of a session *)

(** Calls of [SendUnreliableMessage], and [n] sends of the worker. *)
Fixpoint send_messages (s : Session M Q) (reqs : list (string * string * bytes)) :
    list (outcome session_error bytes) * Session M Q :=
  match reqs with
  | [] => ([], s)
  | (r, p, m) :: reqs =>
      let '(x, s) := SendUnreliableMessage s r p m in
      let '(xs, s) := send_messages s reqs in (x :: xs, s)
  end.

Fixpoint send_next_n (n : nat) (s : Session M Q) : outcome Empty_set (Session M Q) :=
  match n with
  | O => Ok s
  | S n => s ← sendNext s; send_next_n n s
  end.

(** The queued messages: addresses of distinct messages of the heap. *)
Record queued (s : Session M Q) (addrs : list nat) (msgs : list Message) : Prop := {
  qd_wf : eq_wf (egressQueue s);
  qd_view : eq_view (egressQueue s) = Some <$> addrs;
  qd_nodup : NoDup addrs;
  qd_heap : Forall2 (fun a m => heap s !! a = Some m) addrs msgs;
  qd_fresh : forall a, is_Some (heap s !! a) -> (a < next_addr s)%nat;
}.

Lemma heap_keep (h h' : gmap nat Message) addrs msgs :
  (forall b, b ∈ addrs -> h' !! b = h !! b) ->
  Forall2 (fun a m => h !! a = Some m) addrs msgs ->
  Forall2 (fun a m => h' !! a = Some m) addrs msgs.
Proof.
  intros Hk Hh. induction Hh as [|a m addrs msgs Ha Hh IH]; constructor.
  - rewrite Hk by by left. done.
  - apply IH. intros b Hb. apply Hk. by right.
Qed.

Lemma sendNext_head s a addrs m msgs :
  queued s (a :: addrs) (m :: msgs) ->
  exists q, sendNext s = Ok (with_queue (doSend s a) q) /\ eq_wf q /\ eq_view q = Some <$> addrs.
Proof.
  intros [Hw Hv _ Hh _]. apply Forall2_cons in Hh as [Ha _].
  destruct (doSend_frame s a m Ha) as (_ & Hq & _).
  unfold Session.sendNext. rewrite (eq_Peek_law _ Hw), Hv. cbn. rewrite Hq.
  pose proof (eq_Pop_law _ Hw) as Hp. rewrite Hv in Hp. cbn in Hp.
  destruct (eq_Pop (egressQueue s)) as [[y q]|er|] eqn:Eq; try done. cbn in Hp.
  injection Hp as -> Hvq. exists q. split_and!; [done|by eapply eq_Pop_wf|done].
Qed.

Lemma sendNext_queued s a addrs m msgs :
  queued s (a :: addrs) (m :: msgs) ->
  exists s', sendNext s = Ok s' /\ queued s' addrs msgs /\ env s' = sends (env s) m.
Proof.
  intros Hs. destruct (sendNext_head _ _ _ _ _ Hs) as (q & E & Hwq & Hvq).
  destruct Hs as [Hw Hv Hn Hh Hf]. apply Forall2_cons in Hh as [Ha Hh].
  apply NoDup_cons in Hn as [Hna Hn].
  destruct (doSend_frame s a m Ha) as (He & Hq & Hx & Hb).
  eexists. split; [done|]. cbn. split; [|done]. split; cbn; try done.
  - eapply heap_keep; [|exact Hh]. intros b Hbin. apply Hb. by intros ->.
  - intros b Hb'. rewrite Hx. destruct (decide (b = a)) as [->|Hne]; [by apply Hf; eauto|].
    rewrite Hb in Hb' by done. by apply Hf.
Qed.

Lemma send_next_n_queued s addrs msgs :
  queued s addrs msgs ->
  exists s', send_next_n (length addrs) s = Ok s' /\ eq_view (egressQueue s') = [] /\
    env s' = foldl sends (env s) msgs.
Proof.
  revert s msgs. induction addrs as [|a addrs IH]; intros s msgs Hq.
  - exists s. pose proof (qd_heap _ _ _ Hq) as Hh. apply Forall2_nil_inv_l in Hh as ->.
    split_and!; [done|by rewrite (qd_view _ _ _ Hq)|done].
  - pose proof (qd_heap _ _ _ Hq) as Hh. destruct msgs as [|m msgs]; [by inv Hh|].
    destruct (sendNext_queued _ _ _ _ _ Hq) as (s1 & E & Hq1 & He).
    destruct (IH _ _ Hq1) as (s' & E' & Hv & He'). exists s'. cbn. rewrite E. cbn.
    split_and!; [done..|]. by rewrite He', He.
Qed.

(** A request as it is queued. *)
Definition composed (req : string * string * bytes) (m : Message) : Prop :=
  exists id, m = new_Message id req.1.1 req.1.2 (payload_of req.2) true false false.

Lemma SendUnreliableMessage_queued s r p m addrs msgs :
  queued s addrs msgs -> (length addrs < eq_cap)%nat ->
  (length m + 4 <= UserForwardPayloadLength)%nat ->
  (forall n e, is_Some (rand_Read n e).1) ->
  exists msg s', SendUnreliableMessage s r p m = (Ok (ID msg), s') /\ composed (r, p, m) msg /\
    queued s' (addrs ++ [next_addr s]) (msgs ++ [msg]).
Proof.
  intros [Hw Hv Hn Hh Hf] Hcap Hm Hr.
  unfold Session.SendUnreliableMessage, composeMessage.
  destruct (Z.ltb_spec (Z.of_nat UserForwardPayloadLength - 4) (Z.of_nat (length m))); [lia|].
  pose proof (Hr MessageIDLength (env s)) as [id Hid].
  destruct (rand_Read MessageIDLength (env s)) as [x e]. cbn in Hid. subst x.
  cbn [alloc]. set (msg := new_Message id r p (payload_of m) true false false).
  cbn [egressQueue with_heap with_env heap next_addr].
  pose proof (eq_Push_law (egressQueue s) (Some (next_addr s)) Hw) as Hp.
  unfold spec_Push in Hp. rewrite Hv, decide_False in Hp by (rewrite length_fmap; lia).
  destruct (eq_Push (egressQueue s) (Some (next_addr s))) as [q|er|] eqn:Eq; try done.
  cbn in Hp. injection Hp as Hvq.
  assert (next_addr s ∉ addrs) as Hna.
  { intros Hin. apply list_elem_of_lookup in Hin as [i Hi].
    destruct (Forall2_lookup_l _ _ _ _ _ Hh Hi) as (m' & _ & Hm').
    specialize (Hf (next_addr s) ltac:(eauto)). lia. }
  eexists msg, _. cbn [heap with_queue with_heap]. rewrite lookup_insert_eq. split; [reflexivity|].
  split; [by exists id|].
  split; cbn.
  - by eapply eq_Push_wf.
  - by rewrite Hvq, fmap_app.
  - apply NoDup_app. split_and!; [done| |by apply NoDup_singleton].
    intros b Hb Hb'. apply list_elem_of_singleton in Hb' as ->. done.
  - apply Forall2_app; [|by repeat constructor; rewrite lookup_insert_eq].
    eapply heap_keep; [|exact Hh]. intros b Hb. apply lookup_insert_ne. intros E. by rewrite E in Hna.
  - intros a Ha. destruct (decide (next_addr s = a)) as [<-|Hne]; [lia|].
    rewrite lookup_insert_ne in Ha by done. apply Hf in Ha. lia.
Qed.

Lemma send_messages_queued s reqs addrs msgs :
  queued s addrs msgs -> (length addrs + length reqs <= eq_cap)%nat ->
  Forall (fun req => (length req.2 + 4 <= UserForwardPayloadLength)%nat) reqs ->
  (forall n e, is_Some (rand_Read n e).1) ->
  exists addrs' msgs', queued (send_messages s reqs).2 (addrs ++ addrs') (msgs ++ msgs') /\
    length addrs' = length reqs /\
    (send_messages s reqs).1 = (fun m => Ok (ID m)) <$> msgs' /\ Forall2 composed reqs msgs'.
Proof.
  intros Hq Hcap Hs Hr. revert s addrs msgs Hq Hcap.
  induction Hs as [|[[r p] m] reqs Hm Hs IH]; intros s addrs msgs Hq Hcap; cbn.
  { exists [], []. rewrite !app_nil_r. by split_and!. }
  cbn in Hcap, Hm.
  destruct (SendUnreliableMessage_queued s r p m _ _ Hq ltac:(lia) Hm Hr)
    as (msg & s1 & -> & Hc & Hq1).
  destruct (IH _ _ _ Hq1) as (addrs' & msgs' & Hq' & Hl & He & Hf).
  { rewrite length_app. cbn. lia. }
  destruct (send_messages s1 reqs) as [xs s']. cbn in *.
  exists (next_addr s :: addrs'), (msg :: msgs'). rewrite <-!app_assoc in Hq'. cbn in Hq'.
  split_and!; [done|cbn; lia|by rewrite He|by constructor].
Qed.
(** ** Requests and replies *)

(** The session after message [a], composed without blocking, was sent under the SURB
    identifier [x] at time [t]. *)
Definition sent_with (s : Session M Q) (a : nat) (msg : Message) (x key : bytes) (eta : Duration)
    (t : Time) (e : M) : Session M Q :=
  emit (with_surbs (with_heap (with_env s (time_Now e).2)
      (<[a := set_reply (set_SentAt msg t) eta key]> (heap s)) (next_addr s))
      (<[x := a]> (surbIDMap s)))
    (SendEvent (MessageSentEvent (ID msg) t eta None)).

Lemma doSend_surb (s : Session M Q) a msg x e1 key eta e2 :
  heap s !! a = Some msg -> WithSURB msg = true -> IsBlocking msg = false ->
  rand_Read SURBIDLength (env s) = (Some x, e1) ->
  SendCiphertext e1 (Recipient msg) (Provider msg) x (Payload msg) = ((key, eta, None), e2) ->
  exists t, doSend s a = sent_with s a msg x key eta t e2.
Proof.
  intros Ha Hw Hb Er Es. unfold Session.doSend, sent_with. rewrite Ha, Er. unfold transmit.
  rewrite Hw, Es. destruct (time_Now e2) as [t e3]. exists t. cbn. by rewrite Hw, Hb.
Qed.

Lemma doSend_failed (s : Session M Q) a msg x e1 key eta er e2 :
  heap s !! a = Some msg -> WithSURB msg = true -> IsBlocking msg = false ->
  rand_Read SURBIDLength (env s) = (Some x, e1) ->
  SendCiphertext e1 (Recipient msg) (Provider msg) x (Payload msg) = ((key, eta, Some er), e2) ->
  effects (doSend s a) =
    effects s ++ [SendEvent (MessageSentEvent (ID msg) (SentAt msg) (ReplyETA msg) (Some er))] /\
  surbIDMap (doSend s a) = surbIDMap s.
Proof.
  intros Ha Hw Hb Er Es. unfold Session.doSend. rewrite Ha, Er. unfold transmit.
  rewrite Hw, Es. cbn. by rewrite Hw, Hb.
Qed.

Lemma SendUnreliableMessage_frame (s : Session M Q) r p m :
  effects (SendUnreliableMessage s r p m).2 = effects s /\
  surbIDMap (SendUnreliableMessage s r p m).2 = surbIDMap s.
Proof.
  unfold Session.SendUnreliableMessage, composeMessage. destruct (_ <? _); [done|].
  destruct (rand_Read _ _) as [[id|] e]; [|done]. cbn. by case_match.
Qed.

(** A reply for a remembered message that was not sent to wait for it. *)
Lemma onACK_reply (s : Session M Q) x a msg ct p :
  surbIDMap s !! x = Some a -> heap s !! a = Some msg -> IsBlocking msg = false ->
  IsDecoy msg = false -> DecryptSURBPayload ct (Key msg) = inr p ->
  length p = ForwardPayloadLength -> (2 <= ForwardPayloadLength)%nat ->
  exists s', onACK s x ct = Ok s' /\
    effects s' = effects s ++ [SendEvent (MessageReplyEvent (ID msg) (drop 2 p) None)] /\
    surbIDMap s' = delete x (surbIDMap s).
Proof.
  intros Hx Ha Hb Hd Ep Hp Hf. unfold Session.onACK. rewrite Hx. cbn. rewrite Ha, Ep, Hp, Z.eqb_refl.
  rewrite Hd, Hb, andb_false_r. cbn. rewrite slice_from_Ok by lia. cbn. by eexists.
Qed.

(** [ValidateReply] on an echo, with whatever follows it. *)
Lemma ValidateReply_payload m rest :
  (length m + 4 <= UserForwardPayloadLength)%nat -> Z.of_nat UserForwardPayloadLength < 2 ^ 32 ->
  ValidateReply (payload_of m ++ rest)
  = Ok (m ++ replicate (UserForwardPayloadLength - 4 - length m) (byte_of_Z 0) ++ rest).
Proof.
  intros Hm Hu. rewrite payload_of_eq, u32_small, <-!app_assoc by (unfold is_u32; lia).
  unfold ValidateReply. rewrite slice_Ok by (rewrite length_app, length_be32; lia).
  cbn [mbind outcome_bind]. rewrite drop_0, take_app_length' by (by rewrite length_be32).
  pose proof (be32_roundtrip (E:=string) (Z.of_nat (length m)) [] ltac:(unfold is_u32; lia)) as Hb.
  rewrite app_nil_r in Hb. rewrite Hb. cbn [mbind outcome_bind].
  rewrite (proj2 (Z.ltb_ge _ _)) by (rewrite !length_app, length_be32; lia).
  rewrite slice_from_Ok by (rewrite length_app, length_be32; lia).
  by rewrite drop_app_length' by (by rewrite length_be32).
Qed.
End SessionFacts.

(** ** Properties *)

Section SessionProperties.
Context {M : Type} `{SessionEnv M} {Q : Type} `{EgressQueueLaws Q (option nat)}.
Context (MessageIDLength SURBIDLength UserForwardPayloadLength ForwardPayloadLength : nat).
Context (RoundTripTimeSlop : Duration).
Context (DecryptSURBPayload : bytes -> bytes -> string + bytes).
#[local] Abbreviation doSend := (doSend SURBIDLength).
#[local] Abbreviation payload_of := (payload_of UserForwardPayloadLength).
#[local] Abbreviation onACK := (onACK ForwardPayloadLength DecryptSURBPayload).

(** C3. Messages leave in order: on a session with an empty queue, requests that
    fit the queue and the payload are all accepted, each with the ID of its
    message; as many sends of the worker then hand to the minclient exactly these
    messages, first come first served, each with the length and the bytes of its
    request, and leave the queue empty. *)
Theorem session_sends_in_order (s : Session M Q) (reqs : list (string * string * bytes)) :
  queued s [] [] -> (length reqs <= eq_cap)%nat ->
  Forall (fun req => (length req.2 + 4 <= UserForwardPayloadLength)%nat) reqs ->
  (forall n e, is_Some (rand_Read n e).1) -> Z.of_nat UserForwardPayloadLength < 2 ^ 32 ->
  let '(rs, s1) := send_messages MessageIDLength UserForwardPayloadLength s reqs in
  exists msgs s2, rs = (fun m => Ok (ID m)) <$> msgs /\
    Forall2 (fun req m => Recipient m = req.1.1 /\ Provider m = req.1.2 /\
      Payload m = be32 (Z.of_nat (length req.2)) ++ req.2 ++
        replicate (UserForwardPayloadLength - 4 - length req.2) (byte_of_Z 0) /\
      WithSURB m = true) reqs msgs /\
    send_next_n SURBIDLength (length reqs) s1 = Ok s2 /\
    env s2 = foldl (sends SURBIDLength) (env s1) msgs /\ eq_view (egressQueue s2) = [].
Proof.
  intros Hq Hcap Hs Hr Hu.
  destruct (send_messages_queued MessageIDLength UserForwardPayloadLength s reqs [] [] Hq Hcap Hs Hr) as (addrs & msgs & Hq' & Hl & Hrs & Hc).
  destruct (send_messages _ _ s reqs) as [rs s1]. cbn in Hq', Hrs.
  destruct (send_next_n_queued SURBIDLength s1 addrs msgs Hq') as (s2 & E & Hv & He).
  exists msgs, s2. rewrite <-Hl. split_and!; [done| |done..].
  clear -Hc Hs Hu. induction Hc as [|req m reqs msgs (id & ->) Hc IH]; constructor;
    apply Forall_cons in Hs as [Hm Hs]; [|by apply IH].
  cbn. split_and!; try done. rewrite payload_of_eq by done.
  rewrite u32_small by (unfold is_u32; lia). done.
Qed.

(** C2. A request is answered once: a message sent with a SURB is remembered
    under the SURB's identifier; the first reply for that identifier that decrypts
    to a payload of the right size is reported with the message's ID and without
    the two flag bytes, and forgets the identifier; repeated replies do nothing. *)
Theorem session_request_reply (s : Session M Q) a msg x e1 key eta e2 :
  heap s !! a = Some msg -> WithSURB msg = true -> IsBlocking msg = false -> IsDecoy msg = false ->
  (2 <= ForwardPayloadLength)%nat ->
  rand_Read SURBIDLength (env s) = (Some x, e1) ->
  SendCiphertext e1 (Recipient msg) (Provider msg) x (Payload msg) = ((key, eta, None), e2) ->
  let s1 := doSend s a in
  surbIDMap s1 = <[x := a]> (surbIDMap s) /\
  (exists t, effects s1 = effects s ++ [SendEvent (MessageSentEvent (ID msg) t eta None)]) /\
  forall ct p, DecryptSURBPayload ct key = inr p -> length p = ForwardPayloadLength ->
    exists s2, onACK s1 x ct = Ok s2 /\
      effects s2 = effects s1 ++ [SendEvent (MessageReplyEvent (ID msg) (drop 2 p) None)] /\
      surbIDMap s2 = delete x (surbIDMap s) /\
      forall ct', onACK s2 x ct' = Ok s2.
Proof.
  intros Ha Hw Hb Hd Hf Er Es s1.
  destruct (doSend_surb SURBIDLength s a msg x e1 key eta e2 Ha Hw Hb Er Es) as [t E].
  subst s1. rewrite E. cbn. split; [done|]. split; [by exists t|]. intros ct p Ep Hp.
  destruct (onACK_reply ForwardPayloadLength DecryptSURBPayload (sent_with s a msg x key eta t e2) x a
    (set_reply (set_SentAt msg t) eta key) ct p) as (s2 & -> & He & Hm); try done.
  { cbn. by rewrite lookup_insert_eq. }
  { cbn. by rewrite lookup_insert_eq. }
  exists s2. cbn in Hm. rewrite Hm, He, delete_insert_eq. split_and!; try done.
  intros ct'. unfold Session.onACK. by rewrite Hm, delete_insert_eq, lookup_delete_eq.
Qed.

(** What a reader of an echo gets: [ValidateReply] of the payload composed for
    a message returns the message followed by the padding up to the payload's
    length, not the message alone; and a reply shorter than its length field is an
    error, or a panic below four bytes. *)
Theorem validate_reply_keeps_padding (m : bytes) (reply : bytes) :
  ((length m + 4 <= UserForwardPayloadLength)%nat -> Z.of_nat UserForwardPayloadLength < 2 ^ 32 ->
   ValidateReply (payload_of m)
   = Ok (m ++ replicate (UserForwardPayloadLength - 4 - length m) (byte_of_Z 0))) /\
  (is_ok (ValidateReply reply) = true -> (4 <= length reply)%nat) /\
  ((length reply < 4)%nat -> ValidateReply reply = Panic).
Proof.
  split; [|split].
  - intros Hm Hu. pose proof (ValidateReply_payload UserForwardPayloadLength m [] Hm Hu) as E.
    by rewrite !app_nil_r in E.
  - unfold ValidateReply, slice. case_decide; [lia|done].
  - intros Hl. unfold ValidateReply, slice. by rewrite decide_False by lia.
Qed.
End SessionProperties.

(** ** Garbage collection *)

Section GarbageCollection.
Context {M : Type} `{SessionEnv M} {Q : Type} `{EgressQueue Q (option nat)}.
Context (RoundTripTimeSlop : Duration).
#[local] Abbreviation collect := (collect RoundTripTimeSlop).
#[local] Abbreviation garbageCollect := (garbageCollect RoundTripTimeSlop).
#[local] Abbreviation expired := (expired RoundTripTimeSlop).
(** The clock stays between two instants. *)
Context (P : M -> Prop) (t1 t2 : Time).
Context (HP : forall e, P e -> t1 <= (time_Now e).1 <= t2 /\ P (time_Now e).2).

(** The message of an entry, and the event of its collection. *)
Definition entry_msg (s : Session M Q) (x : bytes * nat) (m : Message) : Prop :=
  heap s !! x.2 = Some m.
Definition gc_event (s : Session M Q) (x : bytes * nat) : option effect :=
  (fun m => SendEvent (MessageIDGarbageCollected (ID m))) <$> heap s !! x.2.

Lemma expired_mono t t' m : t <= t' -> expired t m = true -> expired t' m = true.
Proof. unfold Session.expired, Time_After. rewrite !Z.ltb_lt. lia. Qed.

Lemma collect_spec (s : Session M Q) x m :
  P (env s) -> entry_msg s x m ->
  let s' := collect s x in
  P (env s') /\ heap s' = heap s /\
  ((expired t2 m = true /\ surbIDMap s' = delete x.1 (surbIDMap s) /\
    effects s' = effects s ++ option_list (gc_event s x)) \/
   (expired t1 m = false /\ surbIDMap s' = surbIDMap s /\ effects s' = effects s)).
Proof.
  unfold entry_msg. intros He Hm. cbn zeta. unfold Session.collect, gc_event. rewrite Hm.
  destruct (HP _ He) as [Ht Hp]. destruct (time_Now (env s)) as [t e]. cbn in Ht, Hp.
  destruct (expired t m) eqn:Ex; cbn; (split; [done|]; split; [done|]).
  - left. split; [|done]. eapply expired_mono; [|exact Ex]. lia.
  - right. split; [|done]. apply not_true_iff_false. intros E1.
    apply (expired_mono t1 t) in E1; [congruence|lia].
Qed.

Lemma collect_all (l : list (bytes * nat)) (s : Session M Q) :
  P (env s) -> Forall (fun x => is_Some (heap s !! x.2)) l ->
  exists gone, let s' := foldl collect s l in
    gone ⊆+ l /\ effects s' = effects s ++ omap (gc_event s) gone /\
    (forall k, surbIDMap s' !! k = if decide (k ∈ gone.*1) then None else surbIDMap s !! k) /\
    (forall x m, x ∈ gone -> entry_msg s x m -> expired t2 m = true) /\
    (forall x m, x ∈ l -> entry_msg s x m -> expired t1 m = true -> x ∈ gone).
Proof.
  revert s. induction l as [|x l IH]; intros s He Hl; cbn.
  { exists []. rewrite app_nil_r. split_and!; try done; intros x m Hx; by apply elem_of_nil in Hx. }
  apply Forall_cons in Hl as [[m Hm] Hl].
  destruct (collect_spec s x m He Hm) as (He' & Hh & Hc).
  assert (forall y, gc_event (collect s x) y = gc_event s y) as Hev
    by (intros y; unfold gc_event; by rewrite Hh).
  destruct (IH (collect s x) He') as (gone & Hsub & Heff & Hmap & Hg1 & Hg2); [by rewrite Hh|].
  rewrite (list_omap_ext _ (gc_event s) gone gone) in Heff by (apply Forall2_same_length_lookup_2; [done|congruence]).
  destruct Hc as [(Hx & Hs & Hef)|(Hx & Hs & Hef)].
  - exists (x :: gone). split_and!; [by apply submseteq_skip| | | |].
    + rewrite Heff, Hef, <-app_assoc. f_equal. cbn. by destruct (gc_event s x).
    + intros k. rewrite Hmap, Hs, fmap_cons. destruct (decide (k = x.1)) as [->|Hne].
      * rewrite lookup_delete_eq. rewrite (decide_True (P:=x.1 ∈ x.1 :: _)) by by left. by destruct (decide _).
      * rewrite lookup_delete_ne by done. apply decide_ext. rewrite elem_of_cons. tauto.
    + intros y m' [->|Hy]%elem_of_cons Hm'; [unfold entry_msg in Hm'; congruence|].
      eapply Hg1; [done|]. unfold entry_msg. by rewrite Hh.
    + intros y m' [->|Hy]%elem_of_cons Hm' Ex; [by left|right].
      eapply Hg2; [done| |done]. unfold entry_msg. by rewrite Hh.
  - exists gone. rewrite Hef in Heff. rewrite Hs in Hmap. split_and!; [by apply submseteq_cons|done|done| |].
    + intros y m' Hy Hm'. eapply Hg1; [done|]. unfold entry_msg. by rewrite Hh.
    + intros y m' [->|Hy]%elem_of_cons Hm' Ex; [unfold entry_msg in Hm'; congruence|].
      eapply Hg2; [done| |done]. unfold entry_msg. by rewrite Hh.
Qed.

(** C28. Garbage collection is exact: in a pass during which the clock goes from
    [t1] to [t2], every SURB whose reply was overdue at [t1] is forgotten, none is
    that was not overdue at [t2], and one event is emitted for each forgotten
    SURB, with the ID of its message. *)
Theorem garbage_collection_exact (s : Session M Q) :
  P (env s) -> (forall x a, surbIDMap s !! x = Some a -> is_Some (heap s !! a)) ->
  exists gone, effects (garbageCollect s) = effects s ++ omap (gc_event s) gone /\
    NoDup gone.*1 /\ length (omap (gc_event s) gone) = length gone /\
    forall x a m, surbIDMap s !! x = Some a -> heap s !! a = Some m ->
      (expired t1 m = true -> surbIDMap (garbageCollect s) !! x = None /\ (x, a) ∈ gone) /\
      (expired t2 m = false ->
         surbIDMap (garbageCollect s) !! x = Some a /\ (x, a) ∉ gone).
Proof.
  intros He Hh. unfold Session.garbageCollect.
  destruct (collect_all (map_to_list (surbIDMap s)) s He) as (gone & Hsub & Heff & Hmap & Hg1 & Hg2).
  { apply Forall_forall. intros [x a] Hx. apply elem_of_map_to_list in Hx. by eapply Hh. }
  assert (forall x a, (x, a) ∈ gone -> surbIDMap s !! x = Some a) as Hin.
  { intros x a Hx. apply elem_of_map_to_list. by eapply elem_of_submseteq. }
  exists gone. split; [done|]. split; [|split].
  - assert (gone.*1 ⊆+ (map_to_list (surbIDMap s)).*1) as Hs1 by by apply fmap_submseteq.
    apply submseteq_Permutation in Hs1 as [k Hk].
    pose proof (NoDup_fst_map_to_list (surbIDMap s)) as Hnd. rewrite Hk in Hnd.
    by apply NoDup_app in Hnd as [? _].
  - assert (forall x, x ∈ gone -> is_Some (gc_event s x)) as Hev.
    { intros [x a] Hx. apply Hin, Hh in Hx as [m Hm]. unfold gc_event. cbn. by rewrite Hm. }
    clear -Hev. induction gone as [|x gone IH]; [done|]. cbn.
    destruct (Hev x) as [e ->]; [by left|]. cbn. f_equal. apply IH. intros y Hy. apply Hev. by right.
  - intros x a m Hx Hm. split; intros Ex.
    + assert ((x, a) ∈ gone) as Hgone.
      { eapply (Hg2 (x, a) m); [by apply elem_of_map_to_list|done|done]. }
      split; [|done]. rewrite Hmap, decide_True; [done|]. apply list_elem_of_fmap. by exists (x, a).
    + assert ((x, a) ∉ gone) as Hgone.
      { intros Hi. apply (Hg1 (x, a) m) in Hi; [congruence|done]. }
      split; [|done]. rewrite Hmap, decide_False; [done|]. intros Hi.
      apply list_elem_of_fmap in Hi as ([y b] & -> & Hi). cbn in *.
      pose proof (Hin _ _ Hi). congruence.
Qed.
End GarbageCollection.

(** ** Witnesses: the ring queue, and a minclient that accepts everything *)

Definition ex_env : SessionEnv nat := {|
  rand_Read n e := (Some (replicate n (byte_of_Z (Z.of_nat e))), S e);
  SendCiphertext e _ _ _ _ := (([byte_of_Z 9], 5 * Second, None), S e);
  SendUnreliableCiphertext e _ _ _ := (None, S e);
  CurrentDocument e := (Some (doc_at 3), e);
  time_Now e := (100 * Second, e);
  mrand_Intn _ e := (0, e);
|}.
#[local] Existing Instance ex_env.
Definition ex_queue : EgressQueue (Queue nat) (option nat) := Queue_EgressQueue 4 0%nat.
#[local] Existing Instance ex_queue.
Definition ex_queue_laws : EgressQueueLaws (Queue nat) (option nat) :=
  Queue_EgressQueueLaws 4 0%nat ltac:(lia).
#[local] Existing Instance ex_queue_laws.

Definition ex_session : Session nat (Queue nat) :=
  mkSession 0%nat ∅ 0 (new_Queue 4) ∅ ∅ ∅ 0 false [] [].
Definition ex_reqs : list (string * string * bytes) :=
  [("a", "p", [byte_of_Z 1]); ("b", "p", [byte_of_Z 2; byte_of_Z 3])]%string.

(** Decryption that strips the key, for payloads of ten bytes. *)
Definition ex_decrypt (ct key : bytes) : string + bytes := inr ct.

Lemma session_sends_in_order_witness :
  exists msgs s2, send_next_n 2 2 (send_messages 2 8 ex_session ex_reqs).2 = Ok s2 /\
    Forall2 (fun req m => Recipient m = req.1.1 /\ Provider m = req.1.2 /\
      Payload m = be32 (Z.of_nat (length req.2)) ++ req.2 ++
        replicate (8 - 4 - length req.2) (byte_of_Z 0) /\
      WithSURB m = true) ex_reqs msgs.
Proof.
  assert (queued ex_session [] []) as Hq.
  { split; try reflexivity; [apply wf_new; lia|constructor|constructor|].
    intros a [m Hm]. cbn in Hm. by rewrite lookup_empty in Hm. }
  pose proof (session_sends_in_order 2 2 8 ex_session ex_reqs Hq
    ltac:(vm_compute; repeat constructor) ltac:(repeat constructor) ltac:(intros n e; by eexists)
    ltac:(reflexivity)) as Hp.
  destruct (send_messages 2 8 ex_session ex_reqs) as [rs s1].
  destruct Hp as (msgs & s2 & _ & Hm & E & _). exists msgs, s2. exact (conj E Hm).
Defined.

Lemma session_request_reply_witness :
  let msg := new_Message [byte_of_Z 1] "a" "p" [] true false false in
  let s := with_heap ex_session {[ 0%nat := msg ]} 1 in
  exists s2, onACK 4 ex_decrypt (doSend 2 s 0) (replicate 2 (byte_of_Z 0)) (replicate 4 (byte_of_Z 6))
      = Ok s2 /\
    effects s2 = [SendEvent (MessageSentEvent [byte_of_Z 1] (100 * Second) (5 * Second) None);
                  SendEvent (MessageReplyEvent [byte_of_Z 1] (replicate 2 (byte_of_Z 6)) None)].
Proof.
  intros msg s.
  destruct (session_request_reply 2 4 ex_decrypt s 0%nat msg (replicate 2 (byte_of_Z 0)) 1%nat
    [byte_of_Z 9] (5 * Second) 2%nat) as (_ & _ & Hr); try reflexivity; [lia|].
  destruct (Hr (replicate 4 (byte_of_Z 6)) (replicate 4 (byte_of_Z 6)) eq_refl eq_refl)
    as (s2 & E & He & _).
  exists s2. split; [exact E|]. rewrite He. vm_compute. reflexivity.
Defined.

Lemma validate_reply_keeps_padding_witness :
  ValidateReply (payload_of 8 [byte_of_Z 7]) = Ok [byte_of_Z 7; byte_of_Z 0; byte_of_Z 0; byte_of_Z 0].
Proof.
  exact (proj1 (validate_reply_keeps_padding 8 [byte_of_Z 7] []) ltac:(cbn; lia) ltac:(lia)).
Defined.

(** One reply overdue, one not. *)
Definition ex_gc_message (n : Z) : Message :=
  set_reply (set_SentAt (new_Message [byte_of_Z n] "a" "p" [] true false false) (n * Second))
    Second [].
Definition ex_gc_session : Session nat (Queue nat) :=
  with_surbs
    (with_heap ex_session (<[0%nat := ex_gc_message 1]> {[ 1%nat := ex_gc_message 99 ]}) 2)
    (<[[byte_of_Z 1] := 0%nat]> {[ [byte_of_Z 2] := 1%nat ]}).

Lemma garbage_collection_exact_witness :
  surbIDMap (garbageCollect (3 * Second) ex_gc_session) !! [byte_of_Z 1] = None /\
  surbIDMap (garbageCollect (3 * Second) ex_gc_session) !! [byte_of_Z 2] = Some 1%nat.
Proof.
  destruct (garbage_collection_exact (3 * Second) (fun _ => True) (100 * Second) (100 * Second)
    ltac:(intros e _; cbn; split; [split; reflexivity|exact I]) ex_gc_session I) as (gone & _ & _ & _ & Hx).
  - intros x a E. unfold ex_gc_session in *. cbn in E |- *.
    apply lookup_insert_Some in E as [[_ <-]|[_ E]]; [by eexists|].
    apply lookup_singleton_Some in E as [_ <-]. by eexists.
  - assert (surbIDMap ex_gc_session !! [byte_of_Z 1] = Some 0%nat) as S1 by reflexivity.
    assert (surbIDMap ex_gc_session !! [byte_of_Z 2] = Some 1%nat) as S2 by reflexivity.
    assert (heap ex_gc_session !! 0%nat = Some (ex_gc_message 1)) as H1 by reflexivity.
    assert (heap ex_gc_session !! 1%nat = Some (ex_gc_message 99)) as H2 by reflexivity.
    split.
    + exact (proj1 (proj1 (Hx _ _ _ S1 H1) eq_refl)).
    + exact (proj1 (proj2 (Hx _ _ _ S2 H2) eq_refl)).
Defined.
