(* ===== verification/EndToEnd.v ===== *)
(** From the application to a service and back: the session (session.go, send.go) over
    the packet composition of the minclient (minclient/send.go, path.go), the network
    between them being the sphinx library's promise. The pieces are those of Session.v
    and Compose.v; here they are put together. *)

From S2P Require Import Prelude GoStd PkiClient Queue Path Compose Message Session.

(** What a session uses besides the minclient: the two random sources. *)
Class HostEnv (W : Type) := {
  host_send :: SendEnv W;
  host_rand_Read : nat -> W -> option bytes * W;
  host_Intn : Z -> W -> Z * W;
}.

(** ** The minclient as the session's environment *)

Section Minclient.
Context {W : Type} `{HostEnv W}.
Context (LayerProvider : Z) (NodeIDLength RecipientIDLength SURBIDLength SURBLength
  UserForwardPayloadLength : nat).
Context (GetProvider : Document -> string -> string + MixDescriptor).
Context (User Provider : string) (fuel : nat) (Error : compose_error -> string).

(** What the session is told. A loop that does not end tells it nothing and a panic ends
    the program; the text stands for both, so that the session's functions are total. No
    theorem takes it for an error of the code: C1 has the call of the minclient behind
    every error, and [SendCiphertext_answers] that with fuel beyond the redone iterations
    there is neither. *)
Definition no_answer : string := "no answer".

Definition surb_answer (r : option (outcome Empty_set (option bytes * Duration * option compose_error))) :
    bytes * Duration * option string :=
  match r with
  | Some (Ok (k, rtt, e)) => (default [] k, rtt, Error <$> e)
  | _ => ([], 0, Some no_answer)
  end.
Definition plain_answer (r : option (outcome compose_error unit)) : option string :=
  match r with
  | Some (Ok _) => None
  | Some (Err e) => Some (Error e)
  | _ => Some no_answer
  end.

Definition minclient : SessionEnv W := {|
  Session.rand_Read := host_rand_Read;
  Session.SendCiphertext w recipient provider surbID b :=
    let '(r, w) := Compose.SendCiphertext LayerProvider NodeIDLength RecipientIDLength SURBIDLength
                     SURBLength UserForwardPayloadLength GetProvider User Provider fuel w recipient
                     provider (Some surbID) b in
    (surb_answer r, w);
  Session.SendUnreliableCiphertext w recipient provider b :=
    let '(r, w) := Compose.SendUnreliableCiphertext LayerProvider NodeIDLength RecipientIDLength
                     SURBIDLength SURBLength UserForwardPayloadLength GetProvider User Provider fuel w
                     recipient provider b in
    (plain_answer r, w);
  Session.CurrentDocument := Compose.CurrentDocument;
  Session.time_Now := Compose.time_Now;
  Session.mrand_Intn := host_Intn;
|}.
End Minclient.

(** ** The network *)

(** What the nodes of a route make of a packet: the route and the payload it delivers, the
    route a SURB is for, and the ciphertext that a payload sent with a SURB has become
    when it reaches the user. *)
Class Mixnet := {
  unwrap : bytes -> option (list PathHop * bytes);
  surb_path : bytes -> option (list PathHop);
  seal : bytes -> bytes -> bytes;
}.

(** The sphinx library is correct: packets deliver their payload along their route, SURBs
    have one size and their key opens what was sent with them. *)
Class MixnetLaws (W : Type) `{SendEnv W, Mixnet} (SURBLength ForwardPayloadLength : nat)
    (DecryptSURBPayload : bytes -> bytes -> string + bytes) := {
  unwrap_law : forall p b (w : W) pkt, (NewPacket p b w).1 = inr pkt -> unwrap pkt = Some (p, b);
  surb_law : forall p (w : W) surb k, (NewSURB p w).1 = inr (surb, k) ->
    length surb = SURBLength /\ surb_path surb = Some p /\
    forall b, length b = ForwardPayloadLength -> DecryptSURBPayload (seal surb b) k = inr b;
}.

(** The identifier under which the last node of a reply's route hands it to the user. *)
Definition surb_ids (h : PathHop) : list bytes :=
  omap (fun c => match c with SURBReply id => Some id | _ => None end) (Commands h).
Definition ack_id (p : list PathHop) : option bytes := h ← last p; head (surb_ids h).

(** The way of a packet through the network to a service and of its answer to the user:
    after the flag bytes a payload begins with the SURB. *)
Definition round_trip `{Mixnet} (SURBLength : nat) (service : bytes -> bytes) (pkt : bytes) :
    option (bytes * bytes) :=
  '(_, payload) ← unwrap pkt;
  let b := drop 2 payload in
  rev ← surb_path (take SURBLength b);
  id ← ack_id rev;
  Some (id, seal (take SURBLength b) (service (drop SURBLength b))).

(** ** Properties *)

Lemma path_for_ack_id n m k recipient x e ds p :
  path_for n m k recipient (Some x) false e ds p -> ack_id p = Some (array_of k x).
Proof.
  induction 1 as [d key delay Hk|d key delay ds p Hk Hds Hp IH]; [done|].
  unfold ack_id in *. rewrite last_cons. destruct (last p); [exact IH|done].
Qed.

Lemma array_of_exact n x : length x = n -> array_of n x = x.
Proof.
  intros Hx. unfold array_of. rewrite copy_into_le by (rewrite length_replicate; lia).
  rewrite drop_ge by (rewrite length_replicate; lia). by rewrite app_nil_r.
Qed.

Section EndToEnd.
Context {W : Type} `{HostEnv W} (LayerProvider : Z).
Context (MessageIDLength NodeIDLength RecipientIDLength SURBIDLength SURBLength
  UserForwardPayloadLength ForwardPayloadLength : nat).
Context (GetProvider : Document -> string -> string + MixDescriptor).
Context `{!SendEnvLaws W LayerProvider GetProvider}.
Context (DecryptSURBPayload : bytes -> bytes -> string + bytes).
Context `{Mixnet, !MixnetLaws W SURBLength ForwardPayloadLength DecryptSURBPayload}.
Context (User Provider : string) (fuel : nat) (Error : compose_error -> string).
Context {Q : Type} `{EgressQueueLaws Q (option nat)}.

#[local] Instance session_minclient : SessionEnv W :=
  minclient LayerProvider NodeIDLength RecipientIDLength SURBIDLength SURBLength
    UserForwardPayloadLength GetProvider User Provider fuel Error.
#[local] Abbreviation on_route := (on_route NodeIDLength RecipientIDLength SURBIDLength GetProvider).
#[local] Abbreviation round_trip := (round_trip SURBLength).

(** With fuel beyond the redone iterations the minclient does answer. *)
Lemma SendCiphertext_answers n (w : W) recipient provider x b :
  delays_fit -> (n < fuel)%nat ->
  straddles LayerProvider NodeIDLength RecipientIDLength SURBIDLength GetProvider User Provider
    (after LayerProvider NodeIDLength RecipientIDLength SURBIDLength SURBLength GetProvider User
       Provider n w recipient provider x b) recipient provider x = false ->
  exists k rtt e, (Compose.SendCiphertext LayerProvider NodeIDLength RecipientIDLength SURBIDLength
    SURBLength UserForwardPayloadLength GetProvider User Provider fuel w recipient provider x b).1 =
    Some (Ok (k, rtt, e)).
Proof.
  intros Hfit Hn Hs. unfold Compose.SendCiphertext.
  destruct (ComposeSphinxPacket_returns LayerProvider NodeIDLength RecipientIDLength SURBIDLength
    SURBLength UserForwardPayloadLength GetProvider User Provider n fuel w recipient provider x b
    Hfit Hn Hs) as (r & Er & Hr).
  destruct (ComposeSphinxPacket _ _ _ _ _ _ _ _ _ _ w recipient provider x b) as [r' w1].
  cbn in Er. subst r'. destruct r as [[[pkt k] rtt]|e|]; [|by do 3 eexists|done].
  destruct (sendPacket pkt w1). by do 3 eexists.
Qed.

(** An error that the session is told is the minclient's own, or its call does not
    return. *)
Lemma SendCiphertext_fails (w w' : W) recipient provider x b key eta er :
  SendCiphertext w recipient provider x b = ((key, eta, Some er), w') ->
  let call := (Compose.SendCiphertext LayerProvider NodeIDLength RecipientIDLength SURBIDLength
    SURBLength UserForwardPayloadLength GetProvider User Provider fuel w recipient provider
    (Some x) b).1 in
  (exists k rtt ce, call = Some (Ok (k, rtt, Some ce)) /\ er = Error ce) \/
  call = None \/ call = Some Panic.
Proof.
  intros E call. cbn in E. unfold call. clear call.
  destruct (Compose.SendCiphertext _ _ _ _ _ _ _ _ _ _ w recipient provider (Some x) b) as [r w1].
  injection E as E _. cbn [fst]. destruct r as [[[[k rtt] [ce|]]|[]|]|]; cbn in E; auto; try done.
  left. injection E as _ _ <-. eauto.
Qed.

(** A packet that the minclient reports as sent with a SURB, on its way and back. *)
Lemma SendCiphertext_round_trip (w w' : W) recipient provider x b key eta service :
  length x = SURBIDLength ->
  SendCiphertext w recipient provider x b = ((key, eta, None), w') ->
  length b = UserForwardPayloadLength /\ 0 <= eta < 2 * TestPeriod /\
  exists pkt w1 fwd payload surb,
    sendPacket pkt w1 = (None, w') /\ unwrap pkt = Some (fwd, payload) /\
    (exists doc, on_route doc recipient (Some x) true Provider provider fwd) /\
    round_trip service pkt = Some (x, seal surb (service b)) /\
    (forall c, length c = ForwardPayloadLength -> DecryptSURBPayload (seal surb c) key = inr c).
Proof.
  intros Hx E. cbn in E. unfold Compose.SendCiphertext in E.
  destruct (ComposeSphinxPacket _ _ _ _ _ _ _ _ _ _ w recipient provider (Some x) b)
    as [[[[[pkt k] rtt]|e|]|] w1] eqn:Ec; cbn in E; try done.
  apply ComposeSphinxPacket_ok in Ec as (_ & Hb & fwd & rev & Hfwd & (doc & Hrev) & Hpkt & _ & Hrtt); [|exact _].
  destruct (sendPacket pkt w1) as [[e|] w2] eqn:Es; [done|]. cbn in E. injection E as <- <- <-.
  split; [done|]. split; [done|].
  destruct Hpkt as (wp & payload & Hp & ws & surb & key0 & Hs & -> & ->).
  destruct (surb_law _ _ _ _ Hs) as (Hl & Hsp & Hdec). pose proof (unwrap_law _ _ _ _ Hp) as Hu.
  exists pkt, w1, fwd, ([byte_of_Z 1; byte_of_Z 0] ++ surb ++ b), surb. split_and!; try done.
  unfold EndToEnd.round_trip. rewrite Hu. cbn [mbind option_bind drop app].
  rewrite drop_0, take_app_length', drop_app_length', Hsp by done. cbn [mbind option_bind].
  destruct Hrev as (_ & src & dst & picks & e & _ & _ & _ & Hpf).
  rewrite (path_for_ack_id _ _ _ _ _ _ _ _ Hpf), (array_of_exact _ _ Hx). done.
Qed.

(** C1. A request and its answer, end to end. On a session with an empty queue a message
    that fits is accepted, and the worker's next send either fails with the minclient's
    error (or has not come out of the composing loop, or panicked there), of which the
    application is told, with no SURB remembered, or hands the connection a packet that
    leads by a route from the user's provider to the recipient; the service there gets the
    length, the bytes and the padding of this message, and its answer, which the network
    returns under the identifier of the SURB in the packet, is reported to the application
    under the ID it was given, without the two flag bytes; the SURB is then forgotten.
    [ValidateReply] of an echo is the message with the padding. *)
Theorem request_round_trip (s : Session W Q) recipient provider message service :
  queued s [] [] -> (0 < eq_cap)%nat ->
  (length message + 4 <= UserForwardPayloadLength)%nat -> Z.of_nat UserForwardPayloadLength < 2 ^ 32 ->
  (forall n w, exists x, (host_rand_Read n w).1 = Some x /\ length x = n) ->
  let padding := replicate (UserForwardPayloadLength - 4 - length message) (byte_of_Z 0) in
  let request := be32 (Z.of_nat (length message)) ++ message ++ padding in
  length (service request) = ForwardPayloadLength -> (2 <= ForwardPayloadLength)%nat ->
  let answer := drop 2 (service request) in
  exists id s1 s2 t eta err,
    SendUnreliableMessage MessageIDLength UserForwardPayloadLength s recipient provider message =
      (Ok id, s1) /\
    sendNext SURBIDLength s1 = Ok s2 /\
    effects s2 = effects s ++ [SendEvent (MessageSentEvent id t eta err)] /\
    match err with
    | Some e =>
        surbIDMap s2 = surbIDMap s /\
        exists w x, let call := (Compose.SendCiphertext LayerProvider NodeIDLength RecipientIDLength
            SURBIDLength SURBLength UserForwardPayloadLength GetProvider User Provider fuel w
            recipient provider (Some x) request).1 in
          (exists k rtt ce, call = Some (Ok (k, rtt, Some ce)) /\ e = Error ce) \/
          call = None \/ call = Some Panic
    | None =>
        0 <= eta < 2 * TestPeriod /\
        exists pkt w w' fwd payload x ct s3,
          sendPacket pkt w = (None, w') /\ env s2 = (time_Now w').2 /\
          unwrap pkt = Some (fwd, payload) /\
          (exists doc, on_route doc recipient (Some x) true Provider provider fwd) /\
          round_trip service pkt = Some (x, ct) /\
          onACK ForwardPayloadLength DecryptSURBPayload s2 x ct = Ok s3 /\
          effects s3 = effects s2 ++ [SendEvent (MessageReplyEvent id answer None)] /\
          surbIDMap s3 = delete x (surbIDMap s)
    end /\
    forall rest, answer = request ++ rest -> ValidateReply answer = Ok (message ++ padding ++ rest).
Proof.
  intros Hq Hcap Hm Hu Hrand padding request Hs Hf answer.
  assert (request = payload_of UserForwardPayloadLength message) as Hreq.
  { by rewrite payload_of_eq, u32_small by (unfold is_u32; lia). }
  destruct (SendUnreliableMessage_queued MessageIDLength UserForwardPayloadLength s recipient provider
    message [] [] Hq Hcap Hm) as (msg & s1 & E1 & [id ->] & Hq1).
  { intros n w. destruct (Hrand n w) as (x & Ex & _). cbn. rewrite Ex. by eexists. }
  pose proof (SendUnreliableMessage_frame MessageIDLength UserForwardPayloadLength s recipient provider
    message) as [He1 Hm1]. rewrite E1 in He1, Hm1. cbn [snd] in He1, Hm1.
  destruct (sendNext_head SURBIDLength _ _ _ _ _ Hq1) as (q & E2 & _ & _).
  apply qd_heap in Hq1. apply Forall2_cons in Hq1 as [Ha _].
  destruct (Hrand SURBIDLength (env s1)) as (x & Ex & Hx).
  destruct (host_rand_Read SURBIDLength (env s1)) as [x' e1] eqn:Er. cbn in Ex. subst x'.
  destruct (SendCiphertext e1 recipient provider x request) as [[[key eta] err] e2] eqn:Es.
  pose proof Es as Es'. rewrite Hreq in Es'. destruct err as [er|].
  - destruct (doSend_failed (H:=session_minclient) SURBIDLength s1 _ _ x e1 key eta er e2 Ha eq_refl eq_refl Er Es')
      as [He2 Hm2].
    eexists _, s1, _, _, _, (Some er). split; [exact E1|]. split; [exact E2|]. split; [|split].
    + cbn. by rewrite He2, He1.
    + split; [cbn; by rewrite Hm2, Hm1|]. exists e1, x. by eapply SendCiphertext_fails.
    + intros rest ->. rewrite Hreq. by apply ValidateReply_payload.
  - destruct (SendCiphertext_round_trip _ _ _ _ _ _ _ _ service Hx Es)
      as (_ & Heta & pkt & w1 & fwd & payload & surb & Hpkt & Hun & Hfwd & Hrt & Hdec).
    destruct (doSend_surb (H:=session_minclient) SURBIDLength s1 _ _ x e1 key eta e2 Ha eq_refl eq_refl Er Es') as [t Ed].
    rewrite Ed in E2.
    destruct (onACK_reply ForwardPayloadLength DecryptSURBPayload
      (with_queue (sent_with s1 (next_addr s) (new_Message id recipient provider
         (payload_of UserForwardPayloadLength message) true false false) x key eta t e2) q) x
      (next_addr s) (set_reply (set_SentAt (new_Message id recipient provider
         (payload_of UserForwardPayloadLength message) true false false) t) eta key)
      (seal surb (service request)) (service request)) as (s3 & E3 & He3 & Hm3); try done.
    { cbn. by rewrite lookup_insert_eq. }
    { cbn. by rewrite lookup_insert_eq. }
    { by apply Hdec. }
    eexists _, s1, _, _, eta, None. split; [exact E1|]. split; [exact E2|]. split; [|split].
    + cbn. by rewrite He1.
    + split; [done|]. exists pkt, w1, e2, fwd, payload, x, (seal surb (service request)), s3.
      split_and!; [done|done|done|done|exact Hrt|exact E3|exact He3|].
      rewrite Hm3. cbn. by rewrite Hm1, delete_insert_eq.
    + intros rest ->. rewrite Hreq. by apply ValidateReply_payload.
Qed.
End EndToEnd.

(** ** A concrete run: a host of one state, the documents of Path.v, an echo *)

#[local] Instance ex_rng : Rng unit := {| Intn _ r := (0, r); Exp _ r := (1, r) |}.
#[local] Instance ex_rng_laws : RngLaws unit.
Proof. split; intros n []; cbn; [lia|unfold is_u64; lia]. Qed.

#[local] Instance RoutingCommand_eq_dec : EqDecision RoutingCommand.
Proof. solve_decision. Defined.
#[local] Instance PathHop_eq_dec : EqDecision PathHop.
Proof. solve_decision. Defined.

#[local] Definition ex_id : bytes := replicate 2 (byte_of_Z 5).
#[local] Definition ex_hops (recipient : string) (src dst : MixDescriptor) (forward : bool) : list PathHop :=
  match (NewPath 255 1 8 2 tt (ex_doc 8) (bytes_of_string recipient) src dst (Some ex_id) 100 true
           forward 8).1 with
  | Ok (p, _) => p
  | _ => []
  end.
(** The one route there and the one back. *)
#[local] Definition ex_fwd : list PathHop := ex_hops "bob" (ex_src 8) (ex_dst 8) true.
#[local] Definition ex_rev : list PathHop := ex_hops "alice" (ex_dst 8) (ex_src 8) false.
#[local] Definition ex_surb : bytes := replicate 4 (byte_of_Z 3).

#[local] Definition ex_client : PkiClient unit := {|
  GetEpoch w := ((9, 2, None), w);
  GetDoc w _ := (Ok (ex_doc 8, []), w);
|}.
#[local] Definition ex_send : SendEnv unit := {|
  env_PKIClient := ex_client;
  env_rng := ex_rng;
  Compose.time_Now w := (5, w);
  skewedUnixTime w := (100, w);
  Compose.CurrentDocument w := (Some (ex_doc 8), w);
  NewSURB p w := (if decide (p = ex_rev) then inr (ex_surb, [byte_of_Z 7]) else inl "no route", w);
  NewPacket p b w := (if decide (p = ex_fwd) then inr b else inl "no route", w);
  sendPacket _ w := (None, w);
|}.
#[local] Instance ex_host : HostEnv unit := {|
  host_send := ex_send;
  host_rand_Read n w := (Some (replicate n (byte_of_Z 5)), w);
  host_Intn _ w := (0, w);
|}.

#[local] Instance ex_send_laws : SendEnvLaws unit 255 ex_GetProvider.
Proof.
  split.
  - exact ex_rng_laws.
  - lia.
  - intros w d [= <-]. vm_compute. congruence.
  - intros w d n p _. unfold ex_GetProvider. repeat case_match; by intros [= <-].
  - intros w d [= <-]. cbn. lia.
Qed.

#[local] Instance ex_mixnet : Mixnet := {|
  unwrap pkt := Some (ex_fwd, pkt);
  surb_path _ := Some ex_rev;
  seal _ b := b;
|}.
#[local] Instance ex_mixnet_laws : MixnetLaws unit 4 14 (fun ct _ => inr ct).
Proof.
  split; intros p.
  - intros b w pkt. cbn. case_decide as E; [|done]. by intros [= <-]; rewrite E.
  - intros w surb k. cbn. case_decide as E; [|done]. intros [= <- <-]. by rewrite E.
Qed.

#[local] Existing Instance ex_queue.
#[local] Existing Instance ex_queue_laws.
#[local] Definition ex_session : Session unit (Queue nat) :=
  mkSession tt ∅ 0 (new_Queue 4) ∅ ∅ ∅ 0 false [] [].
#[local] Definition ex_echo (request : bytes) : bytes :=
  [byte_of_Z 1; byte_of_Z 0] ++ request ++ replicate 4 (byte_of_Z 0).
#[local] Definition ex_hello : bytes := [byte_of_Z 104; byte_of_Z 105].
#[local] Definition ex_minclient : SessionEnv unit :=
  minclient 255 1 8 2 4 8 ex_GetProvider "alice" "src" 1 (fun _ => "failed"%string).

#[local] Definition ex_sent := SendUnreliableMessage (H:=ex_minclient) 2 8 ex_session "bob" "dst" ex_hello.

(** The run is of the branch in which the packet is sent. *)
#[local] Lemma ex_sent_event :
  (effects <$> sendNext (H:=ex_minclient) 2 (snd ex_sent)) =
    Ok [SendEvent (MessageSentEvent ex_id 5 (12 * Millisecond) None)].
Proof. vm_compute. reflexivity. Qed.

Lemma request_round_trip_witness :
  exists id s1 s2 x ct s3, ex_sent = (Ok id, s1) /\ sendNext (H:=ex_minclient) 2 s1 = Ok s2 /\
    onACK 14 (fun ct _ => inr ct) s2 x ct = Ok s3 /\
    effects s3 = effects s2 ++ [SendEvent (MessageReplyEvent id (drop 2 (ex_echo
      (be32 (Z.of_nat (length ex_hello)) ++ ex_hello ++ replicate (8 - 4 - length ex_hello) (byte_of_Z 0)))) None)].
Proof.
  assert (queued ex_session [] []) as Hq.
  { split; try reflexivity; [apply wf_new; lia|constructor|constructor|].
    intros a [m Hm]. cbn in Hm. by rewrite lookup_empty in Hm. }
  destruct (request_round_trip 255 2 1 8 2 4 8 14 ex_GetProvider (fun ct _ => inr ct) "alice" "src" 1
    (fun _ => "failed"%string) ex_session "bob" "dst" ex_hello ex_echo Hq)
    as (id & s1 & s2 & t & eta & err & E1 & E2 & He & Hr & _).
  - cbn. lia.
  - cbn. lia.
  - lia.
  - intros n w. exists (replicate n (byte_of_Z 5)). split; [reflexivity|apply length_replicate].
  - reflexivity.
  - lia.
  - pose proof ex_sent_event as Hev. change (ex_sent = (Ok id, s1)) in E1. rewrite E1 in Hev.
    change (sendNext (H:=ex_minclient) 2 s1 = Ok s2) in E2. cbn [snd] in Hev. rewrite E2 in Hev.
    cbn in Hev. injection Hev as Hev. rewrite Hev in He. destruct err as [er|]; [discriminate He|].
    destruct Hr as (_ & pkt & w & w' & fwd & payload & x & ct & s3 & _ & _ & _ & _ & _ & E3 & He3 & _).
    exists id, s1, s2, x, ct, s3. exact (conj E1 (conj E2 (conj E3 He3))).
Defined.
