(* ===== verification/Worker.v ===== *)
(** The session worker (worker.go, and [awaitFirstPKIDoc] of session.go): the three
    Poisson timers that pace user data and decoys, the operations of the callbacks,
    the wait for the first document. The worker's own random generator is separate
    from the session's environment. *)

From S2P Require Import Prelude GoStd PkiClient Queue Message Session.

Definition maxDuration : Duration := MaxInt64.

Section Worker.
Context {M : Type} `{SessionEnv M} {Q : Type} `{EgressQueue Q (option nat)}.
Context (MessageIDLength SURBIDLength UserForwardPayloadLength : nat) (LoopService : string).
Context (FindServices : string -> Document -> list ServiceDescriptor).
Context (DisableDecoyTraffic : bool).
(** [uint64(rand.Exp(mRng, lambda))] *)
Context {R : Type} (Exp : float64 -> R -> Z * R).

#[local] Abbreviation sendFromQueueOrDecoy :=
  (sendFromQueueOrDecoy MessageIDLength SURBIDLength UserForwardPayloadLength LoopService
     FindServices DisableDecoyTraffic).
#[local] Abbreviation sendLoopDecoy :=
  (sendLoopDecoy MessageIDLength SURBIDLength UserForwardPayloadLength LoopService FindServices).
#[local] Abbreviation sendDropDecoy :=
  (sendDropDecoy MessageIDLength SURBIDLength UserForwardPayloadLength LoopService FindServices).

Record Worker := mkWorker {
  session : Session M Q;
  mRng : R;
  onlineAt : Time;
  doc : Document;
  isConnected : bool;
  lambdaPTimer : Timer;
  lambdaLTimer : Timer;
  lambdaDTimer : Timer;
}.

Definition with_session (w : Worker) (s : Session M Q) : Worker :=
  mkWorker s (mRng w) (onlineAt w) (doc w) (isConnected w) (lambdaPTimer w) (lambdaLTimer w)
    (lambdaDTimer w).
Definition with_timers (w : Worker) (r : R) (p l d : Timer) : Worker :=
  mkWorker (session w) r (onlineAt w) (doc w) (isConnected w) p l d.

(** A random interval, clamped to the document's bound. *)
Definition interval (lambda : float64) (maxDelay : Z) (r : R) : Duration * R :=
  let '(msec, r) := Exp lambda r in
  let msec := if maxDelay <? msec then maxDelay else msec in
  (Duration_mul (i64 msec) Millisecond, r).

(** The three intervals, drawn in this order; parked while offline. *)
Definition intervals (connected : bool) (doc : Document) (r : R) :
    Duration * Duration * Duration * R :=
  if connected then
    let '(p, r) := interval (LambdaP doc) (LambdaPMaxDelay doc) r in
    let '(l, r) := interval (LambdaL doc) (LambdaLMaxDelay doc) r in
    let '(d, r) := interval (LambdaD doc) (LambdaDMaxDelay doc) r in
    (p, l, d, r)
  else (maxDuration, maxDuration, maxDuration, r).

(** The worker up to its loop: [None] when there is no document. *)
Definition worker_start (s : Session M Q) (r : R) : option Worker * Session M Q :=
  let '(d, e) := CurrentDocument (env s) in
  let s := with_env s e in
  match d with
  | None => (None, emit s (SendFatal ErrNilDoc))
  | Some d =>
      let '(pI, lI, dI, r) := intervals true d r in
      (Some (mkWorker s r Time_zero d false (NewTimer pI) (NewTimer lI) (NewTimer dI)), s)
  end.

(** The ready case of the [select]. *)
Inductive selected := FiredP | FiredL | FiredD | Op (op : workerOp).

Definition connStatusChange (w : Worker) (connected : bool) : Worker :=
  if connected then
    let '(t, e) := time_Now (env (session w)) in
    mkWorker (with_env (session w) e) (mRng w) t (doc w) true (lambdaPTimer w) (lambdaLTimer w)
      (lambdaDTimer w)
  else
    mkWorker (session w) (mRng w) (onlineAt w) (doc w) false (lambdaPTimer w) (lambdaLTimer w)
      (lambdaDTimer w).

(** A document is adopted also when it is not valid. *)
Definition handle_op (w : Worker) (op : workerOp) : Worker :=
  match op with
  | opConnStatusChanged c => connStatusChange w c
  | opNewDocument d =>
      let s := match isDocValid LoopService d with
               | Some e => emit (session w) (SendFatal e)
               | None => session w
               end in
      mkWorker s (mRng w) (onlineAt w) d (isConnected w) (lambdaPTimer w) (lambdaLTimer w)
        (lambdaDTimer w)
  end.

(** What is sent when a timer fired. *)
Definition handle_timer (w : Worker) (sel : selected) : outcome Empty_set (Session M Q) :=
  if isConnected w then
    match sel with
    | FiredP => sendFromQueueOrDecoy (session w)
    | FiredL => if negb DisableDecoyTraffic then sendLoopDecoy (session w) else Ok (session w)
    | FiredD => if negb DisableDecoyTraffic then sendDropDecoy (session w) else Ok (session w)
    | Op _ => Ok (session w)
    end
  else Ok (session w).

(** Receiving the tick of the selected timer; [None] when it is not there. *)
Definition receive (w : Worker) (sel : selected) : option Worker :=
  match sel with
  | FiredP => (fun t => with_timers w (mRng w) t (lambdaLTimer w) (lambdaDTimer w)) <$> Timer_recv (lambdaPTimer w)
  | FiredL => (fun t => with_timers w (mRng w) (lambdaPTimer w) t (lambdaDTimer w)) <$> Timer_recv (lambdaLTimer w)
  | FiredD => (fun t => with_timers w (mRng w) (lambdaPTimer w) (lambdaLTimer w) t) <$> Timer_recv (lambdaDTimer w)
  | Op _ => Some w
  end.

(** The end of an iteration: all timers after an operation, else the fired one. *)
Definition reset_timers (w : Worker) (sel : selected) : Worker :=
  let '(pI, lI, dI, r) := intervals (isConnected w) (doc w) (mRng w) in
  let w := with_timers w r (lambdaPTimer w) (lambdaLTimer w) (lambdaDTimer w) in
  let p := Timer_Reset (lambdaPTimer w) pI in
  let l := Timer_Reset (lambdaLTimer w) lI in
  let d := Timer_Reset (lambdaDTimer w) dI in
  match sel with
  | Op _ => with_timers w r p l d
  | FiredP => with_timers w r p (lambdaLTimer w) (lambdaDTimer w)
  | FiredL => with_timers w r (lambdaPTimer w) l (lambdaDTimer w)
  | FiredD => with_timers w r (lambdaPTimer w) (lambdaLTimer w) d
  end.

Definition iteration (w : Worker) (sel : selected) : option (outcome Empty_set Worker) :=
  w ← receive w sel;
  Some (match sel with
        | Op op => Ok (reset_timers (handle_op w op) sel)
        | _ => s ← handle_timer w sel; mret (reset_timers (with_session w s) sel)
        end).

(** The runtime fires a running timer. *)
Definition expire (w : Worker) (sel : selected) : Worker :=
  let fire t := if armed t then Timer_expire t else t in
  match sel with
  | FiredP => with_timers w (mRng w) (fire (lambdaPTimer w)) (lambdaLTimer w) (lambdaDTimer w)
  | FiredL => with_timers w (mRng w) (lambdaPTimer w) (fire (lambdaLTimer w)) (lambdaDTimer w)
  | FiredD => with_timers w (mRng w) (lambdaPTimer w) (lambdaLTimer w) (fire (lambdaDTimer w))
  | Op _ => w
  end.

(** ** Waiting for the first document

    The operations in [opCh] with the time of their arrival, and the times at which the
    context and [HaltCh] are done. The timer of [time.After] starts anew with every
    round; cases that can proceed at the same time, those ready when a round begins above
    all, are chosen from at random: [pick] is the choice in the round in which so many
    operations are still to come. *)
Inductive await_result :=
  | A_ok (at_ : Time)
  | A_invalid (at_ : Time) (e : session_error)
  | A_ctx | A_halted | A_timeout (at_ : Time).

Inductive await_case := W_ctx | W_halt | W_timeout | W_op.

(** The cases of the [select], for a round that begins at [start]. *)
Definition await_cases (InitialMaxPKIRetrievalDelay : Duration) (ctx_done halt : option Time)
    (start : Time) (ops : list (Time * workerOp)) : list (Time * await_case) :=
  (match ctx_done with Some c => [(Z.max start c, W_ctx)] | None => [] end) ++
  (match halt with Some h => [(Z.max start h, W_halt)] | None => [] end) ++
  [(Z.max start (start + InitialMaxPKIRetrievalDelay), W_timeout)] ++
  (match ops with (t, _) :: _ => [(Z.max start t, W_op)] | [] => [] end).

Fixpoint awaitFirstPKIDoc (InitialMaxPKIRetrievalDelay : Duration) (ctx_done halt : option Time)
    (pick : nat -> nat) (start : Time) (ops : list (Time * workerOp)) : await_result :=
  match select (pick (length ops))
          (await_cases InitialMaxPKIRetrievalDelay ctx_done halt start ops), ops with
  | Some (_, W_ctx), _ => A_ctx
  | Some (_, W_halt), _ => A_halted
  | Some (t, W_op), (_, op) :: ops' =>
      match op with
      | opNewDocument d =>
          match isDocValid LoopService d with Some e => A_invalid t e | None => A_ok t end
      | _ => awaitFirstPKIDoc InitialMaxPKIRetrievalDelay ctx_done halt pick t ops'
      end
  | Some (t, _), _ => A_timeout t
  | None, _ => A_timeout start     (* never: there is the case of the timer *)
  end.
End Worker.
Arguments Worker : clear implicits.

(** ** Facts *)

Section WorkerFacts.
Context {M : Type} `{SessionEnv M} {Q : Type} `{EgressQueue Q (option nat)}.
Context (MessageIDLength SURBIDLength UserForwardPayloadLength : nat) (LoopService : string).
Context (FindServices : string -> Document -> list ServiceDescriptor).
Context (DisableDecoyTraffic : bool).
Context {R : Type} (Exp : float64 -> R -> Z * R).
Context (Exp_range : forall l r, is_u64 (Exp l r).1).
#[local] Abbreviation iteration :=
  (iteration MessageIDLength SURBIDLength UserForwardPayloadLength LoopService FindServices
     DisableDecoyTraffic Exp).

(** The bounds of a document fit in a duration. *)
Definition doc_bounded (d : Document) : Prop :=
  Forall (fun x => 0 <= x /\ x * Millisecond < 2 ^ 63)
    [LambdaPMaxDelay d; LambdaLMaxDelay d; LambdaDMaxDelay d].

(** Running, or with a tick that waits to be received. *)
Definition alive (t : Timer) : Prop := armed t = true \/ fired t = true.
Definition paced (t : Timer) (maxDelay : Z) : Prop := 0 <= period t <= maxDelay * Millisecond.

Record worker_ok (w : Worker M Q R) : Prop := {
  wo_alive : alive (lambdaPTimer w) /\ alive (lambdaLTimer w) /\ alive (lambdaDTimer w);
  wo_paced : isConnected w = true ->
    paced (lambdaPTimer w) (LambdaPMaxDelay (doc w)) /\
    paced (lambdaLTimer w) (LambdaLMaxDelay (doc w)) /\
    paced (lambdaDTimer w) (LambdaDMaxDelay (doc w));
  wo_doc : doc_bounded (doc w);
}.

Lemma interval_range l m r :
  0 <= m -> m * Millisecond < 2 ^ 63 -> 0 <= (interval Exp l m r).1 <= m * Millisecond.
Proof.
  intros Hm Hb. unfold interval. pose proof (Exp_range l r) as Hr.
  destruct (Exp l r) as [x r']. cbn in *. unfold is_u64, Millisecond, Duration_mul in *.
  destruct (Z.ltb_spec m x).
  - rewrite (i64_small m), i64_small by (unfold is_i64; lia). lia.
  - rewrite (i64_small x), i64_small by (unfold is_i64; lia). lia.
Qed.

Lemma intervals_range d r :
  doc_bounded d ->
  let '(p, l, dd, _) := intervals Exp true d r in
  0 <= p <= LambdaPMaxDelay d * Millisecond /\ 0 <= l <= LambdaLMaxDelay d * Millisecond /\
  0 <= dd <= LambdaDMaxDelay d * Millisecond.
Proof.
  intros Hd. unfold doc_bounded in Hd. rewrite !Forall_cons in Hd.
  destruct Hd as ([? ?] & [? ?] & [? ?] & _). unfold intervals.
  pose proof (interval_range (LambdaP d) (LambdaPMaxDelay d) r ltac:(done) ltac:(done)).
  destruct (interval Exp (LambdaP d) _ r) as [p r1].
  pose proof (interval_range (LambdaL d) (LambdaLMaxDelay d) r1 ltac:(done) ltac:(done)).
  destruct (interval Exp (LambdaL d) _ r1) as [l r2].
  pose proof (interval_range (LambdaD d) (LambdaDMaxDelay d) r2 ltac:(done) ltac:(done)).
  destruct (interval Exp (LambdaD d) _ r2) as [dd r3]. done.
Qed.

Lemma reset_alive t d : alive (Timer_Reset t d).
Proof. by left. Qed.

(** Resetting after an operation re-establishes everything; after a tick, what the
    other timers satisfy is enough. *)
Definition others_ok (w : Worker M Q R) (sel : selected) : Prop :=
  match sel with
  | FiredP => (alive (lambdaLTimer w) /\ alive (lambdaDTimer w)) /\
      (isConnected w = true -> paced (lambdaLTimer w) (LambdaLMaxDelay (doc w)) /\
         paced (lambdaDTimer w) (LambdaDMaxDelay (doc w)))
  | FiredL => (alive (lambdaPTimer w) /\ alive (lambdaDTimer w)) /\
      (isConnected w = true -> paced (lambdaPTimer w) (LambdaPMaxDelay (doc w)) /\
         paced (lambdaDTimer w) (LambdaDMaxDelay (doc w)))
  | FiredD => (alive (lambdaPTimer w) /\ alive (lambdaLTimer w)) /\
      (isConnected w = true -> paced (lambdaPTimer w) (LambdaPMaxDelay (doc w)) /\
         paced (lambdaLTimer w) (LambdaLMaxDelay (doc w)))
  | Op _ => True
  end.

Lemma reset_timers_ok w sel :
  doc_bounded (doc w) -> others_ok w sel -> worker_ok (reset_timers Exp w sel).
Proof.
  intros Hd Hs. unfold reset_timers.
  pose proof (intervals_range (doc w) (mRng w) Hd) as Hr.
  destruct (isConnected w) eqn:Ec.
  - destruct (intervals Exp true (doc w) (mRng w)) as [[[p l] d] r]. destruct Hr as (Hp & Hl & Hdd).
    destruct sel; cbn in Hs; try (destruct Hs as [[? ?] Hs]; destruct (Hs Ec));
      (split; cbn; [|intros _|done]); split_and!; try apply reset_alive; done.
  - cbn [intervals]. destruct sel; cbn in Hs; try (destruct Hs as [[? ?] _]);
      (split; cbn; [|congruence|done]); split_and!; try apply reset_alive; done.
Qed.

Lemma receive_ok w sel w1 :
  worker_ok w -> receive w sel = Some w1 ->
  doc w1 = doc w /\ isConnected w1 = isConnected w /\ session w1 = session w /\
  match sel with Op _ => w1 = w | _ =>
    (sel <> FiredP -> lambdaPTimer w1 = lambdaPTimer w) /\
    (sel <> FiredL -> lambdaLTimer w1 = lambdaLTimer w) /\
    (sel <> FiredD -> lambdaDTimer w1 = lambdaDTimer w) end.
Proof.
  intros _. destruct sel; cbn; [| | |by intros [= <-]].
  all: unfold Timer_recv; case_match; cbn; [|done]; intros [= <-]; cbn; by split_and!.
Qed.

Lemma worker_iteration_ok w sel w' :
  worker_ok w -> (forall d, sel = Op (opNewDocument d) -> doc_bounded d) ->
  iteration w sel = Some (Ok w') -> worker_ok w'.
Proof.
  intros Hw Hdoc E. unfold Worker.iteration in E.
  destruct (receive w sel) as [w1|] eqn:Er; [|done].
  destruct (receive_ok _ _ _ Hw Er) as (Ed & Ec & _ & Et). cbn in E.
  destruct Hw as [(Hp & Hl & Hd) Hpc Hb]. injection E as E.
  destruct sel as [| | |op].
  1-3: destruct (handle_timer _ _ _ _ _ _ w1 _) as [s| |]; try done; cbn in E; injection E as <-;
    destruct Et as (E1 & E2 & E3);
    apply reset_timers_ok; cbn; rewrite ?Ed, ?Ec; [done|];
    rewrite ?E1, ?E2, ?E3 by done; tauto.
  injection E as <-. subst w1. apply reset_timers_ok; [|done].
  destruct op as [c|d]; cbn; [|by apply Hdoc]. unfold connStatusChange. destruct c; [|done].
  by destruct (time_Now _).
Qed.

Lemma expire_ok w sel : worker_ok w -> worker_ok (expire w sel).
Proof.
  intros [(Hp & Hl & Hd) Hpc Hb]. unfold expire.
  destruct sel; [| | |done]; (split; cbn; [|intros Hc|done]);
    try (specialize (Hpc Hc)); split_and?; try tauto;
    destruct (armed _) eqn:Ea; cbn; try tauto; by right.
Qed.

(** A step: an iteration, whose document is bounded, or the expiry of a timer. *)
Definition wstep (w w' : Worker M Q R) : Prop :=
  (exists sel, (forall d, sel = Op (opNewDocument d) -> doc_bounded d) /\
     iteration w sel = Some (Ok w')) \/
  (exists sel, w' = expire w sel).

Lemma worker_ok_reachable s r w :
  (forall d, (CurrentDocument (env s)).1 = Some d -> doc_bounded d) ->
  reachable (fun w => (worker_start Exp s r).1 = Some w) wstep w -> worker_ok w.
Proof.
  intros Hd. apply reachable_ind_inv.
  - intros w0 E. unfold worker_start in E. destruct (CurrentDocument (env s)) as [[d|] e]; [|done].
    specialize (Hd d eq_refl). destruct (intervals Exp true d r) as [[[p l] dd] r'].
    cbn in E. injection E as <-. split; cbn; [|done|done]. split_and!; by left.
  - intros w1 w2 Hw [(sel & Hs & E)|(sel & ->)]; [by eapply worker_iteration_ok|by apply expire_ok].
Qed.

(** ** Offline *)

Lemma iteration_offline w sel w' :
  isConnected w = false -> sel <> Op (opConnStatusChanged true) ->
  iteration w sel = Some (Ok w') ->
  isConnected w' = false /\ env (session w') = env (session w) /\
  heap (session w') = heap (session w) /\
  egressQueue (session w') = egressQueue (session w) /\
  surbIDMap (session w') = surbIDMap (session w).
Proof.
  intros Hc Hsel E. unfold Worker.iteration in E.
  destruct (receive w sel) as [w1|] eqn:Er; [|done]. cbn in E. injection E as E.
  assert (isConnected w1 = false /\ session w1 = session w) as [Hc1 Hs1].
  { destruct sel; cbn in Er; try (destruct (Timer_recv _); [|done]); simplify_eq/=; done. }
  assert (forall w2 : Worker M Q R, let w3 := reset_timers Exp w2 sel in
    isConnected w3 = isConnected w2 /\ session w3 = session w2) as Hreset.
  { intros w2. unfold reset_timers. destruct (intervals _ _ _ _) as [[[? ?] ?] ?]. by destruct sel. }
  destruct sel as [| | |op].
  1-3: unfold handle_timer in E; rewrite Hc1 in E; cbn in E; injection E as <-;
    match goal with |- context [reset_timers Exp ?w2 _] => destruct (Hreset w2) as [-> ->] end;
    cbn; by rewrite Hc1, Hs1.
  injection E as <-. destruct (Hreset (handle_op LoopService w1 op)) as [-> ->].
  destruct op as [[]|d]; cbn; [congruence|by rewrite Hs1|].
  rewrite Hc1, <-Hs1. by destruct (isDocValid LoopService d).
Qed.
End WorkerFacts.

(** Opens the cases of the [select] in a hypothesis or proves one of them present. *)
Ltac cases :=
  unfold await_cases in *;
  repeat match goal with
  | H : _ ∈ _ ++ _ |- _ => apply elem_of_app in H as [H|H]
  | H : _ ∈ [_] |- _ => apply list_elem_of_singleton in H
  | H : _ ∈ [] |- _ => by apply not_elem_of_nil in H
  end.

(** ** Properties *)

Section WorkerProperties.
Context {M : Type} `{SessionEnv M} {Q : Type} `{EgressQueueLaws Q (option nat)}.
Context (MessageIDLength SURBIDLength UserForwardPayloadLength : nat) (LoopService : string).
Context (FindServices : string -> Document -> list ServiceDescriptor).
Context (DisableDecoyTraffic : bool).
Context {R : Type} (Exp : float64 -> R -> Z * R).
#[local] Abbreviation iteration :=
  (iteration MessageIDLength SURBIDLength UserForwardPayloadLength LoopService FindServices
     DisableDecoyTraffic Exp).
#[local] Abbreviation wstep :=
  (wstep MessageIDLength SURBIDLength UserForwardPayloadLength LoopService FindServices
     DisableDecoyTraffic Exp).

(** C15. The worker never loses a timer: with documents whose bounds fit in a
    duration, in every reachable state each of the three timers runs or has a tick
    to deliver, so that it can always fire next, and while online none is set
    beyond the bound the current document puts on its traffic. *)
Theorem worker_never_loses_a_timer (s : Session M Q) (r : R) (w : Worker M Q R) :
  (forall l x, is_u64 (Exp l x).1) ->
  (forall d, (CurrentDocument (env s)).1 = Some d -> doc_bounded d) ->
  reachable (fun w => (worker_start Exp s r).1 = Some w) wstep w ->
  (forall sel, is_Some (receive (expire w sel) sel)) /\
  (isConnected w = true ->
   0 <= period (lambdaPTimer w) <= LambdaPMaxDelay (doc w) * Millisecond /\
   0 <= period (lambdaLTimer w) <= LambdaLMaxDelay (doc w) * Millisecond /\
   0 <= period (lambdaDTimer w) <= LambdaDMaxDelay (doc w) * Millisecond).
Proof.
  intros HE Hd Hr.
  destruct (worker_ok_reachable _ _ _ _ _ _ _ HE s r w Hd Hr) as [(Hp & Hl & Hdd) Hpc _].
  split; [|exact Hpc]. intros sel. destruct sel; [| | |by eexists];
    unfold alive in *; cbn; unfold Timer_recv, Timer_expire.
  - destruct (armed (lambdaPTimer w)); cbn; [by eexists|]. destruct Hp as [?| ->]; [done|]. by eexists.
  - destruct (armed (lambdaLTimer w)); cbn; [by eexists|]. destruct Hl as [?| ->]; [done|]. by eexists.
  - destruct (armed (lambdaDTimer w)); cbn; [by eexists|]. destruct Hdd as [?| ->]; [done|]. by eexists.
Qed.

(** A run without news of a connection. *)
Definition offline_step (w w' : Worker M Q R) : Prop :=
  (exists sel, sel <> Op (opConnStatusChanged true) /\ iteration w sel = Some (Ok w')) \/
  (exists sel, w' = expire w sel).

(** C14. Traffic: while offline, whatever fires and whatever document arrives,
    nothing is sent, queued, taken from the queue or forgotten; online, a tick of
    the user timer sends the head of the queue if there is one and takes it out,
    and with decoys disabled it sends nothing from an empty queue. *)
Theorem worker_traffic (w : Worker M Q R) :
  (forall w', isConnected w = false -> rtc offline_step w w' ->
     env (session w') = env (session w) /\ heap (session w') = heap (session w) /\
     egressQueue (session w') = egressQueue (session w) /\
     surbIDMap (session w') = surbIDMap (session w)) /\
  (forall addrs msgs, isConnected w = true -> fired (lambdaPTimer w) = true ->
     queued (session w) addrs msgs ->
     (DisableDecoyTraffic = true \/ addrs <> []) ->
     exists w', iteration w FiredP = Some (Ok w') /\
       queued (session w') (tail addrs) (tail msgs) /\
       env (session w') = match msgs with
                          | m :: _ => sends SURBIDLength (env (session w)) m
                          | [] => env (session w) end).
Proof.
  split.
  - intros w' Hc Hr. revert Hc. induction Hr as [w|w w1 w' Hs Hr IH]; intros Hc; [done|].
    destruct Hs as [(sel & Hsel & E)|(sel & ->)].
    + destruct (iteration_offline _ _ _ _ _ _ _ w sel w1 Hc Hsel E) as (Hc1 & <- & <- & <- & <-).
      by apply IH.
    + assert (isConnected (expire w sel) = isConnected w /\ session (expire w sel) = session w)
        as [E1 E2] by by destruct sel.
      rewrite <-E2. apply IH. congruence.
  - intros addrs msgs Hc Hf Hq Hdec. unfold Worker.iteration, receive, Timer_recv. rewrite Hf.
    cbn [fmap option_fmap option_map mbind option_bind]. unfold handle_timer. cbn [isConnected with_timers session].
    rewrite Hc. unfold sendFromQueueOrDecoy.
    pose proof (qd_wf _ _ _ Hq) as Hw. rewrite (eq_Peek_law _ Hw), (qd_view _ _ _ Hq).
    pose proof (qd_heap _ _ _ Hq) as Hh. destruct addrs as [|a addrs].
    + destruct Hdec as [->|]; [|done]. apply Forall2_nil_inv_l in Hh as ->. cbn.
      eexists. split; [done|]. unfold reset_timers.
      destruct (intervals _ _ _ _) as [[[? ?] ?] ?]. by cbn.
    + destruct msgs as [|m msgs]; [by inv Hh|].
      destruct (sendNext_queued SURBIDLength _ _ _ _ _ Hq) as (s' & E & Hq' & He).
      cbn [fmap list_fmap spec_Peek]. rewrite E. cbn. eexists. split; [done|].
      unfold reset_timers. destruct (intervals _ _ _ _) as [[[? ?] ?] ?]. by cbn.
Qed.

(** Operations about the connection, each within the delay of the one before. *)
Fixpoint postpones (delay : Duration) (start : Time) (ops : list (Time * workerOp)) : Prop :=
  match ops with
  | [] => True
  | (t, op) :: ops => start <= t < start + delay /\
      (exists c, op = opConnStatusChanged c) /\ postpones delay t ops
  end.

(** [d], arrived as the first document of [ops], is received at [at_]: the operations
    before it are about the connection, it comes within [delay] of the last of them or of
    [start], and not after a limit, unless the limit has passed before the wait and the
    document was there already. *)
Definition awaited (delay : Duration) (ctx_done halt : option Time) (start : Time)
    (ops : list (Time * workerOp)) (at_ : Time) (d : Document) : Prop :=
  exists pre t post, ops = pre ++ (t, opNewDocument d) :: post /\
    (forall op, op ∈ pre.*2 -> exists c, op = opConnStatusChanged c) /\
    let since := foldl Z.max start pre.*1 in
    at_ = Z.max since t /\ at_ <= Z.max since (since + delay) /\
    (forall c, ctx_done = Some c \/ halt = Some c -> at_ <= Z.max start c).

(** An operation is received no later than the other cases are ready. *)
Lemma received_before delay ctx halt start t0 op ops n at_ :
  select n (await_cases delay ctx halt start ((t0, op) :: ops)) = Some (at_, W_op) ->
  at_ = Z.max start t0 /\ at_ <= Z.max start (start + delay) /\
  (forall c, ctx = Some c \/ halt = Some c -> at_ <= Z.max start c).
Proof.
  intros E. apply select_spec in E as [Hin Hmin]. split_and!.
  - cases; try (destruct ctx; cases; congruence); try (destruct halt; cases; congruence); congruence.
  - apply (Hmin (_, W_timeout)). unfold await_cases. rewrite !elem_of_app. right; right; left. by left.
  - intros c [-> | ->]; [apply (Hmin (_, W_ctx))|apply (Hmin (_, W_halt))]; unfold await_cases;
      rewrite !elem_of_app; [left|right; left]; by left.
Qed.

(** A document ends the wait only if it is received in time; which of the two results it
    is depends on its validity. *)
Lemma await_document delay ctx halt pick start ops :
  match awaitFirstPKIDoc LoopService delay ctx halt pick start ops with
  | A_ok at_ => exists d, isDocValid LoopService d = None /\ awaited delay ctx halt start ops at_ d
  | A_invalid at_ e =>
      exists d, isDocValid LoopService d = Some e /\ awaited delay ctx halt start ops at_ d
  | _ => True
  end.
Proof.
  revert start. induction ops as [|[t0 op] ops IH]; intros start; cbn [awaitFirstPKIDoc].
  - by destruct (select _ _) as [[t []]|].
  - destruct (select _ _) as [[t []]|] eqn:E; [done..| |done].
    apply received_before in E as (Et & Hd & Hl). destruct op as [c|d].
    + specialize (IH t). assert (forall at_ d, awaited delay ctx halt t ops at_ d ->
        awaited delay ctx halt start ((t0, opConnStatusChanged c) :: ops) at_ d) as Ha.
      { intros at_ d (pre & t1 & post & -> & Hp & Hat & Hd1 & Hl1).
        exists ((t0, opConnStatusChanged c) :: pre), t1, post. split; [done|]. split.
        - intros o [->|Ho]%elem_of_cons; [by eexists|by apply Hp].
        - cbn. rewrite <- Et. split_and!; [done..|]. intros c' Hc'.
          specialize (Hl1 c' Hc'). specialize (Hl c' Hc'). lia. }
      destruct (awaitFirstPKIDoc _ _ _ _ _ _ _); try done; destruct IH as (d & ? & ?); eauto.
    + assert (awaited delay ctx halt start ((t0, opNewDocument d) :: ops) t d) as Ha.
      { exists [], t0, ops. split; [done|]. split; [|done].
        intros o Ho. by apply not_elem_of_nil in Ho. }
      destruct (isDocValid LoopService d) eqn:Ev; eauto.
Qed.

(** The first operation is received when it comes strictly before the limits. *)
Lemma await_receives delay ctx halt pick start t op ops :
  start <= t < start + delay -> (forall c, ctx = Some c \/ halt = Some c -> t < c) ->
  awaitFirstPKIDoc LoopService delay ctx halt pick start ((t, op) :: ops) =
  match op with
  | opNewDocument d =>
      match isDocValid LoopService d with Some e => A_invalid t e | None => A_ok t end
  | _ => awaitFirstPKIDoc LoopService delay ctx halt pick t ops
  end.
Proof.
  intros Ht Hl. cbn [awaitFirstPKIDoc]. rewrite (select_first _ _ (t, W_op)); [done| |].
  - unfold await_cases. rewrite !elem_of_app. right; right; right.
    replace (Z.max start t) with t by lia. by left.
  - intros c' Hc'. cases; [destruct ctx as [c|]; cases|destruct halt as [c|]; cases|..]; subst c';
      cbn; [right; specialize (Hl c ltac:(auto)); lia..|right; lia|left; f_equal; lia].
Qed.

(** Without operations the wait ends with the timer, when nothing else comes before. *)
Lemma await_nothing delay ctx pick start :
  0 < delay -> (forall c, ctx = Some c -> start + delay < c) ->
  awaitFirstPKIDoc LoopService delay ctx None pick start [] = A_timeout (start + delay).
Proof.
  intros Hd Hl. cbn [awaitFirstPKIDoc]. rewrite (select_first _ _ (start + delay, W_timeout)); [done| |].
  - unfold await_cases. rewrite !elem_of_app. right; right; left.
    replace (Z.max start (start + delay)) with (start + delay) by lia. by left.
  - intros c' Hc'. cases; [destruct ctx as [c|]; cases|..]; subst; cbn;
      [right; specialize (Hl c eq_refl); lia|left; f_equal; lia].
Qed.

(** The wait for the first document: operations about the connection that
    arrive at intervals shorter than the configured delay postpone its end each
    time. After such operations, the last at time [t], a valid document that
    arrives within the delay ends the wait; without one it ends [delay] after
    [t], however long the wait has been; only the context's deadline bounds it. *)
Theorem await_timeout_restarts delay pick start ops t ctx :
  0 < delay -> postpones delay start ops -> last (start :: ops.*1) = Some t ->
  (forall c, ctx = Some c -> t + delay < c) ->
  awaitFirstPKIDoc LoopService delay ctx None pick start ops = A_timeout (t + delay) /\
  (forall d t', isDocValid LoopService d = None -> t <= t' < t + delay ->
     awaitFirstPKIDoc LoopService delay ctx None pick start (ops ++ [(t', opNewDocument d)]) = A_ok t').
Proof.
  intros Hdelay. revert start. induction ops as [|[t0 op] ops IH]; intros start Hp Hl Hc.
  - injection Hl as <-. split; [by apply await_nothing|]. intros d t' Hd Ht. cbn [app].
    rewrite await_receives; [by rewrite Hd|done|]. intros c [E|E]; [|done].
    specialize (Hc c E). lia.
  - destruct Hp as (Ht0 & (c & ->) & Hp). cbn [fmap list_fmap fst] in Hl.
    rewrite last_cons_cons in Hl. destruct (IH t0 Hp Hl Hc) as (H1' & H2').
    assert (t0 <= t) as Hle.
    { clear -Hp Hl Hdelay. revert t0 Hp Hl. induction ops as [|[t1 op] ops IH]; intros t0 Hp Hl.
      - injection Hl as <-. lia.
      - destruct Hp as (? & _ & Hp). cbn [fmap list_fmap fst] in Hl. rewrite last_cons_cons in Hl.
        specialize (IH t1 Hp Hl). lia. }
    assert (forall c, ctx = Some c \/ None = Some c -> t0 < c) as Hlim
      by (intros c' [E|E]; [specialize (Hc c' E); lia|done]).
    split; [by rewrite await_receives|]. intros d t' Hd Ht. cbn [app].
    rewrite await_receives by done. by apply H2'.
Qed.
End WorkerProperties.

(** ** Witnesses *)

#[local] Existing Instance ex_env.
#[local] Existing Instance ex_queue.
#[local] Existing Instance ex_queue_laws.

(** Every interval is 7 ms before clamping; the documents allow 5 ms. *)
Definition ex_Exp (l : float64) (r : nat) : Z * nat := (7, S r).
Definition ex_lambda_doc : Document :=
  mkDoc 3 (S754_zero false) 5 (S754_zero false) 5 (S754_zero false) 5 (S754_zero false) 5 [] [].
Definition ex_worker (s : Session nat (Queue nat)) (connected : bool) : Worker nat (Queue nat) nat :=
  mkWorker s 0%nat 0 ex_lambda_doc connected (mkTimer false true 0) (NewTimer 0) (NewTimer 0).
Definition ex_services (n : string) (d : Document) : list ServiceDescriptor := [].

Lemma ex_doc_bounded d : (CurrentDocument (env ex_session)).1 = Some d -> doc_bounded d.
Proof. intros [= <-]. repeat constructor; vm_compute; congruence. Qed.

Lemma worker_never_loses_a_timer_witness :
  exists w, (worker_start ex_Exp ex_session 0%nat).1 = Some w /\
    forall sel, is_Some (receive (expire w sel) sel).
Proof.
  eexists. split; [reflexivity|].
  eapply (worker_never_loses_a_timer 2 2 8 "loop" ex_services true ex_Exp ex_session 0%nat).
  - intros l x. cbn. unfold is_u64. lia.
  - exact ex_doc_bounded.
  - apply reachable_init. reflexivity.
Defined.

Definition ex_queued_session : Session nat (Queue nat) := (send_messages 2 8 ex_session ex_reqs).2.

Lemma ex_queued : exists addrs msgs, queued ex_queued_session addrs msgs /\ length addrs = 2%nat.
Proof.
  assert (queued ex_session [] []) as Hq.
  { split; try reflexivity; [apply wf_new; lia|constructor|constructor|].
    intros a [m Hm]. cbn in Hm. by rewrite lookup_empty in Hm. }
  destruct (send_messages_queued 2 8 ex_session ex_reqs [] [] Hq) as (addrs & msgs & Hq' & Hl & _).
  - vm_compute. repeat constructor.
  - repeat constructor.
  - intros n e. by eexists.
  - exists addrs, msgs. by split.
Qed.

Lemma worker_traffic_witness :
  (exists w' : Worker nat (Queue nat) nat, env (session w') = env ex_queued_session /\
     isConnected w' = false /\ period (lambdaPTimer w') = MaxInt64) /\
  (exists w' addrs msgs, iteration 2 2 8 "loop" ex_services true ex_Exp
       (ex_worker ex_queued_session true) FiredP = Some (Ok w') /\
     queued (session w') addrs msgs /\ length addrs = 1%nat).
Proof.
  split.
  - eexists. split; [|split].
    + eapply (proj1 (worker_traffic 2 2 8 "loop" ex_services true ex_Exp
        (ex_worker ex_queued_session false)) _ eq_refl).
      eapply rtc_l; [|apply rtc_refl]. left. exists FiredP. split; [discriminate|]. reflexivity.
    + reflexivity.
    + reflexivity.
  - destruct ex_queued as (addrs & msgs & Hq & Hl).
    destruct (proj2 (worker_traffic 2 2 8 "loop" ex_services true ex_Exp
      (ex_worker ex_queued_session true)) addrs msgs eq_refl eq_refl Hq (or_introl eq_refl))
      as (w' & E & Hq' & _).
    exists w', (tail addrs), (tail msgs). split; [exact E|]. split; [exact Hq'|].
    destruct addrs; cbn in *; lia.
Defined.

Lemma await_timeout_restarts_witness :
  awaitFirstPKIDoc "loop" 30 None None (fun _ => 0%nat) 0
    [(29, opConnStatusChanged false); (58, opConnStatusChanged false); (87, opConnStatusChanged false)]
  = A_timeout 117.
Proof.
  apply (await_timeout_restarts "loop" 30 (fun _ => 0%nat) 0
    [(29, opConnStatusChanged false); (58, opConnStatusChanged false); (87, opConnStatusChanged false)]
    87 None).
  - lia.
  - cbn. repeat split; try lia; by eexists.
  - reflexivity.
  - discriminate.
Defined.
