(* ===== verification/Blocking.v ===== *)
(** Blocking sends (BlockingSendUnreliableMessage, doSend, onACK, garbageCollect): any
    number of callers wait for their message to be sent and then for its reply. The
    session's worker hands over the one; the other comes from goroutines, one for each
    acknowledgement the connection receives, which run beside each other and beside the
    connection. Session.v has what each of them does to the session; here are their waits
    and how they interleave. That the system's source of randomness never fails (doSend
    would report it and leave its caller waiting) is assumed here. *)

From S2P Require Import Prelude GoStd Message Session.

(** How a call ends: with a reply, [ErrReplyTimeout], [ErrMessageNotSent] or the queue's
    own error. *)
Inductive result := R_reply (p : bytes) | R_timeout | R_not_sent | R_refused.

(** A caller in [<-sentWaitChan], in its [select], or returned. *)
Inductive caller_pc := C_wait_sent | C_wait_reply | C_returned (r : result).

(** One call, its message and channels. *)
Record Call := mkCall {
  caller : caller_pc;
  sent : bool;              (* the minclient has sent the message *)
  stored : bool;            (* surbIDMap has the message *)
  closed : bool;            (* sentWaitChan is closed *)
}.

(** The worker: in its [select], in [doSend] for a message before the SURB is stored,
    before the sending on sentWaitChan, before the closing of it, or gone. *)
Inductive worker_pc := W_idle | W_sent (i : nat) | W_stored (i : nat) | W_failed (i : nat) | W_gone.

(** A goroutine in [onACK]: before the [Load] of the message, before the [Delete] of it,
    before the lookup of the reply channel, in the send on it. *)
Inductive ack_pc := A_start | A_loaded | A_deleted | A_sending.

(** It is called with the SURB of call [ack_surb]; its payload is what decryption and
    the size check leave, if anything. *)
Record Ack := mkAck { ack_surb : nat; ack_payload : option bytes; ack_at : ack_pc }.

(** The connection: in its loop, in [cbWg.Wait] of its deferred function, or down. *)
Inductive conn_pc := N_up | N_waiting | N_down.

Record Sys := mkSys {
  queue : list nat;
  worker : worker_pc;
  calls : gmap nat Call;
  acks : gmap nat Ack;
  conn : conn_pc;
  received : list (nat * option bytes);   (* the acknowledgements received, the last first *)
  halted : bool;                          (* the session's HaltCh is closed *)
}.

Definition sys_init : Sys := mkSys [] W_idle ∅ ∅ N_down [] false.

Definition new_call : Call := mkCall C_wait_sent false false false.
Definition refused_call : Call := mkCall (C_returned R_refused) false false false.
Definition set_caller (c : Call) (pc : caller_pc) : Call := mkCall pc (sent c) (stored c) (closed c).
Definition set_sent (c : Call) : Call := mkCall (caller c) true (stored c) (closed c).
Definition set_stored (c : Call) (b : bool) : Call := mkCall (caller c) (sent c) b (closed c).
Definition set_closed (c : Call) : Call := mkCall (caller c) (sent c) (stored c) true.

(** The deferred deletions have been done: the maps no longer know the message. *)
Definition returned (c : Call) : bool :=
  match caller c with C_returned _ => true | _ => false end.

Definition with_call (s : Sys) (i : nat) (c : Call) : Sys :=
  mkSys (queue s) (worker s) (<[i := c]> (calls s)) (acks s) (conn s) (received s) (halted s).
Definition with_worker (s : Sys) (w : worker_pc) : Sys :=
  mkSys (queue s) w (calls s) (acks s) (conn s) (received s) (halted s).
Definition with_queue (s : Sys) (q : list nat) : Sys :=
  mkSys q (worker s) (calls s) (acks s) (conn s) (received s) (halted s).
Definition with_acks (s : Sys) (m : gmap nat Ack) : Sys :=
  mkSys (queue s) (worker s) (calls s) m (conn s) (received s) (halted s).
Definition with_conn (s : Sys) (n : conn_pc) : Sys :=
  mkSys (queue s) (worker s) (calls s) (acks s) n (received s) (halted s).

(** What the application, the network and the session's Shutdown do. A provider may
    acknowledge any SURB, as often as it likes. *)
Inductive external (s : Sys) : Sys -> Prop :=
  | e_call i : calls s !! i = None ->
      external s (with_queue (with_call s i new_call) (queue s ++ [i]))
  | e_call_refused i : calls s !! i = None -> external s (with_call s i refused_call)
  | e_ack a i p : conn s = N_up -> acks s !! a = None ->
      external s (mkSys (queue s) (worker s) (calls s) (<[a := mkAck i p A_start]> (acks s))
        (conn s) ((i, p) :: received s) (halted s))
  | e_connects : conn s = N_down -> external s (with_conn s N_up)
  | e_disconnects : conn s = N_up -> external s (with_conn s N_waiting)
  | e_halt :
      external s (mkSys (queue s) (worker s) (calls s) (acks s) (conn s) (received s) true).

(** What the goroutines do. *)
Inductive internal (s : Sys) : Sys -> Prop :=
  (* the worker: the message at the head, sent or not, then popped *)
  | i_send i q c : worker s = W_idle -> queue s = i :: q -> calls s !! i = Some c ->
      internal s (with_worker (with_call s i (set_sent c)) (W_sent i))
  | i_send_fails i q : worker s = W_idle -> queue s = i :: q ->
      internal s (with_worker s (W_failed i))
  | i_store i c : worker s = W_sent i -> calls s !! i = Some c ->
      internal s (with_worker (with_call s i (set_stored c true)) (W_stored i))
  | i_notify i q c : worker s = W_stored i -> queue s = i :: q -> calls s !! i = Some c ->
      caller c = C_wait_sent ->
      internal s (with_queue (with_worker (with_call s i (set_caller c C_wait_reply)) W_idle) q)
  | i_close i q c : worker s = W_failed i -> queue s = i :: q -> calls s !! i = Some c ->
      internal s (with_queue (with_worker (with_call s i (set_closed c)) W_idle) q)
  | i_worker_halts : worker s = W_idle -> halted s = true -> internal s (with_worker s W_gone)
  (* the callers *)
  | i_not_sent i c : calls s !! i = Some c -> caller c = C_wait_sent -> closed c = true ->
      internal s (with_call s i (set_caller c (C_returned R_not_sent)))
  | i_timeout i c : calls s !! i = Some c -> caller c = C_wait_reply ->
      internal s (with_call s i (set_caller c (C_returned R_timeout)))
  (* garbage collection *)
  | i_collect i c : calls s !! i = Some c -> stored c = true ->
      internal s (with_call s i (set_stored c false))
  (* a goroutine in onACK *)
  | i_load a i p c : acks s !! a = Some (mkAck i p A_start) -> calls s !! i = Some c ->
      stored c = true -> internal s (with_acks s (<[a := mkAck i p A_loaded]> (acks s)))
  | i_load_fails a i p : acks s !! a = Some (mkAck i p A_start) ->
      (forall c, calls s !! i = Some c -> stored c = false) ->
      internal s (with_acks s (delete a (acks s)))
  | i_delete a i p c : acks s !! a = Some (mkAck i p A_loaded) -> calls s !! i = Some c ->
      internal s (with_acks (with_call s i (set_stored c false))
        (<[a := mkAck i p A_deleted]> (acks s)))
  | i_discard a i : acks s !! a = Some (mkAck i None A_deleted) ->
      internal s (with_acks s (delete a (acks s)))
  | i_lookup a i p c : acks s !! a = Some (mkAck i (Some p) A_deleted) ->
      calls s !! i = Some c -> returned c = false ->
      internal s (with_acks s (<[a := mkAck i (Some p) A_sending]> (acks s)))
  | i_lookup_fails a i p c : acks s !! a = Some (mkAck i (Some p) A_deleted) ->
      calls s !! i = Some c -> returned c = true ->
      internal s (with_acks s (delete a (acks s)))
  | i_reply a i p c : acks s !! a = Some (mkAck i (Some p) A_sending) ->
      calls s !! i = Some c -> caller c = C_wait_reply ->
      internal s (with_acks (with_call s i (set_caller c (C_returned (R_reply p))))
        (delete a (acks s)))
  (* the connection, once every callback has returned *)
  | i_goes_down : conn s = N_waiting -> acks s = ∅ -> internal s (with_conn s N_down).

Definition step (s s' : Sys) : Prop := external s s' \/ internal s s'.

Definition reaches : Sys -> Prop := reachable (fun s => s = sys_init) step.

(** ** Invariant *)

(** What the worker is doing for call [i]. *)
Inductive role := Role_none | Role_sent | Role_stored | Role_failed.
Definition role_of (w : worker_pc) (i : nat) : role :=
  match w with
  | W_sent j => if decide (j = i) then Role_sent else Role_none
  | W_stored j => if decide (j = i) then Role_stored else Role_none
  | W_failed j => if decide (j = i) then Role_failed else Role_none
  | _ => Role_none
  end.

Record call_ok (r : role) (queued : Prop) (c : Call) : Prop := {
  co_role : match r with
            | Role_none => queued -> sent c = false
            | Role_sent => queued /\ sent c = true /\ stored c = false
            | Role_stored => queued /\ sent c = true
            | Role_failed => queued /\ sent c = false
            end;
  co_queued : queued -> caller c = C_wait_sent /\ closed c = false;
  co_stored : stored c = true -> sent c = true;
  co_closed : closed c = true -> sent c = false;
  co_caller : match caller c with
              | C_wait_sent => queued \/ closed c = true
              | C_wait_reply | C_returned R_timeout | C_returned (R_reply _) => sent c = true
              | C_returned R_not_sent => closed c = true
              | C_returned R_refused => sent c = false
              end;
}.

(** A goroutine past the [Load] works for a message that was sent. *)
Definition ack_ok (cs : gmap nat Call) (k : Ack) : Prop :=
  (ack_at k <> A_start -> exists c, cs !! ack_surb k = Some c /\ sent c = true) /\
  (ack_at k = A_sending -> is_Some (ack_payload k)).

Record sys_ok (s : Sys) : Prop := {
  so_calls : forall i c, calls s !! i = Some c ->
    call_ok (role_of (worker s) i) (i ∈ queue s) c;
  so_known : forall i, calls s !! i = None -> (i ∉ queue s) /\ role_of (worker s) i = Role_none;
  so_nodup : NoDup (queue s);
  so_head : forall i, role_of (worker s) i <> Role_none -> exists q, queue s = i :: q;
}.
Definition acks_ok (s : Sys) : Prop := map_Forall (fun _ k => ack_ok (calls s) k) (acks s).

Lemma sys_init_ok : sys_ok sys_init.
Proof.
  split; cbn; [done| |constructor|done]. intros i _. split; [apply not_elem_of_nil|done].
Qed.

(** A call keeps its place when the message stays where it is in the queue. *)
Lemma call_ok_iff r (P P' : Prop) c : (P <-> P') -> call_ok r P c -> call_ok r P' c.
Proof. intros E []; split; try done; destruct r; try (destruct (caller c) as [| |[]]); tauto. Qed.

(** A step that works on call [i] only. *)
Lemma sys_ok_call s s' i c :
  sys_ok s -> calls s' = <[i := c]> (calls s) ->
  (forall j, j <> i -> role_of (worker s') j = role_of (worker s) j /\
     (j ∈ queue s <-> j ∈ queue s')) ->
  call_ok (role_of (worker s') i) (i ∈ queue s') c -> NoDup (queue s') ->
  (forall j, role_of (worker s') j <> Role_none -> exists q, queue s' = j :: q) ->
  sys_ok s'.
Proof.
  intros Hok Ec Hj Hc Hnd Hh. split; [| |done|done].
  - intros j d. rewrite Ec. destruct (decide (i = j)) as [<-|Hne].
    + rewrite lookup_insert_eq. by intros [= <-].
    + rewrite lookup_insert_ne by done. intros Hd.
      destruct (Hj j (not_eq_sym Hne)) as (-> & Hq).
      by apply (call_ok_iff _ _ _ _ Hq), (so_calls _ Hok).
  - intros j. rewrite Ec. destruct (decide (i = j)) as [<-|Hne]; [by rewrite lookup_insert_eq|].
    rewrite lookup_insert_ne by done. intros Hd.
    destruct (Hj j (not_eq_sym Hne)) as (-> & Hq). rewrite <- Hq. by apply (so_known _ Hok).
Qed.

(** A step of a caller, the collector or an acknowledgement: worker and queue as they are. *)
Lemma call_step_ok s s' i c c' :
  sys_ok s -> queue s' = queue s -> worker s' = worker s -> calls s !! i = Some c ->
  calls s' = <[i := c']> (calls s) ->
  (call_ok (role_of (worker s) i) (i ∈ queue s) c ->
   call_ok (role_of (worker s) i) (i ∈ queue s) c') -> sys_ok s'.
Proof.
  intros Hok Eq Ew Hc Ec Hi. eapply (sys_ok_call s s' i c'); [done|done| | |by rewrite Eq; apply (so_nodup _ Hok)|].
  - intros j _. by rewrite Ew, Eq.
  - rewrite Ew, Eq. by apply Hi, (so_calls _ Hok).
  - rewrite Ew, Eq. apply (so_head _ Hok).
Qed.

(** A step that is about none of them. *)
Lemma sys_ok_frame s s' :
  sys_ok s -> queue s' = queue s -> worker s' = worker s -> calls s' = calls s -> sys_ok s'.
Proof. intros [H1 H2 H3 H4] Eq Ew Ec. split; by rewrite ?Eq, ?Ew, ?Ec. Qed.

Lemma decide_same {A} (i : nat) (x y : A) : (if decide (i = i) then x else y) = x.
Proof. by rewrite decide_True. Qed.

(** Closes the goals about the place of a call from its old place. *)
Ltac place :=
  split; cbn; intros; simplify_eq;
  repeat match goal with
  | H : caller ?c = _ |- context [caller ?c] => rewrite H
  | H : sent ?c = _ |- context [sent ?c] => rewrite H
  | H : stored ?c = _ |- context [stored ?c] => rewrite H
  | H : closed ?c = _ |- context [closed ?c] => rewrite H
  end;
  repeat match goal with H : _ /\ _ |- _ => destruct H end;
  try solve [done | congruence | lia | tauto | intuition (congruence || lia || auto)].

(** A queued message that the worker has not taken up. *)
Lemma unsent_fresh P c :
  call_ok Role_none P c -> P ->
  sent c = false /\ stored c = false /\ caller c = C_wait_sent /\ closed c = false.
Proof.
  intros [H1 H2 H3 H4 H5] HP. specialize (H1 HP). split_and!; try done; try apply (H2 HP).
  destruct (stored c); [|done]. by rewrite (H3 eq_refl) in H1.
Qed.

Lemma worker_steps_ok s s' :
  sys_ok s ->
  (exists i q c, worker s = W_idle /\ queue s = i :: q /\ calls s !! i = Some c /\
     s' = with_worker (with_call s i (set_sent c)) (W_sent i)) \/
  (exists i q, worker s = W_idle /\ queue s = i :: q /\ s' = with_worker s (W_failed i)) \/
  (exists i c, worker s = W_sent i /\ calls s !! i = Some c /\
     s' = with_worker (with_call s i (set_stored c true)) (W_stored i)) ->
  sys_ok s'.
Proof.
  intros Hok [(i & q & c & Hw & Hq & Hc & ->)|[(i & q & Hw & Hq & ->)|(i & c & Hw & Hc & ->)]].
  - pose proof (so_calls _ Hok i c Hc) as Hi. rewrite Hw in Hi. cbn in Hi.
    assert (i ∈ queue s) as Hin by (rewrite Hq; left).
    destruct (unsent_fresh _ _ Hi Hin) as (Hs & Hst & Hcl & Hx).
    eapply (sys_ok_call s _ i); [done|done| | |apply (so_nodup _ Hok)|].
    + intros j Hne. cbn. by rewrite Hw, decide_False.
    + cbn. rewrite decide_same. destruct Hi as [H1 H2 H3 H4 H5]. place.
    + cbn. intros j Hj. case_decide as E; [|done]. subst j. by exists q.
  - assert (i ∈ queue s) as Hin by (rewrite Hq; left).
    destruct (calls s !! i) as [c|] eqn:Hc; [|by destruct (so_known _ Hok i Hc)].
    pose proof (so_calls _ Hok i c Hc) as Hi. rewrite Hw in Hi. cbn in Hi.
    eapply (sys_ok_call s _ i c); [done| | | |apply (so_nodup _ Hok)|].
    + cbn. symmetry. by apply insert_id.
    + intros j Hne. cbn. by rewrite Hw, decide_False.
    + cbn. rewrite decide_same. destruct Hi. split; try done. by auto.
    + cbn. intros j Hj. case_decide as E; [|done]. subst j. by exists q.
  - pose proof (so_calls _ Hok i c Hc) as Hi. rewrite Hw in Hi. cbn in Hi. rewrite decide_same in Hi.
    destruct (so_head _ Hok i) as [q Hq]; [rewrite Hw; cbn; by rewrite decide_same|].
    eapply (sys_ok_call s _ i); [done|done| | |apply (so_nodup _ Hok)|].
    + intros j Hne. cbn. by rewrite Hw; cbn; rewrite !decide_False by done.
    + cbn. rewrite decide_same. destruct Hi as [H1 H2 H3 H4 H5]. place.
    + cbn. intros j Hj. case_decide as E; [|done]. subst j. by exists q.
Qed.

(** The worker ends its work on the head of the queue. *)
Lemma worker_ends_ok s i q c' w :
  sys_ok s -> queue s = i :: q -> (w = W_stored i \/ w = W_failed i) -> worker s = w ->
  (i ∉ q -> call_ok Role_none (i ∈ q) c') ->
  sys_ok (with_queue (with_worker (with_call s i c') W_idle) q).
Proof.
  intros Hok Hq Hw Ew Hi. pose proof (so_nodup _ Hok) as Hnd. rewrite Hq in Hnd.
  apply NoDup_cons in Hnd as [Hni Hnd]. eapply (sys_ok_call s _ i); [done|done| | |done|done].
  - intros j Hne. cbn. split.
    + rewrite Ew. destruct Hw as [-> | ->]; cbn; by rewrite decide_False by congruence.
    + rewrite Hq, elem_of_cons. tauto.
  - cbn. by apply Hi.
Qed.

Lemma notify_ok s i q c :
  sys_ok s -> worker s = W_stored i -> queue s = i :: q -> calls s !! i = Some c ->
  caller c = C_wait_sent ->
  sys_ok (with_queue (with_worker (with_call s i (set_caller c C_wait_reply)) W_idle) q).
Proof.
  intros Hok Hw Hq Hc Hcl. eapply (worker_ends_ok s i q _ (W_stored i)); auto. intros Hni.
  pose proof (so_calls _ Hok i c Hc) as Hi. rewrite Hw in Hi. cbn in Hi. rewrite decide_same in Hi.
  destruct Hi as [H1 H2 H3 H4 H5]. place.
Qed.

Lemma close_ok s i q c :
  sys_ok s -> worker s = W_failed i -> queue s = i :: q -> calls s !! i = Some c ->
  sys_ok (with_queue (with_worker (with_call s i (set_closed c)) W_idle) q).
Proof.
  intros Hok Hw Hq Hc. eapply (worker_ends_ok s i q _ (W_failed i)); auto. intros Hni.
  pose proof (so_calls _ Hok i c Hc) as Hi. rewrite Hw in Hi. cbn in Hi. rewrite decide_same in Hi.
  destruct Hi as [[HP H1] H2 H3 H4 H5]. destruct (H2 HP). place.
Qed.

(** The message is forgotten, by the collector or by onACK. *)
Lemma forget_ok r P c : call_ok r P c -> call_ok r P (set_stored c false).
Proof. intros [H1 H2 H3 H4 H5]. destruct r; place. Qed.

(** A caller in its [select] returns. *)
Lemma returns_ok r (P : Prop) c res :
  caller c = C_wait_reply -> (res = R_timeout \/ exists p, res = R_reply p) ->
  call_ok r P c -> call_ok r P (set_caller c (C_returned res)).
Proof.
  intros Hcl Hres [H1 H2 H3 H4 H5]. rewrite Hcl in H5.
  assert (~ P) by (intros HP; destruct (H2 HP); congruence).
  destruct Hres as [-> |[p ->]], r; place.
Qed.

Lemma internal_ok s s' : sys_ok s -> internal s s' -> sys_ok s'.
Proof.
  intros Hok Hs. destruct Hs as [i q c Hw Hq Hc|i q Hw Hq|i c Hw Hc|i q c Hw Hq Hc Hcl|i q c Hw Hq Hc
    |Hw Hh|i c Hc Hcl Hx|i c Hc Hcl|i c Hc Hst|a i p c|a i p|a i p c Ha Hc|a i|a i p c|a i p c
    |a i p c Ha Hc Hcl|]; try (by eapply (sys_ok_frame s)).
  - eapply worker_steps_ok; [done|]. left. by exists i, q, c.
  - eapply worker_steps_ok; [done|]. right; left. by exists i, q.
  - eapply worker_steps_ok; [done|]. right; right. by exists i, c.
  - by eapply notify_ok.
  - by eapply close_ok.
  - destruct Hok as [F1 F2 F3 F4]. rewrite Hw in *. by split.
  - eapply call_step_ok; [done..|]. intros [H1 H2 H3 H4 H5].
    assert (~ i ∈ queue s) by (intros HP; destruct (H2 HP); congruence).
    destruct (role_of (worker s) i) eqn:E; place.
  - eapply call_step_ok; [done..|]. apply returns_ok; [done|by left].
  - eapply call_step_ok; [done..|]. apply forget_ok.
  - eapply call_step_ok; [done..|]. apply forget_ok.
  - eapply call_step_ok; [done..|]. apply returns_ok; [done|right; by exists p].
Qed.

Lemma external_ok s s' : sys_ok s -> external s s' -> sys_ok s'.
Proof.
  intros Hok [i Hi|i Hi| | | |]; try (by eapply (sys_ok_frame s)).
  - destruct (so_known _ Hok i Hi) as (Hq & Hr).
    eapply (sys_ok_call s _ i new_call); [done|done| | | |].
    + intros j Hne. cbn. split; [done|]. rewrite elem_of_app, list_elem_of_singleton. tauto.
    + cbn. rewrite Hr. split; cbn; try done. left. apply elem_of_app. right. by left.
    + cbn. apply NoDup_app. split_and!; [apply (so_nodup _ Hok)| |apply NoDup_singleton].
      intros j Hj ->%list_elem_of_singleton. done.
    + intros j Hj. destruct (so_head _ Hok j Hj) as [q Hq']. exists (q ++ [i]). cbn. by rewrite Hq'.
  - destruct (so_known _ Hok i Hi) as (Hq & Hr).
    eapply (sys_ok_call s _ i refused_call); [done|done|done| |apply (so_nodup _ Hok)|apply (so_head _ Hok)].
    cbn. rewrite Hr. by split.
Qed.

(** What is sent stays sent. *)
Lemma ack_ok_insert cs i c k :
  (forall d, cs !! i = Some d -> sent d = true -> sent c = true) ->
  ack_ok cs k -> ack_ok (<[i := c]> cs) k.
Proof.
  intros Hc [H1 H2]. split; [|done]. intros Hk. destruct (H1 Hk) as (d & Hd & Hs).
  destruct (decide (i = ack_surb k)) as [->|Hne].
  - exists c. rewrite lookup_insert_eq. eauto.
  - exists d. by rewrite lookup_insert_ne.
Qed.

Lemma acks_step_ok s s' : sys_ok s -> acks_ok s -> step s s' -> acks_ok s'.
Proof.
  intros Hok Ha Hs. assert (forall i c, calls s !! i = Some c -> stored c = true -> sent c = true) as Hss.
  { intros i c Hc. apply (co_stored _ _ _ (so_calls _ Hok i c Hc)). }
  assert (forall a i p q, acks s !! a = Some (mkAck i p q) -> ack_ok (calls s) (mkAck i p q)) as Hk
    by (intros a i p q E; exact (Ha a _ E)).
  unfold acks_ok in *. destruct Hs as [[]|[]]; cbn in *; try exact Ha;
    try (apply map_Forall_delete; exact Ha);
    try (apply map_Forall_insert_2);
    try (apply map_Forall_delete); try (eapply map_Forall_impl; [exact Ha|]; intros; apply ack_ok_insert; [|done]);
    try (intros; simplify_eq; cbn in *; by auto).
  - split; [|done]. intros _. eauto.
  - apply ack_ok_insert; [by intros; simplify_eq|]. split; [|done]. intros _. by apply (Hk _ _ _ _ H).
  - split; [|by eexists]. intros _. by apply (Hk _ _ _ _ H).
Qed.

Lemma blocking_reaches_ok s : reaches s -> sys_ok s /\ acks_ok s.
Proof.
  apply (reachable_ind_inv _ _ (fun s => sys_ok s /\ acks_ok s)); [intros ? ->; split; [apply sys_init_ok|by apply map_Forall_empty]|].
  intros s1 s2 [Hok Ha] Hs. split; [|by eapply acks_step_ok].
  destruct Hs; [by eapply external_ok|by eapply internal_ok].
Qed.

(** The worker leaves only when the session is halted. *)
Lemma gone_halted s : reaches s -> worker s = W_gone -> halted s = true.
Proof.
  apply (reachable_ind_inv _ _ (fun s => worker s = W_gone -> halted s = true)).
  - by intros ? ->.
  - intros s1 s2 IH [[]|[]]; cbn in *; try done; intros; by auto.
Qed.

(** Since the acknowledgements were [R], call [i] lives on later ones: no goroutine
    carries another payload for it, and it has not been given another. *)
Definition heard (i : nat) (R : list (nat * option bytes)) (s : Sys) : Prop :=
  exists l, received s = l ++ R /\
    (forall a p q, acks s !! a = Some (mkAck i p q) -> (i, p) ∈ l) /\
    (forall c p, calls s !! i = Some c -> caller c = C_returned (R_reply p) -> (i, Some p) ∈ l).

(** What is looked up in a map after an insertion or a deletion. *)
Ltac lookups :=
  repeat match goal with
  | H : <[_ := _]> _ !! _ = Some _ |- _ => apply lookup_insert_Some in H as [[? ?]|[? ?]]
  | H : delete _ _ !! _ = Some _ |- _ => apply lookup_delete_Some in H as [? ?]
  end; simplify_eq.

Lemma heard_kept i R s s' : heard i R s -> step s s' -> heard i R s'.
Proof.
  intros (l & El & Ha & Hc) Hs.
  destruct Hs as [[j|j|a j p| | |]|[]]; try (by exists l);
    try (exists l; split; [done|]; cbn in *; split; intros; lookups; cbn in *; simplify_eq; by eauto).
  exists ((j, p) :: l). cbn. split; [by rewrite El|]. split; intros; lookups;
    [by left|right; eauto..].
Qed.

Lemma heard_reaches i s : reaches s -> heard i [] s.
Proof.
  apply reachable_ind_inv; [|intros s1 s2; apply heard_kept].
  intros ? ->. exists []. split; [done|]. split; intros; by lookups.
Qed.

(** ** Termination *)

Definition call_rank (c : Call) : nat :=
  match caller c with C_wait_sent => 2 | C_wait_reply => 1 | C_returned _ => 0 end +
  (if stored c then 1 else 0).
Definition ack_rank (k : Ack) : nat :=
  match ack_at k with A_start => 4 | A_loaded => 3 | A_deleted => 2 | A_sending => 1 end.
Definition work_rank (w : worker_pc) (n : nat) : nat :=
  match w with
  | W_idle => 5 * n + 4
  | W_sent _ | W_failed _ | W_gone => 5 * n + 3
  | W_stored _ => 5 * n + 1
  end.
Definition conn_rank (n : conn_pc) : nat := match n with N_waiting => 1 | _ => 0 end.
Definition rank (s : Sys) : nat :=
  map_sum call_rank (calls s) + work_rank (worker s) (length (queue s)) +
  map_sum ack_rank (acks s) + conn_rank (conn s).

Lemma call_rank_forget c : (call_rank (set_stored c false) <= call_rank c)%nat.
Proof. unfold call_rank. cbn. lia. Qed.

(** What a step does to the sums. *)
Ltac sums :=
  repeat match goal with
  | H : ?m !! ?i = Some ?x |- context [map_sum ?f (<[?i := ?y]> ?m)] =>
      let E := fresh "E" in pose proof (map_sum_insert f m i x y H) as E;
      generalize dependent (map_sum f (<[i := y]> m)); intros
  | H : ?m !! ?i = Some ?x |- context [map_sum ?f (delete ?i ?m)] =>
      let E := fresh "E" in pose proof (map_sum_delete f m i x H) as E;
      generalize dependent (map_sum f (delete i m)); intros
  end.

Lemma internal_rank s s' : internal s s' -> (rank s' < rank s)%nat.
Proof.
  intros []; try pose proof (call_rank_forget c) as Hf; unfold rank; cbn; sums;
    unfold call_rank, ack_rank in *; cbn in *;
    repeat match goal with
    | H : caller _ = _, E : _ |- _ => rewrite H in E
    | H : stored _ = _, E : _ |- _ => rewrite H in E
    | H : worker s = _ |- _ => rewrite H
    | H : conn s = _ |- _ => rewrite H
    | H : queue s = _ |- _ => rewrite H
    end; cbn in *; lia.
Qed.

(** ** The end of a call *)

(** While a call is queued, an unblocked worker can go on. *)
Lemma queued_worker_moves s i :
  sys_ok s -> i ∈ queue s -> worker s <> W_gone -> exists s', internal s s'.
Proof.
  intros Hok Hi Hg.
  assert (forall j, role_of (worker s) j <> Role_none -> exists d, calls s !! j = Some d) as Hk.
  { intros j Hj. destruct (calls s !! j) eqn:E; [by eexists|].
    by destruct (so_known _ Hok j E) as (_ & ?). }
  destruct (worker s) as [|j|j|j|] eqn:Ew; [| | | |done].
  - destruct (queue s) as [|j q] eqn:Eq; [by apply not_elem_of_nil in Hi|].
    eexists. by eapply i_send_fails.
  - destruct (Hk j) as [d Hd]; [cbn; by rewrite decide_same|]. eexists. by eapply i_store.
  - destruct (Hk j) as [d Hd]; [cbn; by rewrite decide_same|].
    destruct (so_head _ Hok j) as [q Hq]; [rewrite Ew; cbn; by rewrite decide_same|].
    eexists. eapply i_notify; [done|done|done|].
    apply (co_queued _ _ _ (so_calls _ Hok j d Hd)). rewrite Hq. by left.
  - destruct (Hk j) as [d Hd]; [cbn; by rewrite decide_same|].
    destruct (so_head _ Hok j) as [q Hq]; [rewrite Ew; cbn; by rewrite decide_same|].
    eexists. by eapply i_close.
Qed.

(** A call that the internal steps cannot move. *)
Lemma stuck_call s i c :
  sys_ok s -> stuck internal s -> calls s !! i = Some c ->
  returned c = true \/ worker s = W_gone /\ i ∈ queue s /\ caller c = C_wait_sent /\ sent c = false.
Proof.
  intros Hok Hst Hc. unfold returned. pose proof (so_calls _ Hok i c Hc) as Hi.
  destruct (caller c) eqn:Ecl; [| |by left].
  - right. pose proof (co_caller _ _ _ Hi) as Hq. rewrite Ecl in Hq. destruct Hq as [Hq|Hx].
    + destruct (worker s) eqn:Ew; try done;
        try (destruct (queued_worker_moves s i Hok Hq) as [s' Hs']; [by rewrite Ew|];
          by apply Hst in Hs').
      split_and!; [done..|]. by apply (co_role _ _ _ Hi).
    + destruct (Hst _ (i_not_sent s i c Hc Ecl Hx)).
  - destruct (Hst _ (i_timeout s i c Hc Ecl)).
Qed.

(** A goroutine that cannot move has a reply nobody takes. *)
Lemma stuck_ack s a k :
  sys_ok s -> acks_ok s -> stuck internal s -> acks s !! a = Some k ->
  ack_at k = A_sending /\ exists c, calls s !! ack_surb k = Some c /\ sent c = true /\
    (caller c = C_returned R_timeout \/ exists p, caller c = C_returned (R_reply p)).
Proof.
  intros Hok Ha Hst Hk. destruct (Ha a k Hk) as [H1 H2]. destruct k as [i p []]; cbn in *.
  - destruct (calls s !! i) as [c|] eqn:Hc; [destruct (stored c) eqn:Es|].
    + destruct (Hst _ (i_load s a i p c Hk Hc Es)).
    + destruct (Hst _ (i_load_fails s a i p Hk ltac:(intros; congruence))).
    + destruct (Hst _ (i_load_fails s a i p Hk ltac:(intros; congruence))).
  - destruct H1 as (c & Hc & _); [done|]. destruct (Hst _ (i_delete s a i p c Hk Hc)).
  - destruct H1 as (c & Hc & _); [done|]. destruct p as [p|]; [|destruct (Hst _ (i_discard s a i Hk))].
    destruct (returned c) eqn:Er; [destruct (Hst _ (i_lookup_fails s a i p c Hk Hc Er))|
      destruct (Hst _ (i_lookup s a i p c Hk Hc Er))].
  - split; [done|]. destruct H1 as (c & Hc & Hs); [done|]. exists c. split_and!; [done..|].
    pose proof (co_caller _ _ _ (so_calls _ Hok i c Hc)) as E.
    destruct (stuck_call s i c Hok Hst Hc) as [Hr|(_ & _ & _ & Hn)]; [|congruence].
    unfold returned in Hr. destruct (caller c) as [| |[]]; try done; [right; by eexists|by left| |];
      [by rewrite (co_closed _ _ _ (so_calls _ Hok i c Hc) E) in Hs|congruence].
Qed.

(** C4. What a blocking send returns is true, for any number of callers in any
    interleaving with the worker, the goroutines of any number of acknowledgements
    (duplicates included), the connection, the collector and a shutdown: a reply came in an
    acknowledgement of the call's own SURB and the message was sent, a timeout is only
    reported for a message that was sent, ErrMessageNotSent and the queue's error only for
    one that was not. *)
Theorem blocking_answers_true s i c :
  reaches s -> calls s !! i = Some c ->
  (forall p, caller c = C_returned (R_reply p) -> sent c = true /\ (i, Some p) ∈ received s) /\
  (caller c = C_returned R_timeout -> sent c = true) /\
  (caller c = C_returned R_not_sent \/ caller c = C_returned R_refused -> sent c = false).
Proof.
  intros Hr Hc. destruct (blocking_reaches_ok s Hr) as [Hok _].
  destruct (heard_reaches i s Hr) as (l & El & _ & Hl). rewrite app_nil_r in El.
  destruct (so_calls _ Hok i c Hc) as [H1 H2 H3 H4 H5]. split_and!.
  - intros p E. rewrite El. split; [by rewrite E in H5|by eapply Hl].
  - intros E. by rewrite E in H5.
  - intros [E|E]; rewrite E in H5; by auto.
Qed.


(** ** The hazards *)

(** What every step keeps is kept for ever. *)
Lemma kept_forever (I : Sys -> Prop) s s' :
  (forall s s', I s -> step s s' -> I s') -> I s -> rtc step s s' -> I s'.
Proof. intros Hk Hi Hs. induction Hs; eauto. Qed.

(** A connection that waits for a goroutine in a send whose receiver has returned. *)
Definition teardown_blocked (a i : nat) (r : result) (s : Sys) : Prop :=
  conn s = N_waiting /\ (exists p, acks s !! a = Some (mkAck i p A_sending)) /\
  exists c, calls s !! i = Some c /\ caller c = C_returned r.

(** A caller whose message nobody will send. *)
Definition caller_blocked (i : nat) (s : Sys) : Prop :=
  worker s = W_gone /\ exists c, calls s !! i = Some c /\ caller c = C_wait_sent /\ closed c = false.

(** The state of one call after a step that may be about another. *)
Lemma insert_cases {A} (m : gmap nat A) i j c d :
  m !! i = Some c -> <[j := d]> m !! i = Some (if decide (j = i) then d else c).
Proof.
  intros Hc. case_decide as E; [subst; apply lookup_insert_eq|by rewrite lookup_insert_ne].
Qed.

(** A step leaves call [i] alone, or is about it. *)
Ltac about i Hc :=
  cbn [calls with_call with_worker with_queue with_conn with_acks];
  try (rewrite (insert_cases _ i _ _ _ Hc); case_decide as Eij; [subst|]; simplify_eq);
  eexists; (split; [done|]).

Lemma returned_kept i r s s' :
  (exists c, calls s !! i = Some c /\ caller c = C_returned r) -> step s s' ->
  exists c, calls s' !! i = Some c /\ caller c = C_returned r.
Proof.
  intros (c & Hc & Hr) Hs. destruct Hs as [[]|[]]; try congruence; about i Hc; cbn in *; congruence.
Qed.

Lemma teardown_blocked_kept a i r s s' :
  teardown_blocked a i r s -> step s s' -> teardown_blocked a i r s'.
Proof.
  intros (Hn & (p & Ha) & Hc) Hs. split_and!; [| |by eapply returned_kept].
  - destruct Hs as [[]|[]]; cbn; try congruence.
    match goal with H : acks s = ∅ |- _ => rewrite H in Ha end. by rewrite lookup_empty in Ha.
  - exists p. destruct Hc as (c & Hc & Hr). destruct Hs as [[]|[]]; cbn; try done;
      rewrite ?lookup_insert_ne, ?lookup_delete_ne by (intros ->; simplify_eq; congruence); done.
Qed.

Lemma caller_blocked_kept i s s' : caller_blocked i s -> step s s' -> caller_blocked i s'.
Proof.
  intros [Hw (c & Hc & Hcl & Hx)] Hs. split.
  - destruct Hs as [[]|[]]; cbn in *; congruence.
  - destruct Hs as [[]|[]]; try congruence; about i Hc; cbn in *; split; congruence.
Qed.

(** The runs to the hazards, for one blocking send. *)
Ltac run_init := eexists; split; [exists sys_init; split; [done|]|].
Tactic Notation "ext" uconstr(c) := eapply rtc_l; [left; eapply c; done|].
Tactic Notation "int" uconstr(c) := eapply rtc_l; [right; eapply c; done|].

Lemma late_reply_reached (p : bytes) : exists s, reaches s /\ teardown_blocked 0 0 R_timeout s.
Proof.
  run_init.
  - ext e_connects. ext (e_call _ 0%nat). int i_send. int i_store. int i_notify.
    ext (e_ack _ 0%nat 0%nat (Some p)). int (i_load _ 0%nat). int (i_delete _ 0%nat).
    int (i_lookup _ 0%nat). int (i_timeout _ 0%nat). ext e_disconnects. apply rtc_refl.
  - split; [done|]. split; by eexists.
Qed.

Lemma duplicate_reply_reached p : exists s, reaches s /\ teardown_blocked 1 0 (R_reply p) s.
Proof.
  run_init.
  - ext e_connects. ext (e_call _ 0%nat). int i_send. int i_store. int i_notify.
    ext (e_ack _ 0%nat 0%nat (Some p)). ext (e_ack _ 1%nat 0%nat (Some p)).
    int (i_load _ 0%nat). int (i_load _ 1%nat). int (i_delete _ 0%nat). int (i_delete _ 1%nat).
    int (i_lookup _ 0%nat). int (i_lookup _ 1%nat). int (i_reply _ 0%nat). ext e_disconnects.
    apply rtc_refl.
  - split; [done|]. split; by eexists.
Qed.

Lemma caller_blocked_reached : exists s, reaches s /\ caller_blocked 0 s.
Proof.
  run_init.
  - ext (e_call _ 0%nat). ext e_halt. int i_worker_halts. apply rtc_refl.
  - split; [done|]. by eexists.
Qed.

Lemma reply_lost_reached p :
  exists s c, reaches s /\ received s = [(0%nat, Some p)] /\ acks s = ∅ /\
    calls s !! 0%nat = Some c /\ sent c = true /\ returned c = false.
Proof.
  eexists _, _. split; [exists sys_init; split; [done|]|].
  - ext e_connects. ext (e_call _ 0%nat). int i_send. ext (e_ack _ 0%nat 0%nat (Some p)).
    eapply rtc_l; [right; eapply (i_load_fails _ 0%nat); [done|by intros ? [= <-]]|].
    apply rtc_refl.
  - by split_and!.
Qed.

(** C39. Three ways in which a blocking send goes wrong. A reply that comes as its caller
    times out, and a second copy of a reply whose first is being delivered, leave their
    goroutine for ever in a send on a channel whose receiver has returned: a connection
    that ends then waits for it for ever, and is never down to be made again. A shutdown
    leaves the callers whose messages were not sent yet waiting for ever. And a reply that
    comes before the worker has stored the SURB is dropped: unless another copy of it
    comes later, its caller never gets one. *)
Theorem blocking_hazards :
  (forall p : bytes, exists s, reaches s /\ forall s', rtc step s s' -> conn s' = N_waiting /\
     exists c, calls s' !! 0%nat = Some c /\ caller c = C_returned R_timeout) /\
  (forall p : bytes, exists s, reaches s /\ forall s', rtc step s s' -> conn s' = N_waiting /\
     exists c, calls s' !! 0%nat = Some c /\ caller c = C_returned (R_reply p)) /\
  (exists s, reaches s /\ halted s = true /\ forall s', rtc step s s' ->
     exists c, calls s' !! 0%nat = Some c /\ caller c = C_wait_sent) /\
  (forall p, exists s c, reaches s /\ received s = [(0%nat, Some p)] /\
     calls s !! 0%nat = Some c /\ sent c = true /\ returned c = false /\
     forall s' c' p', rtc step s s' -> calls s' !! 0%nat = Some c' ->
     caller c' = C_returned (R_reply p') ->
     exists l, received s' = l ++ received s /\ (0%nat, Some p') ∈ l).
Proof.
  split_and!.
  - intros p. destruct (late_reply_reached p) as (s & Hr & Hb). exists s. split; [done|].
    intros s' Hs. by destruct (kept_forever _ s s' (teardown_blocked_kept 0 0 _) Hb Hs) as (? & _ & ?).
  - intros p. destruct (duplicate_reply_reached p) as (s & Hr & Hb). exists s. split; [done|].
    intros s' Hs. by destruct (kept_forever _ s s' (teardown_blocked_kept 1 0 _) Hb Hs) as (? & _ & ?).
  - destruct caller_blocked_reached as (s & Hr & Hb). exists s. split; [done|].
    split; [by apply gone_halted, Hb|]. intros s' Hs.
    destruct (kept_forever _ s s' (caller_blocked_kept 0) Hb Hs) as (_ & c & Hc & Hcl & _).
    by exists c.
  - intros p. destruct (reply_lost_reached p) as (s & c & Hr & Er & Ea & Hc & Hs & Hret).
    exists s, c. split_and!; [done..|]. intros s' c' p' Hst Hc' Hp.
    destruct (kept_forever _ s s' (heard_kept 0 (received s))) as (l & El & _ & Hl); [|done|eauto].
    exists []. split; [done|]. rewrite Ea. split; [intros; by lookups|].
    intros d q Hd Hq. simplify_eq. unfold returned in Hret. by rewrite Hq in Hret.
Qed.

(** One blocking send that gets its reply. *)
#[local] Definition ex_answered : Sys :=
  mkSys [] W_idle {[0%nat := mkCall (C_returned (R_reply [])) true false false]} ∅ N_up
    [(0%nat, Some [])] false.

#[local] Lemma ex_answered_reached : reaches ex_answered.
Proof.
  exists sys_init. split; [done|]. ext e_connects. ext (e_call _ 0%nat). int i_send. int i_store.
  int i_notify. ext (e_ack _ 0%nat 0%nat (Some [])). int (i_load _ 0%nat). int (i_delete _ 0%nat).
  int (i_lookup _ 0%nat). int (i_reply _ 0%nat). apply rtc_refl.
Qed.

Lemma blocking_answers_true_witness :
  exists c, calls ex_answered !! 0%nat = Some c /\ sent c = true /\
    (0%nat, Some []) ∈ received ex_answered.
Proof.
  exists (mkCall (C_returned (R_reply [])) true false false). split; [reflexivity|].
  destruct (blocking_answers_true ex_answered 0 _ ex_answered_reached eq_refl) as (H & _).
  by apply H.
Defined.

#[local] Lemma ex_answered_stuck : stuck internal ex_answered.
Proof.
  intros s' []; cbn in *; simplify_eq;
    repeat match goal with
    | H : {[_ := _]} !! _ = Some _ |- _ => apply lookup_singleton_Some in H as [? ?]; simplify_eq
    | H : _ !! _ = Some _ |- _ => by rewrite lookup_empty in H
    end; done.
Qed.

