(* ===== verification/EventSink.v ===== *)
(** The two pumps of a session (eventSinkWorker, garbageCollectionWorker of session.go):
    the events of the callbacks go through an unbounded channel to EventSink, where the
    application takes them when it likes; the collector runs at every tick of its timer
    until the session is halted. *)

From S2P Require Import Prelude GoStd PkiClient Queue Message Session.

(** ** eventSinkWorker *)

Inductive sink_pc :=
  | K_wait                 (* the outer select *)
  | K_offer (e : Event)    (* the inner select: an event out of the channel, not taken yet *)
  | K_gone.

Record Sink := mkSink {
  eventCh : list Event;      (* the unbounded channel *)
  pump : sink_pc;
  taken : list Event;        (* what the application has received *)
  sink_halted : bool;
}.

Definition sink_init : Sink := mkSink [] K_wait [] false.

Inductive sink_step (emitted : list Event) (s : Sink) : list Event -> Sink -> Prop :=
  | k_emit e : sink_step emitted s (emitted ++ [e])
      (mkSink (eventCh s ++ [e]) (pump s) (taken s) (sink_halted s))
  | k_halt : sink_step emitted s emitted (mkSink (eventCh s) (pump s) (taken s) true)
  | k_out e q : pump s = K_wait -> eventCh s = e :: q ->
      sink_step emitted s emitted (mkSink q (K_offer e) (taken s) (sink_halted s))
  | k_receive e : pump s = K_offer e ->
      sink_step emitted s emitted (mkSink (eventCh s) K_wait (taken s ++ [e]) (sink_halted s))
  | k_gone : sink_halted s = true -> pump s <> K_gone ->
      sink_step emitted s emitted (mkSink (eventCh s) K_gone (taken s) true).

Definition sink_reaches : list Event * Sink -> Prop :=
  reachable (fun x => x = ([], sink_init)) (fun x y => sink_step x.1 x.2 y.1 y.2).

Definition in_hand (p : sink_pc) : list Event :=
  match p with K_offer e => [e] | _ => [] end.

(** While the pump is up everything emitted is taken, in hand or in the channel, in this
    order; when it is gone, at most the event in hand is missing. *)
Definition sink_ok (x : list Event * Sink) : Prop :=
  let '(emitted, s) := x in
  match pump s with
  | K_gone => sink_halted s = true /\ exists lost, (length lost <= 1)%nat /\
                emitted = taken s ++ lost ++ eventCh s
  | p => emitted = taken s ++ in_hand p ++ eventCh s
  end.

Lemma sink_step_ok em s em' s' :
  sink_ok (em, s) -> sink_step em s em' s' -> sink_ok (em', s').
Proof.
  unfold sink_ok. intros Hok [e| |e q Hp Hq|e Hp|Hh Hp]; cbn.
  - destruct (pump s); cbn in *.
    + by rewrite Hok, <- app_assoc.
    + by rewrite Hok, <- app_assoc.
    + destruct Hok as (Hh & lost & Hl & ->). split; [done|]. exists lost.
      by rewrite <- !app_assoc.
  - destruct (pump s); cbn in *; [done..|]. by destruct Hok.
  - rewrite Hp in Hok. cbn in *. by rewrite Hok, Hq.
  - rewrite Hp in Hok. cbn in *. by rewrite Hok, <- app_assoc.
  - split; [done|]. destruct (pump s) as [|e|]; cbn in *; [| |done].
    + exists []. split; [cbn; lia|done].
    + exists [e]. split; [cbn; lia|done].
Qed.

Lemma sink_reaches_ok x : sink_reaches x -> sink_ok x.
Proof.
  apply reachable_ind_inv; [by intros ? ->|].
  intros [em s] [em' s'] Hok Hs. by eapply sink_step_ok.
Qed.

(** The application receives the events of a session in the order in which they were
    emitted, each once, whatever the interleaving; none is lost before the session is
    halted, and at most one of those already taken out of the channel afterwards. *)
Theorem events_in_order emitted s :
  sink_reaches (emitted, s) ->
  taken s `prefix_of` emitted /\
  exists lost, emitted = taken s ++ lost ++ eventCh s /\ (length lost <= 1)%nat /\
    (sink_halted s = false -> lost = in_hand (pump s)).
Proof.
  intros Hok%sink_reaches_ok. unfold sink_ok in Hok.
  destruct (pump s) as [|e|] eqn:Hp; cbn in Hok.
  - rewrite Hok. split; [by eexists|]. exists []. split_and!; [done|cbn; lia|done].
  - rewrite Hok. split; [by eexists|]. exists [e]. split_and!; [done|cbn; lia|done].
  - destruct Hok as (Hh & lost & Hl & ->). split; [by eexists|]. exists lost.
    split_and!; [done..|]. by rewrite Hh.
Qed.

Lemma events_in_order_witness :
  let e1 := ConnectionStatusEvent true None in
  let e2 := ConnectionStatusEvent false None in
  let s := mkSink [e2] K_wait [e1] false in
  sink_reaches ([e1; e2], s) /\ [e1] `prefix_of` [e1; e2].
Proof.
  intros e1 e2 s. assert (sink_reaches ([e1; e2], s)) as Hr.
  { exists ([], sink_init). split; [done|].
    eapply (rtc_l _ _ (_, _)); [exact (k_emit [] _ e1)|].
    eapply (rtc_l _ _ (_, _)); [exact (k_emit [e1] _ e2)|].
    eapply (rtc_l _ _ (_, _)); [by eapply k_out|].
    eapply (rtc_l _ _ (_, _)); [by eapply k_receive|]. apply rtc_refl. }
  split; [exact Hr|]. exact (proj1 (events_in_order _ _ Hr)).
Defined.

(** ** garbageCollectionWorker *)

Section Collector.
Context {M : Type} `{SessionEnv M} {Q : Type} `{EgressQueue Q (option nat)}.
Context (RoundTripTimeSlop : Duration).

(** The select: a tick of the timer, which is reset after the collection, or the halt;
    between two ticks the session does what it does. *)
Inductive tick_event := Tick | Halted.
Fixpoint garbageCollectionWorker (between : nat -> Session M Q -> Session M Q) (n : nat)
    (evs : list tick_event) (s : Session M Q) : Session M Q :=
  match evs with
  | [] | Halted :: _ => s
  | Tick :: evs =>
      garbageCollectionWorker between (S n) evs
        (garbageCollect RoundTripTimeSlop (between n s))
  end.

(** After the halt nothing is collected. *)
Lemma collector_halts between n evs evs' s :
  garbageCollectionWorker between n (evs ++ Halted :: evs') s =
  garbageCollectionWorker between n evs s.
Proof.
  revert n s. induction evs as [|[] evs IH]; intros n s; cbn; [done|apply IH|done].
Qed.
End Collector.
