(* ===== verification/Proxy.v ===== *)
(** The upstream proxy (internal/proxy/proxy.go): validation of the configuration
    and the dialer it yields, with the credentials that isolate Tor streams. Hashing,
    the address check and the file system are libraries, parameters of the model. *)

From S2P Require Import Prelude GoStd.

Definition typeNone : string := "none".
Definition typeTorSocks5 : string := "tor+socks5".
Definition typeSocks5 : string := "socks5".
Definition netUnix : string := "unix".
Definition netTCP : string := "tcp".
Definition maxSocks5AuthLen : Z := 255.

(** [proxy.Auth] of golang.org/x/net. *)
Record Auth := mkAuth { AuthUser : string; AuthPassword : string }.

Record Config := mkConfig {
  Type_ : string;
  Network : string;
  Address : string;
  User : string;
  Password : string;
  auth : option Auth;
}.

#[global] Instance Auth_eq_dec : EqDecision Auth.
Proof. solve_decision. Defined.
#[global] Instance proxy_Config_eq_dec : EqDecision Config.
Proof. solve_decision. Defined.

Inductive proxy_error :=
  | UserTooLong | PasswordTooLong | UserAndPassword | TorWithUser
  | AddressInvalid (e : string) | AddressStat (e : string) | AddressNotSocket
  | NetworkInvalid (n : string) | TypeInvalid (t : string).

(** [contextSOCKS5] *)
Record contextSOCKS5 := mkSOCKS5 {
  proxyNet : string; proxyAddr : string; proxyAuth : option Auth
}.

Definition string_len (s : string) : Z := Z.of_nat (String.length s).

#[local] Set Default Proof Using "Type".

Section Proxy.
(** The Unicode tables behind strings.ToLower; [utils.EnsureAddrIPPort]; [os.Lstat]
    with the socket bit of the mode; [sha512.Sum512_256]. *)
Context (unicode_ToLower : string -> string).
Context (EnsureAddrIPPort : string -> option string).
Context (Lstat_is_socket : string -> string + bool).
Context (Sum512_256 : bytes -> bytes).
(** The process id and the time at start-up. *)
Context (pid now : Z).

#[local] Abbreviation ToLower := (ToLower unicode_ToLower).

Definition with_type (c : Config) (t : string) : Config :=
  mkConfig t (Network c) (Address c) (User c) (Password c) (auth c).
Definition with_auth (c : Config) (a : option Auth) : Config :=
  mkConfig (Type_ c) (Network c) (Address c) (User c) (Password c) a.
Definition with_network (c : Config) (n : string) : Config :=
  mkConfig (Type_ c) n (Address c) (User c) (Password c) (auth c).

(** The check of the network and of the address. *)
Definition validate_network (c : Config) : option proxy_error :=
  if String.eqb (Network c) netTCP then AddressInvalid <$> EnsureAddrIPPort (Address c)
  else if String.eqb (Network c) netUnix then
    match Lstat_is_socket (Address c) with
    | inl e => Some (AddressStat e)
    | inr is_socket => if is_socket then None else Some AddressNotSocket
    end
  else Some (NetworkInvalid (Network c)).

(** The method changes its receiver also when it fails. *)
Definition FixupAndValidate (c : Config) : option proxy_error * Config :=
  let c := with_type c (ToLower (Type_ c)) in
  if String.eqb (Type_ c) "" then (None, with_type c typeNone)
  else if String.eqb (Type_ c) typeNone then (None, c)
  else if String.eqb (Type_ c) typeSocks5 || String.eqb (Type_ c) typeTorSocks5 then
    let uLen := string_len (User c) in
    let pLen := string_len (Password c) in
    if maxSocks5AuthLen <? uLen then (Some UserTooLong, c)
    else if maxSocks5AuthLen <? pLen then (Some PasswordTooLong, c)
    else if (negb (uLen =? 0) && (pLen =? 0)) || ((uLen =? 0) && negb (pLen =? 0)) then
      (Some UserAndPassword, c)
    else if negb (uLen =? 0) && negb (pLen =? 0) && String.eqb (Type_ c) typeTorSocks5 then
      (Some TorWithUser, c)
    else
      let c := if negb (uLen =? 0) && negb (pLen =? 0)
               then with_auth c (Some (mkAuth (User c) (Password c))) else c in
      let c := with_network c (ToLower (Network c)) in
      (validate_network c, c)
  else (Some (TypeInvalid (Type_ c)), c).

(** The isolation tag of the process, set at start-up. *)
Definition be64 (v : Z) : bytes := be32 (Z.shiftr v 32) ++ be32 v.
Definition torSocks5ProcessIsolation : string :=
  "hashcloak/Meson-client:" +:+
  hex_EncodeToString (take 8 (Sum512_256 (be64 (u64 pid) ++ be64 (u64 now)))) +:+ ":".

Definition newContextSOCKS5 (c : Config) (tag : string) : contextSOCKS5 :=
  let a :=
    if String.eqb (Type_ c) typeTorSocks5 then
      let sum := Sum512_256 (bytes_of_string tag) in
      Some (mkAuth (torSocks5ProcessIsolation +:+ hex_EncodeToString (take 16 sum))
                   (String (Ascii.ascii_of_nat 0) EmptyString))
    else auth c in
  mkSOCKS5 (Network c) (Address c) a.

(** [None] is the nil dial function: connections are direct. *)
Definition ToDialContext (c : Config) (tag : string) : outcome proxy_error (option contextSOCKS5) :=
  if String.eqb (Type_ c) typeNone then Ok None
  else if String.eqb (Type_ c) typeSocks5 || String.eqb (Type_ c) typeTorSocks5 then
    Ok (Some (newContextSOCKS5 c tag))
  else Panic.

(** ** Facts *)

Lemma string_map_idem f s :
  (forall c, f (f c) = f c) -> string_map f (string_map f s) = string_map f s.
Proof. intros Hf. induction s as [|c s IH]; cbn; [done|]. by rewrite Hf, IH. Qed.

Lemma length_append (s t : string) :
  String.length (s +:+ t) = (String.length s + String.length t)%nat.
Proof. induction s as [|c s IH]; [done|]. exact (f_equal S IH). Qed.

(** What a valid configuration looks like after the call. *)
Record proxy_ok (c : Config) : Prop := {
  px_type : Type_ c = typeNone \/
    (Type_ c = typeSocks5 \/ Type_ c = typeTorSocks5) /\ validate_network c = None;
  px_tor : Type_ c = typeTorSocks5 -> string_len (User c) = 0;
  px_auth : Type_ c = typeSocks5 ->
    if string_len (User c) =? 0 then auth c = None /\ string_len (Password c) = 0
    else auth c = Some (mkAuth (User c) (Password c)) /\
      0 < string_len (User c) <= 255 /\ 0 < string_len (Password c) <= 255;
}.

Lemma validate_network_auth c a : validate_network (with_auth c a) = validate_network c.
Proof. done. Qed.

Lemma FixupAndValidate_ok c c' :
  auth c = None -> FixupAndValidate c = (None, c') -> proxy_ok c'.
Proof.
  intros Ha. unfold FixupAndValidate. set (d := with_type c (ToLower (Type_ c))).
  destruct (String.eqb_spec (Type_ d) "").
  { intros [= <-]. split; [by left|done..]. }
  destruct (String.eqb_spec (Type_ d) typeNone) as [E|].
  { intros [= <-]. split; [by left|by rewrite E..]. }
  destruct (String.eqb (Type_ d) typeSocks5 || String.eqb (Type_ d) typeTorSocks5) eqn:Et; [|done].
  assert (Type_ d = typeSocks5 \/ Type_ d = typeTorSocks5) as Ht.
  { apply orb_true_iff in Et as [E|E]; apply String.eqb_eq in E; tauto. }
  assert (0 <= string_len (User d) /\ 0 <= string_len (Password d)) by (unfold string_len; lia).
  unfold maxSocks5AuthLen. destruct (Z.ltb_spec 255 (string_len (User d))); [done|].
  destruct (Z.ltb_spec 255 (string_len (Password d))); [done|].
  destruct (Z.eqb_spec (string_len (User d)) 0) as [Hu|Hu],
    (Z.eqb_spec (string_len (Password d)) 0) as [Hp|Hp]; cbn [negb andb orb]; try done.
  - intros [= Hv <-]. split; cbn [with_network Type_ User Password auth]; [by right|done|].
    intros _. rewrite Hu. split; [exact Ha|done].
  - destruct (String.eqb_spec (Type_ d) typeTorSocks5) as [|Hn]; [done|].
    intros [= Hv <-]. split; cbn [with_network with_auth Type_ User Password auth];
      [by right|by intros|].
    intros _. rewrite (proj2 (Z.eqb_neq _ _) Hu). split_and!; done || lia.
Qed.

Lemma ToDialContext_valid c tag :
  proxy_ok c ->
  (Type_ c = typeNone /\ ToDialContext c tag = Ok None) \/
  ((Type_ c = typeSocks5 \/ Type_ c = typeTorSocks5) /\ validate_network c = None /\
   ToDialContext c tag = Ok (Some (newContextSOCKS5 c tag))).
Proof.
  intros [[E|[[E|E] Hv]] _ _]; unfold ToDialContext; rewrite !E; [by left|right..].
  - split_and!; [by left|done..].
  - split_and!; [by right|done..].
Qed.

Lemma network_checked c :
  validate_network c = None ->
  Network c = netTCP /\ EnsureAddrIPPort (Address c) = None \/
  Network c = netUnix /\ Lstat_is_socket (Address c) = inr true.
Proof.
  unfold validate_network. destruct (String.eqb_spec (Network c) netTCP).
  { intros E%fmap_None. by left. }
  destruct (String.eqb_spec (Network c) netUnix); [|done].
  destruct (Lstat_is_socket (Address c)) as [|[]]; [done|by right|done].
Qed.

Lemma FixupAndValidate_frame c :
  let c' := snd (FixupAndValidate c) in
  Address c' = Address c /\ User c' = User c /\ Password c' = Password c.
Proof. unfold FixupAndValidate. repeat case_match; cbn; done. Qed.

Lemma string_len_0 s : string_len s = 0 <-> s = "".
Proof. unfold string_len. destruct s; cbn; split; done || lia. Qed.

Lemma string_append_inj_l (p s t : string) : p +:+ s = p +:+ t -> s = t.
Proof. induction p as [|a p IH]; intros E; [exact E|]. injection E as E. exact (IH E). Qed.

(** What the dialer of a valid configuration authenticates with. *)
Definition auth_legal (a : Auth) : Prop :=
  1 <= string_len (AuthUser a) <= 255 /\ 1 <= string_len (AuthPassword a) <= 255.

Definition tor_auth (tag : string) : Auth :=
  mkAuth (torSocks5ProcessIsolation +:+
            hex_EncodeToString (take 16 (Sum512_256 (bytes_of_string tag))))
         (String (Ascii.ascii_of_nat 0) EmptyString).

Hypothesis Sum512_256_size : forall b, Datatypes.length (Sum512_256 b) = 32%nat.

Lemma tor_user_length tag : string_len (AuthUser (tor_auth tag)) = 72.
Proof using Type Sum512_256_size.
  unfold string_len, tor_auth, torSocks5ProcessIsolation. cbn [AuthUser].
  rewrite !length_append, !length_hex_EncodeToString, !length_take, !Sum512_256_size. done.
Qed.

Lemma tor_auth_inj tag tag' :
  tor_auth tag = tor_auth tag' ->
  take 16 (Sum512_256 (bytes_of_string tag)) = take 16 (Sum512_256 (bytes_of_string tag')).
Proof.
  unfold tor_auth. intros [= E]. by apply string_append_inj_l, hex_EncodeToString_inj in E.
Qed.

Lemma dial_auth c tag (P : Prop) :
  proxy_ok c -> Type_ c = typeSocks5 \/ Type_ c = typeTorSocks5 ->
  (Type_ c = typeTorSocks5 -> P) ->
  match proxyAuth (newContextSOCKS5 c tag) with
  | None => Type_ c = typeSocks5 /\ User c = "" /\ Password c = ""
  | Some a => auth_legal a /\
      (Type_ c = typeSocks5 /\ a = mkAuth (User c) (Password c) \/
       Type_ c = typeTorSocks5 /\ User c = "" /\ a = tor_auth tag /\ P)
  end.
Proof using Type Sum512_256_size.
  intros Hok Ht HP. unfold newContextSOCKS5. cbn [proxyAuth].
  destruct Ht as [E|E]; rewrite !E.
  - change (String.eqb typeSocks5 typeTorSocks5) with false. cbv match.
    pose proof (px_auth _ Hok E) as Hx.
    destruct (Z.eqb_spec (string_len (User c)) 0) as [Eu|_].
    { destruct Hx as [-> Hp]. by rewrite <- !string_len_0. }
    destruct Hx as (-> & ? & ?). split; [|by left]. unfold auth_legal. cbn. lia.
  - rewrite String.eqb_refl. split.
    { unfold auth_legal. pose proof (tor_user_length tag) as L.
      unfold tor_auth in L. cbn [AuthUser] in *. rewrite L. split; [lia|]. by split; vm_compute. }
    right. split_and!; [done| |done|by apply HP]. by apply string_len_0, (px_tor _ Hok).
Qed.

(** C30. A proxy configuration that passes validation can always be dialled: the dial
    function is nil exactly when no proxy is configured, and otherwise it goes to the
    configured address, over tcp with an address that is valid or over a unix socket that
    exists, with credentials that SOCKS5 can carry: none for socks5 without a user, the
    configured ones for socks5 with one, and for Tor an isolation tag, which differs for
    session tags whose hashes differ. *)
Theorem proxy_validated_dials c c' :
  auth c = None -> FixupAndValidate c = (None, c') ->
  (Type_ c' = typeNone /\ forall tag, ToDialContext c' tag = Ok None) \/
  (Type_ c' <> typeNone /\ forall tag, exists d,
     ToDialContext c' tag = Ok (Some d) /\ proxyAddr d = Address c /\
     (proxyNet d = netTCP /\ EnsureAddrIPPort (Address c) = None \/
      proxyNet d = netUnix /\ Lstat_is_socket (Address c) = inr true) /\
     match proxyAuth d with
     | None => Type_ c' = typeSocks5 /\ User c = "" /\ Password c = ""
     | Some a => auth_legal a /\
         (Type_ c' = typeSocks5 /\ a = mkAuth (User c) (Password c) \/
          Type_ c' = typeTorSocks5 /\ User c = "" /\ a = tor_auth tag /\
          forall tag',
            take 16 (Sum512_256 (bytes_of_string tag)) <>
            take 16 (Sum512_256 (bytes_of_string tag')) ->
            ToDialContext c' tag' <> ToDialContext c' tag)
     end).
Proof using Type Sum512_256_size.
  intros Ha Hv. pose proof (FixupAndValidate_ok c c' Ha Hv) as Hok.
  pose proof (FixupAndValidate_frame c) as (EA & EU & EP). rewrite Hv in EA, EU, EP.
  cbn [snd] in EA, EU, EP.
  destruct (ToDialContext_valid c' "" Hok) as [[E _]|(Ht & Hn & _)].
  { left. split; [done|]. intros tag.
    destruct (ToDialContext_valid c' tag Hok) as [[_ D]|([E'|E'] & _)];
      [done|by rewrite E in E'..]. }
  right. assert (Type_ c' <> typeNone) as Hnn by (by destruct Ht as [-> | ->]).
  split; [done|]. intros tag.
  assert (forall tag, ToDialContext c' tag = Ok (Some (newContextSOCKS5 c' tag))) as D.
  { intros t. destruct (ToDialContext_valid c' t Hok) as [[? _]|(_ & _ & D)]; done. }
  exists (newContextSOCKS5 c' tag). rewrite D. split_and!; [done|done| |].
  - cbn [newContextSOCKS5 proxyNet]. rewrite <- EA. by apply network_checked.
  - rewrite <- EU, <- EP. apply dial_auth; [done..|]. intros Et tag' Hne.
    rewrite !D. intros E%(f_equal (fun o =>
      match o with Ok (Some d) => proxyAuth d | _ => None end)).
    apply Hne, tor_auth_inj. symmetry. apply (inj Some).
    unfold newContextSOCKS5 in E. cbn [proxyAuth] in E. by rewrite Et in E.
Qed.
End Proxy.

Lemma proxy_validated_dials_witness :
  let sha (_ : bytes) := repeat (byte_of_Z 7) 32 in
  let c := mkConfig "TOR+socks5" "TCP" "127.0.0.1:9050" "" "" None in
  let c' := with_network (with_type c typeTorSocks5) netTCP in
  let dial := ToDialContext sha 1 2 c' "session" in
  (Type_ c' <> typeNone) /\ exists d, dial = Ok (Some d) /\ proxyAddr d = "127.0.0.1:9050".
Proof.
  intros sha c c' dial.
  destruct (proxy_validated_dials id (fun _ => None) (fun _ => inr false) sha 1 2
              (fun _ => eq_refl) c c' eq_refl eq_refl) as [[E _]|[E H]]; [done|].
  split; [exact E|]. destruct (H "session") as (d & Hd & Ha & _). by exists d.
Defined.
