(* ===== verification/Dialer.v ===== *)
(** The dial through a proxy (dialContext and contextDialer of internal/proxy/proxy.go):
    the SOCKS library dials the proxy through a dialer that hands the connection to a
    goroutine, which closes it when the context is done before the whole dial is. *)

From S2P Require Import Prelude GoStd.

(** dialContext: before the library dials, in the dialer's send on connCh with or without
    a connection, in the library's handshake, returned with or without a connection. *)
Inductive dial_pc := D_begin | D_send (conn : bool) | D_handshake (conn : bool) | D_returned (ok : bool).
(** The goroutine: waiting for the connection, in its select, gone. *)
Inductive helper_pc := H_wait | H_select (conn : bool) | H_gone.

Record Dial := mkDial {
  dial : dial_pc;
  helper : helper_pc;
  ctx_done : bool;
  ch_closed : bool;          (* connCh is closed *)
  conn_closed : bool;        (* by the goroutine *)
}.

Definition dial_init : Dial := mkDial D_begin H_wait false false false.

Inductive dial_step (s : Dial) : Dial -> Prop :=
  | x_dials b : dial s = D_begin ->
      dial_step s (mkDial (D_send b) (helper s) (ctx_done s) (ch_closed s) (conn_closed s))
  (* the library can fail before it dials *)
  | x_refused : dial s = D_begin ->
      dial_step s (mkDial (D_returned false) (helper s) (ctx_done s) true (conn_closed s))
  | x_hand_over b : dial s = D_send b -> helper s = H_wait -> ch_closed s = false ->
      dial_step s (mkDial (D_handshake b) (H_select b) (ctx_done s) (ch_closed s) (conn_closed s))
  (* return, with the deferred close *)
  | x_returns b ok : dial s = D_handshake b -> (ok = true -> b = true) ->
      dial_step s (mkDial (D_returned ok) (helper s) (ctx_done s) true (conn_closed s))
  | x_no_conn : helper s = H_wait -> ch_closed s = true ->
      dial_step s (mkDial (dial s) H_gone (ctx_done s) (ch_closed s) (conn_closed s))
  | x_cancelled b : helper s = H_select b -> ctx_done s = true ->
      dial_step s (mkDial (dial s) H_gone (ctx_done s) (ch_closed s) b)
  | x_finished b : helper s = H_select b -> ch_closed s = true ->
      dial_step s (mkDial (dial s) H_gone (ctx_done s) (ch_closed s) (conn_closed s)).

(** The context is done from outside. *)
Definition dial_or_cancel (s s' : Dial) : Prop :=
  dial_step s s' \/ s' = mkDial (dial s) (helper s) true (ch_closed s) (conn_closed s).

Definition dial_reaches : Dial -> Prop := reachable (fun s => s = dial_init) dial_or_cancel.

Record dial_ok (s : Dial) : Prop := {
  do_closed : ch_closed s = match dial s with D_returned _ => true | _ => false end;
  do_helper : match dial s with D_begin | D_send _ => helper s = H_wait | _ => True end;
  do_conn : conn_closed s = true -> ctx_done s = true;
}.

Lemma dial_step_ok s s' : dial_ok s -> dial_or_cancel s s' -> dial_ok s'.
Proof.
  intros [H1 H2 H3] [Hs| ->].
  - destruct Hs; destruct s; cbn in *; subst; split; cbn in *; try done;
      repeat case_match; by simplify_eq.
  - by split.
Qed.

Lemma dial_reaches_ok s : dial_reaches s -> dial_ok s.
Proof.
  apply reachable_ind_inv.
  - by intros ? ->.
  - intros s1 s2 Hok Hs. by eapply dial_step_ok.
Qed.

Definition dial_rank (s : Dial) : nat :=
  match dial s with D_begin => 3 | D_send _ => 2 | D_handshake _ => 1 | D_returned _ => 0 end +
  match helper s with H_wait => 2 | H_select _ => 1 | H_gone => 0 end.

Lemma dial_step_rank s s' : dial_step s s' -> (dial_rank s' < dial_rank s)%nat.
Proof. intros Hs; destruct Hs; destruct s; unfold dial_rank; cbn in *; subst; cbn; lia. Qed.

(** Every dial ends, with the goroutine gone, and closes a connection only if the context
    was done. A connection that dialContext has returned can still be closed under the
    caller, when the context is done before the goroutine has noticed the return. *)
Theorem proxied_dial_ends :
  well_founded (fun s' s => dial_step s s') /\
  (forall s, dial_reaches s -> stuck dial_step s ->
     (exists ok, dial s = D_returned ok) /\ helper s = H_gone /\
     (conn_closed s = true -> ctx_done s = true)) /\
  (exists s, dial_reaches s /\ dial s = D_returned true /\ conn_closed s = true).
Proof.
  split; [|split].
  - apply (well_founded_lt_compat _ dial_rank). intros s' s. apply dial_step_rank.
  - intros s Hok%dial_reaches_ok Hst. destruct Hok as [H1 H2 H3].
    assert (exists ok, dial s = D_returned ok) as Hd.
    { destruct (dial s) as [|b|b|ok] eqn:E; [| | |by eexists].
      - destruct (Hst _ (x_refused s E)).
      - destruct (Hst _ (x_hand_over s b E H2 H1)).
      - destruct (Hst _ (x_returns s b false E (fun e => False_ind _ (diff_false_true e)))). }
    split; [done|]. split; [|done]. destruct Hd as [ok Hd]. rewrite Hd in H1. clear Hd. rename H1 into Hd.
    destruct (helper s) as [|b|] eqn:E; [destruct (Hst _ (x_no_conn s E Hd))|
      destruct (Hst _ (x_finished s b E Hd))|done].
  - exists (mkDial (D_returned true) H_gone true true true). split; [|done].
    exists dial_init. split; [done|].
    eapply rtc_l; [left; by apply (x_dials _ true)|]. eapply rtc_l; [left; by apply x_hand_over|].
    eapply rtc_l; [left; by apply (x_returns _ true true)|]. eapply rtc_l; [by right|].
    eapply rtc_l; [left; by eapply x_cancelled|]. apply rtc_refl.
Qed.
