(* ===== verification/Config.v ===== *)
(** The client configuration (config/config.go, config/update.go): defaults,
    validation, loading and saving, the refresh of the trust options. The TOML
    package, the name preparation, the address parser, the light client and the file
    system are libraries, parameters of the model. *)

From S2P Require Import Prelude GoStd PkiClient Proxy Katzenmint.

Definition defaultLogLevel : string := "NOTICE".
Definition defaultPollingInterval : Z := 10.
Definition defaultInitialMaxPKIRetrievalDelay : Z := 30.
Definition defaultSessionDialTimeout : Z := 30.

Inductive config_error :=
  | InvalidLevel (l : string)
  | InvalidProxy (e : proxy_error)
  | InvalidTrust (e : string)
  | MissingPrimary | MissingDatabase | MissingRPC
  | MissingReceiver | MissingPandaProvider
  | AccountName (e : string)          (* config: Account is invalid (User) *)
  | AccountIdentifier (e : string)    (* config: Account is invalid (Identifier) *)
  | MissingUser | MissingProvider
  | NoRegistration | MissingRegistrationAddress
  | TomlError (e : string) | UndecodedKeys (ks : list string)
  | IOError (e : string)
  | UpdateError (e : string) | NoBlock (h : Z) | WrongChainID.

(** ** The sections of the configuration *)

Module Log.
Record Logging := mkLogging { Disable : bool; File : string; Level : string }.
End Log.
Import Log.

Definition defaultLogging : Logging := mkLogging false "" defaultLogLevel.

Record Debug := mkDebug {
  DisableDecoyTraffic : bool;
  SessionDialTimeout : Z;
  InitialMaxPKIRetrievalDelay : Z;
  CaseSensitiveUserIdentifiers : bool;
  PollingInterval : Z;
  PreferedTransports : list string;
}.

Module Chain.
Record Katzenmint := mkKatzenmint {
  ChainID : string; Trust : TrustOptions; PrimaryAddress : string;
  WitnessesAddresses : list string; DatabaseName : string; DatabaseDir : string;
  RPCAddress : string
}.
End Chain.
Import Chain.

(** The fields [Config.NewPKIClient] hands to the PKI client; the proxy is not used. *)
Definition pki_config (k : Katzenmint) : PKIClientConfig :=
  mkPKIClientConfig (ChainID k) (Trust k) (PrimaryAddress k) (WitnessesAddresses k)
    (DatabaseName k) (DatabaseDir k) (RPCAddress k).

Record Panda := mkPanda { Receiver : string; PandaProvider : string; BlobSize : Z }.
Record Reunion := mkReunion { Enable : bool }.
Record Account := mkAccount {
  AccUser : string; AccProvider : string; ProviderKeyPin : option bytes
}.

(** [registration.Options] and the section that holds a pointer to them. *)
Record Options := mkOptions {
  Scheme : string; UseSocks : bool; SocksNetwork : string; SocksAddress : string
}.
Record Registration := mkRegistration { RegAddress : string; RegOptions : option Options }.

Record UpstreamProxy := mkUpstream {
  upType : string; upNetwork : string; upAddress : string; upUser : string; upPassword : string
}.

(** [Config]; a section that is missing is a nil pointer. *)
Record Config := mkCfg {
  cLogging : option Logging;
  cUpstreamProxy : option UpstreamProxy;
  cDebug : option Debug;
  cKatzenmint : option Katzenmint;
  cAccount : option Account;
  cRegistration : option Registration;
  cPanda : option Panda;
  cReunion : option Reunion;
  upstreamProxy : option Proxy.Config;
}.

#[global] Instance Logging_eq_dec : EqDecision Logging.
Proof. solve_decision. Defined.
#[global] Instance Debug_eq_dec : EqDecision Debug.
Proof. solve_decision. Defined.
#[global] Instance Katzenmint_eq_dec : EqDecision Katzenmint.
Proof. solve_decision. Defined.
#[global] Instance Panda_eq_dec : EqDecision Panda.
Proof. solve_decision. Defined.
#[global] Instance Reunion_eq_dec : EqDecision Reunion.
Proof. solve_decision. Defined.
#[global] Instance Account_eq_dec : EqDecision Account.
Proof. solve_decision. Defined.
#[global] Instance Options_eq_dec : EqDecision Options.
Proof. solve_decision. Defined.
#[global] Instance Registration_eq_dec : EqDecision Registration.
Proof. solve_decision. Defined.
#[global] Instance UpstreamProxy_eq_dec : EqDecision UpstreamProxy.
Proof. solve_decision. Defined.
#[global] Instance Config_eq_dec : EqDecision Config.
Proof. solve_decision. Defined.

Definition with_logging (c : Config) (l : Logging) : Config :=
  mkCfg (Some l) (cUpstreamProxy c) (cDebug c) (cKatzenmint c) (cAccount c)
    (cRegistration c) (cPanda c) (cReunion c) (upstreamProxy c).
Definition with_debug (c : Config) (d : Debug) : Config :=
  mkCfg (cLogging c) (cUpstreamProxy c) (Some d) (cKatzenmint c) (cAccount c)
    (cRegistration c) (cPanda c) (cReunion c) (upstreamProxy c).
Definition with_katzenmint (c : Config) (k : Katzenmint) : Config :=
  mkCfg (cLogging c) (cUpstreamProxy c) (cDebug c) (Some k) (cAccount c)
    (cRegistration c) (cPanda c) (cReunion c) (upstreamProxy c).
Definition with_account (c : Config) (a : Account) : Config :=
  mkCfg (cLogging c) (cUpstreamProxy c) (cDebug c) (cKatzenmint c) (Some a)
    (cRegistration c) (cPanda c) (cReunion c) (upstreamProxy c).
Definition with_registration (c : Config) (r : Registration) : Config :=
  mkCfg (cLogging c) (cUpstreamProxy c) (cDebug c) (cKatzenmint c) (cAccount c)
    (Some r) (cPanda c) (cReunion c) (upstreamProxy c).
Definition with_proxy (c : Config) (p : option Proxy.Config) : Config :=
  mkCfg (cLogging c) (cUpstreamProxy c) (cDebug c) (cKatzenmint c) (cAccount c)
    (cRegistration c) (cPanda c) (cReunion c) p.

Definition UpstreamProxyConfig (c : Config) : option Proxy.Config := upstreamProxy c.

(** The levels that pass validation. *)
Definition levels : list string := ["ERROR"; "WARNING"; "NOTICE"; "INFO"; "DEBUG"; ""].

Lemma levels_cases l :
  l ∈ levels <-> l ∈ ["ERROR"; "WARNING"; "NOTICE"; "INFO"; "DEBUG"] \/ l = "".
Proof. unfold levels. set_solver. Qed.

#[local] Set Default Proof Using "Type".

Section Config.
(** The Unicode tables, the address check and lstat of the proxy section. *)
Context (unicode_ToUpper unicode_ToLower : string -> string).
Context (EnsureAddrIPPort : string -> option string).
Context (Lstat_is_socket : string -> string + bool).
(** [TrustOptions.ValidateBasic]; precis' two profiles and [idna.Lookup.ToASCII], which
    return a string also with an error; [mail.ParseAddress]. *)
Context (ValidateBasic : TrustOptions -> option string).
Context (UsernameCaseMapped UsernameCasePreserved ToASCII : string -> string * option string).
Context (mail_ParseAddress : string -> option string).
(** [toml.Decode] into a fresh configuration, with the undecoded keys, and the encoder:
    what it writes and its error. *)
Context (toml_Decode : string -> string + Config * list string).
Context (toml_Encode : Config -> string * option string).

Definition Logging_validate : ST config_error Logging unit :=
  lCfg ← gets id;
  let lvl := ToUpper unicode_ToUpper (Level lCfg) in
  let force := modify (fun l => mkLogging (Disable l) (File l) lvl) in
  if decide (lvl ∈ ["ERROR"; "WARNING"; "NOTICE"; "INFO"; "DEBUG"]) then force
  else if String.eqb lvl "" then
    modify (fun l => mkLogging (Disable l) (File l) defaultLogLevel);; force
  else lift (Err (InvalidLevel (Level lCfg))).

Definition Debug_fixup (d : Debug) : Debug :=
  mkDebug (DisableDecoyTraffic d)
    (if SessionDialTimeout d =? 0 then defaultSessionDialTimeout else SessionDialTimeout d)
    (if InitialMaxPKIRetrievalDelay d =? 0 then defaultInitialMaxPKIRetrievalDelay
     else InitialMaxPKIRetrievalDelay d)
    (CaseSensitiveUserIdentifiers d)
    (if PollingInterval d =? 0 then defaultPollingInterval else PollingInterval d)
    (PreferedTransports d).

Definition Katzenmint_validate (k : Katzenmint) : option config_error :=
  match ValidateBasic (Trust k) with
  | Some e => Some (InvalidTrust e)
  | None =>
      if String.eqb (PrimaryAddress k) "" then Some MissingPrimary
      else if String.eqb (DatabaseName k) "" || String.eqb (DatabaseDir k) ""
      then Some MissingDatabase
      else if String.eqb (RPCAddress k) "" then Some MissingRPC
      else None
  end.

Definition Reunion_validate (r : Reunion) : option config_error := None.

Definition Panda_validate (p : Panda) : option config_error :=
  if String.eqb (Receiver p) "" then Some MissingReceiver
  else if String.eqb (PandaProvider p) "" then Some MissingPandaProvider
  else None.

(** The two assignments take the results also when they come with an error. *)
Definition Account_fixup (case_sensitive : bool) (a : Account) : option string * Account :=
  let '(user, err) :=
    if negb case_sensitive then UsernameCaseMapped (AccUser a)
    else UsernameCasePreserved (AccUser a) in
  let a := mkAccount user (AccProvider a) (ProviderKeyPin a) in
  match err with
  | Some e => (Some e, a)
  | None =>
      let '(provider, err) := ToASCII (AccProvider a) in
      (err, mkAccount (AccUser a) provider (ProviderKeyPin a))
  end.

Definition toEmailAddr (a : Account) : outcome config_error string :=
  let addr := AccUser a +:+ "@" +:+ AccProvider a in
  match mail_ParseAddress addr with
  | Some e => Err (AccountIdentifier e)
  | None => Ok addr
  end.

Definition Account_validate (a : Account) : option config_error :=
  if String.eqb (AccUser a) "" then Some MissingUser
  else if String.eqb (AccProvider a) "" then Some MissingProvider
  else None.

Definition Registration_validate (r : Registration) : option config_error :=
  if String.eqb (RegAddress r) "" then Some MissingRegistrationAddress else None.

(** On a nil receiver the read of its type panics. *)
Definition toProxyConfig (uCfg : option UpstreamProxy) : outcome config_error Proxy.Config :=
  u ← deref uCfg;
  let cfg := Proxy.mkConfig (upType u) (upNetwork u) (upAddress u) (upUser u) (upPassword u) None in
  match FixupAndValidate unicode_ToLower EnsureAddrIPPort Lstat_is_socket cfg with
  | (Some e, _) => Err (InvalidProxy e)
  | (None, cfg) => Ok cfg
  end.

(** A call on the Logging section of the configuration, through its pointer. *)
Definition on_logging (m : ST config_error Logging unit) : ST config_error Config unit :=
  fun c => match cLogging c with
           | None => (Panic, c)
           | Some l => let '(r, l) := m l in (r, with_logging c l)
           end.

Definition FixupAndMinimallyValidate : ST config_error Config unit :=
  modify (fun c => match cLogging c with
                   | None => with_logging c defaultLogging
                   | Some _ => c
                   end);;
  modify (fun c => with_debug c
    match cDebug c with
    | None => mkDebug false 0 defaultInitialMaxPKIRetrievalDelay false defaultPollingInterval []
    | Some d => Debug_fixup d
    end);;
  on_logging Logging_validate;;
  up ← gets cUpstreamProxy;
  uCfg ← lift (toProxyConfig up);
  modify (fun c => with_proxy c (Some uCfg));;
  k ← gets cKatzenmint;
  k ← lift (deref k);
  check (Katzenmint_validate k);;
  panda ← gets cPanda;
  check (match panda with Some p => Panda_validate p | None => None end);;
  reunion ← gets cReunion;
  check (match reunion with Some r => Reunion_validate r | None => None end).

(** [c.Account.fixup(c)] through the pointers of the configuration. *)
Definition on_account : ST config_error Config unit :=
  fun c => match cAccount c, cDebug c with
           | Some a, Some d =>
               let '(err, a) := Account_fixup (CaseSensitiveUserIdentifiers d) a in
               (match err with Some e => Err (AccountName e) | None => Ok tt end,
                with_account c a)
           | _, _ => (Panic, c)
           end.

(** The Account and Registration sections. *)
Definition validate_account : ST config_error Config unit :=
  on_account;;
  a ← gets cAccount;
  a ← lift (deref a);
  _ ← lift (toEmailAddr a);
  check (Account_validate a);;
  r ← gets cRegistration;
  match r with
  | None => lift (Err NoRegistration)
  | Some r => check (Registration_validate r)
  end.

Definition Config_FixupAndValidate : ST config_error Config unit :=
  FixupAndMinimallyValidate;; validate_account.

Definition Load (b : string) : outcome config_error Config :=
  match toml_Decode b with
  | inl e => Err (TomlError e)
  | inr (cfg, undecoded) =>
      if negb (Nat.eqb (length undecoded) 0) then Err (UndecodedKeys undecoded)
      else match FixupAndMinimallyValidate cfg with
           | (Ok _, cfg) => Ok cfg
           | (Err e, _) => Err e
           | (Panic, _) => Panic
           end
  end.

(** ** Files: the file system as a map from names to contents; [Create] truncates. *)

Definition LoadFile (fs : gmap string string) (f : string) : outcome config_error Config :=
  match fs !! f with
  | None => Err (IOError "no such file")
  | Some b => Load b
  end.

Definition SaveConfig (os_Create : string -> option string) (c : Config) (fileName : string) :
    ST config_error (gmap string string) unit :=
  check (IOError <$> os_Create fileName);;
  modify (fun fs => <[fileName := ""]> fs);;
  let '(written, err) := toml_Encode c in
  modify (fun fs => <[fileName := written]> fs);;
  check (IOError <$> err).

(** ** The trust options *)

(** The full node the configuration names: [ABCIInfo], [Genesis], [Block]; the results
    are the fields the code reads. *)
Class FullNode := {
  rpchttp_New : string -> option string;
  ABCIInfo : string + Z;
  Genesis : string + string;
  Block : Z -> string + option bytes;
}.

Definition of_sum {A} (r : string + A) : outcome config_error A :=
  match r with inl e => Err (UpdateError e) | inr a => Ok a end.

Definition UpdateTrust `{FullNode} : ST config_error Config unit :=
  k ← gets cKatzenmint;
  k ← lift (deref k);
  check (UpdateError <$> rpchttp_New (PrimaryAddress k));;
  blockHeight ← lift (of_sum ABCIInfo);
  genesis ← lift (of_sum Genesis);
  block ← lift (of_sum (Block blockHeight));
  match block with
  | None => lift (Err (NoBlock blockHeight))
  | Some hash =>
      if negb (String.eqb genesis (ChainID k)) then lift (Err WrongChainID)
      else modify (fun c => with_katzenmint c
             (mkKatzenmint (ChainID k) (mkTrust (10 * Minute) blockHeight hash) (PrimaryAddress k)
                (WitnessesAddresses k) (DatabaseName k) (DatabaseDir k) (RPCAddress k)))
  end.

(** ** Minimal validation *)

#[local] Abbreviation FAV := (FixupAndValidate unicode_ToLower EnsureAddrIPPort Lstat_is_socket).
#[local] Abbreviation upper := (ToUpper unicode_ToUpper).

(** The sections in effect: a missing Logging section logs notices to the console; a
    missing Debug section has a delay of thirty and polls every ten; one that is there gets
    these, and thirty for the dial timeout, where it has zero. *)
Definition effective_logging (c : Config) : Logging :=
  match cLogging c with None => mkLogging false "" "NOTICE" | Some l => l end.
Definition effective_debug (c : Config) : Debug :=
  match cDebug c with
  | None => mkDebug false 0 30 false 10 []
  | Some d =>
      mkDebug (DisableDecoyTraffic d)
        (if SessionDialTimeout d =? 0 then 30 else SessionDialTimeout d)
        (if InitialMaxPKIRetrievalDelay d =? 0 then 30 else InitialMaxPKIRetrievalDelay d)
        (CaseSensitiveUserIdentifiers d)
        (if PollingInterval d =? 0 then 10 else PollingInterval d)
        (PreferedTransports d)
  end.
Definition forced (l : Logging) : Logging := mkLogging (Disable l) (File l) (upper (Level l)).

(** The configurations that pass, section by section: the level one of six; a proxy
    section that validates to [px]; trust options that are valid, addresses of a primary
    and of the RPC server, a database with name and directory; and a Panda section with
    receiver and provider, if there is one. *)
Record minimally_valid (c : Config) (u : UpstreamProxy) (px : Proxy.Config) (k : Katzenmint) :
    Prop := {
  mv_level : upper (Level (effective_logging c)) ∈ levels;
  mv_upstream : cUpstreamProxy c = Some u;
  mv_proxy :
    FAV (Proxy.mkConfig (upType u) (upNetwork u) (upAddress u) (upUser u) (upPassword u) None) =
    (None, px);
  mv_katzenmint : cKatzenmint c = Some k;
  mv_trust : ValidateBasic (Trust k) = None;
  mv_primary : PrimaryAddress k <> "";
  mv_database : DatabaseName k <> "" /\ DatabaseDir k <> "";
  mv_rpc : RPCAddress k <> "";
  mv_panda : forall p, cPanda c = Some p -> Receiver p <> "" /\ PandaProvider p <> "";
}.

(** What validation makes of them. *)
Definition fixed_up (c : Config) (px : Proxy.Config) : Config :=
  mkCfg (Some (forced (effective_logging c))) (cUpstreamProxy c) (Some (effective_debug c))
    (cKatzenmint c) (cAccount c) (cRegistration c) (cPanda c) (cReunion c) (Some px).

Lemma Logging_validate_eq l :
  Logging_validate l =
  if decide (upper (Level l) ∈ levels) then (Ok tt, forced l)
  else (Err (InvalidLevel (Level l)), l).
Proof.
  unfold Logging_validate, mbind, ST_bind, gets, modify, lift, id, forced.
  set (lvl := upper (Level l)). destruct (decide (lvl ∈ ["ERROR"; _; _; _; _])) as [H|H].
  { rewrite decide_True; [done|]. apply levels_cases. by left. }
  destruct (String.eqb_spec lvl "") as [E|E].
  { rewrite decide_True; [done|]. apply levels_cases. by right. }
  rewrite decide_False; [done|]. by intros [?|?]%levels_cases.
Qed.

Lemma Panda_validate_None p :
  Panda_validate p = None <-> Receiver p <> "" /\ PandaProvider p <> "".
Proof.
  unfold Panda_validate. destruct (String.eqb_spec (Receiver p) ""),
    (String.eqb_spec (PandaProvider p) ""); naive_solver.
Qed.

Lemma Katzenmint_validate_None k :
  Katzenmint_validate k = None <->
  ValidateBasic (Trust k) = None /\ PrimaryAddress k <> "" /\
  (DatabaseName k <> "" /\ DatabaseDir k <> "") /\ RPCAddress k <> "".
Proof.
  clear -ValidateBasic k. unfold Katzenmint_validate.
  destruct (ValidateBasic (Trust k)); [naive_solver|].
  destruct (String.eqb_spec (PrimaryAddress k) ""), (String.eqb_spec (DatabaseName k) ""),
    (String.eqb_spec (DatabaseDir k) ""), (String.eqb_spec (RPCAddress k) ""); naive_solver.
Qed.

Lemma toProxyConfig_Ok u px :
  toProxyConfig (Some u) = Ok px <->
  FAV (Proxy.mkConfig (upType u) (upNetwork u) (upAddress u) (upUser u) (upPassword u) None) =
  (None, px).
Proof.
  unfold toProxyConfig. cbn [deref mbind outcome_bind].
  destruct (FAV _) as [[e|] c']; split; congruence.
Qed.

(** The whole method as one equation. *)
Lemma minimal_eq c :
  FixupAndMinimallyValidate c =
  let l := effective_logging c in
  let c1 := with_debug (with_logging c l) (effective_debug c) in
  if decide (upper (Level l) ∈ levels) then
    let c2 := with_logging c1 (forced l) in
    match toProxyConfig (cUpstreamProxy c) with
    | Err e => (Err e, c2)
    | Panic => (Panic, c2)
    | Ok px =>
        match cKatzenmint c with
        | None => (Panic, fixed_up c px)
        | Some k =>
            (match Katzenmint_validate k with
             | Some e => Err e
             | None => match cPanda c ≫= Panda_validate with
                       | Some e => Err e
                       | None => Ok tt
                       end
             end, fixed_up c px)
        end
    end
  else (Err (InvalidLevel (Level l)), c1).
Proof.
  destruct c as [lg up db k ac rg pd rn px].
  unfold FixupAndMinimallyValidate, mbind, ST_bind, gets, modify, lift, check, on_logging,
    effective_logging.
  cbn [cLogging]. set (l := match lg with None => _ | Some l => l end).
  replace (match lg with None => with_logging _ _ | Some _ => _ end)
    with (mkCfg (Some l) up db k ac rg pd rn px) by (by destruct lg).
  cbn [cLogging cDebug cUpstreamProxy cKatzenmint cPanda cReunion with_debug with_logging].
  rewrite Logging_validate_eq. case_decide; [|done].
  cbn [cLogging cDebug cUpstreamProxy cKatzenmint cPanda cReunion with_debug with_logging].
  destruct (toProxyConfig up) as [pc|e|]; [|done..].
  cbn [cLogging cDebug cUpstreamProxy cKatzenmint cPanda cReunion with_debug with_logging
       with_proxy].
  destruct k as [k|]; cbn [deref]; [|done].
  destruct (Katzenmint_validate k); [done|].
  destruct pd as [p|]; cbn; [destruct (Panda_validate p); [done|]|]; by destruct rn.
Qed.

Lemma minimal_Ok c c' :
  FixupAndMinimallyValidate c = (Ok tt, c') <->
  exists u px k, minimally_valid c u px k /\ c' = fixed_up c px.
Proof.
  rewrite minimal_eq. cbv zeta. split.
  - case_decide as Hl; [|done]. destruct (cUpstreamProxy c) as [u|] eqn:Eu; [|done].
    destruct (toProxyConfig (Some u)) as [px|e|] eqn:Ep; [|done..].
    destruct (cKatzenmint c) as [k|] eqn:Ek; [|done].
    destruct (Katzenmint_validate k) eqn:Et; [done|].
    apply Katzenmint_validate_None in Et as (Ht & Hpr & Hdb & Hrpc).
    apply toProxyConfig_Ok in Ep. destruct (cPanda c ≫= Panda_validate) eqn:Epd; [done|]. intros [= <-].
    exists u, px, k. split; [|done]. split; try done.
    intros p Hp. rewrite Hp in Epd. by apply Panda_validate_None.
  - intros (u & px & k & [Hl Hu Hp%toProxyConfig_Ok Hk Ht Hpr Hdb Hrpc Hpd] & ->).
    rewrite decide_True, Hu, Hp, Hk, (proj2 (Katzenmint_validate_None k)) by done.
    destruct (cPanda c) as [p|]; cbn; [|done].
    by rewrite (proj2 (Panda_validate_None p) (Hpd p eq_refl)).
Qed.

Lemma toProxyConfig_no_panic u : toProxyConfig (Some u) <> Panic.
Proof. unfold toProxyConfig. cbn. by destruct (FAV _) as [[]]. Qed.

Lemma toProxyConfig_ok up px :
  toProxyConfig up = Ok px -> proxy_ok EnsureAddrIPPort Lstat_is_socket px.
Proof.
  unfold toProxyConfig. destruct up as [u|]; cbn; [|done].
  destruct (FAV _) as [[e|] c'] eqn:E; [done|]. intros [= <-].
  by eapply FixupAndValidate_ok; [|exact E].
Qed.

Lemma valid_proxy c u px k :
  minimally_valid c u px k -> toProxyConfig (Some u) = Ok px.
Proof. intros Hv. apply toProxyConfig_Ok, (mv_proxy _ _ _ _ Hv). Qed.

Lemma toProxyConfig_type u px :
  toProxyConfig (Some u) = Ok px -> ToLower unicode_ToLower (upType u) <> "" ->
  Type_ px = ToLower unicode_ToLower (upType u).
Proof.
  unfold toProxyConfig. cbn [deref mbind outcome_bind]. intros E Hne.
  destruct (FAV _) as [[e|] c'] eqn:E'; [done|]. injection E as <-. revert E'.
  unfold FixupAndValidate. cbn [with_type Type_ upType].
  rewrite (proj2 (String.eqb_neq _ _) Hne).
  repeat case_match; intros [=]; subst; done.
Qed.

Lemma minimal_Panic c :
  (FixupAndMinimallyValidate c).1 = Panic <->
  upper (Level (effective_logging c)) ∈ levels /\
  (cUpstreamProxy c = None \/
   exists u px, cUpstreamProxy c = Some u /\ toProxyConfig (Some u) = Ok px /\
                cKatzenmint c = None).
Proof.
  rewrite minimal_eq. cbv zeta. case_decide as Hl; cbn [fst]; [|by split; [|intros []]].
  destruct (cUpstreamProxy c) as [u|].
  2:{ split; [|done]. split; [done|by left]. }
  destruct (toProxyConfig (Some u)) as [px|e|] eqn:Ep; cbn [fst].
  - destruct (cKatzenmint c) as [k|]; cbn [fst].
    + split; [by destruct (Katzenmint_validate k), (cPanda c ≫= Panda_validate)|].
      by intros (_ & [|(? & ? & _ & _ & ?)]).
    + split; [|done]. intros _. split; [done|]. right. by exists u, px.
  - split; [done|]. intros (_ & [|(u' & ? & [= <-] & Ep' & _)]); [done|]. by rewrite Ep in Ep'.
  - by apply toProxyConfig_no_panic in Ep.
Qed.

Lemma upper_level l : l ∈ levels -> upper l = l.
Proof.
  unfold levels. intros H. repeat (apply elem_of_cons in H as [-> | H]; [done|]).
  by apply elem_of_nil in H.
Qed.

Lemma forced_idem l : upper (Level l) ∈ levels -> forced (forced l) = forced l.
Proof. intros H. unfold forced. cbn [Disable File Level]. by rewrite (upper_level _ H). Qed.

Lemma default_idem (x d : Z) :
  d <> 0 ->
  (if (if x =? 0 then d else x) =? 0 then d else if x =? 0 then d else x) =
  if x =? 0 then d else x.
Proof. intros Hd. destruct (x =? 0) eqn:E; [by case_match|by rewrite E]. Qed.

Lemma Debug_fixup_idem d : Debug_fixup (Debug_fixup d) = Debug_fixup d.
Proof.
  unfold Debug_fixup. cbn [SessionDialTimeout InitialMaxPKIRetrievalDelay PollingInterval
    DisableDecoyTraffic CaseSensitiveUserIdentifiers PreferedTransports].
  by rewrite !default_idem.
Qed.

(** A second pass over a fixed-up configuration, whatever became of its proxy field. *)
Lemma minimal_again c u px k p :
  minimally_valid c u px k ->
  FixupAndMinimallyValidate (with_proxy (fixed_up c px) p) =
  (Ok tt, with_debug (fixed_up c px) (Debug_fixup (effective_debug c))).
Proof.
  intros [Hl Hu Hp Hk Ht Hpr Hdb Hrpc Hpd]. apply minimal_Ok. exists u, px, k. split.
  - split; try done. cbn. by rewrite (upper_level _ Hl).
  - unfold with_debug, with_proxy, fixed_up, effective_logging in *.
    cbn [cLogging cUpstreamProxy cDebug cKatzenmint cAccount cRegistration cPanda cReunion
         upstreamProxy default from_option]. unfold id. by rewrite forced_idem.
Qed.

Lemma fixed_up_debug_same c px :
  with_debug (fixed_up c px) (Debug_fixup (effective_debug c)) = fixed_up c px <->
  is_Some (cDebug c).
Proof.
  unfold with_debug, fixed_up. split.
  - intros [= E]. unfold effective_debug in E. destruct (cDebug c); [done|].
    by apply (f_equal SessionDialTimeout) in E.
  - intros [d Hd]. f_equal. f_equal. unfold effective_debug. rewrite Hd. apply Debug_fixup_idem.
Qed.

(** C29. Minimal validation accepts exactly the configurations whose level is one of six,
    whose proxy section validates, whose Katzenmint section has valid trust options, both
    addresses and a database with name and directory, and whose Panda section, if any, has
    its two names; and gives them their defaults: the level forced to upper case (an empty
    one stays empty, the default is overwritten), the proxy validated, thirty, thirty and
    ten for what is zero in a Debug section; everything else as it was. A missing Debug
    section gets a zero SessionDialTimeout, so that a second pass changes the configuration
    exactly when that section was missing. It panics exactly on a missing UpstreamProxy or
    Katzenmint section whose predecessors were valid. *)
Theorem config_minimal_validation c c' :
  (FixupAndMinimallyValidate c = (Ok tt, c') <->
   exists u px k, minimally_valid c u px k /\ c' = fixed_up c px) /\
  ((FixupAndMinimallyValidate c).1 = Panic <->
   upper (Level (effective_logging c)) ∈ levels /\
   (cUpstreamProxy c = None \/
    exists u px, cUpstreamProxy c = Some u /\ toProxyConfig (Some u) = Ok px /\
                 cKatzenmint c = None)) /\
  (FixupAndMinimallyValidate c = (Ok tt, c') ->
   (exists px, upstreamProxy c' = Some px /\ proxy_ok EnsureAddrIPPort Lstat_is_socket px) /\
   (exists l d, cLogging c' = Some l /\ Level l ∈ levels /\ cDebug c' = Some d /\
      PollingInterval d <> 0 /\ InitialMaxPKIRetrievalDelay d <> 0 /\
      (SessionDialTimeout d = 0 <-> cDebug c = None)) /\
   (FixupAndMinimallyValidate c' = (Ok tt, c') <-> is_Some (cDebug c))).
Proof.
  split; [apply minimal_Ok|]. split; [apply minimal_Panic|]. intros Hok.
  apply minimal_Ok in Hok as (u & px & k & Hv & ->). split; [|split].
  - exists px. split; [done|]. eapply toProxyConfig_ok, (valid_proxy _ _ _ _ Hv).
  - exists (forced (effective_logging c)), (effective_debug c).
    split; [done|]. split; [exact (mv_level _ _ _ _ Hv)|]. split; [done|].
    unfold effective_debug. destruct (cDebug c) as [d|]; [|by cbn].
    cbn. repeat match goal with |- context [?x =? 0] => destruct (Z.eqb_spec x 0) end; done.
  - pose proof (minimal_again c u px k (Some px) Hv) as E.
    change (with_proxy (fixed_up c px) (Some px)) with (fixed_up c px) in E.
    rewrite E, <- (fixed_up_debug_same c px). split; [by intros [= ->]|by intros ->].
Qed.

(** ** Full validation *)

Definition prepared (c : Config) (a : Account) : string * option string :=
  if CaseSensitiveUserIdentifiers (effective_debug c) then UsernameCasePreserved (AccUser a)
  else UsernameCaseMapped (AccUser a).

(** The account and registration sections that pass. *)
Record account_valid (c : Config) (a a' : Account) (r : Registration) : Prop := {
  av_account : cAccount c = Some a;
  av_user : prepared c a = (AccUser a', None);
  av_provider : ToASCII (AccProvider a) = (AccProvider a', None);
  av_pin : ProviderKeyPin a' = ProviderKeyPin a;
  av_addr : mail_ParseAddress (AccUser a' +:+ "@" +:+ AccProvider a') = None;
  av_nonempty : AccUser a' <> "" /\ AccProvider a' <> "";
  av_registration : cRegistration c = Some r;
  av_reg_addr : RegAddress r <> "";
}.

Lemma on_account_eq c px a :
  cAccount c = Some a ->
  on_account (fixed_up c px) =
  let '(user, err) := prepared c a in
  match err with
  | Some e => (Err (AccountName e),
               with_account (fixed_up c px) (mkAccount user (AccProvider a) (ProviderKeyPin a)))
  | None =>
      let '(provider, err) := ToASCII (AccProvider a) in
      (match err with Some e => Err (AccountName e) | None => Ok tt end,
       with_account (fixed_up c px) (mkAccount user provider (ProviderKeyPin a)))
  end.
Proof.
  intros Ha. unfold on_account, fixed_up. cbn [cAccount cDebug]. rewrite Ha.
  unfold Account_fixup, prepared. destruct (CaseSensitiveUserIdentifiers _); cbn [negb];
    [destruct (UsernameCasePreserved _) as [? []]|destruct (UsernameCaseMapped _) as [? []]];
    cbn; try done; by destruct (ToASCII _) as [? []].
Qed.

Lemma Account_validate_None a :
  Account_validate a = None <-> AccUser a <> "" /\ AccProvider a <> "".
Proof.
  unfold Account_validate. destruct (String.eqb_spec (AccUser a) ""),
    (String.eqb_spec (AccProvider a) ""); naive_solver.
Qed.

Lemma Registration_validate_None r : Registration_validate r = None <-> RegAddress r <> "".
Proof. unfold Registration_validate. destruct (String.eqb_spec (RegAddress r) ""); naive_solver. Qed.

Lemma validate_account_Ok c px a c' :
  cAccount c = Some a ->
  validate_account (fixed_up c px) = (Ok tt, c') <->
  exists a' r, account_valid c a a' r /\ c' = with_account (fixed_up c px) a'.
Proof.
  intros Ha. unfold validate_account, mbind at 1, ST_bind at 1. rewrite (on_account_eq c px a Ha).
  split.
  - destruct (prepared c a) as [user [e|]] eqn:Eu; [done|].
    destruct (ToASCII (AccProvider a)) as [prov [e|]] eqn:Ep; [done|].
    set (a' := mkAccount user prov (ProviderKeyPin a)).
    unfold mbind, ST_bind, gets, check, lift. cbn [cAccount with_account deref].
    unfold toEmailAddr. destruct (mail_ParseAddress _) eqn:Em; [done|].
    destruct (Account_validate a') eqn:Ev; [done|]. cbn [cRegistration with_account fixed_up].
    destruct (cRegistration c) as [r|] eqn:Er; [|done].
    destruct (Registration_validate r) eqn:Hr; [done|]. intros [= <-]. exists a', r.
    split; [|done]. apply Registration_validate_None in Hr. apply Account_validate_None in Ev.
    by split.
  - intros (a' & r & [_ Hu Hp Hpin Hm Hne Hr Hra] & ->). rewrite Hu, Hp, <- Hpin.
    destruct a' as [user prov pin]. cbn [AccUser AccProvider ProviderKeyPin] in *.
    unfold mbind, ST_bind, gets, check, lift. cbn [cAccount with_account deref].
    unfold toEmailAddr. cbn [AccUser AccProvider]. rewrite Hm.
    rewrite (proj2 (Account_validate_None (mkAccount user prov pin)) Hne). cbn [cRegistration with_account fixed_up].
    by rewrite Hr, (proj2 (Registration_validate_None r) Hra).
Qed.

Lemma validate_account_no_panic c px a :
  cAccount c = Some a -> (validate_account (fixed_up c px)).1 <> Panic.
Proof.
  intros Ha. unfold validate_account, mbind at 1, ST_bind at 1. rewrite (on_account_eq c px a Ha).
  destruct (prepared c a) as [user [e|]]; [done|].
  destruct (ToASCII (AccProvider a)) as [prov [e|]]; [done|].
  unfold mbind, ST_bind, gets, check, lift. cbn [cAccount with_account deref].
  unfold toEmailAddr. destruct (mail_ParseAddress _); [done|].
  destruct (Account_validate _); [done|]. cbn [cRegistration with_account fixed_up].
  destruct (cRegistration c) as [r|]; [|done]. by destruct (Registration_validate r).
Qed.

Lemma minimally_valid_proxy c u px k u' px' k' :
  minimally_valid c u px k -> minimally_valid c u' px' k' -> px' = px.
Proof.
  intros [_ Hu Hp _ _ _ _ _ _] [_ Hu' Hp' _ _ _ _ _ _]. congruence.
Qed.

Lemma full_spec c c' :
  (Config_FixupAndValidate c = (Ok tt, c') <->
   exists u px k a a' r, minimally_valid c u px k /\ account_valid c a a' r /\
     c' = with_account (fixed_up c px) a') /\
  ((Config_FixupAndValidate c).1 = Panic <->
   (FixupAndMinimallyValidate c).1 = Panic \/
   (FixupAndMinimallyValidate c).1 = Ok tt /\ cAccount c = None).
Proof.
  clear toml_Encode. destruct (FixupAndMinimallyValidate c) as [[[]|e|] c1] eqn:Em; cbn [fst].
  2,3: unfold Config_FixupAndValidate, mbind, ST_bind; rewrite Em; cbn [fst];
    split; [split; [done|]; intros (u & px & k & _ & _ & _ & Hv & _);
            assert (FixupAndMinimallyValidate c = (Ok tt, fixed_up c px)) as E
              by (apply minimal_Ok; by exists u, px, k); congruence|naive_solver].
  apply minimal_Ok in Em as (u & px & k & Hv & ->).
  assert (Config_FixupAndValidate c = validate_account (fixed_up c px)) as ->.
  { unfold Config_FixupAndValidate, mbind, ST_bind.
    by rewrite (proj2 (minimal_Ok c (fixed_up c px)) (ex_intro _ u (ex_intro _ px
      (ex_intro _ k (conj Hv eq_refl))))). }
  destruct (cAccount c) as [a|] eqn:Ha.
  2:{ unfold validate_account, mbind, ST_bind, on_account. cbn [fixed_up cAccount]. rewrite Ha.
      split; [|naive_solver]. split; [done|].
      intros (? & ? & ? & a & ? & ? & _ & Hav & _). pose proof (av_account _ _ _ _ Hav). congruence. }
  split.
  - rewrite (validate_account_Ok c px a c' Ha). split.
    + intros (a' & r & Hav & ->). by exists u, px, k, a, a', r.
    + intros (u' & px' & k' & a0 & a' & r & Hv' & Hav & ->).
      rewrite (minimally_valid_proxy _ _ _ _ _ _ _ Hv Hv').
      assert (a0 = a) as -> by (pose proof (av_account _ _ _ _ Hav); congruence).
      by exists a', r.
  - split; [|naive_solver]. by intros ?%(validate_account_no_panic c px a Ha).
Qed.

Lemma full_Ok c c' :
  Config_FixupAndValidate c = (Ok tt, c') ->
  exists u px k a a' r, minimally_valid c u px k /\ account_valid c a a' r /\
    c' = with_account (fixed_up c px) a'.
Proof. apply full_spec. Qed.

(** Full validation accepts exactly the configurations that pass the minimal one and
    whose account has a user name and a provider that can be prepared (the name with its
    case kept only if the Debug section asks for it), that form a mail address and are not
    empty, with a registration address; the account then holds the prepared names. It
    panics only where minimal validation does, or on a missing account. *)
Theorem config_full_validation c c' :
  (Config_FixupAndValidate c = (Ok tt, c') <->
   exists u px k a a' r, minimally_valid c u px k /\ account_valid c a a' r /\
     c' = with_account (fixed_up c px) a') /\
  ((Config_FixupAndValidate c).1 = Panic <->
   (FixupAndMinimallyValidate c).1 = Panic \/
   (FixupAndMinimallyValidate c).1 = Ok tt /\ cAccount c = None).
Proof. apply full_spec. Qed.

(** ** Loading and saving *)

Lemma Load_Ok b c' :
  Load b = Ok c' <->
  exists c, toml_Decode b = inr (c, []) /\ FixupAndMinimallyValidate c = (Ok tt, c').
Proof.
  unfold Load. destruct (toml_Decode b) as [e|[c ks]].
  { split; [done|]. by intros (? & ? & _). }
  destruct ks as [|key ks]; cbn [length Nat.eqb negb].
  - destruct (FixupAndMinimallyValidate c) as [[[]|e|] c1] eqn:E; split; try done;
      try (intros [= <-]; by exists c); intros (c2 & [= <-] & E2); congruence.
  - split; [done|]. by intros (? & [=] & _).
Qed.

(** The encoder of the TOML package writes the exported fields, and the decoder reads
    back what was written. *)
Hypothesis toml_roundtrip : forall c s,
  toml_Encode c = (s, None) -> toml_Decode s = inr (with_proxy c None, []).

(** C33. A configuration that was loaded and then saved loads again, as the same
    configuration if the file had a Debug section; if it had none, the session dial
    timeout, zero the first time, is the default of thirty seconds the second time and
    nothing else changes. A save that fails after the file was created has destroyed
    its contents. *)
Theorem config_save_load os_Create b c f fs :
  Load b = Ok c ->
  exists d, cDebug c = Some d /\
  (forall fs', SaveConfig os_Create c f fs = (Ok tt, fs') ->
     LoadFile fs' f = Ok (with_debug c (Debug_fixup d)) /\
     (LoadFile fs' f = Ok c <-> SessionDialTimeout d <> 0) /\
     (SessionDialTimeout d = 0 ->
      SessionDialTimeout (Debug_fixup d) = defaultSessionDialTimeout)) /\
  (forall e fs', SaveConfig os_Create c f fs = (Err e, fs') -> os_Create f = None ->
     fs' !! f = Some (toml_Encode c).1).
Proof using Type toml_roundtrip.
  intros (c0 & Hd & Hv)%Load_Ok. apply minimal_Ok in Hv as (u & px & k & Hv & ->).
  exists (effective_debug c0). split; [done|]. split.
  - intros fs' Hs.
    assert (exists s, toml_Encode (fixed_up c0 px) = (s, None) /\ fs' !! f = Some s) as (s & He & Hf).
    { unfold SaveConfig, mbind, ST_bind, check, modify, lift in Hs.
      destruct (os_Create f); [done|]. destruct (toml_Encode _) as [s [e|]]; [done|].
      cbn in Hs. injection Hs as <-. exists s. split; [done|]. apply lookup_insert_eq. }
    assert (LoadFile fs' f =
      Ok (with_debug (fixed_up c0 px) (Debug_fixup (effective_debug c0)))) as HL.
    { unfold LoadFile. rewrite Hf. apply Load_Ok. eexists. split; [by apply toml_roundtrip|].
      by apply minimal_again with u k. }
    split; [exact HL|]. rewrite HL. split.
    + split.
      * unfold with_debug, fixed_up. intros [= E]. intros E0. apply (f_equal SessionDialTimeout) in E. cbn in E.
        rewrite E0 in E. done.
      * intros Hn. f_equal. apply (proj2 (fixed_up_debug_same c0 px)).
        destruct (cDebug c0) eqn:E; [done|]. unfold effective_debug in Hn. by rewrite E in Hn.
    + intros E. cbn. by rewrite E.
  - intros e fs' Hs Hc. unfold SaveConfig, mbind, ST_bind, check, modify, lift in Hs.
    rewrite Hc in Hs. cbn in Hs. destruct (toml_Encode _) as [s [e'|]]; [|done].
    cbn in Hs. injection Hs as _ <-. apply lookup_insert_eq.
Qed.

(** ** The trust options *)

Definition trusted (k : Katzenmint) (h : Z) (hash : bytes) : Katzenmint :=
  mkKatzenmint (ChainID k) (mkTrust (10 * Minute) h hash) (PrimaryAddress k)
    (WitnessesAddresses k) (DatabaseName k) (DatabaseDir k) (RPCAddress k).

(** An update of the trust options that succeeds has set them to ten minutes from
    the block of the height that the primary reports, on the chain of the configuration,
    and a configuration that was valid still is, for a positive height and a hash of the
    right size; one that fails has changed nothing. *)
Theorem update_trust_spec `{FullNode} (c : Config) :
  (forall t, 0 < Period t -> 0 < TrustHeight t -> length (Hash t) = 32%nat ->
     ValidateBasic t = None) ->
  ((UpdateTrust c).1 = Panic <-> cKatzenmint c = None) /\
  ((UpdateTrust c).1 <> Ok tt -> (UpdateTrust c).2 = c) /\
  ((UpdateTrust c).1 = Ok tt -> exists k h hash,
     cKatzenmint c = Some k /\ ABCIInfo = inr h /\ Genesis = inr (ChainID k) /\
     Block h = inr (Some hash) /\ (UpdateTrust c).2 = with_katzenmint c (trusted k h hash) /\
     (0 < h -> length hash = 32%nat -> (FixupAndMinimallyValidate c).1 = Ok tt ->
      (FixupAndMinimallyValidate (UpdateTrust c).2).1 = Ok tt)).
Proof.
  intros HVB. unfold UpdateTrust, mbind, ST_bind, gets, check, lift, modify.
  destruct (cKatzenmint c) as [k|] eqn:Ek; cbn [deref]; [|done].
  destruct (rpchttp_New _); cbn; [done|]. destruct ABCIInfo as [|h] eqn:Eh; cbn; [done|].
  destruct Genesis as [|g] eqn:Eg; cbn; [done|].
  destruct (Block h) as [|[hash|]] eqn:Eb; cbn; [done| |done].
  destruct (String.eqb_spec g (ChainID k)) as [->|]; cbn; [|done].
  split; [done|]. split; [done|]. intros _. exists k, h, hash. split_and!; [done..|].
  intros Hh Hl Hm. destruct (FixupAndMinimallyValidate c) as [r c1] eqn:E. cbn in Hm. subst r.
  apply minimal_Ok in E as (u & px & k' & [H1 H2 H3 H4 H5 H6 H7 H8 H9] & ->). simplify_eq.
  rewrite (proj2 (minimal_Ok _ (fixed_up (with_katzenmint c (trusted k h hash)) px))); [done|].
  exists u, px, (trusted k h hash). split; [|done]. split; try done.
  by apply HVB.
Qed.
End Config.

(** ** Concrete configurations *)

#[local] Definition ex_basic (t : TrustOptions) : option string :=
  if (0 <? Period t) && (0 <? TrustHeight t) && (length (Hash t) =? 32)%nat then None
  else Some "trust options".
#[local] Definition ex_chain : Katzenmint :=
  mkKatzenmint "chain" (mkTrust (10 * Minute) 1 (repeat (byte_of_Z 1) 32)) "tcp://h:1" []
    "db" "/tmp" "tcp://h:2".
(** No Debug section and an empty level. *)
#[local] Definition ex_config : Config :=
  mkCfg (Some (mkLogging false "" "")) (Some (mkUpstream "" "" "" "" "")) None (Some ex_chain)
    (Some (mkAccount "Alice" "provider" None)) (Some (mkRegistration "h:3" None))
    None None None.
#[local] Definition ex_proxy : Proxy.Config := Proxy.mkConfig typeNone "" "" "" "" None.
#[local] Definition ex_fixed : Config := fixed_up id ex_config ex_proxy.
#[local] Definition ex_saved : Config := with_proxy ex_fixed None.

#[local] Abbreviation no_addr := (fun _ : string => @None string).
#[local] Abbreviation no_stat := (fun _ : string => inr (A:=string) false).

Lemma config_minimal_validation_witness :
  let v := FixupAndMinimallyValidate id id no_addr no_stat ex_basic in
  v ex_config = (Ok tt, ex_fixed) /\ Level (effective_logging ex_fixed) = "" /\
  ~ v ex_fixed = (Ok tt, ex_fixed).
Proof.
  intros v.
  destruct (config_minimal_validation id id no_addr no_stat ex_basic ex_config ex_fixed)
    as (_ & _ & H).
  split; [reflexivity|]. split; [reflexivity|].
  destruct (H eq_refl) as (_ & _ & E). intros E1. apply E in E1. by destruct E1.
Defined.

Lemma config_full_validation_witness :
  let keep (s : string) := (s, @None string) in
  let lower (s : string) := (string_map char_lower s, @None string) in
  (Config_FixupAndValidate id id no_addr no_stat ex_basic lower keep keep no_addr ex_config) =
  (Ok tt, with_account ex_fixed (mkAccount "alice" "provider" None)).
Proof.
  intros keep lower.
  apply (config_full_validation id id no_addr no_stat ex_basic lower keep keep no_addr).
  exists (mkUpstream "" "" "" "" ""), ex_proxy, ex_chain, (mkAccount "Alice" "provider" None),
    (mkAccount "alice" "provider" None), (mkRegistration "h:3" None).
  split; [|split; [by split; try split|reflexivity]].
  split; [apply levels_cases; by right|reflexivity..|discriminate| |discriminate|discriminate].
  split; discriminate.
Defined.

Lemma config_save_load_witness :
  let decode b := if String.eqb b "first" then inr (ex_config, []) else inr (ex_saved, []) in
  let encode c := if decide (with_proxy c None = ex_saved) then ("saved", None)
                  else ("", Some "not encodable") in
  let load fs := LoadFile id id no_addr no_stat ex_basic decode fs "f" in
  load {[ "f" := "first" ]} = Ok ex_fixed /\
  exists fs, SaveConfig encode no_addr ex_fixed "f" {[ "f" := "first" ]} = (Ok tt, fs) /\
  load fs <> Ok ex_fixed.
Proof.
  intros decode encode load. split; [reflexivity|].
  assert (SaveConfig encode no_addr ex_fixed "f" {[ "f" := "first" ]} =
          (Ok tt, {[ "f" := "saved" ]})) as Hs by (vm_compute; reflexivity).
  exists {[ "f" := "saved" ]}. split; [exact Hs|].
  assert (forall c s, encode c = (s, None) -> decode s = inr (with_proxy c None, [])) as Hrt.
  { intros c s. unfold encode. case_decide as E; [|done]. intros [= <-]. by rewrite E. }
  destruct (config_save_load id id no_addr no_stat ex_basic decode encode Hrt no_addr
              "first" ex_fixed "f" {[ "f" := "first" ]} eq_refl) as (d & Hd & H & _).
  injection Hd as <-.
  destruct (H {[ "f" := "saved" ]} Hs) as (_ & E & _).
  intros E1. apply E in E1. by apply E1.
Defined.

#[local] Instance ex_node : FullNode := {|
  rpchttp_New _ := None; ABCIInfo := inr 77; Genesis := inr "chain";
  Block h := inr (Some (repeat (byte_of_Z h) 32))
|}.

Lemma update_trust_spec_witness :
  (UpdateTrust ex_config).1 = Ok tt /\
  (FixupAndMinimallyValidate id id no_addr no_stat ex_basic (UpdateTrust ex_config).2).1 = Ok tt.
Proof.
  split; [reflexivity|].
  destruct (update_trust_spec id id no_addr no_stat ex_basic ex_config) as (_ & _ & H).
  { intros t HP HH HL. unfold ex_basic. by rewrite (proj2 (Z.ltb_lt _ _) HP),
      (proj2 (Z.ltb_lt _ _) HH), HL. }
  destruct (H eq_refl) as (k & h & hash & _ & [= <-] & _ & [= <-] & _ & Hv).
  apply Hv; reflexivity.
Defined.
