(* ===== verification/Client.v ===== *)
(** The client (client.go, minclient/client.go, the configuration part of session.go's
    NewSession): logging, registration of a random account, the configuration of the
    minclient and of a session's waits. The lifecycle is in Lifecycle.v. *)

From S2P Require Import Prelude GoStd PkiClient Proxy Katzenmint Config Session Worker.
Import Config.Log Config.Chain.

#[local] Set Default Proof Using "Type".

(** ** Logging *)

Inductive client_error :=
  | NotAbsolute | LogError (e : string)
  | InvalidUser (u : string) | InvalidProvider (p : string)
  | NoLinkKey | NoLogBackend | NoPKIClient
  | RegistrationError (e : string).

Section Logging.
Context {B : Type} (IsAbs : string -> bool) (log_New : string -> string -> bool -> string + B).

(** [InitLogging], the log backend. *)
Definition InitLogging (cfg : Config) : outcome client_error B :=
  l ← deref (cLogging cfg);
  let f := File l in
  if negb (Disable l) && negb (String.eqb f "") && negb (IsAbs f) then Err NotAbsolute
  else match log_New f (Level l) (Disable l) with
       | inl e => Err (LogError e)
       | inr b => Ok b
       end.
End Logging.

(** ** The minclient's configuration (minclient/client.go) *)

Record ClientConfig := mkClientConfig {
  ccUser : string; ccProvider : string; ccPin : option bytes; ccLinkKey : option bytes;
  ccLogBackend : bool; ccPKIClient : bool;
  ccDialContextFn : option contextSOCKS5;
  ccTransports : list string;
  MessagePollInterval : Duration;
  EnableTimeSync : bool;
}.

Definition ClientConfig_validate (MaxAdditionalDataLength : Z) (cfg : ClientConfig) :
    option client_error :=
  if String.eqb (ccUser cfg) "" || (MaxAdditionalDataLength <? string_len (ccUser cfg))
  then Some (InvalidUser (ccUser cfg))
  else if String.eqb (ccProvider cfg) "" then Some (InvalidProvider (ccProvider cfg))
  else match ccLinkKey cfg with
       | None => Some NoLinkKey
       | Some _ =>
           if negb (ccLogBackend cfg) then Some NoLogBackend
           else if negb (ccPKIClient cfg) then Some NoPKIClient
           else None
       end.

Definition SetPollInterval (interval : Duration) (cfg : ClientConfig) : ClientConfig :=
  mkClientConfig (ccUser cfg) (ccProvider cfg) (ccPin cfg) (ccLinkKey cfg) (ccLogBackend cfg)
    (ccPKIClient cfg) (ccDialContextFn cfg) (ccTransports cfg) interval (EnableTimeSync cfg).
Definition GetPollInterval (cfg : ClientConfig) : Duration := MessagePollInterval cfg.

(** ** The configuration of a session (session.go) *)

Definition session_timeout (d : Debug) : Duration := Duration_mul (SessionDialTimeout d) Second.
Definition retrieval_delay (d : Debug) : Duration :=
  Duration_mul (InitialMaxPKIRetrievalDelay d) Second.

Section SessionConfig.
Context (Sum512_256 : bytes -> bytes) (pid now : Z).

(** The [minclient.ClientConfig] of [NewSession]; a nil section panics. *)
Definition session_client_config (cfg : Config) (linkKey : bytes) :
    outcome proxy_error ClientConfig :=
  a ← deref (cAccount cfg);
  px ← deref (UpstreamProxyConfig cfg);
  dial ← ToDialContext Sum512_256 pid now px "authority";
  d ← deref (cDebug cfg);
  mret (mkClientConfig (AccUser a) (AccProvider a) (ProviderKeyPin a) (Some linkKey) true true
          dial (PreferedTransports d) (Duration_mul (PollingInterval d) Millisecond) false).
End SessionConfig.

(** ** Registration (client.go) *)

(** A key pair, known by its bytes. *)
Record KeyPair := mkKey { PrivateBytes : bytes; PublicBytes : bytes }.

(** What the registration asks of its libraries; [W] is their state, [P] the PKI client. *)
Class RegEnv (W P : Type) := {
  TempFile : W -> option string * W;
  log_backend : W -> option string * W;
  NewPKIClient : PKIClientConfig -> W -> (string + P) * W;
  Intn : Z -> W -> Z * W;
  NewKeypair : W -> (string + KeyPair) * W;
  url_Parse : string -> string + string * string;       (* host, scheme *)
  registration_New : string -> option Options -> option string;
  RegisterAccountWithLinkKey : string -> option Options -> string -> bytes -> W ->
    option string * W;
}.

(** What the function has done that outlives it. *)
Inductive reg_effect :=
  | FileCreated | FileRemoved | PkiOpened | PkiShutdown
  | Registered (address : string) (options : option Options) (user : string) (key : bytes).

Section Registration.
Context {W P : Type} `{RegEnv W P} `{PkiClient P}.

Record reg_state := mkReg { rs_cfg : Config; rs_world : W; rs_trace : list reg_effect }.

(** The function has no error result: it returns or panics. *)
Definition Reg := ST Empty_set reg_state.

Definition emit (e : reg_effect) : Reg unit :=
  modify (fun s => mkReg (rs_cfg s) (rs_world s) (rs_trace s ++ [e])).
Definition world {A} (f : W -> A * W) : Reg A :=
  fun s => let '(a, w) := f (rs_world s) in (Ok a, mkReg (rs_cfg s) w (rs_trace s)).
Definition set_cfg (f : Config -> Config) : Reg unit :=
  modify (fun s => mkReg (f (rs_cfg s)) (rs_world s) (rs_trace s)).

(** [if err != nil { panic(err) }] *)
Definition must {E A} (r : E + A) : Reg A :=
  lift (match r with inl _ => Panic | inr a => Ok a end).
Definition must_not {E} (r : option E) : Reg unit :=
  lift (match r with Some _ => Panic | None => Ok tt end).
(** [defer f()]: runs when the rest returns or panics. *)
Definition defer {A} (f : Reg unit) (m : Reg A) : Reg A :=
  fun s => let '(r, s) := m s in (r, (f s).2).

Definition RegisterClient (linkKey : bytes) : Reg (option client_error) :=
  cfg ← gets rs_cfg;
  r ← lift (deref (cRegistration cfg));
  match registration_New (RegAddress r) (RegOptions r) with
  | Some e => mret (Some (RegistrationError e))
  | None =>
      a ← lift (deref (cAccount cfg));
      err ← world (RegisterAccountWithLinkKey (RegAddress r) (RegOptions r) (AccUser a) linkKey);
      match err with
      | Some e => mret (Some (RegistrationError e))
      | None => emit (Registered (RegAddress r) (RegOptions r) (AccUser a) linkKey);; mret None
      end
  end.

Definition may_register (p : MixDescriptor) : bool :=
  match RegistrationHTTPAddresses p with Some _ => true | None => false end.

(** From the document to the end. *)
Definition register_with (doc : Document) : Reg KeyPair :=
  let registerProviders := List.filter may_register (Providers doc) in
  let n := Z.of_nat (length registerProviders) in
  (if n =? 0 then lift Panic else mret tt);;
  i ← world (Intn n);
  registrationProvider ← lift (index registerProviders i);
  k ← world NewKeypair;
  linkKey ← must k;
  let account := mkAccount (hex_EncodeToString (PublicBytes linkKey))
                   (PkiClient.Name registrationProvider) (Some (IdentityKey registrationProvider)) in
  address ← lift (index (default [] (RegistrationHTTPAddresses registrationProvider)) 0);
  u ← must (url_Parse address);
  cfg ← gets rs_cfg;
  up ← lift (deref (cUpstreamProxy cfg));
  let cfgRegistration := mkRegistration (fst u)
    (Some (mkOptions (snd u) (has_prefix "socks" (upType up)) (upNetwork up) (upAddress up))) in
  set_cfg (fun c => with_registration (with_account c account) cfgRegistration);;
  err ← RegisterClient (PublicBytes linkKey);
  must_not err;;
  mret linkKey.

Definition AutoRegisterRandomClient : Reg KeyPair :=
  err ← world TempFile;
  must_not err;;
  emit FileCreated;;
  defer (emit FileRemoved) (
    err ← world log_backend;
    must_not err;;
    cfg ← gets rs_cfg;
    k ← lift (deref (cKatzenmint cfg));
    r ← world (NewPKIClient (pki_config k));
    pkiClient ← must r;
    emit PkiOpened;;
    defer (emit PkiShutdown) (
      let '((currentEpoch, _, _, err), pkiClient) := Now pkiClient in
      must_not err;;
      match GetDoc pkiClient currentEpoch with
      | (Ok (doc, _), _) => register_with doc
      | _ => lift Panic
      end)).
End Registration.

(** ** The configuration of a session *)

(** A wait under a context that is done when it begins: it can end with the context's
    error, and it does unless a document is there already. *)
Lemma await_expired LoopService delay c start ops :
  c <= start -> 0 < delay ->
  (exists pick, awaitFirstPKIDoc LoopService delay (Some c) None pick start ops = A_ctx) /\
  (forall pick, awaitFirstPKIDoc LoopService delay (Some c) None pick start ops = A_ctx \/
     exists n t doc, ops !! n = Some (t, opNewDocument doc) /\ t <= start).
Proof.
  intros Hc Hd. assert (forall start ops, c <= start ->
    (start, W_ctx) ∈ await_cases delay (Some c) None start ops) as Hin.
  { intros s0 o0 H0. apply elem_of_app. left. rewrite Z.max_l by lia. by left. }
  split.
  - destruct (select_any _ _ (Hin start ops Hc)) as [n Hn].
    { intros c' Hc'. cases; [subst; cbn; lia..|]. destruct ops as [|[t op] ops]; cases; subst; cbn; lia. }
    exists (fun _ => n). destruct ops as [|[t op] ops]; cbn [awaitFirstPKIDoc]; by rewrite Hn.
  - intros pick. revert start Hc. induction ops as [|[t0 op] ops IH]; intros start Hc;
      cbn [awaitFirstPKIDoc].
    + left. destruct (select_Some (pick 0%nat) (await_cases delay (Some c) None start [])) as [[t x] E].
      { by destruct c. }
      cbn [length]. rewrite E. apply select_spec in E as [Hx Hmin]. specialize (Hmin _ (Hin start [] Hc)).
      cases; simplify_eq/=; try done. lia.
    + destruct (select_Some (pick (length ((t0, op) :: ops)))
        (await_cases delay (Some c) None start ((t0, op) :: ops))) as [[t x] E]; [done|].
      rewrite E. apply select_spec in E as [Hx Hmin].
      specialize (Hmin _ (Hin start ((t0, op) :: ops) Hc)). cbn in Hmin.
      cases; simplify_eq/=; [by left|lia|]. assert (Z.max start t0 = start) as -> by lia.
      destruct op as [b|doc]; [|right; exists 0%nat, t0, doc; split; [done|lia]].
      destruct (IH start Hc) as [->|(n & t & doc & Hn & Ht)]; [by left|right].
      by exists (S n), t, doc.
Qed.

(** C37. A configuration without a Debug section, once loaded, gives sessions a context
    that is done from the start. A wait for the first document under it can always fail at
    once with the context's error, and fails with it whatever the [select] picks and
    whatever arrives later, unless a document is in the channel of operations before the
    wait begins. And the default polling interval, ten, is taken as milliseconds. *)
Theorem no_debug_section_expired_context (upper lower : string -> string)
    (addr : string -> option string) (stat : string -> string + bool)
    (basic : TrustOptions -> option string)
    sha pid now (LoopService : string) (c c' : Config) cfg key :
  FixupAndMinimallyValidate upper lower addr stat basic c = (Ok tt, c') ->
  cDebug c = None ->
  exists d, cDebug c' = Some d /\
  (session_client_config sha pid now c' key = Ok cfg ->
   GetPollInterval cfg = 10 * Millisecond) /\
  (forall created start ops, created <= start ->
     let wait pick := awaitFirstPKIDoc LoopService (retrieval_delay d)
       (Some (created + session_timeout d)) None pick start ops in
     (exists pick, wait pick = A_ctx) /\
     (forall pick, wait pick = A_ctx \/
        exists n t doc, ops !! n = Some (t, opNewDocument doc) /\ t <= start)).
Proof.
  intros Hv Hd. apply minimal_Ok in Hv as (u & px & k & _ & ->).
  exists (effective_debug c). unfold effective_debug. rewrite Hd. split; [|split].
  - unfold fixed_up, effective_debug. by rewrite Hd.
  - unfold session_client_config, fixed_up, effective_debug, UpstreamProxyConfig.
    cbn [cAccount cDebug upstreamProxy]. rewrite Hd.
    destruct (cAccount c); cbn [deref mbind outcome_bind]; [|done].
    destruct (ToDialContext sha pid now px "authority"); cbn; [|done..]. by intros [= <-].
  - intros created start ops Hc. apply await_expired; [|done].
    change (session_timeout _) with 0. lia.
Qed.

(** ** Registration *)

Section RegistrationFacts.
Context {W P : Type} `{RegEnv W P} `{PkiClient P}.

Definition is_registered (e : reg_effect) : Prop :=
  match e with Registered _ _ _ _ => True | _ => False end.

(** What a run leaves behind: nothing is registered more than once, and the log file and
    the PKI client are given back in the reverse order. *)
Definition released (tr : list reg_effect) : Prop :=
  tr = [] \/ tr = [FileCreated; FileRemoved] \/
  exists regs, tr = FileCreated :: PkiOpened :: regs ++ [PkiShutdown; FileRemoved] /\
    Forall is_registered regs /\ (length regs <= 1)%nat.

(** The options that go with a proxy section. *)
Definition options_for (scheme : string) (up : UpstreamProxy) : Options :=
  mkOptions scheme (has_prefix "socks" (upType up)) (upNetwork up) (upAddress up).

(** The configuration [c'] and the effect of a registration with provider [prov]. *)
Definition registered_with (prov : MixDescriptor) (c c' : Config) (key : KeyPair)
    (e : reg_effect) : Prop :=
  exists addr rest host scheme up,
    RegistrationHTTPAddresses prov = Some (addr :: rest) /\
    url_Parse (W:=W) (P:=P) addr = inr (host, scheme) /\
    cUpstreamProxy c = Some up /\
    let user := hex_EncodeToString (PublicBytes key) in
    let opts := Some (options_for scheme up) in
    c' = with_registration
           (with_account c (mkAccount user (PkiClient.Name prov) (Some (IdentityKey prov))))
           (mkRegistration host opts) /\
    e = Registered host opts user (PublicBytes key).

Lemma index_elem {E A} (l : list A) i x : index (E:=E) l i = Ok x -> x ∈ l.
Proof.
  unfold index. case_match; [|done]. destruct (l !! _) eqn:E1; [|done].
  intros [= <-]. by eapply list_elem_of_lookup_2.
Qed.

Lemma index_0 {E A} (l : list A) x : index (E:=E) l 0 = Ok x -> exists l', l = x :: l'.
Proof. destruct l as [|y l]; [done|]. intros [= <-]. by exists l. Qed.

Lemma may_register_elem doc p :
  p ∈ List.filter may_register (Providers doc) ->
  p ∈ Providers doc /\ is_Some (RegistrationHTTPAddresses p).
Proof.
  intros Hp%list_elem_of_In. apply filter_In in Hp as [Hp Hm]. apply list_elem_of_In in Hp.
  split; [done|]. unfold may_register in Hm. by destruct (RegistrationHTTPAddresses p).
Qed.

Lemma RegisterClient_spec key (s s' : reg_state (W:=W)) r :
  RegisterClient key s = (r, s') ->
  rs_cfg s' = rs_cfg s /\ exists regs, rs_trace s' = rs_trace s ++ regs /\
  (regs = [] \/ exists reg a, cRegistration (rs_cfg s) = Some reg /\
     cAccount (rs_cfg s) = Some a /\
     regs = [Registered (RegAddress reg) (RegOptions reg) (AccUser a) key]) /\
  (r = Ok None -> regs <> []).
Proof.
  unfold RegisterClient, mbind, ST_bind, mret, ST_ret, gets, emit, modify, world, lift.
  intros E.
  destruct (cRegistration (rs_cfg s)) as [reg|] eqn:Er; cbn in E.
  2:{ simplify_eq. split; [done|]. exists []. rewrite app_nil_r. by split_and!; [|left|]. }
  destruct (registration_New _ _) in E.
  { simplify_eq. split; [done|]. exists []. rewrite app_nil_r. by split_and!; [|left|]. }
  destruct (cAccount (rs_cfg s)) as [a|] eqn:Ea; cbn in E.
  2:{ simplify_eq. split; [done|]. exists []. rewrite app_nil_r. by split_and!; [|left|]. }
  destruct (RegisterAccountWithLinkKey _ _ _ _ _) as [[e|] w] in E; simplify_eq/=.
  { split; [done|]. exists []. rewrite app_nil_r. by split_and!; [|left|]. }
  split; [done|]. eexists. split; [done|]. split; [|done]. right. by exists reg, a.
Qed.

(** One step of a run, without unfolding the operations. *)
Ltac reg_step E := cbn [deref rs_world rs_cfg rs_trace fst snd] in E.

(** A branch that ends before anything is registered. *)
Ltac nothing_registered :=
  simplify_eq/=; exists []; rewrite ?app_nil_r; split_and!; (done || by constructor || (cbn; lia)).

Lemma register_with_spec doc (s s' : reg_state (W:=W)) r :
  register_with (P:=P) doc s = (r, s') ->
  exists regs, rs_trace s' = rs_trace s ++ regs /\
    Forall is_registered regs /\ (length regs <= 1)%nat /\
    (forall key, r = Ok key -> exists prov e,
       prov ∈ Providers doc /\ regs = [e] /\ registered_with prov (rs_cfg s) (rs_cfg s') key e).
Proof.
  unfold register_with, mbind, ST_bind, mret, ST_ret, gets, set_cfg, modify, world, must,
    must_not, lift. intros E.
  destruct (_ =? 0) in E; reg_step E; [nothing_registered|].
  destruct (Intn _ _) as [i w1] in E. reg_step E.
  destruct (index _ i) as [prov|[]|] eqn:Ei in E; [reg_step E|nothing_registered..].
  destruct (NewKeypair _) as [[e|key] w2] in E; reg_step E; [nothing_registered|].
  destruct (index _ 0) as [addr|[]|] eqn:Ea in E; [reg_step E|nothing_registered..].
  destruct (url_Parse addr) as [e|[host scheme]] eqn:Eu in E; reg_step E; [nothing_registered|].
  destruct (cUpstreamProxy (rs_cfg s)) as [up|] eqn:Eup in E; reg_step E; [|nothing_registered].
  destruct (RegisterClient _ _) as [rc s1] eqn:Erc in E.
  apply RegisterClient_spec in Erc as (Hc & regs & Ht & Hregs & Hok). cbn in Hc, Ht, Hregs.
  assert (rs_trace s' = rs_trace s ++ regs /\ rs_cfg s' = rs_cfg s1 /\
          (forall k, r = Ok k -> rc = Ok None /\ k = key)) as (Ht' & Hc' & Hk).
  { destruct rc as [[e|]|[]|]; cbn in E; simplify_eq; split_and!; try done.
    intros k [= <-]. done. }
  exists regs. split; [done|]. destruct Hregs as [->|(reg & a & [= <-] & [= <-] & ->)].
  { split_and!; [by constructor|cbn; lia|]. intros k Hr. by destruct (Hk k Hr) as [Hn _], (Hok Hn). }
  split_and!; [by repeat constructor|cbn; lia|]. intros k Hr. destruct (Hk k Hr) as [_ ->].
  apply index_elem, may_register_elem in Ei as [Hp [addrs Haddr]].
  rewrite Haddr in Ea. apply index_0 in Ea as [rest Hrest]. cbn in Hrest.
  eexists prov, _. split; [done|]. split; [done|].
  exists addr, rest, host, scheme, up. rewrite Haddr, Hrest, Hc', Hc. by split_and!.
Qed.

Lemma Now_keeps `{!PkiClientLaws P} (p : P) : pc_ok p -> pc_ok (Now p).2.
Proof.
  intros Hp%pc_GetEpoch_ok. unfold Now. by destruct (GetEpoch p) as [[[epoch h] err] p'].
Qed.

(** A deferred effect comes after those of the rest. *)
Lemma defer_emit {A} e (m : Reg A) (s s' : reg_state (W:=W)) r :
  defer (emit e) m s = (r, s') ->
  exists s1, m s = (r, s1) /\ rs_cfg s' = rs_cfg s1 /\ rs_trace s' = rs_trace s1 ++ [e].
Proof.
  unfold defer, emit, modify. destruct (m s) as [r1 s1]. intros [= <- <-]. by exists s1.
Qed.

(** The document a registration works with is one its client vouches for. *)
Context `{!PkiClientLaws P}.
Hypothesis NewPKIClient_ok : forall cfg w p w',
  NewPKIClient cfg w = (inr p, w') -> pc_ok p.

Lemma AutoRegister_run (s s' : reg_state (W:=W)) r :
  AutoRegisterRandomClient (P:=P) s = (r, s') ->
  exists tr, rs_trace s' = rs_trace s ++ tr /\ released tr /\
  (forall key, r = Ok key -> exists doc raw epoch prov e,
     pc_doc epoch (doc, raw) /\ Epoch doc = epoch /\ prov ∈ Providers doc /\
     tr = [FileCreated; PkiOpened; e; PkiShutdown; FileRemoved] /\
     registered_with prov (rs_cfg s) (rs_cfg s') key e).
Proof using Type NewPKIClient_ok.
  unfold AutoRegisterRandomClient, mbind, ST_bind, gets, world, must, must_not, lift. intros E.
  destruct (TempFile _) as [[e|] w1] in E; reg_step E.
  { simplify_eq/=. exists []. rewrite app_nil_r. split_and!; [done|by left|done]. }
  unfold emit at 1, modify at 1 in E. reg_step E.
  apply defer_emit in E as (s1 & E & Hcfg & Htr). reg_step E. rewrite Htr, Hcfg. clear Htr Hcfg.
  assert (rs_trace s1 = (rs_trace s ++ [FileCreated]) -> r = Panic ->
    exists tr, rs_trace s1 ++ [FileRemoved] = rs_trace s ++ tr /\ released tr /\
    (forall key, r = Ok key -> exists doc raw epoch prov e,
     pc_doc epoch (doc, raw) /\ Epoch doc = epoch /\ prov ∈ Providers doc /\
     tr = [FileCreated; PkiOpened; e; PkiShutdown; FileRemoved] /\
     registered_with prov (rs_cfg s) (rs_cfg s1) key e)) as Hearly.
  { intros -> ->. exists [FileCreated; FileRemoved]. rewrite <- app_assoc.
    split_and!; [done|by right; left|done]. }
  destruct (log_backend _) as [[e|] w2] in E; reg_step E; [by apply Hearly; simplify_eq|].
  destruct (cKatzenmint (rs_cfg s)) as [k|] in E; reg_step E; [|by apply Hearly; simplify_eq].
  destruct (NewPKIClient _ _) as [[e|p] w3] eqn:Enew in E; reg_step E;
    [by apply Hearly; simplify_eq|].
  clear Hearly. apply NewPKIClient_ok in Enew. unfold emit at 1, modify at 1 in E. reg_step E.
  apply defer_emit in E as (s2 & E & -> & ->).
  destruct (Now p) as [[[[epoch ellapsed] till] err] p'] eqn:ENow.
  pose proof (Now_keeps p Enew) as Hp'. rewrite ENow in Hp'. cbn in Hp'.
  assert (exists regs, rs_trace s2 = (rs_trace s ++ [FileCreated; PkiOpened]) ++ regs /\
    Forall is_registered regs /\ (length regs <= 1)%nat /\
    (forall key, r = Ok key -> exists doc raw prov e, pc_doc epoch (doc, raw) /\
       prov ∈ Providers doc /\ regs = [e] /\
       registered_with prov (rs_cfg s) (rs_cfg s2) key e)) as (regs & Htr & Hregs & Hlen & Hok).
  { change [FileCreated; PkiOpened] with ([FileCreated] ++ [PkiOpened]). rewrite (app_assoc _ [_] [_]).
    destruct err as [e|]; reg_step E; [nothing_registered|].
    destruct (GetDoc p' epoch) as [[[doc raw]|e|] p2] eqn:EDoc; [|nothing_registered..].
    apply register_with_spec in E as (regs & Htr & Hregs & Hlen & Hok).
    exists regs. split_and!; [done..|]. intros key Hr.
    destruct (Hok key Hr) as (prov & e & Hprov & He & Hreg). exists doc, raw, prov, e.
    split_and!; [|done..]. apply (pc_GetDoc_doc p' epoch (doc, raw) Hp'). by rewrite EDoc. }
  exists (FileCreated :: PkiOpened :: regs ++ [PkiShutdown; FileRemoved]).
  split_and!.
  - rewrite Htr, <- !app_assoc. done.
  - right. right. by exists regs.
  - intros key Hr. destruct (Hok key Hr) as (doc & raw & prov & e & Hdoc & Hprov & -> & Hreg).
    exists doc, raw, epoch, prov, e. split_and!; try done. by apply (pc_doc_epoch _ _ _ Hdoc).
Qed.

(** C31. A registration of a random account gives back what it takes, on every path: the
    log file is removed, and the PKI client, once opened, shut down, also when the
    function panics. When it returns a key, it has registered exactly one account: with a
    provider of a document that the client vouches for and that announces a registration
    address, at the first such address, under the hexadecimal public key, whose owner the
    configuration now names, the provider's identity key pinned. *)
Theorem auto_register_spec (s s' : reg_state (W:=W)) r :
  AutoRegisterRandomClient (P:=P) s = (r, s') ->
  exists tr, rs_trace s' = rs_trace s ++ tr /\ released tr /\
  (forall key, r = Ok key -> exists doc raw epoch prov e,
     pc_doc epoch (doc, raw) /\ Epoch doc = epoch /\ prov ∈ Providers doc /\
     tr = [FileCreated; PkiOpened; e; PkiShutdown; FileRemoved] /\
     registered_with prov (rs_cfg s) (rs_cfg s') key e).
Proof using Type NewPKIClient_ok. apply AutoRegister_run. Qed.

(** C36. The registration goes around the proxy: with a proxy configured that is reached
    through Tor, or whose type is written in capitals, the session's connections use it,
    but the account is registered with a direct connection to the provider, because the
    registration looks for the prefix "socks" in the type as it is written. *)
Theorem registration_ignores_proxy upper lower addr stat basic sha pid now c u px k
    (s s' : reg_state (W:=W)) key :
  minimally_valid upper lower addr stat basic c u px k ->
  upType u = typeTorSocks5 \/ upType u = "SOCKS5" ->
  rs_cfg s = fixed_up upper c px ->
  AutoRegisterRandomClient (P:=P) s = (Ok key, s') ->
  (forall tag, exists d, ToDialContext sha pid now px tag = Ok (Some d)) /\
  exists host scheme user,
    Registered host (Some (mkOptions scheme false (upNetwork u) (upAddress u))) user
      (PublicBytes key) ∈ rs_trace s'.
Proof using Type NewPKIClient_ok.
  intros Hv Hu Hs Hauto. split.
  - assert (Type_ px <> typeNone) as Hn.
    { rewrite (toProxyConfig_type _ _ _ _ _ (valid_proxy _ _ _ _ _ _ _ _ _ Hv))
        by (by destruct Hu as [-> | ->]). by destruct Hu as [-> | ->]. }
    intros tag.
    destruct (ToDialContext_valid addr stat sha pid now px tag) as [[? _]|(_ & _ & ?)];
      [|done|by eexists].
    by eapply toProxyConfig_ok, (valid_proxy _ _ _ _ _ _ _ _ _ Hv).
  - apply AutoRegister_run in Hauto as (tr & Htr & _ & Hok).
    destruct (Hok key eq_refl) as (doc & raw & epoch & prov & e & _ & _ & _ & -> & Hreg).
    destruct Hreg as (ad & rest & host & scheme & up & _ & _ & Hup & _ & ->).
    rewrite Hs in Hup. cbn in Hup. rewrite (mv_upstream _ _ _ _ _ _ _ _ _ Hv) in Hup.
    injection Hup as <-. exists host, scheme, (hex_EncodeToString (PublicBytes key)). rewrite Htr.
    unfold options_for. replace (has_prefix "socks" (upType u)) with false
      by (by destruct Hu as [-> | ->]).
    apply elem_of_app. right. apply list_elem_of_In. by right; right; left.
Qed.
End RegistrationFacts.

(** ** Concrete runs *)

#[local] Definition ex_up (t : string) : UpstreamProxy := mkUpstream t "tcp" "127.0.0.1:9050" "" "".
#[local] Definition ex_chain : Katzenmint :=
  mkKatzenmint "chain" (mkTrust (10 * Minute) 1 []) "tcp://h:1" [] "db" "/tmp" "tcp://h:2".
#[local] Definition ex_config (t : string) : Config :=
  mkCfg None (Some (ex_up t)) None (Some ex_chain) None None None None None.
#[local] Definition ex_px (t : string) : Proxy.Config :=
  Proxy.mkConfig (ToLower id t) "tcp" "127.0.0.1:9050" "" "" None.
#[local] Abbreviation no_error := (fun _ : string => @None string).
#[local] Abbreviation no_stat := (fun _ : string => inr (A:=string) false).
#[local] Abbreviation no_check := (fun _ : TrustOptions => @None string).

(** A provider without registration and one with two addresses. *)
#[local] Definition ex_provider (n : string) (addrs : option (list string)) : MixDescriptor :=
  mkDesc n [byte_of_Z 7] [] ∅ ∅ ∅ addrs 255.
#[local] Definition ex_document (e : Z) : Document :=
  mkDoc e S754_nan 0 S754_nan 0 S754_nan 0 S754_nan 0 []
    [ex_provider "mute" None; ex_provider "open" (Some ["http://a"; "http://b"])].

#[local] Instance ex_pki : PkiClient unit := {|
  GetEpoch _ := ((4, 2, None), tt);
  GetDoc _ e := (Ok (ex_document e, []), tt)
|}.
#[local] Program Instance ex_pki_laws : PkiClientLaws unit := {|
  pc_ok _ := True;
  pc_doc e r := r = (ex_document e, [])
|}.
Solve All Obligations with (cbn; intros; simplify_eq/=; unfold is_u64; done || lia).

#[local] Instance ex_env : RegEnv unit unit := {|
  TempFile _ := (None, tt); log_backend _ := (None, tt);
  NewPKIClient _ _ := (inr tt, tt);
  Intn _ _ := (0, tt);
  NewKeypair _ := (inr (mkKey [byte_of_Z 1] [byte_of_Z 171]), tt);
  url_Parse u := inr ("host:80", "http");
  registration_New _ _ := None;
  RegisterAccountWithLinkKey _ _ _ _ _ := (None, tt)
|}.

#[local] Definition ex_run (t : string) :=
  AutoRegisterRandomClient (P:=unit) (mkReg (fixed_up id (ex_config t) (ex_px t)) tt []).
#[local] Definition ex_key : KeyPair := mkKey [byte_of_Z 1] [byte_of_Z 171].

Lemma no_debug_section_expired_context_witness :
  cDebug (ex_config "") = None /\
  awaitFirstPKIDoc "loop" (30 * Second) (Some 7) None id 9 [(10, opNewDocument (ex_document 1))] =
  A_ctx.
Proof.
  split; [reflexivity|].
  destruct (no_debug_section_expired_context id id no_error no_stat no_check (fun b => b) 1 2 "loop"
    (ex_config "") (fixed_up id (ex_config "") (Proxy.mkConfig typeNone "tcp" "127.0.0.1:9050" "" "" None))
    (mkClientConfig "" "" None None true true None [] 0 false) [] eq_refl eq_refl)
    as (d & Hd & _ & H).
  injection Hd as <-. destruct (H 7 9 [(10, opNewDocument (ex_document 1))]) as [_ Hw]; [done|].
  destruct (Hw id) as [E|([|] & t & doc & Hn & Ht)]; [exact E|injection Hn as <- _; lia|done].
Defined.

Lemma auto_register_spec_witness :
  fst (ex_run "none") = Ok ex_key /\ exists doc prov e,
  prov ∈ Providers doc /\ rs_trace (snd (ex_run "none")) =
    [FileCreated; PkiOpened; e; PkiShutdown; FileRemoved] /\
  registered_with (W:=unit) (P:=unit) prov (fixed_up id (ex_config "none") (ex_px "none"))
    (rs_cfg (snd (ex_run "none"))) ex_key e.
Proof.
  split; [reflexivity|].
  destruct (auto_register_spec (W:=unit) (P:=unit) (PkiClientLaws0:=ex_pki_laws) (fun _ _ _ _ _ => I)
    (mkReg (fixed_up id (ex_config "none") (ex_px "none")) tt [])
    (snd (ex_run "none")) (Ok ex_key) (surjective_pairing (ex_run "none"))) as (tr & Htr & _ & H).
  destruct (H ex_key eq_refl) as (doc & raw & epoch & prov & e & _ & _ & Hp & -> & Hr).
  exists doc, prov, e. by split_and!.
Defined.

Lemma registration_ignores_proxy_witness :
  (exists d, ToDialContext (fun b => b) 1 2 (ex_px "tor+socks5") "authority" = Ok (Some d)) /\
  exists host scheme user,
    Registered host (Some (mkOptions scheme false "tcp" "127.0.0.1:9050")) user
      (PublicBytes ex_key) ∈ rs_trace (snd (ex_run "tor+socks5")).
Proof.
  destruct (registration_ignores_proxy (W:=unit) (P:=unit) (PkiClientLaws0:=ex_pki_laws) (fun _ _ _ _ _ => I)
    id id no_error no_stat no_check (fun b => b) 1 2 (ex_config "tor+socks5")
    (ex_up "tor+socks5") (ex_px "tor+socks5") ex_chain
    (mkReg (fixed_up id (ex_config "tor+socks5") (ex_px "tor+socks5")) tt [])
    (snd (ex_run "tor+socks5")) ex_key) as [H1 H2].
  - split; try reflexivity; try discriminate; [|split; discriminate]. apply levels_cases. left.
    apply list_elem_of_In. by right; right; left.
  - by left.
  - reflexivity.
  - exact (surjective_pairing (ex_run "tor+socks5")).
  - split; [apply H1|exact H2].
Defined.
