(* ===== verification/Minclient.v ===== *)
(** The minclient's own life (minclient/client.go: New, halt, Shutdown; start and Halt
    of its two goroutines) under a session: the callbacks of connection and PKI worker
    send on the session's bounded channel of operations, which only the session's worker
    drains, and a shutdown stops that worker first (Session.Shutdown). Each of the three
    can also be in a wait that does not end: the PKI worker for a timer that has fired and
    been drained, the connection for its lock or for its callbacks, the session's worker
    in a call of the minclient (Pki.v, Reader.v, Handover.v and Blocking.v have the runs
    that lead there). *)

From S2P Require Import Prelude GoStd.

(** The capacity of the session's opCh. *)
Definition opCap : nat := 8.

(** A goroutine: not started, in its loop, in a callback that found opCh full, in a wait
    that does not end, gone. *)
Inductive thread := T_new | T_run | T_blocked | T_hung | T_gone.
#[global] Instance thread_eq_dec : EqDecision thread.
Proof. solve_decision. Defined.

(** [New]: before each of its last four statements (the fields set before them are
    configuration, logging and the haltedCh), then up; the shutdown: waiting for
    the session's goroutines, for the connection, for the PKI worker, before the last
    assignment, closed. *)
Inductive phase :=
  | U_conn | U_pki | U_start_pki | U_start_conn | U_up
  | D_session | D_conn | D_pki | D_last | D_closed.

#[global] Instance phase_eq_dec : EqDecision phase.
Proof. solve_decision. Defined.

Record Mini := mkMini {
  at_ : phase;
  conn_ptr : bool;          (* c.conn is not nil *)
  pki_ptr : bool;           (* c.pki is not nil *)
  conn : thread;            (* connectWorker *)
  pki : thread;             (* the PKI worker *)
  sworker : thread;         (* the session's worker *)
  ops : nat;                (* operations in opCh *)
  events : nat;             (* callbacks still to come *)
  nil_deref : bool;         (* a goroutine of the minclient has dereferenced nil *)
  app_deref : bool;         (* the application has *)
}.

Definition mini_init (n : nat) : Mini :=
  mkMini U_conn false false T_new T_new T_run 0 n false false.

Definition set_at (m : Mini) (p : phase) : Mini :=
  mkMini p (conn_ptr m) (pki_ptr m) (conn m) (pki m) (sworker m) (ops m) (events m)
    (nil_deref m) (app_deref m).
Definition set_ptrs (m : Mini) (c p : bool) : Mini :=
  mkMini (at_ m) c p (conn m) (pki m) (sworker m) (ops m) (events m) (nil_deref m) (app_deref m).
Definition set_conn (m : Mini) (t : thread) : Mini :=
  mkMini (at_ m) (conn_ptr m) (pki_ptr m) t (pki m) (sworker m) (ops m) (events m)
    (nil_deref m) (app_deref m).
Definition set_pki (m : Mini) (t : thread) : Mini :=
  mkMini (at_ m) (conn_ptr m) (pki_ptr m) (conn m) t (sworker m) (ops m) (events m)
    (nil_deref m) (app_deref m).
Definition set_sworker (m : Mini) (t : thread) : Mini :=
  mkMini (at_ m) (conn_ptr m) (pki_ptr m) (conn m) (pki m) t (ops m) (events m)
    (nil_deref m) (app_deref m).
Definition set_ops (m : Mini) (n : nat) : Mini :=
  mkMini (at_ m) (conn_ptr m) (pki_ptr m) (conn m) (pki m) (sworker m) n (events m)
    (nil_deref m) (app_deref m).
Definition set_events (m : Mini) (n : nat) : Mini :=
  mkMini (at_ m) (conn_ptr m) (pki_ptr m) (conn m) (pki m) (sworker m) (ops m) n
    (nil_deref m) (app_deref m).
Definition set_nil (m : Mini) : Mini :=
  mkMini (at_ m) (conn_ptr m) (pki_ptr m) (conn m) (pki m) (sworker m) (ops m) (events m)
    true (app_deref m).
Definition set_app (m : Mini) : Mini :=
  mkMini (at_ m) (conn_ptr m) (pki_ptr m) (conn m) (pki m) (sworker m) (ops m) (events m)
    (nil_deref m) true.

(** [New] has returned; the HaltCh of a goroutine is closed from its phase on. *)
Definition is_up (p : phase) : bool :=
  match p with U_conn | U_pki | U_start_pki | U_start_conn => false | _ => true end.
Definition session_halted (p : phase) : bool :=
  match p with D_session | D_conn | D_pki | D_last | D_closed => true | _ => false end.
Definition conn_halted (p : phase) : bool :=
  match p with D_conn | D_pki | D_last | D_closed => true | _ => false end.
Definition pki_halted (p : phase) : bool :=
  match p with D_pki | D_last | D_closed => true | _ => false end.

(** [New] and the shutdown, statement by statement. *)
Inductive main_step (m : Mini) : Mini -> Prop :=
  | n_conn : at_ m = U_conn -> main_step m (set_at (set_ptrs m true (pki_ptr m)) U_pki)
  | n_pki : at_ m = U_pki -> main_step m (set_at (set_ptrs m (conn_ptr m) true) U_start_pki)
  | n_start_pki : at_ m = U_start_pki -> main_step m (set_at (set_pki m T_run) U_start_conn)
  | n_start_conn : at_ m = U_start_conn -> main_step m (set_at (set_conn m T_run) U_up)
  | d_session : at_ m = U_up -> main_step m (set_at m D_session)
  | d_joined : at_ m = D_session -> sworker m = T_gone -> main_step m (set_at m D_conn)
  | d_conn : at_ m = D_conn -> conn m = T_gone -> main_step m (set_at m D_pki)
  | d_pki : at_ m = D_pki -> pki m = T_gone ->
      main_step m (set_at (set_ptrs m (conn_ptr m) false) D_last)
  | d_last : at_ m = D_last -> main_step m (set_at (set_ptrs m false (pki_ptr m)) D_closed).

(** The goroutines. [hangs]: whether they may come into a wait that does not end. *)
Inductive thread_step (hangs : bool) (m : Mini) : Mini -> Prop :=
  (* the session's worker takes an operation, or sees the halt *)
  | t_take n : sworker m = T_run -> ops m = S n -> thread_step hangs m (set_ops m n)
  | t_worker_halts : sworker m = T_run -> session_halted (at_ m) = true ->
      thread_step hangs m (set_sworker m T_gone)
  | t_worker_hangs : hangs = true -> sworker m = T_run ->
      thread_step hangs m (set_sworker m T_hung)
  (* the connection: a use of c.pki, a callback, the halt *)
  | t_conn_uses_pki : conn m = T_run -> pki_ptr m = false -> thread_step hangs m (set_nil m)
  | t_conn_event n : conn m = T_run -> events m = S n -> (ops m < opCap)%nat ->
      thread_step hangs m (set_ops (set_events m n) (S (ops m)))
  | t_conn_blocks n : conn m = T_run -> events m = S n -> (opCap <= ops m)%nat ->
      thread_step hangs m (set_conn (set_events m n) T_blocked)
  | t_conn_unblocks : conn m = T_blocked -> (ops m < opCap)%nat ->
      thread_step hangs m (set_conn (set_ops m (S (ops m))) T_run)
  | t_conn_halts : conn m = T_run -> conn_halted (at_ m) = true ->
      thread_step hangs m (set_conn m T_gone)
  | t_conn_hangs : hangs = true -> conn m = T_run -> thread_step hangs m (set_conn m T_hung)
  (* the PKI worker *)
  | t_pki_event n : pki m = T_run -> events m = S n -> (ops m < opCap)%nat ->
      thread_step hangs m (set_ops (set_events m n) (S (ops m)))
  | t_pki_blocks n : pki m = T_run -> events m = S n -> (opCap <= ops m)%nat ->
      thread_step hangs m (set_pki (set_events m n) T_blocked)
  | t_pki_unblocks : pki m = T_blocked -> (ops m < opCap)%nat ->
      thread_step hangs m (set_pki (set_ops m (S (ops m))) T_run)
  | t_pki_halts : pki m = T_run -> pki_halted (at_ m) = true ->
      thread_step hangs m (set_pki m T_gone)
  | t_pki_hangs : hangs = true -> pki m = T_run -> thread_step hangs m (set_pki m T_hung).

(** A use by the application, once [New] has returned: CurrentDocument reads c.pki,
    SendCiphertext also c.conn. *)
Inductive app_step (m : Mini) : Mini -> Prop :=
  | a_use : is_up (at_ m) = true -> pki_ptr m && conn_ptr m = false -> app_step m (set_app m).

Definition step (hangs : bool) (m m' : Mini) : Prop :=
  main_step m m' \/ thread_step hangs m m' \/ app_step m m'.
Definition running (hangs : bool) (m m' : Mini) : Prop := main_step m m' \/ thread_step hangs m m'.

Definition reaches (hangs : bool) (n : nat) : Mini -> Prop :=
  reachable (fun m => m = mini_init n) (step hangs).

(** ** Invariant *)

Definition has_conn (p : phase) : bool := match p with U_conn | D_closed => false | _ => true end.
Definition has_pki (p : phase) : bool :=
  match p with U_conn | U_pki | D_last | D_closed => false | _ => true end.

Record mini_ok (hangs : bool) (m : Mini) : Prop := {
  mo_conn_ptr : conn_ptr m = has_conn (at_ m);
  mo_pki_ptr : pki_ptr m = has_pki (at_ m);
  mo_conn_new : conn m = T_new <-> is_up (at_ m) = false;
  mo_pki_new : pki m = T_new <-> (at_ m = U_conn \/ at_ m = U_pki \/ at_ m = U_start_pki);
  mo_conn_gone : match at_ m with D_pki | D_last | D_closed => conn m = T_gone | _ => True end;
  mo_pki_gone : match at_ m with D_last | D_closed => pki m = T_gone | _ => True end;
  mo_conn_halt : conn m = T_gone -> conn_halted (at_ m) = true;
  mo_pki_halt : pki m = T_gone -> pki_halted (at_ m) = true;
  mo_sworker : sworker m = T_run \/ sworker m = T_hung \/
    sworker m = T_gone /\ session_halted (at_ m) = true;
  mo_joined : match at_ m with D_conn | D_pki | D_last | D_closed => sworker m = T_gone | _ => True end;
  mo_ops : (ops m <= opCap)%nat;
  mo_nil : nil_deref m = false;
  mo_app : app_deref m = true -> at_ m = D_last \/ at_ m = D_closed;
  mo_hung : conn m = T_hung \/ pki m = T_hung \/ sworker m = T_hung -> hangs = true;
}.

Lemma mini_init_ok hangs n : mini_ok hangs (mini_init n).
Proof. split; cbn; try done; try (by left); try lia; try tauto. by intros [|[|]]. Qed.

(** Computes the fields of the state, with what a step knows of them. *)
Ltac mini m :=
  destruct m; cbn in *; subst; split; cbn in *; intros;
  try solve [done | tauto | lia | congruence | intuition (congruence || lia)].

Lemma main_step_ok hangs m m' : mini_ok hangs m -> main_step m m' -> mini_ok hangs m'.
Proof.
  intros [F1 F2 F3 F4 F5 F6 F7 F8 F9 F10 F11 F12 F13 F14] [E|E|E|E|E|E E'|E E'|E E'|E]; mini m.
Qed.

Lemma thread_step_ok hangs m m' :
  mini_ok hangs m -> thread_step hangs m m' -> mini_ok hangs m'.
Proof.
  intros [F1 F2 F3 F4 F5 F6 F7 F8 F9 F10 F11 F12 F13 F14]
    [n Hs Ho|Hs Hh|Hg Hs|Hs Hp|n Hs He Ho|n Hs He Ho|Hs Ho|Hs Hh|Hg Hs|n Hs He Ho|n Hs He Ho|Hs Ho
    |Hs Hh|Hg Hs];
    destruct (at_ m) eqn:E; mini m.
Qed.

Lemma step_mini_ok hangs m m' : mini_ok hangs m -> step hangs m m' -> mini_ok hangs m'.
Proof.
  intros Hok [Hs|[Hs|Hs]]; [by eapply main_step_ok|by eapply thread_step_ok|].
  destruct Hs as [Hu Hp]. destruct Hok as [F1 F2 F3 F4 F5 F6 F7 F8 F9 F10 F11 F12 F13 F14].
  split; cbn; try done. intros _. rewrite F1, F2 in Hp. destruct (at_ m); cbn in *; auto; done.
Qed.

Lemma mini_reaches_ok hangs n m : reaches hangs n m -> mini_ok hangs m.
Proof.
  apply reachable_ind_inv; [intros ? ->; apply mini_init_ok|].
  intros m1 m2 Hok Hs. by eapply step_mini_ok.
Qed.

(** The connection runs only while c.pki is set. *)
Lemma conn_uses_ok hangs m : mini_ok hangs m -> conn m = T_run -> pki_ptr m = false -> False.
Proof.
  intros Hok Hc Hp. pose proof (mo_pki_ptr _ _ Hok) as F2. pose proof (mo_conn_new _ _ Hok) as F3.
  pose proof (mo_conn_gone _ _ Hok) as F5. rewrite Hp in F2. rewrite Hc in *.
  destruct (at_ m); cbn in *; done || (destruct F3 as [_ F3]; by specialize (F3 eq_refl)).
Qed.

(** ** Nobody blocks while the callbacks fit in opCh *)

Definition pending (t : thread) : nat := match t with T_blocked => 1 | _ => 0 end.
Definition no_block (n : nat) (m : Mini) : Prop :=
  (ops m + events m + pending (conn m) + pending (pki m) <= n)%nat /\
  ((n <= opCap)%nat -> conn m <> T_blocked /\ pki m <> T_blocked).

Lemma no_block_step hangs n m m' : no_block n m -> step hangs m m' -> no_block n m'.
Proof.
  intros [Hn Hb] [Hs|[Hs|Hs]]; destruct Hs; destruct m; unfold no_block in *; cbn in *; subst; split; cbn in *; try lia;
    intros Hle; destruct (Hb Hle); solve [split; done | exfalso; unfold opCap in *; lia].
Qed.

Lemma reaches_no_block hangs n m : reaches hangs n m -> no_block n m.
Proof.
  apply (reachable_ind_inv _ _ (no_block n)).
  - intros ? ->. split; cbn; [lia|done].
  - intros m1 m2 Hok Hs. by eapply no_block_step.
Qed.

(** ** Every run ends *)

Definition phase_rank (p : phase) : nat :=
  match p with
  | U_conn => 9 | U_pki => 8 | U_start_pki => 7 | U_start_conn => 6 | U_up => 5
  | D_session => 4 | D_conn => 3 | D_pki => 2 | D_last => 1 | D_closed => 0
  end.
Definition thread_rank (t : thread) : nat :=
  match t with T_new => 4 | T_blocked => 5 | T_run => 3 | T_hung | T_gone => 0 end.
Definition mini_rank (m : Mini) : nat :=
  phase_rank (at_ m) + thread_rank (conn m) + thread_rank (pki m) + thread_rank (sworker m) +
  ops m + 3 * events m.

Lemma running_rank hangs m m' :
  mini_ok hangs m -> running hangs m m' -> (mini_rank m' < mini_rank m)%nat.
Proof.
  intros Hok [Hs|Hs]; unfold mini_rank.
  - destruct Hs as [E|E|E|E|E|E E'|E E'|E E'|E]; cbn; rewrite E; cbn; try lia.
    + rewrite (proj2 (mo_pki_new _ _ Hok)) by tauto. cbn. lia.
    + rewrite (proj2 (mo_conn_new _ _ Hok)) by (by rewrite E). cbn. lia.
  - destruct Hs as [n Hs Ho|Hs Hh|Hg Hs|Hs Hp|n Hs He Ho|n Hs He Ho|Hs Ho|Hs Hh|Hg Hs|n Hs He Ho
      |n Hs He Ho|Hs Ho|Hs Hh|Hg Hs]; cbn; rewrite ?Hs; try (rewrite He); try (rewrite Ho); cbn; try lia.
    destruct (conn_uses_ok hangs m Hok Hs Hp).
Qed.

(** ** The end of a shutdown *)

(** While nobody is blocked or hung, a shutdown that is not complete can go on. *)
Lemma shutdown_moves hangs m :
  mini_ok hangs m -> (forall t, t = conn m \/ t = pki m -> t <> T_blocked /\ t <> T_hung) ->
  sworker m <> T_hung -> at_ m <> D_closed -> exists m', running hangs m m'.
Proof.
  intros Hok Ht Hw Hat. destruct (Ht _ (or_introl eq_refl)) as [Hc Hc'].
  destruct (Ht _ (or_intror eq_refl)) as [Hp Hp']. destruct (at_ m) eqn:E; [..|done].
  1-5,9: eexists; left; eauto using n_conn, n_pki, n_start_pki, n_start_conn, d_session, d_last.
  - destruct (mo_sworker _ _ Hok) as [Hs|[Hs|[Hs _]]]; [|done|].
    + eexists. right. apply t_worker_halts; [done|by rewrite E].
    + eexists. left. by apply d_joined.
  - destruct (conn m) eqn:Ec; try done.
    + pose proof (proj1 (mo_conn_new _ _ Hok) Ec) as H. by rewrite E in H.
    + eexists. right. apply t_conn_halts; [done|by rewrite E].
    + eexists. left. by apply d_conn.
  - destruct (pki m) eqn:Ec; try done.
    + destruct (proj1 (mo_pki_new _ _ Hok) Ec) as [H|[H|H]]; by rewrite E in H.
    + eexists. right. apply t_pki_halts; [done|by rewrite E].
    + eexists. left. by apply d_pki.
Qed.

(** C22. In every interleaving of the making and the shutdown of a minclient with its
    goroutines, the session's worker and the application, the goroutines never meet a nil
    pointer: they start after both are set and are gone before they are cleared; when the
    shutdown is complete all three are gone. The application meets one only after the PKI
    worker has been torn down. *)
Theorem minclient_pointers hangs n m :
  reaches hangs n m ->
  nil_deref m = false /\
  (conn m = T_run \/ conn m = T_blocked \/ conn m = T_hung -> conn_ptr m = true /\ pki_ptr m = true) /\
  (pki m = T_run \/ pki m = T_blocked \/ pki m = T_hung -> conn_ptr m = true /\ pki_ptr m = true) /\
  (at_ m = D_closed -> conn m = T_gone /\ pki m = T_gone /\ sworker m = T_gone) /\
  (app_deref m = true -> conn m = T_gone /\ pki m = T_gone).
Proof.
  intros Hok%mini_reaches_ok. destruct Hok as [F1 F2 F3 F4 F5 F6 F7 F8 F9 F10 F11 F12 F13 F14].
  rewrite F1, F2. split; [done|]. clear F14. split_and!.
  - intros Hc. destruct (at_ m); cbn in *; split; try done; intuition congruence.
  - intros Hp. destruct (at_ m); cbn in *; split; try done; intuition congruence.
  - intros E. by rewrite E in *.
  - intros Ha. by destruct (F13 Ha) as [E|E]; rewrite E in *.
Qed.

(** Eight operations in the channel, the session's worker gone, a ninth callback. *)
Definition full_channel : Mini := mkMini D_conn true true T_blocked T_run T_gone 8 0 false false.

Lemma full_channel_reached : reaches false 9 full_channel.
Proof.
  exists (mini_init 9). split; [done|].
  eapply rtc_l; [left; by apply n_conn|]. eapply rtc_l; [left; by apply n_pki|].
  eapply rtc_l; [left; by apply n_start_pki|]. eapply rtc_l; [left; by apply n_start_conn|].
  do 8 (eapply rtc_l; [right; left; eapply t_conn_event; cbn; [done|done|unfold opCap; lia]|]).
  eapply rtc_l; [left; by apply d_session|].
  eapply rtc_l; [right; left; by apply t_worker_halts|].
  eapply rtc_l; [left; by apply d_joined|].
  eapply rtc_l; [right; left; eapply t_conn_blocks; cbn; [done|done|unfold opCap; lia]|].
  apply rtc_refl.
Qed.

Lemma full_channel_stuck : stuck (running false) full_channel.
Proof.
  intros m' [Hs|Hs]; inversion Hs; cbn in *; try done; unfold opCap in *; lia.
Qed.

(** A PKI worker in its wait for the timer when it is to be halted. *)
Definition pki_waits : Mini := mkMini D_pki true true T_gone T_hung T_gone 0 0 false false.

Lemma pki_waits_reached : reaches true 0 pki_waits.
Proof.
  exists (mini_init 0). split; [done|].
  eapply rtc_l; [left; by apply n_conn|]. eapply rtc_l; [left; by apply n_pki|].
  eapply rtc_l; [left; by apply n_start_pki|]. eapply rtc_l; [left; by apply n_start_conn|].
  eapply rtc_l; [right; left; by apply t_pki_hangs|]. eapply rtc_l; [left; by apply d_session|].
  eapply rtc_l; [right; left; by apply t_worker_halts|]. eapply rtc_l; [left; by apply d_joined|].
  eapply rtc_l; [right; left; by apply t_conn_halts|]. eapply rtc_l; [left; by apply d_conn|].
  apply rtc_refl.
Qed.

Lemma running_terminates hangs m : mini_ok hangs m -> Acc (fun m' m => running hangs m m') m.
Proof.
  intros Hok. remember (mini_rank m) as r eqn:Er.
  assert (mini_rank m <= r)%nat as Hle by lia. clear Er. revert m Hok Hle.
  induction r as [|r IH]; intros m Hok Hle; constructor; intros m' Hs;
    pose proof (running_rank hangs m m' Hok Hs); [lia|]. apply IH; [|lia].
  eapply step_mini_ok; [exact Hok|]. destruct Hs; [by left|by right; left].
Qed.

(** C23. Every run of the goroutines ends. When they can do nothing more, the shutdown is
    complete; or one of the three is in a wait that does not end; or, and this only with
    more callbacks than the session's channel of operations has room for, a callback waits
    for room in it that nobody makes any more. So with at most eight callbacks still to
    come, and no endless wait, every shutdown completes. Neither can be left out: there is
    a run with nine callbacks in which the connection waits in one, and the shutdown for
    the connection, for ever; and one without any in which it waits for ever for the PKI
    worker. *)
Theorem minclient_shutdown hangs n :
  (forall m, reaches hangs n m -> Acc (fun m' m => running hangs m m') m) /\
  (forall m, reaches hangs n m -> stuck (running hangs) m ->
     at_ m = D_closed \/
     hangs = true /\ (conn m = T_hung \/ pki m = T_hung \/ sworker m = T_hung) \/
     (opCap < n)%nat /\ (conn m = T_blocked \/ pki m = T_blocked)) /\
  (exists m, reaches false 9 m /\ stuck (running false) m /\ at_ m = D_conn /\ conn m = T_blocked) /\
  (exists m, reaches true 0 m /\ stuck (running true) m /\ at_ m = D_pki /\ pki m = T_hung).
Proof.
  split_and!.
  - intros m Hok%mini_reaches_ok. by apply running_terminates.
  - intros m Hr Hst. pose proof (reaches_no_block _ n m Hr) as [_ Hb].
    pose proof (mini_reaches_ok _ _ _ Hr) as Hok.
    destruct (decide (at_ m = D_closed)) as [|Hat]; [by left|right].
    destruct (decide (conn m = T_hung \/ pki m = T_hung \/ sworker m = T_hung)) as [Hh|Hh].
    { left. split; [by apply (mo_hung _ _ Hok)|done]. }
    right. destruct (decide (conn m = T_blocked \/ pki m = T_blocked)) as [Hbl|Hbl].
    { split; [|done]. destruct (decide (n <= opCap)%nat) as [Hn|]; [|lia]. destruct (Hb Hn). tauto. }
    destruct (shutdown_moves hangs m Hok) as [m' Hm'%Hst]; [|tauto|done|done].
    intros t [-> | ->]; tauto.
  - exists full_channel. split_and!; [apply full_channel_reached|apply full_channel_stuck|done..].
  - exists pki_waits. split_and!; [apply pki_waits_reached| |done..].
    intros m' [Hs|Hs]; inversion Hs; cbn in *; done.
Qed.

Lemma minclient_pointers_witness :
  reaches false 9 full_channel /\ conn_ptr full_channel = true /\ nil_deref full_channel = false.
Proof.
  split; [exact full_channel_reached|].
  destruct (minclient_pointers false 9 full_channel full_channel_reached) as (H & Hc & _).
  split; [|exact H]. by apply Hc; right; left.
Defined.

#[local] Definition ex_closed : Mini :=
  mkMini D_closed false false T_gone T_gone T_gone 0 0 false false.

#[local] Lemma ex_closed_reached : reaches false 0 ex_closed.
Proof.
  exists (mini_init 0). split; [done|].
  eapply rtc_l; [left; by apply n_conn|]. eapply rtc_l; [left; by apply n_pki|].
  eapply rtc_l; [left; by apply n_start_pki|]. eapply rtc_l; [left; by apply n_start_conn|].
  eapply rtc_l; [left; by apply d_session|].
  eapply rtc_l; [right; left; by apply t_worker_halts|]. eapply rtc_l; [left; by apply d_joined|].
  eapply rtc_l; [right; left; by apply t_conn_halts|]. eapply rtc_l; [left; by apply d_conn|].
  eapply rtc_l; [right; left; by apply t_pki_halts|]. eapply rtc_l; [left; by apply d_pki|].
  eapply rtc_l; [left; by apply d_last|]. apply rtc_refl.
Qed.

Lemma minclient_shutdown_witness :
  stuck (running false) ex_closed /\ at_ ex_closed = D_closed.
Proof.
  assert (stuck (running false) ex_closed) as Hs.
  { intros m' [Hs|Hs]; inversion Hs; cbn in *; done. }
  split; [exact Hs|]. destruct (minclient_shutdown false 0) as (_ & H & _).
  destruct (H ex_closed ex_closed_reached Hs) as [E|[[E _]|[_ [E|E]]]]; [exact E|done..].
Defined.
