(* ===== verification/Startup.v ===== *)
(** Starting up: the making of a session with everything it starts (NewSession of
    session.go over the minclient's New), the client's constructors and Start
    (client.go). *)

From S2P Require Import Prelude GoStd PkiClient Proxy Katzenmint Config Session Worker Client.

#[local] Set Default Proof Using "Type".

(** The goroutines that a session leaves running, in the order of their start: the
    cache's worker, the session's event sink and collector, the two workers of the
    minclient, the session's worker. *)
Inductive goroutine :=
  | G_cache | G_sink | G_collector | G_pki | G_conn | G_worker.

Inductive startup_error :=
  | SE_pki (e : string)
  | SE_proxy (e : proxy_error)        (* ToDialContext has no error: never *)
  | SE_config (e : client_error)
  | SE_await (r : await_result).

Section Startup.
Context {W P : Type} `{RegEnv W P}.
Context (Sum512_256 : bytes -> bytes) (pid now MaxAdditionalDataLength : Z) (LoopService : string).

(** The rest of the world, the goroutines started, the reports on fatalErrCh and the
    configuration the minclient was made with, if it was. *)
Record world_state := mkWorld {
  ws_world : W; ws_running : list goroutine; ws_fatal : nat; ws_minclient : option ClientConfig
}.
Definition Start_M := ST startup_error world_state.

Definition go (g : goroutine) : Start_M unit :=
  modify (fun s => mkWorld (ws_world s) (ws_running s ++ [g]) (ws_fatal s) (ws_minclient s)).
(** The report on fatalErrCh, received by the client's watcher. *)
Definition fatal : Start_M unit :=
  modify (fun s => mkWorld (ws_world s) (ws_running s) (S (ws_fatal s)) (ws_minclient s)).
Definition on_world {A} (f : W -> A * W) : Start_M A :=
  fun s => let '(a, w) := f (ws_world s) in (Ok a, mkWorld w (ws_running s) (ws_fatal s) (ws_minclient s)).

(** [c.cfg = cfg] of the minclient. *)
Definition set_minclient (cfg : ClientConfig) : Start_M unit :=
  modify (fun s => mkWorld (ws_world s) (ws_running s) (ws_fatal s) (Some cfg)).

(** [minclient.New]. *)
Definition minclient_New (cfg : ClientConfig) : Start_M unit :=
  match ClientConfig_validate MaxAdditionalDataLength cfg with
  | Some e => lift (Err (SE_config e))
  | None => set_minclient cfg;; go G_pki;; go G_conn
  end.

(** What the session's operations bring, and when the wait for the first document
    begins; the context is the one of [Client.NewSession], made at [created]; [choices] are
    those of the runtime in the [select] of the wait. *)
Record timeline := mkTimeline {
  created : Time; waiting : Time; arrivals : list (Time * workerOp); choices : nat -> nat
}.

Definition NewSession (cfg : Config) (linkKey : bytes) (t : timeline) : Start_M P :=
  k ← lift (deref (cKatzenmint cfg));
  r ← on_world (NewPKIClient (pki_config k));
  pkiClient ← lift (match r with inl e => Err (SE_pki e) | inr p => Ok p end);
  go G_cache;;
  clientCfg ← lift (map_err SE_proxy
                      (session_client_config Sum512_256 pid now cfg linkKey));
  go G_sink;; go G_collector;;
  minclient_New clientCfg;;
  d ← lift (deref (cDebug cfg));
  match awaitFirstPKIDoc LoopService (retrieval_delay d) (Some (created t + session_timeout d))
          None (choices t) (waiting t) (arrivals t) with
  | A_ok _ => go G_worker;; mret pkiClient
  | A_invalid at_ e => fatal;; lift (Err (SE_await (A_invalid at_ e)))
  | r => lift (Err (SE_await r))
  end.

(** ** The client (client.go) *)

Record Client := mkClient {
  cl_cfg : Config; cl_backend : W; cl_session : option P; cl_linkKey : bytes; cl_service : string
}.

Section New.
Context (IsAbs : string -> bool) (log_New : string -> string -> bool -> string + W).

(** The channels and the watcher are in Lifecycle.v; the key is a fresh, empty one. *)
Definition New (cfg : Config) (service : string) : outcome client_error Client :=
  backend ← InitLogging IsAbs log_New cfg;
  mret (mkClient cfg backend None [] service).
Definition NewFromConfig (cfg : Config) (service : string) : outcome client_error Client :=
  backend ← InitLogging IsAbs log_New cfg;
  mret (mkClient cfg backend None [] service).
End New.

(** [Start]: the registration, then the session with its key. The registration has
    changed the configuration by the time the session reads it. *)
Definition Start `{PkiClient P} (s : reg_state (W:=W)) (t : timeline) :
    outcome startup_error P * reg_state (W:=W) * world_state :=
  match AutoRegisterRandomClient (P:=P) s with
  | (Ok key, s) =>
      let '(r, w) := NewSession (rs_cfg s) (PrivateBytes key) t (mkWorld (rs_world s) [] 0 None) in
      (r, mkReg (rs_cfg s) (ws_world w) (rs_trace s), w)
  | (_, s) => (Panic, s, mkWorld (rs_world s) [] 0 None)
  end.

(** ** What a session needs and what it leaves *)

(** One equation for the whole function. *)
Lemma NewSession_eq cfg linkKey t k a px d s :
  cKatzenmint cfg = Some k -> cAccount cfg = Some a -> upstreamProxy cfg = Some px ->
  cDebug cfg = Some d ->
  NewSession cfg linkKey t s =
  let '(r, w) := NewPKIClient (pki_config k) (ws_world s) in
  let at_g l := mkWorld w (ws_running s ++ l) (ws_fatal s) (ws_minclient s) in
  match r with
  | inl e => (Err (SE_pki e), at_g [])
  | inr p =>
      match session_client_config Sum512_256 pid now cfg linkKey with
      | Err e => (Err (SE_proxy e), at_g [G_cache])
      | Panic => (Panic, at_g [G_cache])
      | Ok cc =>
          match ClientConfig_validate MaxAdditionalDataLength cc with
          | Some e => (Err (SE_config e), at_g [G_cache; G_sink; G_collector])
          | None =>
              let up l n := mkWorld w (ws_running s ++ [G_cache; G_sink; G_collector; G_pki; G_conn] ++ l)
                (n + ws_fatal s)%nat (Some cc) in
              match awaitFirstPKIDoc LoopService (retrieval_delay d)
                      (Some (created t + session_timeout d)) None (choices t) (waiting t) (arrivals t) with
              | A_ok _ => (Ok p, up [G_worker] 0%nat)
              | A_invalid at_ e => (Err (SE_await (A_invalid at_ e)), up [] 1%nat)
              | r => (Err (SE_await r), up [] 0%nat)
              end
          end
      end
  end.
Proof.
  intros Hk Ha Hp Hd.
  unfold NewSession, minclient_New, set_minclient, go, fatal, on_world, mbind, ST_bind, modify, mret, ST_ret, lift.
  rewrite Hk, Hd. cbn [deref].
  destruct (NewPKIClient (pki_config k) (ws_world s)) as [[e|p] w]; cbn; [by rewrite app_nil_r|].
  destruct (session_client_config Sum512_256 pid now cfg linkKey) as [cc|e|]; cbn; [|done..].
  destruct (ClientConfig_validate MaxAdditionalDataLength cc) as [e|]; cbn;
    [by rewrite <- !app_assoc|].
  destruct (awaitFirstPKIDoc _ _ _ _ _ _ _); cbn; by rewrite <- !app_assoc.
Qed.

(** The sections of the configuration a session reads: the client configuration it
    makes of a validated configuration with an account. *)
Definition config_for (c : Config) (px : Proxy.Config) (a : Account) (d : Debug)
    (dial : option contextSOCKS5) (key : bytes) : ClientConfig :=
  mkClientConfig (AccUser a) (AccProvider a) (ProviderKeyPin a) (Some key) true true dial
    (PreferedTransports d) (Duration_mul (PollingInterval d) Millisecond) false.

Lemma session_client_config_ok addr stat c a px d key :
  cAccount c = Some a -> upstreamProxy c = Some px -> proxy_ok addr stat px -> cDebug c = Some d ->
  exists dial, ToDialContext Sum512_256 pid now px "authority" = Ok dial /\
    session_client_config Sum512_256 pid now c key = Ok (config_for c px a d dial key).
Proof.
  intros Ha Hp Hok Hd. unfold session_client_config, UpstreamProxyConfig.
  rewrite Ha, Hp, Hd. cbn [deref mbind outcome_bind].
  destruct (ToDialContext_valid addr stat Sum512_256 pid now px "authority" Hok)
    as [[_ E]|(_ & _ & E)]; rewrite E; cbn; by eexists.
Qed.

Lemma ClientConfig_validate_for c px a d dial key :
  ClientConfig_validate MaxAdditionalDataLength (config_for c px a d dial key) = None <->
  AccUser a <> "" /\ string_len (AccUser a) <= MaxAdditionalDataLength /\ AccProvider a <> "".
Proof.
  clear Sum512_256. unfold ClientConfig_validate, config_for. cbn.
  destruct (String.eqb_spec (AccUser a) "") as [E|E]; cbn; [split; [done|tauto]|].
  destruct (Z.ltb_spec MaxAdditionalDataLength (string_len (AccUser a))); [split; [done|lia]|].
  by destruct (String.eqb_spec (AccProvider a) "") as [E'|E']; split; try done; tauto.
Qed.

(** From a configuration that full validation accepts, the configuration of the
    minclient can always be made, without a panic: the account's prepared names, the
    connections through the configured proxy, the polling interval of the Debug section in
    milliseconds; and the minclient accepts it exactly if the user name fits in the
    handshake's additional data. *)
Theorem valid_config_for_session unicode_ToUpper unicode_ToLower addr stat basic mapped
    preserved ToASCII parse c c' key :
  Config_FixupAndValidate unicode_ToUpper unicode_ToLower addr stat basic mapped preserved
    ToASCII parse c = (Ok tt, c') ->
  exists a px d dial, cAccount c' = Some a /\ upstreamProxy c' = Some px /\ cDebug c' = Some d /\
    ToDialContext Sum512_256 pid now px "authority" = Ok dial /\
    session_client_config Sum512_256 pid now c' key = Ok (config_for c' px a d dial key) /\
    GetPollInterval (config_for c' px a d dial key) =
      Duration_mul (PollingInterval d) Millisecond /\ PollingInterval d <> 0 /\
    (ClientConfig_validate MaxAdditionalDataLength (config_for c' px a d dial key) = None <->
     string_len (AccUser a) <= MaxAdditionalDataLength).
Proof.
  intros Hv. apply full_Ok in Hv as (u & px & k & a & a' & r & Hm & Hav & ->).
  destruct (session_client_config_ok addr stat
    (with_account (fixed_up unicode_ToUpper c px) a') a' px (effective_debug c) key)
    as (dial & Hdial & Hcc); [done..| |done|].
  { eapply toProxyConfig_ok, (valid_proxy _ _ _ _ _ _ _ _ _ Hm). }
  exists a', px, (effective_debug c), dial. split_and!; try done.
  - unfold effective_debug. destruct (cDebug c) as [d|]; [|done]. cbn.
    by destruct (Z.eqb_spec (PollingInterval d) 0).
  - rewrite ClientConfig_validate_for. destruct (av_nonempty _ _ _ _ _ _ _ _ Hav). tauto.
Qed.


(** ** Start *)

Context `{PkiClientLaws P}.
Hypothesis NewPKIClient_ok : forall cfg w p w',
  NewPKIClient cfg w = (inr p, w') -> pc_ok p.

(** What a session that is up has made its minclient with. *)
Lemma NewSession_Ok c key t s p s' k a px d addr stat :
  cKatzenmint c = Some k -> cAccount c = Some a -> upstreamProxy c = Some px ->
  proxy_ok addr stat px -> cDebug c = Some d ->
  NewSession c key t s = (Ok p, s') ->
  exists dial, ws_minclient s' = Some (config_for c px a d dial key) /\
    ws_running s' = ws_running s ++ [G_cache; G_sink; G_collector; G_pki; G_conn; G_worker] /\
    ClientConfig_validate MaxAdditionalDataLength (config_for c px a d dial key) = None.
Proof.
  intros Hk Ha Hp Hok Hd E. rewrite (NewSession_eq _ _ _ _ _ _ _ _ Hk Ha Hp Hd) in E.
  destruct (session_client_config_ok addr stat c a px d key Ha Hp Hok Hd) as (dial & _ & Hcc).
  exists dial. rewrite Hcc in E.
  destruct (NewPKIClient (pki_config k) (ws_world s)) as [[e|q] w]; [done|].
  destruct (ClientConfig_validate _ _); [done|].
  by destruct (awaitFirstPKIDoc _ _ _ _ _ _ _); simplify_eq/=.
Qed.

(** C9. A client that starts from a loaded configuration logs in with the account it has
    just registered. Of the configuration its minclient was made with, the user name is
    the one the provider was told, the hexadecimal public key of a key pair; the link key
    is the private half of that very pair; the provider and the pinned key are those of
    the provider that registered it, one of a vouched-for document. *)
Theorem start_logs_in_as_registered upper lower addr stat basic c u px k s t p s' w :
  minimally_valid upper lower addr stat basic c u px k ->
  rs_cfg s = fixed_up upper c px -> rs_trace s = [] ->
  Start s t = (Ok p, s', w) ->
  exists doc raw epoch prov key host opts cc,
    pc_doc epoch (doc, raw) /\ prov ∈ Providers doc /\
    Registered host opts (ccUser cc) (PublicBytes key) ∈ rs_trace s' /\
    ws_minclient w = Some cc /\
    ccUser cc = hex_EncodeToString (PublicBytes key) /\ ccLinkKey cc = Some (PrivateBytes key) /\
    ccProvider cc = PkiClient.Name prov /\ ccPin cc = Some (IdentityKey prov) /\
    Z.of_nat (2 * length (PublicBytes key)) <= MaxAdditionalDataLength /\
    ws_running w = [G_cache; G_sink; G_collector; G_pki; G_conn; G_worker].
Proof using Type NewPKIClient_ok.
  intros Hv Hs Htr0 E. unfold Start in E.
  destruct (AutoRegisterRandomClient s) as [[key|e|] s1] eqn:Ea; [|done..].
  apply (AutoRegister_run NewPKIClient_ok) in Ea as (tr & Htr & _ & Hreg).
  destruct (Hreg key eq_refl) as (doc & raw & epoch & prov & e & Hdoc & _ & Hprov & -> & Hr).
  destruct Hr as (ad & rest & host & scheme & up & _ & _ & Hup & Hcfg & ->).
  destruct (NewSession (rs_cfg s1) (PrivateBytes key) t _) as [r w1] eqn:En.
  injection E as -> <- <-. rewrite Hs in Hcfg. cbn [rs_cfg rs_trace].
  set (a := mkAccount (hex_EncodeToString (PublicBytes key)) (PkiClient.Name prov)
              (Some (IdentityKey prov))) in *.
  assert (cKatzenmint (rs_cfg s1) = Some k) as Hk
    by (rewrite Hcfg; exact (mv_katzenmint _ _ _ _ _ _ _ _ _ Hv)).
  assert (proxy_ok addr stat px) as Hpx
    by (eapply toProxyConfig_ok, (valid_proxy _ _ _ _ _ _ _ _ _ Hv)).
  assert (cAccount (rs_cfg s1) = Some a) as Ha by (by rewrite Hcfg).
  assert (upstreamProxy (rs_cfg s1) = Some px) as Hp by (by rewrite Hcfg).
  assert (cDebug (rs_cfg s1) = Some (effective_debug c)) as Hd by (by rewrite Hcfg).
  destruct (NewSession_Ok _ _ _ _ _ _ k a px (effective_debug c) addr stat Hk Ha Hp Hpx Hd En)
    as (dial & Hcc & Hrun & Hval).
  eexists doc, raw, epoch, prov, key, host, _, _.
  split_and!; [done|done| |exact Hcc|done|done|done|done| |exact Hrun].
  - rewrite Htr, Htr0. apply list_elem_of_In. by right; right; left.
  - apply ClientConfig_validate_for in Hval as (_ & Hlen & _). unfold string_len in Hlen.
    cbn [AccUser a] in Hlen. by rewrite length_hex_EncodeToString in Hlen.
Qed.
End Startup.

(** ** Concrete runs *)

#[local] Existing Instance Client.ex_env.
#[local] Existing Instance Client.ex_pki.
#[local] Existing Instance Client.ex_pki_laws.

#[local] Definition ex_debug : Debug := mkDebug false 30 30 false 10 [].
(** A configuration with a Debug section, and the account of its user. *)
#[local] Definition ex_config : Config :=
  mkCfg None (Some (Client.ex_up "none")) (Some ex_debug) (Some Client.ex_chain)
    (Some (mkAccount "alice" "provider" None)) (Some (mkRegistration "h:3" None)) None None None.
#[local] Definition ex_px : Proxy.Config := Client.ex_px "none".
#[local] Definition ex_fixed : Config := fixed_up id ex_config ex_px.

(** A document that arrives four seconds after the session was made. *)
#[local] Definition ex_time : timeline :=
  mkTimeline 0 Second
    [(2 * Second, opConnStatusChanged true);
     (4 * Second, opNewDocument (mkDoc 3 S754_nan 0 S754_nan 0 S754_nan 0 S754_nan 0 [] []))] (fun _ => 0%nat).

#[local] Abbreviation ex_session := (NewSession (W:=unit) (P:=unit) (fun b => b) 1 2 255 "loop").
#[local] Abbreviation no_error := (fun _ : string => @None string).
#[local] Abbreviation no_stat := (fun _ : string => inr (A:=string) false).
#[local] Abbreviation no_check := (fun _ : TrustOptions => @None string).

Lemma valid_config_for_session_witness :
  let keep (s : string) := (s, @None string) in
  Config_FixupAndValidate id id no_error no_stat no_check keep keep keep no_error ex_config =
    (Ok tt, ex_fixed) /\
  exists cc, session_client_config (fun b => b) 1 2 ex_fixed [] = Ok cc /\
    ClientConfig_validate 255 cc = None.
Proof.
  intros keep. assert (Config_FixupAndValidate id id no_error no_stat no_check keep keep keep no_error
    ex_config = (Ok tt, ex_fixed)) as Hv by reflexivity.
  split; [exact Hv|].
  destruct (valid_config_for_session (fun b => b) 1 2 255 id id no_error no_stat no_check keep keep
    keep no_error ex_config ex_fixed [] Hv) as (a & px & d & dial & [= <-] & _ & _ & _ & Hcc & _ & _ & H).
  eexists. split; [exact Hcc|]. by apply H.
Defined.

#[local] Lemma ex_proxy_ok : proxy_ok no_error no_stat ex_px.
Proof. by apply (toProxyConfig_ok id no_error no_stat (Some (Client.ex_up "none"))). Qed.


Lemma start_logs_in_as_registered_witness :
  let s := mkReg (fixed_up id ex_config ex_px) tt [] in
  let r := Start (W:=unit) (P:=unit) (fun b => b) 1 2 255 "loop" s ex_time in
  fst (fst r) = Ok tt /\
  exists key host opts cc, Registered host opts (ccUser cc) (PublicBytes key) ∈ rs_trace (snd (fst r)) /\
    ws_minclient (snd r) = Some cc /\ ccLinkKey cc = Some (PrivateBytes key).
Proof.
  intros s r. split; [reflexivity|].
  destruct (start_logs_in_as_registered (W:=unit) (P:=unit) (fun b => b) 1 2 255 "loop"
    (H1:=Client.ex_pki_laws) (fun _ _ _ _ _ => I) id id no_error no_stat no_check
    ex_config (Client.ex_up "none") ex_px Client.ex_chain s ex_time tt (snd (fst r)) (snd r))
    as (doc & raw & epoch & prov & key & host & opts & cc & _ & _ & H1 & H2 & _ & H3 & _).
  - split; try reflexivity; try discriminate; [|split; discriminate]. apply levels_cases. left.
    apply list_elem_of_In. by right; right; left.
  - reflexivity.
  - reflexivity.
  - vm_compute. reflexivity.
  - exists key, host, opts, cc. split; [exact H1|]. split; [exact H2|exact H3].
Defined.
