(* ===== verification/Lifecycle.v ===== *)
(** The lifecycle of a client (client.go, Shutdown of session.go): the once-only
    shutdown, the watcher of fatal errors, the session's worker that reports them, the
    making of a session by the application. Goroutines are the threads of a step
    relation. Calls into the minclient (by the session's worker, and the Shutdown and Wait
    of session.Shutdown) may be taken not to return: Minclient.v, Reader.v and Handover.v
    have when they do not. *)

From S2P Require Import Prelude GoStd.

(** The session as the client knows it: none yet, one in the making (with the report of
    its first document's error pending in [S_reporting]), one that failed, one assigned
    to [c.session]. *)
Inductive session_state := S_none | S_building | S_reporting | S_failed | S_live.
(** The session's worker: in its loop, in a send on [fatalErrCh], in a call of the
    minclient that does not return, gone. *)
Inductive worker_state := W_loop | W_sending | W_hung | W_gone.
(** The goroutine of [New] that waits for a fatal error. *)
Inductive watcher_state := V_watching | V_shutdown | V_returned.
(** The steps of [halt]: before the test of the session; in [session.Shutdown] waiting
    for its goroutines, then in the [Shutdown] and [Wait] of its minclient, which may not
    return; before each [close]. *)
Inductive phase := H_start | H_session | H_minclient | H_hung | H_close_fatal | H_close_halted.
Inductive once_state := O_fresh | O_running (p : phase) | O_done.

#[global] Instance session_state_eq_dec : EqDecision session_state.
Proof. solve_decision. Defined.

Record Life := mkLife {
  session : session_state;
  worker : worker_state;
  watcher : watcher_state;
  haltOnce : once_state;
  callers : nat;          (* calls of Shutdown by the application *)
  faults : nat;           (* fatal errors still to occur *)
  session_halts : nat;    (* calls of session.Shutdown *)
  fatal_closed : nat;     (* closes of fatalErrCh *)
  halted_closed : nat;    (* closes of haltedCh *)
  panicked : bool;
}.

(** [New]: the channels open, the watcher started. *)
Definition New (calls errors : nat) : Life :=
  mkLife S_none W_loop V_watching O_fresh calls errors 0 0 0 false.

Definition with_session (l : Life) (s : session_state) : Life :=
  mkLife s (worker l) (watcher l) (haltOnce l) (callers l) (faults l) (session_halts l)
    (fatal_closed l) (halted_closed l) (panicked l).
Definition with_worker (l : Life) (w : worker_state) : Life :=
  mkLife (session l) w (watcher l) (haltOnce l) (callers l) (faults l) (session_halts l)
    (fatal_closed l) (halted_closed l) (panicked l).
Definition with_watcher (l : Life) (v : watcher_state) : Life :=
  mkLife (session l) (worker l) v (haltOnce l) (callers l) (faults l) (session_halts l)
    (fatal_closed l) (halted_closed l) (panicked l).
Definition with_once (l : Life) (o : once_state) : Life :=
  mkLife (session l) (worker l) (watcher l) o (callers l) (faults l) (session_halts l)
    (fatal_closed l) (halted_closed l) (panicked l).
Definition with_callers (l : Life) (n : nat) : Life :=
  mkLife (session l) (worker l) (watcher l) (haltOnce l) n (faults l) (session_halts l)
    (fatal_closed l) (halted_closed l) (panicked l).
Definition with_faults (l : Life) (n : nat) : Life :=
  mkLife (session l) (worker l) (watcher l) (haltOnce l) (callers l) n (session_halts l)
    (fatal_closed l) (halted_closed l) (panicked l).
Definition with_halts (l : Life) (n : nat) : Life :=
  mkLife (session l) (worker l) (watcher l) (haltOnce l) (callers l) (faults l) n
    (fatal_closed l) (halted_closed l) (panicked l).
Definition with_fatal (l : Life) (n : nat) : Life :=
  mkLife (session l) (worker l) (watcher l) (haltOnce l) (callers l) (faults l)
    (session_halts l) n (halted_closed l) (panicked l).
Definition with_halted (l : Life) (n : nat) : Life :=
  mkLife (session l) (worker l) (watcher l) (haltOnce l) (callers l) (faults l)
    (session_halts l) (fatal_closed l) n (panicked l).
Definition panic (l : Life) : Life :=
  mkLife (session l) (worker l) (watcher l) (haltOnce l) (callers l) (faults l)
    (session_halts l) (fatal_closed l) (halted_closed l) true.

(** A thread that is in a call of [Shutdown]. *)
Definition wants_shutdown (l : Life) : Prop := (0 < callers l)%nat \/ watcher l = V_shutdown.

(** One step of [halt]; a second close of a channel panics. [hangs]: whether a call into
    the minclient may fail to return. *)
Inductive halt_step (hangs : bool) (l : Life) : phase -> Life -> Prop :=
  | h_session : session l = S_live ->
      halt_step hangs l H_start (with_once (with_halts l (S (session_halts l))) (O_running H_session))
  | h_no_session : session l <> S_live ->
      halt_step hangs l H_start (with_once l (O_running H_close_fatal))
  | h_joined : worker l = W_gone ->
      halt_step hangs l H_session (with_once l (O_running H_minclient))
  | h_minclient : halt_step hangs l H_minclient (with_once l (O_running H_close_fatal))
  | h_minclient_hangs : hangs = true ->
      halt_step hangs l H_minclient (with_once l (O_running H_hung))
  | h_close_fatal : fatal_closed l = 0%nat ->
      halt_step hangs l H_close_fatal (with_once (with_fatal l 1) (O_running H_close_halted))
  | h_close_fatal_again : fatal_closed l <> 0%nat -> halt_step hangs l H_close_fatal (panic l)
  | h_close_halted : halted_closed l = 0%nat ->
      halt_step hangs l H_close_halted (with_once (with_halted l 1) O_done)
  | h_close_halted_again : halted_closed l <> 0%nat -> halt_step hangs l H_close_halted (panic l).

(** A send on [fatalErrCh] by the thread that [from] takes on: it meets the watcher, or
    panics on the closed channel; otherwise it blocks. *)
Inductive fatal_send (l : Life) (from : Life -> Life) : Life -> Prop :=
  | f_received : watcher l = V_watching -> fatal_closed l = 0%nat ->
      fatal_send l from (with_watcher (from l) V_shutdown)
  | f_closed : fatal_closed l <> 0%nat -> fatal_send l from (panic l).

Inductive step (hangs : bool) (l : Life) : Life -> Prop :=
  (* Shutdown: the first caller runs halt, the others wait for it *)
  | s_shutdown : panicked l = false -> wants_shutdown l -> haltOnce l = O_fresh ->
      step hangs l (with_once l (O_running H_start))
  | s_halt p l' : panicked l = false -> haltOnce l = O_running p -> halt_step hangs l p l' -> step hangs l l'
  | s_return : panicked l = false -> haltOnce l = O_done -> (0 < callers l)%nat ->
      step hangs l (with_callers l (pred (callers l)))
  | s_watcher_return : panicked l = false -> haltOnce l = O_done -> watcher l = V_shutdown ->
      step hangs l (with_watcher l V_returned)
  | s_watcher_closed : panicked l = false -> watcher l = V_watching -> fatal_closed l <> 0%nat ->
      step hangs l (with_watcher l V_returned)
  (* NewSession *)
  | s_new : panicked l = false -> session l = S_none -> step hangs l (with_session l S_building)
  | s_new_fails : panicked l = false -> session l = S_building -> step hangs l (with_session l S_failed)
  | s_new_invalid n : panicked l = false -> session l = S_building -> faults l = S n ->
      step hangs l (with_faults (with_session l S_reporting) n)
  | s_new_reports l' : panicked l = false -> session l = S_reporting ->
      fatal_send l (fun l => with_session l S_failed) l' -> step hangs l l'
  | s_new_done : panicked l = false -> session l = S_building -> step hangs l (with_session l S_live)
  (* the worker of a session; it sees the halt in its select *)
  | s_fault n : panicked l = false -> session l = S_live -> worker l = W_loop -> faults l = S n ->
      step hangs l (with_faults (with_worker l W_sending) n)
  | s_report l' : panicked l = false -> worker l = W_sending ->
      fatal_send l (fun l => with_worker l W_loop) l' -> step hangs l l'
  | s_worker_halts : panicked l = false -> worker l = W_loop -> session_halts l <> 0%nat ->
      step hangs l (with_worker l W_gone)
  | s_worker_hangs : panicked l = false -> hangs = true -> session l = S_live -> worker l = W_loop ->
      step hangs l (with_worker l W_hung).

Definition reaches (hangs : bool) (calls errors : nat) : Life -> Prop :=
  reachable (fun l => l = New calls errors) (step hangs).

(** ** Safety *)

Definition closes_fatal (o : once_state) : nat :=
  match o with O_running H_close_halted | O_done => 1 | _ => 0 end.
Definition closes_halted (o : once_state) : nat := match o with O_done => 1 | _ => 0 end.

Record life_ok (hangs : bool) (l : Life) : Prop := {
  lo_fatal : fatal_closed l = closes_fatal (haltOnce l);
  lo_halted : halted_closed l = closes_halted (haltOnce l);
  lo_halts : (session_halts l <= 1)%nat;
  lo_fresh : haltOnce l = O_fresh \/ haltOnce l = O_running H_start -> session_halts l = 0%nat;
  lo_session : haltOnce l = O_running H_session -> session_halts l = 1%nat;
  lo_live : session_halts l = 1%nat -> session l = S_live;
  lo_joined : session_halts l = 1%nat -> haltOnce l <> O_running H_session -> worker l = W_gone;
  lo_gone : worker l = W_gone -> session_halts l = 1%nat;
  lo_sending : worker l = W_sending -> session l = S_live;
  lo_returned : watcher l = V_returned -> fatal_closed l <> 0%nat;
  lo_panicked : panicked l = true -> fatal_closed l = 1%nat /\ session_halts l = 0%nat;
  lo_hangs : worker l = W_hung \/ haltOnce l = O_running H_hung -> hangs = true;
}.

Lemma New_ok hangs calls errors : life_ok hangs (New calls errors).
Proof. split; cbn; try done; [lia|by intros [|]]. Qed.

(** Opens the invariant and computes the fields of the states of a step. *)
Ltac life :=
  match goal with H : life_ok _ ?l |- _ => destruct H as [F1 F2 F3 F4 F5 F6 F7 F8 F9 F10 F11 F12] end;
  split; cbn [session worker watcher haltOnce callers faults session_halts fatal_closed
    halted_closed panicked with_session with_worker with_watcher with_once with_callers
    with_faults with_halts with_fatal with_halted panic closes_fatal closes_halted];
  intros; simplify_eq/=;
  repeat match goal with H : haltOnce _ = _ |- _ => rewrite H in * end;
  cbn [closes_fatal closes_halted] in *;
  try solve [done | congruence | lia | tauto | intuition (congruence || lia || auto)].

Lemma halt_step_ok hangs l p l' :
  life_ok hangs l -> panicked l = false -> haltOnce l = O_running p -> halt_step hangs l p l' ->
  life_ok hangs l'.
Proof. intros Hok Hp Ho Hs. destruct Hs; life. Qed.

Lemma fatal_send_ok hangs l from l' :
  life_ok hangs l -> panicked l = false -> session_halts l = 0%nat \/ worker l = W_sending ->
  (forall v, watcher l = V_watching -> v <> V_returned -> life_ok hangs (with_watcher (from l) v)) ->
  fatal_send l from l' -> life_ok hangs l'.
Proof.
  intros Hok Hp Hs Hf [Hw Hc|Hc]; [by apply Hf|]. clear Hf.
  assert (fatal_closed l = 1%nat /\ (haltOnce l = O_running H_close_halted \/ haltOnce l = O_done))
    as [Hc1 Ho].
  { rewrite (lo_fatal _ _ Hok) in *. destruct (haltOnce l) as [|[]|]; cbn in *; by auto. }
  assert (session_halts l = 0%nat) as H0.
  { destruct Hs as [|Hs]; [done|]. destruct (decide (session_halts l = 0%nat)); [done|].
    pose proof (lo_halts _ _ Hok). rewrite (lo_joined _ _ Hok) in Hs; [done|lia|].
    by destruct Ho as [-> | ->]. }
  life.
Qed.

Lemma step_ok hangs l l' : life_ok hangs l -> step hangs l l' -> life_ok hangs l'.
Proof.
  intros Hok [Hp Hw Ho|p l1 Hp Ho Hh|Hp Ho Hc|Hp Ho Hw|Hp Hw Hc|Hp Hs|Hp Hs|n Hp Hs Hf
    |l1 Hp Hs Hf|Hp Hs|n Hp Hs Hw Hf|l1 Hp Hw Hf|Hp Hw Hh|Hp Hg Hs Hw].
  - clear Hw. life.
  - by eapply halt_step_ok.
  - life.
  - life.
  - life.
  - life.
  - life.
  - life.
  - eapply fatal_send_ok; [exact Hok|done| | |exact Hf].
    + left. pose proof (lo_halts _ _ Hok) as H1. pose proof (lo_live _ _ Hok) as H2.
      destruct (session_halts l) as [|[|]]; [done| |lia]. by rewrite (H2 eq_refl) in Hs.
    + intros v _ Hv. clear Hf. life.
  - life.
  - life.
  - eapply fatal_send_ok; [exact Hok|done|by right| |exact Hf].
    intros v _ Hv. clear Hf. life.
  - life.
  - life.
Qed.

Lemma reaches_ok hangs calls errors l : reaches hangs calls errors l -> life_ok hangs l.
Proof.
  apply reachable_ind_inv; [by intros ? ->; apply New_ok|].
  intros l1 l2 Hok Hs. by eapply step_ok.
Qed.

(** ** Termination: every step brings the client nearer to its end *)

Definition session_rank (s : session_state) : nat :=
  match s with S_none => 4 | S_building => 3 | S_reporting => 2 | S_live => 1 | S_failed => 0 end.
Definition worker_rank (w : worker_state) : nat :=
  match w with W_sending => 2 | W_loop => 1 | W_gone | W_hung => 0 end.
Definition watcher_rank (v : watcher_state) : nat :=
  match v with V_watching => 2 | V_shutdown => 1 | V_returned => 0 end.
Definition once_rank (o : once_state) : nat :=
  match o with
  | O_fresh => 6 | O_running H_start => 5 | O_running H_session => 4
  | O_running H_minclient => 3 | O_running H_hung => 0 | O_running H_close_fatal => 2 | O_running H_close_halted => 1 | O_done => 0
  end.
Definition rank (l : Life) : nat :=
  session_rank (session l) + worker_rank (worker l) + watcher_rank (watcher l) +
  once_rank (haltOnce l) + callers l + 2 * faults l + (if panicked l then 0 else 1).

Lemma step_rank hangs l l' : step hangs l l' -> (rank l' < rank l)%nat.
Proof.
  intros [Hp Hw Ho|p l1 Hp Ho Hh|Hp Ho Hc|Hp Ho Hw|Hp Hw Hc|Hp Hs|Hp Hs|n Hp Hs Hf
    |l1 Hp Hs Hf|Hp Hs|n Hp Hs Hw Hf|l1 Hp Hw Hf|Hp Hw Hh|Hp Hg Hs Hw]; unfold rank; cbn.
  1,3-8,10,11,13,14: repeat match goal with H : _ = _ |- _ => rewrite H end; cbn; lia.
  - destruct Hh; cbn; rewrite Ho, Hp; cbn; lia.
  - destruct Hf as [Hw Hc|Hc]; cbn; rewrite ?Hs, ?Hw, Hp; cbn; lia.
  - destruct Hf as [Hv Hc|Hc]; cbn; rewrite ?Hw, ?Hv, Hp; cbn; lia.
Qed.

Lemma step_wf hangs : well_founded (fun l' l => step hangs l l').
Proof.
  apply (well_founded_lt_compat _ rank). intros l' l. apply step_rank.
Qed.

(** ** Fatal errors that are still to be dealt with *)

Definition one_if (b : bool) : nat := if b then 1 else 0.
Definition outstanding (l : Life) : nat :=
  faults l + one_if (match worker l with W_sending => true | _ => false end) +
  one_if (match session l with S_reporting => true | _ => false end) +
  one_if (match watcher l with V_shutdown => true | _ => false end).

Lemma step_outstanding hangs l l' :
  life_ok hangs l -> step hangs l l' -> (outstanding l' <= outstanding l)%nat.
Proof.
  intros Hok [Hp Hw Ho|p l1 Hp Ho Hh|Hp Ho Hc|Hp Ho Hw|Hp Hw Hc|Hp Hs|Hp Hs|n Hp Hs Hf
    |l1 Hp Hs Hf|Hp Hs|n Hp Hs Hw Hf|l1 Hp Hw Hf|Hp Hw Hh|Hp Hg Hs Hw]; unfold outstanding; cbn.
  1,3-8,10,11,13,14: repeat match goal with H : _ = _ |- _ => rewrite H end; cbn; lia.
  - by destruct Hh.
  - destruct Hf as [Hw Hc|Hc]; cbn; rewrite ?Hs, ?Hw; cbn; lia.
  - destruct Hf as [Hv Hc|Hc]; cbn; rewrite ?Hw, ?Hv; cbn; lia.
Qed.

Lemma reaches_outstanding hangs calls errors l :
  reaches hangs calls errors l -> life_ok hangs l /\ (outstanding l <= errors)%nat.
Proof.
  apply (reachable_ind_inv _ _ (fun l => life_ok hangs l /\ (outstanding l <= errors)%nat)).
  - intros ? ->. split; [apply New_ok|cbn; lia].
  - intros l1 l2 [Hok Hb] Hs. split; [by eapply step_ok|].
    pose proof (step_outstanding _ _ _ Hok Hs). lia.
Qed.

(** ** States without a step *)

#[local] Abbreviation stuck hangs := (Prelude.stuck (step hangs)).

(** A call into the minclient that keeps the worker, or the shutdown. *)
Definition hung (l : Life) : Prop := worker l = W_hung \/ haltOnce l = O_running H_hung.

(** While [halt] runs and at most one error is outstanding, some thread can step, or a
    call into the minclient hangs. *)
Lemma running_steps hangs l p :
  life_ok hangs l -> panicked l = false -> (outstanding l <= 1)%nat -> haltOnce l = O_running p ->
  hung l \/ exists l', step hangs l l'.
Proof.
  intros Hok Hp Hb Ho. destruct p; [right| |right|left; by right|right|right].
  - destruct (decide (session l = S_live)) as [E|E];
      eexists; eapply s_halt; eauto; [by apply h_session|by apply h_no_session].
  - pose proof (lo_session _ _ Hok Ho) as Hh. pose proof (lo_fatal _ _ Hok) as Hf.
    rewrite Ho in Hf. cbn in Hf. destruct (worker l) eqn:Ew; [right|right|left; by left|right].
    + eexists. apply s_worker_halts; [done|done|lia].
    + destruct (watcher l) eqn:Ev.
      * eexists. eapply s_report; [done|done|]. by apply f_received.
      * unfold outstanding in Hb. rewrite Ew, Ev in Hb. cbn in Hb. lia.
      * by destruct (lo_returned _ _ Hok Ev).
    + eexists. eapply s_halt; eauto. by apply h_joined.
  - eexists. eapply s_halt; eauto. apply h_minclient.
  - eexists. eapply s_halt; eauto. apply h_close_fatal.
    pose proof (lo_fatal _ _ Hok) as Hf. by rewrite Ho in Hf.
  - eexists. eapply s_halt; eauto. apply h_close_halted.
    pose proof (lo_halted _ _ Hok) as Hf. by rewrite Ho in Hf.
Qed.

Lemma stuck_ended hangs l :
  life_ok hangs l -> panicked l = false -> (outstanding l <= 1)%nat -> stuck hangs l ->
  hangs = true /\ hung l \/
  callers l = 0%nat /\
  (haltOnce l = O_fresh /\ watcher l = V_watching \/
   haltOnce l = O_done /\ watcher l = V_returned /\ halted_closed l = 1%nat).
Proof.
  intros Hok Hp Hb Hstuck. destruct (haltOnce l) as [|p|] eqn:Ho.
  - right. assert (~ wants_shutdown l) as Hw by (intros Hw; by apply (Hstuck _ (s_shutdown _ l Hp Hw Ho))).
    unfold wants_shutdown in Hw. split; [lia|]. left. split; [done|].
    destruct (watcher l) eqn:Ev; [done|tauto|].
    destruct (lo_returned _ _ Hok Ev). by rewrite (lo_fatal _ _ Hok), Ho.
  - left. destruct (running_steps hangs l p Hok Hp Hb Ho) as [Hh|[l' Hs%Hstuck]]; [|done].
    split; [by apply (lo_hangs _ _ Hok)|done].
  - right. split.
    { destruct (callers l) eqn:Ec; [done|]. destruct (Hstuck _ (s_return _ l Hp Ho ltac:(lia))). }
    right. split_and!; [done| |by rewrite (lo_halted _ _ Hok), Ho].
    destruct (watcher l) eqn:Ev; [|by destruct (Hstuck _ (s_watcher_return _ l Hp Ho Ev))|done].
    destruct (Hstuck _ (s_watcher_closed _ l Hp Ev ltac:(by rewrite (lo_fatal _ _ Hok), Ho))).
Qed.

(** C19. However calls of Shutdown, fatal errors and the making of a session are
    interleaved: the session is shut down at most once and each channel closed at most
    once, haltedCh after fatalErrCh and both after the worker of a session that was shut
    down is gone; and a goroutine panics, by a send on the closed channel, only if the
    shutdown found no session. *)
Theorem client_shutdown_once hangs calls errors l :
  reaches hangs calls errors l ->
  (session_halts l <= 1 /\ halted_closed l <= fatal_closed l <= 1)%nat /\
  (fatal_closed l = 1%nat -> session_halts l = 1%nat -> session l = S_live /\ worker l = W_gone) /\
  (panicked l = true -> fatal_closed l = 1%nat /\ session_halts l = 0%nat).
Proof.
  intros Hok%reaches_ok. pose proof (lo_fatal _ _ Hok) as Hf. pose proof (lo_halted _ _ Hok) as Hh.
  split_and!.
  - apply (lo_halts _ _ Hok).
  - rewrite Hf, Hh. destruct (haltOnce l) as [|[]|]; cbn; lia.
  - rewrite Hf. destruct (haltOnce l) as [|[]|]; cbn; lia.
  - intros E Hs. split; [by apply (lo_live _ _ Hok)|]. apply (lo_joined _ _ Hok Hs).
    intros Ho. rewrite Hf, Ho in E. done.
  - apply (lo_panicked _ _ Hok).
Qed.

(** C20. Every run of a client ends. If there is at most one fatal error, it ends in one
    of these ways: in a panic; with every call of Shutdown returned and the shutdown
    complete, haltedCh closed, so that Wait returns, and the watcher gone; with nothing
    asked of the client, no call of Shutdown and no error; or in a call into the minclient
    that does not return, which keeps the session's worker or the shutdown. So if those
    calls return, every Shutdown does. *)
Theorem client_shutdown_returns hangs calls errors :
  well_founded (fun l' l => step hangs l l') /\
  ((errors <= 1)%nat -> forall l, reaches hangs calls errors l -> stuck hangs l ->
   panicked l = true \/
   callers l = 0%nat /\ haltOnce l = O_done /\ watcher l = V_returned /\ halted_closed l = 1%nat \/
   callers l = 0%nat /\ haltOnce l = O_fresh /\ watcher l = V_watching \/
   hangs = true /\ (worker l = W_hung \/ haltOnce l = O_running H_hung)).
Proof.
  split; [apply step_wf|]. intros He l [Hok Hb]%reaches_outstanding Hs.
  destruct (panicked l) eqn:Hp; [by left|right].
  destruct (stuck_ended hangs l Hok Hp ltac:(lia) Hs) as [Hh|[Hc [Ho|Ho]]]; by auto.
Qed.

(** ** The hazards *)

(** The worker in a second report while the watcher that took the first is in Shutdown. *)
Definition deadlocked (calls : nat) : Life :=
  mkLife S_live W_sending V_shutdown (O_running H_session) calls 0 1 0 0 false.

Lemma deadlocked_stuck hangs calls : stuck hangs (deadlocked calls).
Proof.
  intros l'. inversion 1 as [? ? E|? ? ? E Hh|? E|? E|? E|? E|? E|? ? E|? ? E Hf|? E|? ? ? E
    |? ? ? Hf|? E|? ? ? E]; cbn in *; try done.
  - injection E as <-. by inversion Hh.
  - by inversion Hf.
Qed.

(** A worker that reports on the channel closed by a shutdown that found no session. *)
Definition late_report (calls : nat) : Life :=
  panic (mkLife S_live W_sending V_watching O_done calls 0 0 1 1 false).

(** The run to the deadlock: two errors of the worker, the second while the first is
    being acted on. *)
Lemma deadlocked_reached hangs calls : reaches hangs calls 2 (deadlocked calls).
Proof.
  exists (New calls 2). split; [done|].
  eapply rtc_l; [by apply s_new|]. eapply rtc_l; [by apply s_new_done|].
  eapply rtc_l; [by eapply s_fault|]. eapply rtc_l; [by apply s_report; [| |apply f_received]|].
  eapply rtc_l; [by apply s_shutdown; [|right|]|].
  eapply rtc_l; [by eapply s_halt; [| |apply h_session]|].
  eapply rtc_l; [by eapply s_fault|]. by apply rtc_refl.
Qed.

(** Shutdown while the session is being made, then an error of that session. *)
Lemma late_report_reached hangs : reaches hangs 1 1 (late_report 0).
Proof.
  exists (New 1 1). split; [done|].
  eapply rtc_l; [by apply s_new|].
  eapply rtc_l; [apply s_shutdown; [done| |done]; left; cbn; lia|].
  eapply rtc_l; [by eapply s_halt; [| |apply h_no_session]|].
  eapply rtc_l; [by eapply s_halt; [| |apply h_close_fatal]|].
  eapply rtc_l; [by eapply s_halt; [| |apply h_close_halted]|].
  eapply rtc_l; [apply s_return; [done|done|cbn; lia]|].
  eapply rtc_l; [by apply s_new_done|]. eapply rtc_l; [by eapply s_fault|].
  eapply rtc_l; [by apply s_report; [| |apply f_closed]|]. by apply rtc_refl.
Qed.

(** C38. Two ways in which a shutdown goes wrong. With two fatal errors, the worker can
    be in the report of the second, which nobody receives, while the shutdown that the
    first caused waits for that worker: no goroutine can go on, and neither Shutdown nor
    Wait ever returns. And a Shutdown during NewSession does not see the session: it
    stays up, and its first fatal error panics on the closed channel. *)
Theorem client_shutdown_hazards hangs calls :
  (reaches hangs calls 2 (deadlocked calls) /\ stuck hangs (deadlocked calls) /\
   panicked (deadlocked calls) = false /\ haltOnce (deadlocked calls) = O_running H_session /\
   halted_closed (deadlocked calls) = 0%nat) /\
  (exists l, reaches hangs 1 1 l /\ panicked l = true /\ session l = S_live /\ session_halts l = 0%nat /\
     halted_closed l = 1%nat).
Proof.
  split.
  - split_and!; [apply deadlocked_reached|apply deadlocked_stuck|done..].
  - exists (late_report 0). split_and!; [apply late_report_reached|done..].
Qed.

Lemma client_shutdown_once_witness :
  panicked (late_report 0) = true /\ session_halts (late_report 0) = 0%nat.
Proof.
  split; [reflexivity|].
  destruct (client_shutdown_once true 1 1 (late_report 0) (late_report_reached true)) as (_ & _ & H).
  by apply H.
Defined.

(** A client whose session could not be made, shut down by the application. *)
#[local] Definition ex_ended : Life :=
  mkLife S_failed W_loop V_returned O_done 0 0 0 1 1 false.

#[local] Lemma ex_ended_reached : reaches true 1 0 ex_ended.
Proof.
  exists (New 1 0). split; [done|].
  eapply rtc_l; [by apply s_new|]. eapply rtc_l; [by apply s_new_fails|].
  eapply rtc_l; [apply s_shutdown; [done| |done]; left; cbn; lia|].
  eapply rtc_l; [by eapply s_halt; [| |apply h_no_session]|].
  eapply rtc_l; [by eapply s_halt; [| |apply h_close_fatal]|].
  eapply rtc_l; [by eapply s_halt; [| |apply h_close_halted]|].
  eapply rtc_l; [apply s_return; [done|done|cbn; lia]|].
  eapply rtc_l; [by apply s_watcher_closed|]. by apply rtc_refl.
Qed.

#[local] Lemma ex_ended_stuck : stuck true ex_ended.
Proof. intros l' Hs. inversion Hs as [? [Hc|]|? ? ? E Hh|? ? Hc| | | | | | | | | | |]; cbn in *; done || lia. Qed.

Lemma client_shutdown_returns_witness :
  stuck true ex_ended /\ callers ex_ended = 0%nat.
Proof.
  split; [exact ex_ended_stuck|].
  destruct (client_shutdown_returns true 1 0) as [_ H].
  destruct (H ltac:(lia) ex_ended ex_ended_reached ex_ended_stuck) as [|[[E _]|[[E _]|[_ [|]]]]]; [done|exact E|exact E|done|done].
Defined.

